(* ===== verification/_CoqProject ===== *)
-Q . S2P
Prelude.v
Format.v
Session.v
Wire.v
Message.v
Codec.v
MessageJson.v
Fec.v
FecRecovery.v
Text.v
Capability.v
Time.v
Float.v
FloatExact.v
FloatBound.v
Clock.v
Sync.v
Negotiate.v
EndpointTransport.v
ControllerTransport.v
Tls.v
Reader.v
Zone.v
ZoneAudio.v
ZoneStream.v
Server.v
Manager.v
ZoneReleases.v
Samples.v
Flac.v
FlacWhole.v
Alsa.v
AlsaOutput.v
DeviceList.v
AlsaPcm.v
AudioOutput.v
App.v
InStep.v
WebUi.v
Mixer.v
Ffi.v
Player.v
Discovery.v
Startup.v
Bridge.v
WebPage.v
Endpoint.v
Programs.v
Conformance.v
Launch.v
WebServer.v
