(* ===== verification/Prelude.v ===== *)
(** * OAAT: a verification development

    OAAT is a multi-room audio protocol: a controller discovers endpoints on
    the network, agrees a format with each over a TCP control connection,
    and streams audio to them over UDP, with forward error correction and a
    clock exchange by which all endpoints of a zone play in step.  The
    workspace has three libraries, [oaat-core] (the protocol), [oaat-endpoint]
    (receiver and audio outputs) and [oaat-controller] (zones), and the
    programs built on them.

    ** Parts and files

    The protocol, [src/crates/oaat-core/src/]:
    - [Format] (format.rs): audio formats and their wire ids, channel layouts,
      DSD rates, sample-rate families;
    - [Session] (session.rs, error.rs): session states and transitions, errors;
    - [Wire] (wire.rs): the 32-byte audio header and the 28-byte clock packet,
      field by field at byte level;
    - [Message] (message.rs): the control messages and their frame; JSON is
      the class [JsonCodec];
    - [MessageJson] (message.rs, format.rs): the JSON form of the messages, as
      their attributes give it, an instance of that class;
    - [Codec] (codec.rs): the input buffer of a control connection;
    - [Fec], [FecRecovery] (fec.rs): parity encoder and group receiver, then
      what the receiver delivers whichever data packet arrives first and in
      whatever order the others follow;
    - [Text], [Capability] (capability.rs): Rust's string operations, and the
      capability string printed and parsed with them;
    - [Time] (time.rs): the process clock anchored to the monotonic clock;
    - [Float], [Clock] (clock.rs): IEEE binary64 and binary32 arithmetic, and
      the clock estimate computed with it;
    - [Tls] (tls.rs): the certificate of an endpoint, its fingerprint, and the
      verifier of a controller;
    - [FloatExact], [FloatBound]: where that arithmetic does not round, and that
      its rounding is monotone, so that integer bounds survive any number of
      operations;

    The endpoint, [src/crates/oaat-endpoint/src/]:
    - [Sync] (sync.rs, and oaat-controller/src/clock_responder.rs): the shared
      clock, the playback position, one clock exchange;
    - [Negotiate] (transport.rs, [negotiate_format]): the answer to a proposal;
    - [EndpointTransport] (transport.rs, session.rs): the control session as a
      step function over its three sources (bytes read, application commands,
      the accept timer), the audio receive loop and the clock loops;
    - [Server] (transport.rs, [run_with_clock]): the accept loop, its sessions
      with their clock and audio tasks, and what outlives them (the channel of
      the application, the shared clock, the sockets), as a step function;
    - [Samples] (alsa_direct.rs): conversions to the sample formats of the
      device;
    - [Alsa] (alsa_direct.rs, [DeviceSlot] and [writer_loop]): the device
      state machine and the writer thread, against a scripted device;
    - [AlsaOutput] (alsa_direct.rs): device names, DAC choice, DSD
      announcement, and the output object in front of the writer thread;
    - [AlsaPcm] (alsa_direct.rs): the device over libasound, the class
      [Asound]: retries, recovery, opening, the DSD probe;
    - [Flac] (flac_decoder.rs): the incremental FLAC decoder, and the
      interface [FlacStream] by which both outputs use it;
    - [FlacWhole] (flac_decoder.rs, [decode_flac_to_f32]): a whole file decoded
      in one go, through the demuxer [FlacDemuxer];
    - [AudioOutput] (audio_output.rs): the portable output, its ring, device
      callback, drift correction and underrun detector;
    - [App] ([src/crates/oaat-cli/src/main.rs], [run_endpoint]): the event loop
      of the endpoint program over either output (the class [AudioBackend]),
      and that loop together with the transport;
    - [InStep] ([Clock] and [App] together): what the estimate is worth over a
      link with different delays each way, and endpoints with their own clocks
      that start together;
    - [Mixer] (alsa_mixer.rs): the hardware volume: controls found in the text
      [amixer] prints, levels scaled in 32 bits;
    - [WebUi] (web_ui.rs): who may control the endpoint over HTTP, the routes
      and the status document;
    - [Ffi] ([src/crates/oaat-ffi/src/lib.rs]): the C interface over an explicit
      memory of strings, buffers and handles;
    - [Startup] (oaat-cli: config.rs, and main.rs from the command line to the
      first use of the configuration): the configuration file, the arguments
      over it, the persistent identity, what is announced and negotiated with;
    - [Bridge] (oaat-cli: main.rs, with web_ui.rs): the event loop of [App] with
      the status it publishes, its counters and hooks, and the commands of the
      web interface, served and carried out;
    - [WebPage] (web_ui.rs, [render_html]): the page, its elements and the requests
      its script makes;
    - [Endpoint] (main.rs and transport.rs): [Server] and [Bridge] running
      concurrently, with the bounded channels in which they meet;
    - [WebServer] (web_ui.rs): the listener of the web interface and its
      connections, concurrent with the event loop of [Bridge].

    The controller, [src/crates/oaat-controller/src/]:
    - [ControllerTransport] (transport.rs, clock.rs): connecting, handshake,
      requests and clock exchanges with one endpoint;
    - [Reader] (transport.rs): the reader task of a connection and its two
      bounded channels;
    - [Zone] (zone.rs): membership, volume, audio with FEC, health;
    - [ZoneAudio], [ZoneStream]: the audio path from a zone through the wire to
      an endpoint, first one group of packets, then a whole stream;
    - [ZoneReleases] (zone.rs, [spawn_release_forward]): how the releases of the
      endpoints of a zone reach its application, through the readers, a task for
      each connection and the channel of the zone;
    - [Manager] (manager.rs): zones, moves, events; also the theorems on the
      operations of [Zone];
    - [Player] ([src/crates/oaat-cli/src/main.rs], [run_controller_file]): a WAV
      file read and streamed to one endpoint;
    - [Discovery] (discovery.rs here and in oaat-endpoint): the service an
      endpoint registers, and what a controller reads from it;
    - [Programs] (oaat-cli: main.rs): the tone, gapless and multi-room modes;
    - [Conformance] ([src/crates/oaat-test/src/main.rs]): the interoperability
      test tool against any peer (the class [Peer]), the transport alone and the
      endpoint program among them;
    - [DeviceList] (oaat-cli: main.rs): the list of devices and the names offered;
    - [Launch] (oaat-cli: main.rs): the choice of the mode, the PID file, finding
      an endpoint and connecting to it, the end by a signal.

    This file holds what they share: results and panics, machine integers
    with their wrap-around written out, byte encodings, list lemmas, the
    tactics [range] and friends and the hint database.

    ** How the code is rendered

    A method that changes its object takes the state and returns the new one;
    [Result] is [result]; a panic is the value [Panic] of [outcome].  Integers
    are [Z] with casts ([as_u], [as_i]) and wrapping operations where the code
    has them; bytes are [Z] in 0..255; floats are the Standard Library's
    executable IEEE 754 specification.  A [HashMap] is a [gmap].  What the
    outside world returns (datagrams, bytes read, clock readings, device
    results, time) is an argument, and what the code sends is output or a log
    in the state.  Asynchronous loops are one function per turn, and runs are
    lists of turns, so that theorems hold for every interleaving of inputs.

    These interfaces stand for libraries: [Asound] (libasound, one PCM with what
    each call answers; nothing is assumed of it), [JsonCodec] (serde_json; the law used
    is that a message's JSON parses back to it, which [MessageJson] reduces to
    the text of JSON values, the class [JsonText]) and [FlacCodec] (symphonia's
    FLAC codec, one frame at a time; [frame_ok] says what is asked of a frame
    and of the codec on it), with [FlacDemuxer] for its demuxer (nothing is
    assumed of it).  [FlacStream] and its laws are the interface
    between the decoder of [Flac], which implements it, and the outputs.

    ** What is shown

    - The audio path: [zone_to_endpoint] composes sender, wire format and
      receiver: all payloads of a group are delivered once, in order, despite
      the loss of any one packet and any reordering that leaves a data packet
      first; [stream_to_endpoint] does so
      for whole streams, their partial last group included; [fec_group_delivery] and
      [fec_stream_delivery] are the receiver's part of it, [header_roundtrip]
      and [header_decode_faithful] the wire's, [audio_to_connected] the
      zone's; [fec_receiver_total] bounds where the receiver can panic.
    - The control path: messages survive their JSON form, framing and any
      cutting of the stream ([messages_travel], [codec_stream_roundtrip],
      [codec_chunking_irrelevant]), what is read is in range ([read_in_range])
      and other versions are understood ([versions_interoperate]), replies reach
      the application ([reader_forwards]), sessions follow the protocol
      ([playback_requires_negotiation], [handle_hello_spec]), an accept is
      sent only once the device is ready ([accept_only_when_device_ready]),
      a counter-proposal is one the endpoint accepts, or else answers with
      itself for ever ([negotiation_converges]).
    - The server: it runs sessions and nothing else, one at a time
      ([server_runs_sessions]), loses nothing between them ([queues_in_order]), and taken alone
      recovers from any history ([server_recovers]).
    - The whole endpoint: transport and program together are their two halves
      and nothing more ([endpoint_composes]), an accept means an open output
      ([accept_means_configured]), everything is passed on as long as no more than 32 proposals are under way
      ([everything_passed_on]), and then the endpoint serves the next
      controller afresh ([endpoint_recovers]); beyond that it can lock up for
      good ([wedged_for_good]).
    - Time: the process clock is monotone and immune to wall-clock steps, the
      estimator's bookkeeping and outlier rejection, the conversions between
      clock domains, the drift measure and the exchange of timestamps; the
      estimate is within half the asymmetry of the link
      ([estimate_within_asymmetry]), exact over symmetric ones
      ([symmetric_link_exact]), so that rooms start together to within that
      ([endpoints_start_together]).
    - Zones: volume, late joining, pruning, clock evidence
      ([clock_snapshots_complete]); releases reach the application in order, once
      and under the right name ([zone_releases_forwarded]), and none gets stuck
      ([releases_get_through]).
    - Certificates: a fingerprint shows its digest ([fingerprint_faithful]), the
      certificate made is the one announced ([certificate_made]).
    - The portable output: bit-exact playback ([cpal_bit_perfect]), the
      position the drift servo relies on and what a full ring does to it
      ([cpal_content_position]), complete and bounded drift correction
      ([drift_correction_applied]), underruns.
    - FLAC: every stream is decoded completely however it is cut
      ([flac_stream_decoded]), up to the device queue ([alsa_plays_flac]); in one go it gives the same
      samples ([one_shot_is_incremental]).
    - The ALSA output: nothing is ever played out of order, [stop] plays out
      and [release] discards ([stop_plays_out_release_discards]), the backoff,
      bit-exact conversions, DAC choice and names; at the device, writes end
      ([pcm_write_ends]), a suspend recovers ([suspend_recovers]), every configured format is known ([configured_format_known]) and announced
      DSD opens the device that was probed, up to its buffer sizes
      ([announced_dsd_opens]).
    - The endpoint program: playback starts on the timestamp
      ([scheduled_start]), the servo steers and is bounded ([servo_steers]),
      a released device stays closed ([release_keeps_device_closed], from the
      laws [AudioBackendLaws] that both outputs satisfy), hooks alternate, and
      what a proposal is answered by transport and program together
      ([proposal_answers]).
    - The mixer: levels stay in range and read back ([level_scaling],
      [volume_set_reads_back]), and what is found is a control ([discovery_sound]).
    - The web interface: no command without authorization
      ([control_needs_authorization]), the page itself has it
      ([own_page_controls]), the strings of the status ([status_strings_read]),
      the elements of the page ([page_elements]) and which of its requests are
      routed ([page_controls_dead]).
    - The web server: whatever connections do, the program goes through a run of
      its own ([web_server_refines]), only this host or a token moves the output
      ([only_this_host_controls]), and no request waits for another's
      ([web_server_never_blocked]).
    - Event loop and web interface together: the output moves only on authorized
      requests ([moves_only_on_request]), a release takes effect
      ([web_release_takes_effect]), a switch at the next proposal
      ([switch_applies_at_next_proposal]), the status follows the connection
      ([status_tracks_connection]), hook commands alternate.
    - The C interface: memory stays well formed, no address is two things, and
      each call accounts for what it hands out and gives back ([c_step_wf]); a
      polling program reads the documented events exactly and misreads the
      others ([polls_report_events]).
    - The file player: every file ends the chunk search ([wav_search_ends]), is
      read as written ([wav_read]) and is played whole ([file_played]).
    - Discovery and start: what is registered is found
      ([announcement_discovered]), what is announced is accepted, two formats apart
      ([announced_formats_accepted]) and, for DSD, played
      ([dsd_accepted_is_playable]); the identifier survives restarts
      ([endpoint_id_persists]) and controls stay local by default
      ([default_controls_are_local]).
    - The controller's modes: two tones without a gap ([gapless_tones]), a
      zone in step whoever leaves ([multiroom_in_step]).
    - The test tool: its verdict is the tally of its tests ([verdicts_counted]);
      the transport alone passes it from 48 kHz on ([transport_conforms]), the
      endpoint program, answering twice, does not ([own_endpoint_fails]).
    - From the network to sound: a controller finds, connects to and plays on a
      started endpoint ([started_endpoint_plays]).
    - What the code does not do as meant, each as a theorem about the model:
      [fec_late_packet_duplicated], [fec_group_size_one_panics],
      [oversize_frame_is_final], [counter_can_exceed_limit],
      [move_to_missing_zone_loses], [volume_level_overflow],
      [i16_only_device_garbles], [cpal_flush_changes_device],
      [dsd_fallback_mixes_channels], [seek_reopens_released],
      [stats_after_disconnect], [audio_payloads_leak], [none_hides_events],
      [callback_rate_diverges], [scaling_overflows], [junk_first_panics],
      [wide_file_dropped], [similar_names_share_id],
      [documented_config_shadowed], [release_ends_tone],
      [audio_panic_silences], [silent_peer_holds_endpoint],
      [stale_messages_reach_next_controller], [status_keeps_playing],
      [alsa_status_hides_device], [wedged_for_good], [unread_replies_deafen],
      [shutdown_without_stop_hook], [pid_file_fate], [metadata_becomes_markup],
      [page_controls_dead], [tls_authenticates_nobody],
      [stale_release_removes_rejoined].

    ** Fuel

    Some loops are not structural.  Decoding a buffer takes one more than its
    length: every message consumes at least four bytes ([decode_all_eq] shows
    the fuel plays no part).  Writing a payload takes its length plus five:
    every turn writes at least a byte or uses one of three recoveries, and
    [write_all_spec] shows a result is always reached.  Draining FLAC frames
    takes one more than the buffer's length: every turn consumes a byte.  A
    FLAC stream header takes one turn per metadata block, of at least four
    bytes each.  Retries at the device
    count down from the limits of the code.  The readers of the controller use
    the decoder's bound.  The
    chunk search of a WAV file takes the file's length plus one, shown enough
    by [wav_search_ends].

    ** What is not modelled

    Libraries are arguments or interfaces, with what they answer: sockets, the
    TLS library and the making of certificates, the mDNS daemon, the text of JSON
    and TOML, the FLAC codec and demuxer, libasound and the sound host, the
    parsing of the command line.  Logging and what the programs print are left
    out, as are the handles the operating system keeps (signals, timers, the mixer
    process).  Two of the tasks of the controller on one socket, the steady clock
    loop and [clock_sync_all], are modelled turn by turn and not against each
    other.  Clocks that drift while they are compared are out of scope: the
    estimates are bounded for clocks at a constant offset.  A call that never
    returns is not an answer of the device, the file system or the network: the
    theorems about the writer thread and the tasks are about turns whose calls
    return.  Signals are arms of [Launch], where they end the loop of [App]. *)

From Stdlib Require Export ZArith Lia.
From stdpp Require Export base tactics gmap strings numbers list.

#[global] Set Default Goal Selector "!".

(** ** Results and panics

    [result] is Rust's [Result]; [outcome] adds the panics (a failed
    [assert!], an out-of-range index, an [unwrap] on [None]) that end the
    task running the code. *)

Inductive result (A E : Type) : Type :=
| Ok (a : A)
| Err (e : E).
Arguments Ok {A E} a.
Arguments Err {A E} e.

Inductive outcome (A : Type) : Type :=
| Ret (a : A)
| Panic.
Arguments Ret {A} a.
Arguments Panic {A}.

Declare Scope oaat_scope.
Delimit Scope oaat_scope with oaat.
Bind Scope oaat_scope with result.
Bind Scope oaat_scope with outcome.

Definition result_bind {A B E} (r : result A E) (k : A → result B E) : result B E :=
  match r with Ok a => k a | Err e => Err e end.

Definition outcome_bind {A B} (r : outcome A) (k : A → outcome B) : outcome B :=
  match r with Ret a => k a | Panic => Panic end.

Definition ok_or {A E} (o : option A) (e : E) : result A E :=
  match o with Some a => Ok a | None => Err e end.

Definition is_ok {A E} (r : result A E) : bool :=
  match r with Ok _ => true | Err _ => false end.

Definition ok {A E} (r : result A E) : option A :=
  match r with Ok a => Some a | Err _ => None end.

Notation "'let?' x := r 'in' k" := (result_bind r (λ x, k))
  (at level 10, x pattern, r at level 100, k at level 200) : oaat_scope.
Notation "'let!' x := r 'in' k" := (outcome_bind r (λ x, k))
  (at level 10, x pattern, r at level 100, k at level 200) : oaat_scope.

#[export] Instance result_eq_dec `{EqDecision A, EqDecision E} : EqDecision (result A E).
Proof. solve_decision. Defined.
#[export] Instance outcome_eq_dec `{EqDecision A} : EqDecision (outcome A).
Proof. solve_decision. Defined.

(** ** Machine integers

    A [w]-bit unsigned integer is a [Z] in [0, 2^w); casts, wrapping and
    saturating operations are written out. *)

Local Open Scope Z_scope.

Definition in_u (w z : Z) : Prop := 0 ≤ z < 2 ^ w.
Definition in_i (w z : Z) : Prop := - 2 ^ (w - 1) ≤ z < 2 ^ (w - 1).

#[export] Instance in_u_dec w z : Decision (in_u w z).
Proof. unfold in_u. apply _. Defined.
#[export] Instance in_i_dec w z : Decision (in_i w z).
Proof. unfold in_i. apply _. Defined.

Abbreviation is_u8 := (in_u 8).
Abbreviation is_u16 := (in_u 16).
Abbreviation is_u32 := (in_u 32).
Abbreviation is_u64 := (in_u 64).
Abbreviation is_i64 := (in_i 64).

Definition U64_MAX : Z := 2 ^ 64 - 1.
Definition I64_MAX : Z := 2 ^ 63 - 1.
Definition I64_MIN : Z := - 2 ^ 63.

(** [z as u<w>]: truncation. *)
Definition as_u (w z : Z) : Z := z mod 2 ^ w.
(** [z as i<w>]: truncation, then two's complement. *)
Definition as_i (w z : Z) : Z := (z + 2 ^ (w - 1)) mod 2 ^ w - 2 ^ (w - 1).

Definition wrapping_add (w a b : Z) : Z := as_u w (a + b).
Definition wrapping_sub (w a b : Z) : Z := as_u w (a - b).

Definition clamp (lo hi z : Z) : Z := Z.max lo (Z.min hi z).
Definition u64_saturating_add (a b : Z) : Z := Z.min U64_MAX (a + b).
Definition u64_saturating_sub (a b : Z) : Z := Z.max 0 (a - b).
Definition i64_saturating_add (a b : Z) : Z := clamp I64_MIN I64_MAX (a + b).
Definition i64_saturating_sub (a b : Z) : Z := clamp I64_MIN I64_MAX (a - b).
(** [i64] division truncates towards zero. *)
Definition i64_div (a b : Z) : Z := Z.quot a b.

(** The length of a Rust slice or vector. *)
Definition len {A} (l : list A) : Z := Z.of_nat (length l).

Lemma as_u_range w z : 0 ≤ w → in_u w (as_u w z).
Proof. intros. apply Z.mod_pos_bound. lia. Qed.

Lemma as_u_id w z : in_u w z → as_u w z = z.
Proof. intros. by apply Z.mod_small. Qed.

Lemma as_i_range w z : 1 ≤ w → in_i w (as_i w z).
Proof.
  intros Hw. unfold in_i, as_i.
  pose proof (Z.mod_pos_bound (z + 2 ^ (w - 1)) (2 ^ w) ltac:(lia)) as H.
  replace (2 ^ w) with (2 * 2 ^ (w - 1)) in * by (rewrite <- Z.pow_succ_r by lia; f_equal; lia).
  lia.
Qed.

Lemma as_i_id w z : 1 ≤ w → in_i w z → as_i w z = z.
Proof.
  intros Hw Hz. unfold in_i, as_i in *.
  assert (2 ^ w = 2 * 2 ^ (w - 1)) as E by (rewrite <- Z.pow_succ_r by lia; f_equal; lia).
  rewrite Z.mod_small by lia. lia.
Qed.

Lemma wrapping_add_range w a b : 0 ≤ w → in_u w (wrapping_add w a b).
Proof. apply as_u_range. Qed.

Lemma wrapping_sub_range w a b : 0 ≤ w → in_u w (wrapping_sub w a b).
Proof. apply as_u_range. Qed.

(** Adding then subtracting the same amount is the identity modulo 2^w. *)
Lemma wrapping_sub_add w a b : in_u w a → wrapping_sub w (wrapping_add w a b) b = a.
Proof.
  intros Ha. unfold wrapping_sub, wrapping_add, as_u.
  rewrite Zminus_mod_idemp_l. rewrite Z.add_simpl_r. by apply Z.mod_small.
Qed.

Lemma len_nonneg {A} (l : list A) : 0 ≤ len l.
Proof. unfold len. lia. Qed.

Lemma len_nil {A} : len (@nil A) = 0.
Proof. done. Qed.

Lemma len_cons {A} (x : A) l : len (x :: l) = 1 + len l.
Proof. unfold len. cbn [length]. lia. Qed.

Lemma len_app {A} (l k : list A) : len (l ++ k) = len l + len k.
Proof. unfold len. rewrite length_app. lia. Qed.

Create HintDb oaat.
#[export] Hint Resolve as_u_range wrapping_add_range wrapping_sub_range len_nonneg : oaat.
Create Rewrite HintDb oaat.
#[export] Hint Rewrite @len_nil @len_cons @len_app : oaat.

(** ** Byte strings and integer encodings

    [to_le_bytes]/[from_le_bytes] are Rust's [u<8n>::to_le_bytes] and
    [from_le_bytes]; the big-endian versions are their reversals. *)

Fixpoint to_le_bytes (n : nat) (z : Z) : list Z :=
  match n with
  | O => []
  | S n => z mod 256 :: to_le_bytes n (z / 256)
  end.

Fixpoint from_le_bytes (l : list Z) : Z :=
  match l with
  | [] => 0
  | b :: l => b + 256 * from_le_bytes l
  end.

Definition to_be_bytes (n : nat) (z : Z) : list Z := reverse (to_le_bytes n z).
Definition from_be_bytes (l : list Z) : Z := from_le_bytes (reverse l).

Lemma to_le_bytes_length n z : length (to_le_bytes n z) = n.
Proof. revert z; induction n; intros; simpl; auto. Qed.

Lemma to_be_bytes_length n z : length (to_be_bytes n z) = n.
Proof. unfold to_be_bytes. by rewrite length_reverse, to_le_bytes_length. Qed.

Lemma to_le_bytes_u8 n z : Forall is_u8 (to_le_bytes n z).
Proof.
  revert z; induction n; intros; simpl; constructor; auto.
  apply Z.mod_pos_bound. lia.
Qed.

Lemma to_be_bytes_u8 n z : Forall is_u8 (to_be_bytes n z).
Proof. apply Forall_reverse, to_le_bytes_u8. Qed.

Lemma from_to_le_bytes n z :
  in_u (8 * Z.of_nat n) z → from_le_bytes (to_le_bytes n z) = z.
Proof.
  revert z. induction n as [|n IH]; intros z [Hlo Hhi]; simpl.
  { rewrite Z.pow_0_r in Hhi. lia. }
  rewrite IH; [rewrite (Z.div_mod z 256) at 3; lia|].
  split; [apply Z.div_pos; lia|]. apply Z.div_lt_upper_bound; [lia|].
  replace (8 * Z.of_nat (S n)) with (8 + 8 * Z.of_nat n) in Hhi by lia.
  rewrite Z.pow_add_r in Hhi by lia. lia.
Qed.

Lemma from_le_bytes_range l : Forall is_u8 l → in_u (8 * len l) (from_le_bytes l).
Proof.
  unfold in_u. induction 1 as [|b l [Hlo Hhi] _ IH]; simpl.
  { cbv; split; [discriminate|reflexivity]. }
  rewrite len_cons. replace (8 * (1 + len l)) with (8 + 8 * len l) by lia.
  rewrite Z.pow_add_r by (pose proof (len_nonneg l); lia). lia.
Qed.

Lemma to_from_le_bytes l : Forall is_u8 l → to_le_bytes (length l) (from_le_bytes l) = l.
Proof.
  induction 1 as [|b l [Hlo Hhi] Hl IH]; [done|]. cbn [length to_le_bytes from_le_bytes].
  assert ((b + 256 * from_le_bytes l) mod 256 = b) as ->.
  { rewrite Z.mul_comm, Z.mod_add by lia. apply Z.mod_small. lia. }
  assert ((b + 256 * from_le_bytes l) / 256 = from_le_bytes l) as ->.
  { rewrite Z.mul_comm, Z.div_add by lia. rewrite Z.div_small by lia. lia. }
  by rewrite IH.
Qed.

Lemma from_to_be_bytes n z :
  in_u (8 * Z.of_nat n) z → from_be_bytes (to_be_bytes n z) = z.
Proof.
  intros. unfold from_be_bytes, to_be_bytes. rewrite reverse_involutive.
  by apply from_to_le_bytes.
Qed.

Lemma from_be_bytes_range l : Forall is_u8 l → in_u (8 * len l) (from_be_bytes l).
Proof.
  intros. unfold from_be_bytes.
  replace (len l) with (len (reverse l)) by (unfold len; by rewrite length_reverse).
  by apply from_le_bytes_range, Forall_reverse.
Qed.

Lemma to_from_be_bytes n l :
  length l = n → Forall is_u8 l → to_be_bytes n (from_be_bytes l) = l.
Proof.
  intros <- H. unfold from_be_bytes, to_be_bytes.
  rewrite <- (length_reverse l), to_from_le_bytes by by apply Forall_reverse.
  apply reverse_involutive.
Qed.

#[export] Hint Resolve to_be_bytes_u8 to_le_bytes_u8 : oaat.
#[export] Hint Rewrite to_be_bytes_length to_le_bytes_length : oaat.

(** ** Slices *)

(** [&l[a..b]] (callers establish [a ≤ b ≤ len]). *)
Definition slice {A} (l : list A) (a b : nat) : list A := take (b - a) (drop a l).

Lemma slice_app_mid {A} (x y z : list A) a b :
  length x = a → length y = (b - a)%nat → slice (x ++ y ++ z) a b = y.
Proof.
  intros <- Hy. unfold slice. rewrite drop_app_length. by rewrite take_app_length'.
Qed.

Lemma slice_length {A} (l : list A) a b :
  (a ≤ b)%nat → (b ≤ length l)%nat → length (slice l a b) = (b - a)%nat.
Proof. intros. unfold slice. rewrite length_take, length_drop. lia. Qed.

Lemma slice_Forall {A} (P : A → Prop) (l : list A) a b : Forall P l → Forall P (slice l a b).
Proof. intros. by apply Forall_take, Forall_drop. Qed.

(** ** Bitwise helpers *)

Lemma testbit_above w z i : in_u w z → w ≤ i → Z.testbit z i = false.
Proof.
  intros [H0 H1] Hi. destruct (decide (z = 0)) as [->|Hz]; [by rewrite Z.bits_0|].
  apply Z.bits_above_log2; [done|].
  apply Z.lt_le_trans with w; [|done]. apply Z.log2_lt_pow2; lia.
Qed.

Lemma in_u_of_bits w z :
  0 ≤ w → 0 ≤ z → (∀ i, w ≤ i → Z.testbit z i = false) → in_u w z.
Proof.
  intros Hw Hz Hb. split; [done|].
  destruct (decide (z < 2 ^ w)) as [|Hge]; [done|exfalso].
  assert (0 < z) by (pose proof (Z.pow_pos_nonneg 2 w); lia).
  assert (w ≤ Z.log2 z) as Hl by (apply Z.log2_le_pow2; lia).
  specialize (Hb (Z.log2 z) Hl). rewrite Z.bit_log2 in Hb by lia. done.
Qed.

Lemma in_u_lxor w a b : 0 ≤ w → in_u w a → in_u w b → in_u w (Z.lxor a b).
Proof.
  intros Hw Ha Hb. apply in_u_of_bits; [done| |].
  - apply Z.lxor_nonneg. unfold in_u in *. lia.
  - intros i Hi. by rewrite Z.lxor_spec, (testbit_above w a), (testbit_above w b).
Qed.

Lemma in_u_lor w a b : 0 ≤ w → in_u w a → in_u w b → in_u w (Z.lor a b).
Proof.
  intros Hw Ha Hb. apply in_u_of_bits; [done| |].
  - apply Z.lor_nonneg. unfold in_u in *. lia.
  - intros i Hi. by rewrite Z.lor_spec, (testbit_above w a), (testbit_above w b).
Qed.

(** A high nibble and a low nibble do not overlap. *)
Lemma nibbles_lor hi lo :
  in_u 4 lo → 0 ≤ hi → Z.lor (Z.shiftl hi 4) lo = hi * 16 + lo.
Proof.
  intros Hlo Hhi. rewrite Z.shiftl_mul_pow2 by lia. change (2 ^ 4) with 16.
  rewrite <- Z.lxor_lor; [rewrite <- Z.add_nocarry_lxor; [done|]|];
    (apply Z.bits_inj'; intros i Hi; rewrite Z.land_spec, Z.bits_0;
     destruct (decide (i < 4)) as [?|?];
     [change 16 with (2 ^ 4); by rewrite Z.mul_pow2_bits_low by lia
     |rewrite (testbit_above 4 lo i) by (done || lia); by rewrite andb_false_r]).
Qed.

#[export] Hint Resolve in_u_lxor in_u_lor : oaat.

(** ** Tactics *)

(** Case analysis on the matches of the goal, closing what computes. *)
Ltac crush := repeat (case_match; simplify_eq/=); try done.

(** Unfold the range predicates and call [lia]. *)
Ltac range := unfold in_u, in_i, U64_MAX, I64_MAX, I64_MIN, clamp in *; lia.
