(* ===== verification/Format.v ===== *)
(** * Audio formats, channel layouts and sample-rate families

    Models [crates/oaat-core/src/format.rs]: the wire identifiers of the
    audio formats, their classification, their textual names, and the two
    sample-rate families used by the format negotiation. *)

From S2P Require Import Prelude.

Local Open Scope Z_scope.

Inductive AudioFormat :=
| PcmS16le | PcmS24le | PcmS24le4 | PcmS32le | PcmF32le
| DsdU8 | DsdU16le | DsdU32le
| Flac | Opus | TrueHd | Eac3.

#[export] Instance AudioFormat_eq_dec : EqDecision AudioFormat.
Proof. solve_decision. Defined.

Definition wire_id (f : AudioFormat) : Z :=
  match f with
  | PcmS16le => 0x01 | PcmS24le => 0x02 | PcmS24le4 => 0x03
  | PcmS32le => 0x04 | PcmF32le => 0x05
  | DsdU8 => 0x10 | DsdU16le => 0x11 | DsdU32le => 0x12
  | Flac => 0x20 | Opus => 0x21
  | TrueHd => 0x30 | Eac3 => 0x31
  end.

Definition from_wire_id (id : Z) : option AudioFormat :=
  match id with
  | 0x01 => Some PcmS16le | 0x02 => Some PcmS24le | 0x03 => Some PcmS24le4
  | 0x04 => Some PcmS32le | 0x05 => Some PcmF32le
  | 0x10 => Some DsdU8 | 0x11 => Some DsdU16le | 0x12 => Some DsdU32le
  | 0x20 => Some Flac | 0x21 => Some Opus
  | 0x30 => Some TrueHd | 0x31 => Some Eac3
  | _ => None
  end.

Definition is_pcm (f : AudioFormat) : bool :=
  match f with PcmS16le | PcmS24le | PcmS24le4 | PcmS32le | PcmF32le => true | _ => false end.

Definition is_dsd (f : AudioFormat) : bool :=
  match f with DsdU8 | DsdU16le | DsdU32le => true | _ => false end.

Definition is_compressed (f : AudioFormat) : bool :=
  match f with Flac | Opus => true | _ => false end.

Definition is_bitstream (f : AudioFormat) : bool :=
  match f with TrueHd | Eac3 => true | _ => false end.

Definition bytes_per_sample (f : AudioFormat) : option Z :=
  match f with
  | PcmS16le => Some 2
  | PcmS24le => Some 3
  | PcmS24le4 | PcmS32le | PcmF32le => Some 4
  | _ => None
  end.

(** [impl Display for AudioFormat]. *)
Definition AudioFormat_fmt (f : AudioFormat) : string :=
  match f with
  | PcmS16le => "PCM_S16LE"
  | PcmS24le => "PCM_S24LE"
  | PcmS24le4 => "PCM_S24LE4"
  | PcmS32le => "PCM_S32LE"
  | PcmF32le => "PCM_F32LE"
  | DsdU8 => "DSD_U8"
  | DsdU16le => "DSD_U16LE"
  | DsdU32le => "DSD_U32LE"
  | Flac => "FLAC"
  | Opus => "OPUS"
  | TrueHd => "TRUEHD"
  | Eac3 => "EAC3"
  end.

Inductive ChannelLayout :=
| Mono | Stereo | TwoPointOne | Quad | FivePointOne | SevenPointOne
| FivePointOnePointTwo | FivePointOnePointFour
| SevenPointOnePointTwo | SevenPointOnePointFour | SevenPointOnePointSix.

#[export] Instance ChannelLayout_eq_dec : EqDecision ChannelLayout.
Proof. solve_decision. Defined.

Definition channel_count (l : ChannelLayout) : Z :=
  match l with
  | Mono => 1
  | Stereo => 2
  | TwoPointOne => 3
  | Quad => 4
  | FivePointOne => 6
  | SevenPointOne => 8
  | FivePointOnePointTwo => 8
  | FivePointOnePointFour => 10
  | SevenPointOnePointTwo => 10
  | SevenPointOnePointFour => 12
  | SevenPointOnePointSix => 14
  end.

Inductive DsdRate := Dsd64 | Dsd128 | Dsd256 | Dsd512.

(** The discriminant of [DsdRate]: the multiplier. *)
Definition dsd_multiplier (d : DsdRate) : Z :=
  match d with Dsd64 => 64 | Dsd128 => 128 | Dsd256 => 256 | Dsd512 => 512 end.

Definition bitstream_rate_hz (d : DsdRate) : Z :=
  match d with
  | Dsd64 => 2822400
  | Dsd128 => 5644800
  | Dsd256 => 11289600
  | Dsd512 => 22579200
  end.

Inductive SampleRateFamily := F44100 | F48000.

#[export] Instance SampleRateFamily_eq_dec : EqDecision SampleRateFamily.
Proof. solve_decision. Defined.

(** [SampleRateFamily::rates]: ascending. *)
Definition rates (f : SampleRateFamily) : list Z :=
  match f with
  | F44100 => [44100; 88200; 176400; 352800; 705600]
  | F48000 => [48000; 96000; 192000; 384000; 768000]
  end.

(** [SampleRateFamily::of]. *)
Definition family_of (rate : Z) : option SampleRateFamily :=
  let F441 := [44100; 88200; 176400; 352800; 705600] in
  let F480 := [48000; 96000; 192000; 384000; 768000] in
  if decide (rate ∈ F441) then Some F44100
  else if decide (rate ∈ F480) then Some F48000
  else None.

(** ** Lemmas *)

Lemma from_wire_id_wire_id f : from_wire_id (wire_id f) = Some f.
Proof. by destruct f. Qed.

(** Case analysis on a [Z] literal match, down to the listed values. *)
Lemma from_wire_id_Some id f : from_wire_id id = Some f → wire_id f = id.
Proof. unfold from_wire_id. intros. crush. Qed.

Lemma wire_id_u8 f : is_u8 (wire_id f).
Proof. destruct f; unfold in_u; simpl; lia. Qed.

(** The four classes partition the formats. *)
Definition format_class_count (f : AudioFormat) : nat :=
  Nat.b2n (is_pcm f) + Nat.b2n (is_dsd f) + Nat.b2n (is_compressed f) + Nat.b2n (is_bitstream f).

Lemma format_classes_partition f : format_class_count f = 1%nat.
Proof. by destruct f. Qed.

Lemma bytes_per_sample_pcm f : is_Some (bytes_per_sample f) ↔ is_pcm f = true.
Proof. destruct f; simpl; split; intros H; try done; (by destruct H) || eauto. Qed.

Lemma dsd_rate_44100 d : bitstream_rate_hz d = dsd_multiplier d * 44100.
Proof. by destruct d. Qed.

Lemma family_of_rates rate f : family_of rate = Some f ↔ rate ∈ rates f.
Proof.
  unfold family_of. split.
  - repeat case_decide; intros [= <-]; done.
  - intros H. destruct f; cbn [rates] in H; rewrite !elem_of_cons, elem_of_nil in H;
      destruct_or! H; subst; done.
Qed.

#[export] Hint Resolve wire_id_u8 : oaat.
#[export] Hint Rewrite from_wire_id_wire_id : oaat.
