(* ===== verification/Session.v ===== *)
(** * Session states and errors

    Models [crates/oaat-core/src/session.rs] (the protocol session state
    machine) and [crates/oaat-core/src/error.rs]. *)

From S2P Require Import Prelude.

Local Open Scope Z_scope.

Inductive SessionState :=
| Discovery | Handshake | Idle | Negotiation | Streaming | Paused | Stopped | Disconnected.

#[export] Instance SessionState_eq_dec : EqDecision SessionState.
Proof. solve_decision. Defined.

(** [std::io::Error], as the sources build it: a kind and a message. *)
Inductive IoErrorKind := TimedOut | ConnectionReset | ConnectionRefused | InvalidInput | OtherKind.

Inductive OaatError :=
| UnknownFormat (id : Z)
| InvalidPacketFlags (bits : Z)
| InvalidClockSyncType (kind : Z)
| InvalidStateTransition (from to : SessionState)
| InvalidCapabilityString (s : string)
| VersionMismatch (expected got : Z)
| MessageTooLarge (n : Z)
| IncompleteFrame (need have : Z)
| Io (kind : IoErrorKind) (msg : string)
| Json (msg : string)
| Protocol (msg : string).

#[export] Instance IoErrorKind_eq_dec : EqDecision IoErrorKind.
Proof. solve_decision. Defined.
#[export] Instance OaatError_eq_dec : EqDecision OaatError.
Proof. solve_decision. Defined.

Definition can_transition_to (self next : SessionState) : bool :=
  match self, next with
  | Discovery, Handshake
  | Handshake, Idle
  | Handshake, Disconnected
  | Idle, Negotiation
  | Idle, Disconnected
  | Negotiation, Streaming
  | Negotiation, Idle
  | Negotiation, Disconnected
  | Streaming, Paused
  | Streaming, Stopped
  | Streaming, Disconnected
  | Paused, Streaming
  | Paused, Stopped
  | Paused, Disconnected
  | Stopped, Negotiation
  | Stopped, Idle
  | Stopped, Disconnected
  | Disconnected, Discovery => true
  | _, _ => false
  end.

Definition transition (self next : SessionState) : result SessionState OaatError :=
  if can_transition_to self next then Ok next
  else Err (InvalidStateTransition self next).

(** [impl Display for SessionState]. *)
Definition SessionState_fmt (s : SessionState) : string :=
  match s with
  | Discovery => "Discovery"
  | Handshake => "Handshake"
  | Idle => "Idle"
  | Negotiation => "Negotiation"
  | Streaming => "Streaming"
  | Paused => "Paused"
  | Stopped => "Stopped"
  | Disconnected => "Disconnected"
  end.

(** A run of the session: a list of states entered one after the other. *)
Fixpoint session_run (s : SessionState) (nexts : list SessionState) : result SessionState OaatError :=
  match nexts with
  | [] => Ok s
  | n :: nexts => (let? s := transition s n in session_run s nexts)%oaat
  end.

(** The states a session must have entered, in this order and since the last
    disconnection, to be in state [s]. *)
Definition required_path (s : SessionState) : list SessionState :=
  match s with
  | Discovery | Disconnected => []
  | Handshake => [Handshake]
  | Idle => [Handshake; Idle]
  | Negotiation => [Handshake; Idle; Negotiation]
  | Streaming | Paused | Stopped => [Handshake; Idle; Negotiation; Streaming]
  end.

(** ** Lemmas *)

Lemma transition_Ok s n s' : transition s n = Ok s' ↔ can_transition_to s n = true ∧ s' = n.
Proof. unfold transition. case_match; naive_solver. Qed.

Lemma session_run_app s l1 l2 :
  session_run s (l1 ++ l2) = result_bind (session_run s l1) (λ s, session_run s l2).
Proof.
  revert s; induction l1 as [|n l1 IH]; intros s; [done|]. simpl.
  destruct (transition s n); simpl; [apply IH|done].
Qed.

Lemma session_run_snoc s l n s' :
  session_run s (l ++ [n]) = Ok s' →
  ∃ s1, session_run s l = Ok s1 ∧ can_transition_to s1 n = true ∧ s' = n.
Proof.
  rewrite session_run_app. destruct (session_run s l) as [s1|]; [|done]. simpl.
  destruct (transition s1 n) as [s2|] eqn:E; [|done]. simpl. intros [= <-].
  apply transition_Ok in E as [? ->]. eauto.
Qed.

(** One legal step extends the path of the state it leaves by at most the
    state it enters. *)
Lemma required_path_step s n :
  can_transition_to s n = true → s ≠ Disconnected →
  required_path n `sublist_of` (required_path s ++ [n]).
Proof.
  destruct s, n; intros; try done;
    by repeat (apply sublist_skip || apply sublist_nil_l || apply sublist_cons).
Qed.

Lemma session_run_path l s' :
  session_run Discovery l = Ok s' →
  ∃ l0 l1, l = l0 ++ l1 ∧ (s' ≠ Disconnected → Disconnected ∉ l1) ∧
           (required_path s' `sublist_of` l1).
Proof.
  revert s'. induction l as [|n l IH] using rev_ind; intros s' Hrun.
  { injection Hrun as <-. by exists [], []; split_and!; [|set_solver|constructor]. }
  apply session_run_snoc in Hrun as (s1 & Hrun & Hcan & ->).
  destruct (IH _ Hrun) as (l0 & l1 & -> & Hdis & Hpath).
  destruct (decide (s1 = Disconnected)) as [->|Hs1].
  { destruct n; try done. exists (l0 ++ l1), [Discovery].
    split_and!; [done|set_solver|apply sublist_nil_l]. }
  exists l0, (l1 ++ [n]). split_and!.
  - by rewrite (assoc_L (++)).
  - intros Hn. rewrite elem_of_app, list_elem_of_singleton. naive_solver.
  - etrans; [by apply required_path_step|]. by apply sublist_app.
Qed.

(** ** Properties *)

(** A session that [transition] accepts reaches playback only through the
    whole protocol: in every run from [Discovery] whose transitions all
    succeed, if the final state is [Streaming], [Paused] or [Stopped], then
    [Handshake], [Idle], [Negotiation] and [Streaming] were entered in this
    order, with no disconnection in between or after. *)
Theorem playback_requires_negotiation l s' :
  session_run Discovery l = Ok s' → s' ∈ [Streaming; Paused; Stopped] →
  ∃ before since, l = before ++ since ∧ (Disconnected ∉ since) ∧
    ([Handshake; Idle; Negotiation; Streaming] `sublist_of` since).
Proof.
  intros Hrun Hs. destruct (session_run_path _ _ Hrun) as (l0 & l1 & -> & Hdis & Hpath).
  exists l0, l1. rewrite !elem_of_cons, elem_of_nil in Hs.
  destruct_or! Hs; subst; naive_solver.
Qed.

Lemma playback_requires_negotiation_witness :
  ∃ before since,
    [Handshake; Disconnected; Discovery; Handshake; Idle; Negotiation; Streaming; Paused]
    = before ++ since ∧ (Disconnected ∉ since) ∧
    ([Handshake; Idle; Negotiation; Streaming] `sublist_of` since).
Proof.
  apply (playback_requires_negotiation _ Paused); [reflexivity|].
  set_solver.
Defined.
