(* ===== verification/Wire.v ===== *)
(** * Wire packets

    Models [crates/oaat-core/src/wire.rs]: the 32-byte audio packet header
    and the 28-byte clock synchronisation packet, with their encoders and
    decoders.  A byte is a [Z] in [0, 256); a fixed-size buffer is a list of
    bytes of that length.  [PacketFlags] is represented by its bits. *)

From S2P Require Import Prelude Format Session.

Local Open Scope Z_scope.

Definition AUDIO_HEADER_SIZE : nat := 32.

(** ** Packet flags (the [bitflags!] struct) *)

Definition FIRST_PACKET : Z := 0x01.
Definition LAST_PACKET : Z := 0x02.
Definition FEC : Z := 0x04.
Definition FORMAT_CHANGE : Z := 0x08.

Definition PacketFlags_all : Z :=
  Z.lor (Z.lor FIRST_PACKET LAST_PACKET) (Z.lor FEC FORMAT_CHANGE).

(** [PacketFlags::from_bits]: [None] when an unknown bit is set. *)
Definition PacketFlags_from_bits (bits : Z) : option Z :=
  if Z.ldiff bits PacketFlags_all =? 0 then Some bits else None.

Definition flags_contains (flags f : Z) : bool := Z.land flags f =? f.

(** ** The audio packet header *)

Record AudioPacketHeader := mkHeader {
  version : Z;
  flags : Z;
  format : AudioFormat;
  sequence : Z;
  stream_id : Z;
  pts_ns : Z;
  sample_offset : Z;
  payload_len : Z;
  fec_group_size : Z;
  fec_index : Z;
  fec_len_xor : Z
}.

#[export] Instance AudioPacketHeader_eq_dec : EqDecision AudioPacketHeader.
Proof. solve_decision. Defined.

Definition CURRENT_VERSION : Z := 1.

(** [AudioPacketHeader::encode]: every byte of the buffer is written, so the
    encoder is a function to the written buffer. *)
Definition header_encode (h : AudioPacketHeader) : list Z :=
  [Z.lor (as_u 8 (Z.shiftl (version h) 4)) (flags h); wire_id (format h)]
  ++ to_be_bytes 2 (sequence h)
  ++ to_be_bytes 4 (stream_id h)
  ++ to_be_bytes 8 (pts_ns h)
  ++ to_be_bytes 8 (sample_offset h)
  ++ to_be_bytes 2 (payload_len h)
  ++ [fec_group_size h; fec_index h]
  ++ to_be_bytes 2 (fec_len_xor h)
  ++ [0; 0].

Definition byte_at (buf : list Z) (i : nat) : Z := nth i buf 0.

(** [AudioPacketHeader::decode], on a buffer of [AUDIO_HEADER_SIZE] bytes. *)
Definition header_decode (buf : list Z) : result AudioPacketHeader OaatError :=
  let version := Z.shiftr (byte_at buf 0) 4 in
  if negb (version =? CURRENT_VERSION) then
    Err (VersionMismatch CURRENT_VERSION version)
  else
    (let? flags := ok_or (PacketFlags_from_bits (Z.land (byte_at buf 0) 0x0F))
                         (InvalidPacketFlags (Z.land (byte_at buf 0) 0x0F)) in
     let? format := ok_or (from_wire_id (byte_at buf 1)) (UnknownFormat (byte_at buf 1)) in
     Ok {| version := version;
           flags := flags;
           format := format;
           sequence := from_be_bytes (slice buf 2 4);
           stream_id := from_be_bytes (slice buf 4 8);
           pts_ns := from_be_bytes (slice buf 8 16);
           sample_offset := from_be_bytes (slice buf 16 24);
           payload_len := from_be_bytes (slice buf 24 26);
           fec_group_size := byte_at buf 26;
           fec_index := byte_at buf 27;
           fec_len_xor := from_be_bytes (slice buf 28 30) |})%oaat.

(** The value ranges of the header's Rust types. *)
Record header_wf (h : AudioPacketHeader) : Prop := {
  wf_version : is_u8 (version h);
  wf_flags : in_u 4 (flags h);
  wf_sequence : is_u16 (sequence h);
  wf_stream_id : is_u32 (stream_id h);
  wf_pts_ns : is_u64 (pts_ns h);
  wf_sample_offset : is_u64 (sample_offset h);
  wf_payload_len : is_u16 (payload_len h);
  wf_fec_group_size : is_u8 (fec_group_size h);
  wf_fec_index : is_u8 (fec_index h);
  wf_fec_len_xor : is_u16 (fec_len_xor h)
}.

(** ** The clock synchronisation packet *)

Inductive ClockSyncType := Request | Response.

#[export] Instance ClockSyncType_eq_dec : EqDecision ClockSyncType.
Proof. solve_decision. Defined.

(** [kind as u8]. *)
Definition ClockSyncType_bits (k : ClockSyncType) : Z :=
  match k with Request => 0x01 | Response => 0x02 end.

Record ClockSyncPacket := mkClockSync {
  cs_version : Z;
  cs_kind : ClockSyncType;
  cs_sequence : Z;
  cs_t1 : Z;
  cs_t2 : Z;
  cs_t3 : Z
}.

#[export] Instance ClockSyncPacket_eq_dec : EqDecision ClockSyncPacket.
Proof. solve_decision. Defined.

(** [ClockSyncPacket::SIZE]. *)
Definition CLOCK_SYNC_SIZE : nat := 28.

Definition clock_encode (p : ClockSyncPacket) : list Z :=
  [Z.lor (as_u 8 (Z.shiftl (cs_version p) 4)) (ClockSyncType_bits (cs_kind p)); 0]
  ++ to_be_bytes 2 (cs_sequence p)
  ++ to_be_bytes 8 (cs_t1 p)
  ++ to_be_bytes 8 (cs_t2 p)
  ++ to_be_bytes 8 (cs_t3 p).

Definition clock_decode (buf : list Z) : result ClockSyncPacket OaatError :=
  let version := Z.shiftr (byte_at buf 0) 4 in
  if negb (version =? CURRENT_VERSION) then
    Err (VersionMismatch CURRENT_VERSION version)
  else
    (let? kind := match Z.land (byte_at buf 0) 0x0F with
                  | 0x01 => Ok Request
                  | 0x02 => Ok Response
                  | other => Err (InvalidClockSyncType other)
                  end in
     Ok {| cs_version := version;
           cs_kind := kind;
           cs_sequence := from_be_bytes (slice buf 2 4);
           cs_t1 := from_be_bytes (slice buf 4 12);
           cs_t2 := from_be_bytes (slice buf 12 20);
           cs_t3 := from_be_bytes (slice buf 20 28) |})%oaat.

Record clock_wf (p : ClockSyncPacket) : Prop := {
  wf_cs_version : is_u8 (cs_version p);
  wf_cs_sequence : is_u16 (cs_sequence p);
  wf_cs_t1 : is_u64 (cs_t1 p);
  wf_cs_t2 : is_u64 (cs_t2 p);
  wf_cs_t3 : is_u64 (cs_t3 p)
}.

(** ** Lemmas *)

Lemma slice_skip {A} (x y : list A) a b :
  (length x ≤ a)%nat → slice (x ++ y) a b = slice y (a - length x) (b - length x).
Proof.
  intros. unfold slice. rewrite drop_app_ge by lia. f_equal. lia.
Qed.

Lemma slice_here {A} (x y : list A) b : length x = b → slice (x ++ y) 0 b = x.
Proof. intros <-. unfold slice. rewrite Nat.sub_0_r. by apply take_app_length. Qed.

Lemma slice_here_end {A} (x : list A) b : length x = b → slice x 0 b = x.
Proof. intros <-. unfold slice. by rewrite Nat.sub_0_r, firstn_all. Qed.

Lemma byte_at_skip (x y : list Z) i :
  (length x ≤ i)%nat → byte_at (x ++ y) i = byte_at y (i - length x).
Proof. intros. unfold byte_at. by rewrite app_nth2. Qed.

(** Read a field of a concatenation of fields of known lengths. *)
Ltac read_field :=
  repeat first
    [ rewrite slice_here by (by autorewrite with oaat)
    | rewrite slice_here_end by (by autorewrite with oaat)
    | rewrite slice_skip by (autorewrite with oaat; simpl; lia)
    | rewrite byte_at_skip by (autorewrite with oaat; simpl; lia)
    | progress (autorewrite with oaat; simpl length; cbn [Nat.sub]) ].

(** The first byte of both packets: a version nibble, then a low nibble. *)
Definition ver_byte (v lo : Z) : Z := Z.lor (as_u 8 (Z.shiftl v 4)) lo.

Lemma ver_byte_val v lo :
  is_u8 v → in_u 4 lo → ver_byte v lo = (v mod 16) * 16 + lo.
Proof.
  intros Hv Hlo. unfold ver_byte, as_u. rewrite Z.shiftl_mul_pow2 by lia.
  change (2 ^ 8) with (16 * 2 ^ 4). rewrite Z.mul_mod_distr_r by lia.
  rewrite <- Z.shiftl_mul_pow2 by lia. apply nibbles_lor; [done|].
  apply Z.mod_pos_bound. lia.
Qed.

Lemma ver_byte_hi v lo : is_u8 v → in_u 4 lo → Z.shiftr (ver_byte v lo) 4 = v mod 16.
Proof.
  intros. rewrite ver_byte_val by done. rewrite Z.shiftr_div_pow2 by lia.
  change (2 ^ 4) with 16. unfold in_u in *. rewrite Z.div_add_l by lia.
  rewrite (Z.div_small lo) by lia. lia.
Qed.

Lemma ver_byte_lo v lo : is_u8 v → in_u 4 lo → Z.land (ver_byte v lo) 0x0F = lo.
Proof.
  intros. rewrite ver_byte_val by done. change 0x0F with (Z.ones 4).
  rewrite Z.land_ones by lia. change (2 ^ 4) with 16. unfold in_u in *.
  rewrite Z.add_comm, Z.mod_add by lia. by apply Z.mod_small.
Qed.

Lemma ver_byte_inv b :
  is_u8 b → ver_byte (Z.shiftr b 4) (Z.land b 0x0F) = b.
Proof.
  intros Hb. change 0x0F with (Z.ones 4). rewrite Z.land_ones, Z.shiftr_div_pow2 by lia.
  change (2 ^ 4) with 16. unfold in_u in *.
  pose proof (Z.mod_pos_bound b 16 ltac:(lia)).
  assert (0 ≤ b / 16 < 16) by (split; [apply Z.div_pos|apply Z.div_lt_upper_bound]; lia).
  rewrite ver_byte_val by (unfold in_u; lia). rewrite (Z.mod_small (b / 16)) by lia.
  rewrite (Z.div_mod b 16) at 3; lia.
Qed.

Lemma land_0F_range b : 0 ≤ b → in_u 4 (Z.land b 0x0F).
Proof.
  intros. change 0x0F with (Z.ones 4). rewrite Z.land_ones by lia.
  by apply Z.mod_pos_bound.
Qed.

(** All four low bits are known flags. *)
Lemma PacketFlags_from_bits_low b : in_u 4 b → PacketFlags_from_bits b = Some b.
Proof.
  intros Hb. unfold PacketFlags_from_bits.
  change PacketFlags_all with (Z.ones 4). unfold in_u in Hb.
  by rewrite Z.ldiff_ones_r, Z.shiftr_div_pow2, Z.div_small by lia.
Qed.

Lemma header_encode_length h : length (header_encode h) = AUDIO_HEADER_SIZE.
Proof. unfold header_encode. rewrite !length_app. by autorewrite with oaat. Qed.

Lemma clock_encode_length p : length (clock_encode p) = CLOCK_SYNC_SIZE.
Proof. unfold clock_encode. rewrite !length_app. by autorewrite with oaat. Qed.

Lemma ver_byte_u8 v lo : in_u 4 lo → is_u8 (ver_byte v lo).
Proof.
  intros. apply in_u_lor; [lia|by apply as_u_range|]. unfold in_u in *. lia.
Qed.

Lemma header_encode_u8 h : header_wf h → Forall is_u8 (header_encode h).
Proof.
  intros []. unfold header_encode. rewrite !Forall_app. split_and!; auto with oaat.
  - constructor; [by apply ver_byte_u8|]. apply Forall_singleton. auto with oaat.
  - by constructor; [|apply Forall_singleton].
Qed.

Lemma header_decode_encode h :
  header_wf h →
  header_decode (header_encode h)
  = if version h mod 16 =? CURRENT_VERSION
    then Ok (mkHeader (version h mod 16) (flags h) (format h) (sequence h) (stream_id h)
               (pts_ns h) (sample_offset h) (payload_len h)
               (fec_group_size h) (fec_index h) (fec_len_xor h))
    else Err (VersionMismatch CURRENT_VERSION (version h mod 16)).
Proof.
  intros []. unfold header_decode.
  change (byte_at (header_encode h) 0) with (ver_byte (version h) (flags h)).
  change (byte_at (header_encode h) 1) with (wire_id (format h)).
  rewrite ver_byte_hi, ver_byte_lo by done. destruct (_ =? _); simpl negb; [|done].
  cbv iota. rewrite PacketFlags_from_bits_low by done.
  rewrite from_wire_id_wire_id. cbn [ok_or result_bind].
  unfold header_encode. do 2 f_equal; read_field; try done; by apply from_to_be_bytes.
Qed.

(** A header built for the current protocol version survives the wire
    exactly; one whose version differs modulo 16 is refused with
    [VersionMismatch], and no other error is possible on an encoded header. *)
Theorem header_roundtrip h :
  header_wf h →
  header_decode (header_encode h)
  = if version h mod 16 =? CURRENT_VERSION
    then Ok (mkHeader CURRENT_VERSION (flags h) (format h) (sequence h) (stream_id h)
               (pts_ns h) (sample_offset h) (payload_len h)
               (fec_group_size h) (fec_index h) (fec_len_xor h))
    else Err (VersionMismatch CURRENT_VERSION (version h mod 16)).
Proof.
  intros Hwf. rewrite header_decode_encode by done.
  destruct (_ =? _) eqn:E; [|done]. apply Z.eqb_eq in E. by rewrite E.
Qed.

Definition sample_header : AudioPacketHeader :=
  mkHeader 1 (Z.lor FIRST_PACKET FEC) Flac 65535 0xDEADBEEF 123456789012 9876543210 1200 8 7 0x1234.

Lemma sample_header_wf : header_wf sample_header.
Proof. constructor; vm_compute; split; discriminate || reflexivity. Qed.

Lemma header_roundtrip_witness :
  header_wf sample_header ∧ header_decode (header_encode sample_header) = Ok sample_header.
Proof.
  split; [exact sample_header_wf|].
  exact (header_roundtrip sample_header sample_header_wf).
Defined.

(** Reading back the parts a buffer was cut into. *)
Lemma slice_cut {A} (l : list A) a b c :
  (a ≤ b ≤ c)%nat → slice l a c = slice l a b ++ slice l b c.
Proof.
  intros. unfold slice. replace (c - a)%nat with ((b - a) + (c - b))%nat by lia.
  rewrite <- take_take_drop. do 2 f_equal. rewrite drop_drop. f_equal. lia.
Qed.

Lemma slice_byte buf i : (i < length buf)%nat → slice buf i (S i) = [byte_at buf i].
Proof.
  intros Hi. unfold byte_at, slice. destruct (lookup_lt_is_Some_2 buf i Hi) as [x Hx].
  rewrite (drop_S _ _ _ Hx). replace (S i - i)%nat with 1%nat by lia. simpl. f_equal.
  by rewrite (nth_lookup_Some _ _ _ _ Hx).
Qed.

Lemma byte_at_u8 buf i : Forall is_u8 buf → is_u8 (byte_at buf i).
Proof.
  intros H. unfold byte_at. destruct (nth_in_or_default i buf 0) as [Hin| ->]; [|range].
  by apply (proj1 (List.Forall_forall _ _) H).
Qed.

Lemma to_from_be_slice buf a b n :
  Forall is_u8 buf → (a ≤ b)%nat → (b ≤ length buf)%nat → (b - a)%nat = n →
  to_be_bytes n (from_be_bytes (slice buf a b)) = slice buf a b.
Proof.
  intros. apply to_from_be_bytes; [by rewrite slice_length|by apply slice_Forall].
Qed.

Lemma from_be_slice_range buf a b w :
  Forall is_u8 buf → (a ≤ b)%nat → (b ≤ length buf)%nat → 8 * Z.of_nat (b - a) = w →
  in_u w (from_be_bytes (slice buf a b)).
Proof.
  intros Hu Hab Hb <-. pose proof (from_be_bytes_range _ (slice_Forall _ _ a b Hu)) as H.
  unfold len in H. by rewrite slice_length in H.
Qed.

Lemma header_decode_Ok buf h :
  length buf = AUDIO_HEADER_SIZE → Forall is_u8 buf → header_decode buf = Ok h →
  header_wf h ∧ version h = CURRENT_VERSION ∧ header_encode h = take 30 buf ++ [0; 0].
Proof.
  intros Hl Hu. unfold header_decode. unfold AUDIO_HEADER_SIZE in Hl.
  pose proof (byte_at_u8 buf 0 Hu) as Hb0.
  assert (in_u 4 (Z.land (byte_at buf 0) 0x0F)) as Hlow by (apply land_0F_range; range).
  destruct (_ =? _) eqn:Hv; [|done]. apply Z.eqb_eq in Hv. simpl negb. cbv iota.
  rewrite PacketFlags_from_bits_low by done. cbn [ok_or result_bind].
  destruct (from_wire_id (byte_at buf 1)) as [f|] eqn:Hf; [|done]. intros [= <-].
  split_and!; [|done|].
  - constructor; cbn [version flags format sequence stream_id pts_ns sample_offset
      payload_len fec_group_size fec_index fec_len_xor];
      solve [done | by apply byte_at_u8 | apply from_be_slice_range; (done || lia) | by rewrite Hv].
  - unfold header_encode; cbn [version flags format sequence stream_id pts_ns sample_offset
      payload_len fec_group_size fec_index fec_len_xor].
    change (Z.lor (as_u 8 (Z.shiftl ?v 4)) ?f) with (ver_byte v f).
    rewrite ver_byte_inv, (from_wire_id_Some _ _ Hf), !to_from_be_slice by (done || lia).
    change (take 30 buf) with (slice buf 0 30).
    rewrite (slice_cut buf 0 1 30), (slice_cut buf 1 2 30), (slice_cut buf 2 4 30),
      (slice_cut buf 4 8 30), (slice_cut buf 8 16 30), (slice_cut buf 16 24 30),
      (slice_cut buf 24 26 30), (slice_cut buf 26 27 30), (slice_cut buf 27 28 30) by lia.
    rewrite !slice_byte by lia. by rewrite <- !(assoc_L (++)).
Qed.

(** The decoder's decision on an arbitrary 32-byte buffer: the version
    nibble is tested before the format byte, and nothing else is refused. *)
Lemma header_decode_is_ok buf :
  length buf = AUDIO_HEADER_SIZE → Forall is_u8 buf →
  is_ok (header_decode buf) =
    (Z.shiftr (byte_at buf 0) 4 =? CURRENT_VERSION) && bool_decide (is_Some (from_wire_id (byte_at buf 1))).
Proof.
  intros Hl Hu. unfold header_decode. pose proof (byte_at_u8 buf 0 Hu) as Hb0.
  destruct (_ =? _); simpl; [|done].
  rewrite PacketFlags_from_bits_low by (apply land_0F_range; range). simpl.
  by destruct (from_wire_id _).
Qed.

(** On every buffer the decoder accepts, the decoded header has the ranges
    of its fields and encodes back to the same bytes, the two reserved ones
    (which the decoder ignores) read as zero: decoding loses nothing else. *)
Theorem header_decode_faithful buf h :
  length buf = AUDIO_HEADER_SIZE → Forall is_u8 buf → header_decode buf = Ok h →
  header_wf h ∧ version h = CURRENT_VERSION ∧ header_encode h = take 30 buf ++ [0; 0].
Proof. apply header_decode_Ok. Qed.

Lemma header_decode_faithful_witness :
  header_wf sample_header ∧ version sample_header = CURRENT_VERSION ∧
  header_encode sample_header = take 30 (header_encode sample_header) ++ [0; 0].
Proof.
  apply header_decode_faithful; [apply header_encode_length| |vm_compute; reflexivity].
  apply header_encode_u8, sample_header_wf.
Defined.

(** ** Clock synchronisation packets *)

Lemma ClockSyncType_bits_low k : in_u 4 (ClockSyncType_bits k).
Proof. destruct k; unfold in_u; simpl; lia. Qed.

Lemma clock_decode_encode p :
  clock_wf p →
  clock_decode (clock_encode p)
  = if cs_version p mod 16 =? CURRENT_VERSION
    then Ok (mkClockSync (cs_version p mod 16) (cs_kind p) (cs_sequence p)
               (cs_t1 p) (cs_t2 p) (cs_t3 p))
    else Err (VersionMismatch CURRENT_VERSION (cs_version p mod 16)).
Proof.
  intros []. unfold clock_decode. pose proof (ClockSyncType_bits_low (cs_kind p)).
  change (byte_at (clock_encode p) 0) with (ver_byte (cs_version p) (ClockSyncType_bits (cs_kind p))).
  rewrite ver_byte_hi, ver_byte_lo by done. destruct (_ =? _); simpl negb; [|done]. cbv iota.
  replace (match ClockSyncType_bits (cs_kind p) with
           | 1 => Ok Request | 2 => Ok Response
           | other => Err (InvalidClockSyncType other) end)
    with (@Ok ClockSyncType OaatError (cs_kind p)) by by destruct (cs_kind p).
  cbn [result_bind]. unfold clock_encode.
  do 2 f_equal; read_field; by apply from_to_be_bytes.
Qed.
