(* ===== verification/Message.v ===== *)
(** * Control protocol messages

    Models the data of [crates/oaat-core/src/message.rs]: every message of
    the control protocol, with the fields of the source, and the framing of
    a message.  The JSON text of a message is the work of [serde_json]: it is
    the class [JsonCodec], a parameter of everything that frames messages. *)

From S2P Require Import Prelude Format.

Local Open Scope Z_scope.

Definition FEATURE_ENDPOINT_RELEASE : string := "endpoint_release".

Inductive VolumeType := Hw | Sw | Fixed | NoVolume.

Record VolumeCapability := mkVolumeCapability {
  vol_type : VolumeType; vol_range : Z * Z; vol_step : Z }.

Record EndpointCapabilities := mkCapabilities {
  pcm_max_rate : Z;
  pcm_max_bits : Z;
  dsd_max_rate : option Z;
  channels_max : Z;
  formats : list AudioFormat;
  volume_cap : option VolumeCapability;
  gapless : bool;
  seek : bool
}.

Record Hello := mkHello {
  hello_protocol_version : Z;
  controller_id : string;
  controller_name : string;
  hello_clock_port : Z;
  hello_features : list string
}.

Record HelloAck := mkHelloAck {
  ack_protocol_version : Z;
  ack_endpoint_id : string;
  ack_endpoint_name : string;
  capabilities : EndpointCapabilities;
  ack_audio_port : Z;
  ack_clock_port : Z;
  ack_buffer_size_ms : Z;
  ack_features : list string
}.

Record FormatPropose := mkFormatPropose {
  fp_stream_id : string;
  fp_format : AudioFormat;
  fp_sample_rate : Z;
  fp_channels : Z;
  fp_channel_layout : ChannelLayout;
  fp_bits_per_sample : Z;
  fp_dsd_rate : option Z
}.

Record FormatAccept := mkFormatAccept { fa_stream_id : string }.

Record FormatCounter := mkFormatCounter {
  fc_stream_id : string;
  fc_format : AudioFormat;
  fc_sample_rate : Z;
  fc_channels : Z;
  fc_channel_layout : ChannelLayout;
  fc_bits_per_sample : Z;
  fc_dsd_rate : option Z
}.

Record FormatReject := mkFormatReject { fr_stream_id : string; fr_reason : string }.

Record Play := mkPlay { play_stream_id : string }.
Record Pause := mkPause { pause_stream_id : string }.
Record Stop := mkStop { stop_stream_id : string }.
Record Seek := mkSeek { seek_stream_id : string; position_ms : Z }.

Record VolumeSet := mkVolumeSet { vs_level : Z }.
Record VolumeReport := mkVolumeReport { vr_level : Z; vr_muted : bool }.
Record Mute := mkMute { mute_muted : bool }.

Record StreamStats := mkStreamStats {
  ss_stream_id : string;
  ss_buffer_frames : Z;
  ss_drift_us : Z;
  ss_corrections_net_frames : Z;
  ss_packets_lost : Z;
  ss_packets_recovered : Z;
  ss_bit_perfect : bool;
  ss_underruns : Z
}.

Record TrackMetadata := mkTrackMetadata {
  title : string;
  artist : string;
  album : string;
  duration_ms : Z;
  artwork_url : option string;
  track_format : option string
}.
Record Metadata := mkMetadata { md_track : TrackMetadata }.

Record ZoneAssign := mkZoneAssign { za_zone_id : string; za_endpoint_id : string }.
Record ZoneUpdate := mkZoneUpdate { zu_zone_id : string; zu_endpoint_ids : list string }.
Record ZoneRelease := mkZoneRelease { zr_zone_id : string; zr_endpoint_id : string }.
Record ZoneAck := mkZoneAck {
  zk_zone_id : string; zk_endpoint_id : string; zk_accepted : bool; zk_reason : option string }.

Record NextTrackPrepare := mkNextTrackPrepare {
  np_stream_id : string;
  np_format : AudioFormat;
  np_sample_rate : Z;
  np_channels : Z;
  np_channel_layout : ChannelLayout;
  np_bits_per_sample : Z
}.
Record NextTrackReady := mkNextTrackReady { nr_stream_id : string }.
Record NextTrackReformat := mkNextTrackReformat {
  nf_stream_id : string; nf_format : AudioFormat; nf_sample_rate : Z }.

Inductive ReleaseReason := LocalSource | OtherReason.

Record EndpointRelease := mkEndpointRelease {
  er_stream_id : string; er_reason : ReleaseReason }.

Record ErrorMsg := mkErrorMsg { err_code : Z; err_message : string }.

Inductive Message :=
| MHello (m : Hello)
| MHelloAck (m : HelloAck)
| MFormatPropose (m : FormatPropose)
| MFormatAccept (m : FormatAccept)
| MFormatCounter (m : FormatCounter)
| MFormatReject (m : FormatReject)
| MPlay (m : Play)
| MPause (m : Pause)
| MStop (m : Stop)
| MSeek (m : Seek)
| MVolumeSet (m : VolumeSet)
| MVolumeGet
| MVolumeReport (m : VolumeReport)
| MMute (m : Mute)
| MMetadata (m : Metadata)
| MZoneAssign (m : ZoneAssign)
| MZoneUpdate (m : ZoneUpdate)
| MZoneRelease (m : ZoneRelease)
| MZoneAck (m : ZoneAck)
| MNextTrackPrepare (m : NextTrackPrepare)
| MNextTrackReady (m : NextTrackReady)
| MNextTrackReformat (m : NextTrackReformat)
| MStreamStats (m : StreamStats)
| MEndpointRelease (m : EndpointRelease)
| MError (m : ErrorMsg).

#[export] Instance VolumeType_eq_dec : EqDecision VolumeType.
Proof. solve_decision. Defined.
#[export] Instance VolumeCapability_eq_dec : EqDecision VolumeCapability.
Proof. solve_decision. Defined.
#[export] Instance EndpointCapabilities_eq_dec : EqDecision EndpointCapabilities.
Proof. solve_decision. Defined.
#[export] Instance ReleaseReason_eq_dec : EqDecision ReleaseReason.
Proof. solve_decision. Defined.
#[export] Instance FormatPropose_eq_dec : EqDecision FormatPropose.
Proof. solve_decision. Defined.
#[export] Instance TrackMetadata_eq_dec : EqDecision TrackMetadata.
Proof. solve_decision. Defined.
#[export] Instance Hello_eq_dec : EqDecision Hello.
Proof. solve_decision. Defined.
#[export] Instance HelloAck_eq_dec : EqDecision HelloAck.
Proof. solve_decision. Defined.
#[export] Instance FormatAccept_eq_dec : EqDecision FormatAccept.
Proof. solve_decision. Defined.
#[export] Instance FormatCounter_eq_dec : EqDecision FormatCounter.
Proof. solve_decision. Defined.
#[export] Instance FormatReject_eq_dec : EqDecision FormatReject.
Proof. solve_decision. Defined.
#[export] Instance Play_eq_dec : EqDecision Play.
Proof. solve_decision. Defined.
#[export] Instance Pause_eq_dec : EqDecision Pause.
Proof. solve_decision. Defined.
#[export] Instance Stop_eq_dec : EqDecision Stop.
Proof. solve_decision. Defined.
#[export] Instance Seek_eq_dec : EqDecision Seek.
Proof. solve_decision. Defined.
#[export] Instance VolumeSet_eq_dec : EqDecision VolumeSet.
Proof. solve_decision. Defined.
#[export] Instance VolumeReport_eq_dec : EqDecision VolumeReport.
Proof. solve_decision. Defined.
#[export] Instance Mute_eq_dec : EqDecision Mute.
Proof. solve_decision. Defined.
#[export] Instance StreamStats_eq_dec : EqDecision StreamStats.
Proof. solve_decision. Defined.
#[export] Instance Metadata_eq_dec : EqDecision Metadata.
Proof. solve_decision. Defined.
#[export] Instance ZoneAssign_eq_dec : EqDecision ZoneAssign.
Proof. solve_decision. Defined.
#[export] Instance ZoneUpdate_eq_dec : EqDecision ZoneUpdate.
Proof. solve_decision. Defined.
#[export] Instance ZoneRelease_eq_dec : EqDecision ZoneRelease.
Proof. solve_decision. Defined.
#[export] Instance ZoneAck_eq_dec : EqDecision ZoneAck.
Proof. solve_decision. Defined.
#[export] Instance NextTrackPrepare_eq_dec : EqDecision NextTrackPrepare.
Proof. solve_decision. Defined.
#[export] Instance NextTrackReady_eq_dec : EqDecision NextTrackReady.
Proof. solve_decision. Defined.
#[export] Instance NextTrackReformat_eq_dec : EqDecision NextTrackReformat.
Proof. solve_decision. Defined.
#[export] Instance EndpointRelease_eq_dec : EqDecision EndpointRelease.
Proof. solve_decision. Defined.
#[export] Instance ErrorMsg_eq_dec : EqDecision ErrorMsg.
Proof. solve_decision. Defined.
#[export] Instance Message_eq_dec : EqDecision Message.
Proof. solve_decision. Defined.

(** ** Framing

    [serde_json::to_vec] and [serde_json::from_slice] at type [Message]. *)
Class JsonCodec := {
  to_vec : Message → list Z;
  from_slice : list Z → result Message string
}.

(** What the code relies on for one message: it is read back from its text,
    which is a string of bytes. *)
Definition json_faithful `{JsonCodec} (m : Message) : Prop :=
  from_slice (to_vec m) = Ok m ∧ Forall is_u8 (to_vec m).

(** [Message::encode_framed]; [json.len() as u32] truncates. *)
Definition encode_framed `{JsonCodec} (m : Message) : list Z :=
  let json := to_vec m in
  to_be_bytes 4 (as_u 32 (len json)) ++ json.

(** [Message::decode_json]. *)
Definition decode_json `{JsonCodec} (json : list Z) : result Message string := from_slice json.
