(* ===== verification/Codec.v ===== *)
(** * The frame codec

    Models [crates/oaat-core/src/codec.rs]: an input buffer fed with chunks
    of a byte stream, from which length-prefixed messages are taken. *)

From S2P Require Import Prelude Session Message.

Local Open Scope Z_scope.

Definition MAX_FRAME_SIZE : Z := 16 * 1024 * 1024.

Record FrameCodec := mkCodec { buf : list Z }.

Definition FrameCodec_new : FrameCodec := {| buf := [] |}.

Definition feed (c : FrameCodec) (data : list Z) : FrameCodec :=
  {| buf := buf c ++ data |}.

Section codec.
Context `{JsonCodec}.

(** [FrameCodec::decode_next].  A frame that is too large stays in the
    buffer; a complete frame is removed before its JSON is parsed. *)
Definition decode_next (c : FrameCodec) : result (option Message) OaatError * FrameCodec :=
  if len (buf c) <? 4 then (Ok None, c)
  else
    let n := from_be_bytes (take 4 (buf c)) in
    if MAX_FRAME_SIZE <? n then (Err (MessageTooLarge n), c)
    else if len (buf c) <? 4 + n then (Ok None, c)
    else
      let rest := drop 4 (buf c) in
      let json_bytes := take (Z.to_nat n) rest in
      let c' := {| buf := drop (Z.to_nat n) rest |} in
      match decode_json json_bytes with
      | Ok msg => (Ok (Some msg), c')
      | Err e => (Err (Json e), c')
      end.

(** [FrameCodec::encode]. *)
Definition codec_encode (m : Message) : list Z := encode_framed m.

(** The readers' loop [while let Some(msg) = codec.decode_next()? { .. }]:
    the messages handled, then the codec left or the error returned. *)
Fixpoint decode_loop (fuel : nat) (c : FrameCodec) : list Message * result FrameCodec OaatError :=
  match fuel with
  | O => ([], Ok c)
  | S fuel =>
      match decode_next c with
      | (Err e, _) => ([], Err e)
      | (Ok None, c') => ([], Ok c')
      | (Ok (Some m), c') => let '(ms, r) := decode_loop fuel c' in (m :: ms, r)
      end
  end.

(** Every decoded frame takes at least four bytes, so this fuel is never
    exhausted: see [decode_all_eq]. *)
Definition decode_all (c : FrameCodec) : list Message * result FrameCodec OaatError :=
  decode_loop (S (length (buf c))) c.

(** The reader of a connection: each chunk read is fed, then the complete
    messages are handled; an error ends the connection. *)
Fixpoint read_stream (c : FrameCodec) (chunks : list (list Z))
  : list Message * result FrameCodec OaatError :=
  match chunks with
  | [] => ([], Ok c)
  | data :: chunks =>
      let '(ms, r) := decode_all (feed c data) in
      match r with
      | Ok c' => let '(ms', r') := read_stream c' chunks in (ms ++ ms', r')
      | Err e => (ms, Err e)
      end
  end.

(** ** Lemmas *)

Lemma decode_next_shrinks c m c' :
  decode_next c = (Ok (Some m), c') → (length (buf c') + 4 ≤ length (buf c))%nat.
Proof.
  unfold decode_next. intros Hd. repeat case_match; simplify_eq. simpl.
  rewrite !length_drop. unfold len in *. lia.
Qed.

Lemma decode_next_None c c' : decode_next c = (Ok None, c') → c' = c.
Proof. unfold decode_next. intros. by repeat case_match; simplify_eq. Qed.

Lemma decode_loop_more n c :
  (length (buf c) < n)%nat → decode_loop (S n) c = decode_loop n c.
Proof.
  revert c. induction n as [|n IH]; intros c Hn; [lia|]. cbn [decode_loop] in *.
  destruct (decode_next c) as [[[m|]|e] c'] eqn:E; try done.
  apply decode_next_shrinks in E. cbn [decode_loop] in IH. rewrite IH by lia. done.
Qed.

Lemma decode_loop_enough n c :
  (length (buf c) < n)%nat → decode_loop n c = decode_all c.
Proof.
  intros Hn. unfold decode_all. induction Hn as [|n Hn IH]; [done|].
  by rewrite decode_loop_more.
Qed.

(** The loop's equation: the fuel plays no part. *)
Lemma decode_all_eq c :
  decode_all c =
    match decode_next c with
    | (Err e, _) => ([], Err e)
    | (Ok None, c') => ([], Ok c')
    | (Ok (Some m), c') => let '(ms, r) := decode_all c' in (m :: ms, r)
    end.
Proof.
  unfold decode_all at 1. cbn [decode_loop].
  destruct (decode_next c) as [[[m|]|e] c'] eqn:E; try done.
  rewrite decode_loop_enough; [done|]. apply decode_next_shrinks in E. lia.
Qed.


(** What has been decided on a buffer is not changed by bytes that follow. *)
Lemma decode_next_feed c data :
  match decode_next c with
  | (Ok None, _) => True
  | (r, c') => decode_next (feed c data) = (r, if r is Err (MessageTooLarge _) then feed c data else feed c' data)
  end.
Proof.
  unfold decode_next. destruct (len (buf c) <? 4) eqn:E4; [done|].
  apply Z.ltb_ge in E4. cbn [feed buf].
  assert (take 4 (buf c ++ data) = take 4 (buf c)) as Et.
  { apply take_app_le. unfold len in E4. lia. }
  rewrite Et. set (n := from_be_bytes (take 4 (buf c))).
  destruct (MAX_FRAME_SIZE <? n) eqn:Em.
  { rewrite len_app. pose proof (len_nonneg data).
    by replace (len (buf c) + len data <? 4) with false by (symmetry; apply Z.ltb_ge; lia). }
  destruct (len (buf c) <? 4 + n) eqn:En; [done|]. apply Z.ltb_ge in En.
  rewrite len_app. pose proof (len_nonneg data).
  replace (len (buf c) + len data <? 4) with false by (symmetry; apply Z.ltb_ge; lia).
  replace (len (buf c) + len data <? 4 + n) with false by (symmetry; apply Z.ltb_ge; lia).
  unfold len in *.
  rewrite drop_app_le, take_app_le, drop_app_le by (rewrite ?length_drop; lia).
  by destruct (decode_json _).
Qed.

(** Draining a buffer, then draining what is left with more bytes, is
    draining the whole. *)
Lemma decode_all_feed c data :
  decode_all (feed c data) =
    let '(ms, r) := decode_all c in
    match r with
    | Ok c' => let '(ms', r') := decode_all (feed c' data) in (ms ++ ms', r')
    | Err e => (ms, Err e)
    end.
Proof.
  remember (length (buf c)) as n eqn:Hn. revert c Hn.
  induction (lt_wf n) as [n _ IH]; intros c ->.
  rewrite (decode_all_eq c). pose proof (decode_next_feed c data) as Hf.
  destruct (decode_next c) as [[[m|]|e] c'] eqn:E.
  - rewrite decode_all_eq, Hf. pose proof (decode_next_shrinks _ _ _ E).
    rewrite (IH (length (buf c'))) by (done || lia).
    destruct (decode_all c') as [ms [c''|e]]; [|done]. by destruct (decode_all (feed c'' data)).
  - apply decode_next_None in E as ->. by destruct (decode_all (feed c data)).
  - by rewrite decode_all_eq, Hf.
Qed.

Lemma feed_nil c : feed c [] = c.
Proof. destruct c as [b]. unfold feed. simpl. by rewrite app_nil_r. Qed.

Lemma feed_feed c d1 d2 : feed (feed c d1) d2 = feed c (d1 ++ d2).
Proof. unfold feed. simpl. by rewrite (assoc_L (++)). Qed.

Lemma read_stream_decode_all c chunks :
  chunks ≠ [] → read_stream c chunks = decode_all (feed c (concat chunks)).
Proof.
  revert c. induction chunks as [|d chunks IH]; intros c Hne; [done|]. cbn [read_stream concat].
  destruct (decide (chunks = [])) as [->|Hc].
  { cbn [read_stream concat]. rewrite app_nil_r.
    destruct (decode_all (feed c d)) as [ms [c'|e]]; [|done]. by rewrite app_nil_r. }
  rewrite <- feed_feed, (decode_all_feed (feed c d)).
  destruct (decode_all (feed c d)) as [ms [c'|e]]; [|done]. by rewrite IH.
Qed.

(** A buffer that starts with a whole frame of a faithful message. *)
Lemma decode_next_frame m rest :
  json_faithful m → len (to_vec m) ≤ MAX_FRAME_SIZE →
  decode_next {| buf := encode_framed m ++ rest |} = (Ok (Some m), {| buf := rest |}).
Proof.
  intros [Hrt _] Hlen. unfold decode_next, encode_framed. cbn [buf].
  pose proof (len_nonneg (to_vec m)). unfold MAX_FRAME_SIZE in *.
  rewrite as_u_id by range. rewrite <- (assoc_L (++)).
  rewrite take_app_length' by by rewrite to_be_bytes_length.
  rewrite drop_app_length' by by rewrite to_be_bytes_length.
  rewrite from_to_be_bytes by range. rewrite !len_app.
  assert (len (to_be_bytes 4 (len (to_vec m))) = 4) as -> by (unfold len at 1; by rewrite to_be_bytes_length).
  pose proof (len_nonneg rest).
  replace (4 + (len (to_vec m) + len rest) <? 4) with false by lia.
  replace (16 * 1024 * 1024 <? len (to_vec m)) with false by lia.
  replace (4 + (len (to_vec m) + len rest) <? 4 + len (to_vec m)) with false by lia.
  unfold len. rewrite !Nat2Z.id, take_app_length, drop_app_length.
  unfold decode_json. by rewrite Hrt.
Qed.

Lemma decode_all_frames ms tail :
  Forall json_faithful ms → Forall (λ m, len (to_vec m) ≤ MAX_FRAME_SIZE) ms →
  decode_next {| buf := tail |} = (Ok None, {| buf := tail |}) →
  decode_all {| buf := concat (encode_framed <$> ms) ++ tail |} = (ms, Ok {| buf := tail |}).
Proof.
  intros Hms Hlen Htail. revert Hlen. induction Hms as [|m ms Hm _ IH]; intros Hlen.
  { rewrite decode_all_eq. simpl. by rewrite Htail. }
  apply Forall_cons_1 in Hlen as [Hm' Hlen].
  rewrite decode_all_eq. cbn [fmap list_fmap concat]. rewrite <- (assoc_L (++)).
  rewrite decode_next_frame by done. by rewrite IH.
Qed.

(** ** Properties *)

(** C9 The reader is insensitive to how TCP cuts the stream: whatever the
    chunks, the messages handled and the outcome (the bytes left over, or
    the error that ended the connection) are those of reading the whole
    stream at once. *)
Theorem codec_chunking_irrelevant chunks1 chunks2 :
  chunks1 ≠ [] → chunks2 ≠ [] → concat chunks1 = concat chunks2 →
  read_stream FrameCodec_new chunks1 = read_stream FrameCodec_new chunks2.
Proof. intros. rewrite !read_stream_decode_all by done. by f_equal; f_equal. Qed.

(** Messages framed by the sender and cut into any chunks are handled
    exactly, once and in order, and an incomplete trailing frame stays in the
    buffer until its remaining bytes arrive. *)
Theorem codec_stream_roundtrip ms tail chunks :
  Forall json_faithful ms → Forall (λ m, len (to_vec m) ≤ MAX_FRAME_SIZE) ms →
  decode_next {| buf := tail |} = (Ok None, {| buf := tail |}) →
  chunks ≠ [] → concat chunks = concat (codec_encode <$> ms) ++ tail →
  read_stream FrameCodec_new chunks = (ms, Ok {| buf := tail |}).
Proof.
  intros Hms Hlen Htail Hne Heq. rewrite read_stream_decode_all, Heq by done.
  by apply decode_all_frames.
Qed.

(** An announced length above the limit is final: the error leaves the
    buffer as it was, so whatever arrives later every call fails again with
    the same error. *)
Theorem oversize_frame_is_final c n c' later :
  decode_next c = (Err (MessageTooLarge n), c') →
  c' = c ∧ decode_next (feed c later) = (Err (MessageTooLarge n), feed c later).
Proof.
  intros E. pose proof (decode_next_feed c later) as Hf. rewrite E in Hf. split; [|done].
  unfold decode_next in E. by repeat case_match; simplify_eq.
Qed.

End codec.

(** ** Witnesses

    A JSON codec defined on the volume messages, enough to run the codec. *)

Definition volume_json : JsonCodec := {|
  to_vec m := match m with MVolumeSet v => [1; vs_level v] | MVolumeGet => [2] | _ => [0] end;
  from_slice l :=
    match l with
    | [1; v] => Ok (MVolumeSet (mkVolumeSet v))
    | [2] => Ok MVolumeGet
    | _ => Err "expected value"%string
    end
|}.

Definition volume_stream : list (list Z) :=
  [[0; 0]; [0; 2; 1; 42; 0; 0; 0]; [1; 2; 0; 0; 0]].

Lemma codec_chunking_irrelevant_witness :
  @read_stream volume_json FrameCodec_new volume_stream
  = @read_stream volume_json FrameCodec_new [concat volume_stream].
Proof.
  apply (@codec_chunking_irrelevant volume_json); [discriminate|discriminate|reflexivity].
Defined.

Lemma codec_stream_roundtrip_witness :
  @read_stream volume_json FrameCodec_new volume_stream
  = ([MVolumeSet (mkVolumeSet 42); MVolumeGet], Ok {| buf := [0; 0; 0] |}).
Proof.
  apply (@codec_stream_roundtrip volume_json);
    [ | |reflexivity|discriminate|reflexivity].
  - repeat constructor; vm_compute; discriminate.
  - repeat constructor; vm_compute; discriminate.
Defined.

Lemma oversize_frame_is_final_witness :
  @decode_next volume_json (feed (mkCodec [1; 0; 0; 1]) [7; 7])
  = (Err (MessageTooLarge 16777217), mkCodec [1; 0; 0; 1; 7; 7]).
Proof.
  apply (@oversize_frame_is_final volume_json (mkCodec [1; 0; 0; 1]) 16777217
           (mkCodec [1; 0; 0; 1])).
  reflexivity.
Defined.
