(* ===== verification/MessageJson.v ===== *)
(** * The JSON form of the control messages

    Models what the [serde] attributes of [crates/oaat-core/src/message.rs] and
    [format.rs] say: the keys, names and order in which a message is written,
    and what is read back, with the defaults of absent fields.  The type
    [Json] is the value; its text is the work of [serde_json], the class
    [JsonText], and the two together are an instance of [JsonCodec].

    Reading follows the derived code: unknown keys are ignored, a known key
    given twice is an error, a struct may be given as an array of its fields,
    and a variant without data as an object with that one key. *)

From S2P Require Import Prelude Format Message Codec.

Local Open Scope Z_scope.

(** [JReal]: a number with a fraction or an exponent, or out of the range of
    64 bits; no field has one. *)
#[local] Set Warnings "-register-all".
Inductive Json :=
| JNull
| JBool (b : bool)
| JNum (z : Z)
| JReal (text : string)
| JStr (s : string)
| JArr (l : list Json)
| JObj (kvs : list (string * Json)).

(** ** Reading fields *)

Definition j_uint (w : Z) (j : Json) : option Z :=
  match j with JNum z => if bool_decide (in_u w z) then Some z else None | _ => None end.
Definition j_i64 (j : Json) : option Z :=
  match j with JNum z => if bool_decide (is_i64 z) then Some z else None | _ => None end.
Definition j_bool (j : Json) : option bool := match j with JBool b => Some b | _ => None end.
Definition j_str (j : Json) : option string := match j with JStr s => Some s | _ => None end.
Definition j_option {A} (f : Json → option A) (j : Json) : option (option A) :=
  match j with JNull => Some None | j => Some <$> f j end.
Definition j_list {A} (f : Json → option A) (j : Json) : option (list A) :=
  match j with JArr l => mapM f l | _ => None end.

Fixpoint lookup_key {A} (s : string) (l : list (string * A)) : option A :=
  match l with [] => None | (k, a) :: l => if String.eqb k s then Some a else lookup_key s l end.

(** A variant without data. *)
Definition j_variant {A} (names : list (string * A)) (j : Json) : option A :=
  match j with
  | JStr s => lookup_key s names
  | JObj [(s, JNull)] => lookup_key s names
  | _ => None
  end.

(** The fields of a struct by name. *)
Fixpoint occurrences {A} (s : string) (l : list (string * A)) : nat :=
  match l with [] => 0 | (k, _) :: l => (if String.eqb k s then 1 else 0) + occurrences s l end.

Fixpoint positional (names : list string) (l : list Json) (s : string) : option Json :=
  match names, l with
  | n :: names, j :: l => if String.eqb n s then Some j else positional names l s
  | _, _ => None
  end.

Definition j_struct (names : list string) (j : Json) : option (string → option Json) :=
  match j with
  | JObj kvs => if forallb (λ n, (occurrences n kvs <=? 1)%nat) names then Some (λ s, lookup_key s kvs) else None
  | JArr l => if (length l <=? length names)%nat then Some (positional names l) else None
  | _ => None
  end.

(** A field, and one with [#[serde(default)]]. *)
Definition required {A} (f : Json → option A) (o : option Json) : option A := o ≫= f.
Definition defaulted {A} (f : Json → option A) (d : A) (o : option Json) : option A :=
  match o with None => Some d | Some j => f j end.

(** ** Names *)

Definition format_names : list (string * AudioFormat) :=
  [("PCM_S16LE", PcmS16le); ("PCM_S24LE", PcmS24le); ("PCM_S24LE4", PcmS24le4); ("PCM_S32LE", PcmS32le);
   ("PCM_F32LE", PcmF32le); ("DSD_U8", DsdU8); ("DSD_U16LE", DsdU16le); ("DSD_U32LE", DsdU32le);
   ("FLAC", Flac); ("OPUS", Opus); ("TRUE_HD", TrueHd); ("EAC3", Eac3)]%string.
Definition layout_names : list (string * ChannelLayout) :=
  [("mono", Mono); ("stereo", Stereo); ("2.1", TwoPointOne); ("quad", Quad); ("5.1", FivePointOne);
   ("7.1", SevenPointOne); ("5.1.2", FivePointOnePointTwo); ("5.1.4", FivePointOnePointFour);
   ("7.1.2", SevenPointOnePointTwo); ("7.1.4", SevenPointOnePointFour); ("7.1.6", SevenPointOnePointSix)]%string.
Definition volume_type_names : list (string * VolumeType) :=
  [("hw", Hw); ("sw", Sw); ("fixed", Fixed); ("none", NoVolume)]%string.

Fixpoint name_of {A} `{EqDecision A} (a : A) (names : list (string * A)) : string :=
  match names with [] => "" | (k, b) :: names => if bool_decide (a = b) then k else name_of a names end.

Definition format_json (f : AudioFormat) : Json := JStr (name_of f format_names).
Definition layout_json (l : ChannelLayout) : Json := JStr (name_of l layout_names).
Definition volume_type_json (v : VolumeType) : Json := JStr (name_of v volume_type_names).
Definition reason_json (r : ReleaseReason) : Json :=
  JStr (match r with LocalSource => "local_source" | OtherReason => "other" end).

Definition json_format : Json → option AudioFormat := j_variant format_names.
Definition json_layout : Json → option ChannelLayout := j_variant layout_names.
Definition json_volume_type : Json → option VolumeType := j_variant volume_type_names.

(** [#[serde(other)]]: any other name is [Other]. *)
Definition json_reason (j : Json) : option ReleaseReason :=
  s ← match j with JStr s => Some s | JObj [(s, JNull)] => Some s | _ => None end;
  Some (if String.eqb s "local_source" then LocalSource else OtherReason).

Definition option_json {A} (f : A → Json) (o : option A) : Json := match o with Some a => f a | None => JNull end.
Definition strings_json (l : list string) : Json := JArr (JStr <$> l).

(** ** The structs *)

Definition volume_cap_json (v : VolumeCapability) : Json :=
  JObj [("type", volume_type_json (vol_type v)); ("range", JArr [JNum (vol_range v).1; JNum (vol_range v).2]); ("step", JNum (vol_step v))]%string.
Definition json_range (j : Json) : option (Z * Z) :=
  match j with JArr [a; b] => a ← j_uint 8 a; b ← j_uint 8 b; Some (a, b) | _ => None end.
Definition json_volume_cap (j : Json) : option VolumeCapability :=
  f ← j_struct ["type"; "range"; "step"]%string j;
  t ← required json_volume_type (f "type"%string); r ← required json_range (f "range"%string); s ← required (j_uint 8) (f "step"%string);
  Some (mkVolumeCapability t r s).

Definition capabilities_json (c : EndpointCapabilities) : Json :=
  JObj [("pcm_max_rate", JNum (pcm_max_rate c)); ("pcm_max_bits", JNum (pcm_max_bits c));
        ("dsd_max_rate", option_json JNum (dsd_max_rate c)); ("channels_max", JNum (channels_max c));
        ("formats", JArr (format_json <$> formats c)); ("volume", option_json volume_cap_json (volume_cap c));
        ("gapless", JBool (gapless c)); ("seek", JBool (seek c))]%string.
Definition json_capabilities (j : Json) : option EndpointCapabilities :=
  (f ← j_struct ["pcm_max_rate"; "pcm_max_bits"; "dsd_max_rate"; "channels_max"; "formats"; "volume"; "gapless"; "seek"] j;
   rate ← required (j_uint 32) (f "pcm_max_rate"); bits ← required (j_uint 8) (f "pcm_max_bits");
   dsd ← defaulted (j_option (j_uint 16)) None (f "dsd_max_rate"); channels ← required (j_uint 8) (f "channels_max");
   fs ← required (j_list json_format) (f "formats"); v ← defaulted (j_option json_volume_cap) None (f "volume");
   g ← defaulted j_bool false (f "gapless"); s ← defaulted j_bool false (f "seek");
   Some (mkCapabilities rate bits dsd channels fs v g s))%string.

Definition track_json (t : TrackMetadata) : Json :=
  JObj [("title", JStr (title t)); ("artist", JStr (artist t)); ("album", JStr (album t)); ("duration_ms", JNum (duration_ms t));
        ("artwork_url", option_json JStr (artwork_url t)); ("format", option_json JStr (track_format t))]%string.
Definition json_track (j : Json) : option TrackMetadata :=
  (f ← j_struct ["title"; "artist"; "album"; "duration_ms"; "artwork_url"; "format"] j;
   t ← required j_str (f "title"); ar ← required j_str (f "artist"); al ← required j_str (f "album"); d ← required (j_uint 64) (f "duration_ms");
   u ← defaulted (j_option j_str) None (f "artwork_url"); fm ← defaulted (j_option j_str) None (f "format");
   Some (mkTrackMetadata t ar al d u fm))%string.

(** ** The messages *)

(** [#[serde(tag = 'type')]]: the name of the variant, then its fields; an empty
    list of features of the acknowledgement is left out. *)
Definition message_fields (m : Message) : string * list (string * Json) :=
  (match m with
  | MHello m =>
      ("hello", [("protocol_version", JNum (hello_protocol_version m)); ("controller_id", JStr (controller_id m));
       ("controller_name", JStr (controller_name m)); ("clock_port", JNum (hello_clock_port m)); ("features", strings_json
       (hello_features m))])
  | MHelloAck m =>
      ("hello_ack", app [("protocol_version", JNum (ack_protocol_version m)); ("endpoint_id", JStr (ack_endpoint_id m));
       ("endpoint_name", JStr (ack_endpoint_name m)); ("capabilities", capabilities_json (capabilities m)); ("audio_port",
       JNum (ack_audio_port m)); ("clock_port", JNum (ack_clock_port m)); ("buffer_size_ms", JNum (ack_buffer_size_ms m))] 
       (if bool_decide (ack_features m = []) then [] else [("features", strings_json (ack_features m))]))
  | MFormatPropose m =>
      ("format_propose", [("stream_id", JStr (fp_stream_id m)); ("format", format_json (fp_format m)); ("sample_rate", JNum
       (fp_sample_rate m)); ("channels", JNum (fp_channels m)); ("channel_layout", layout_json (fp_channel_layout m));
       ("bits_per_sample", JNum (fp_bits_per_sample m)); ("dsd_rate", option_json JNum (fp_dsd_rate m))])
  | MFormatAccept m =>
      ("format_accept", [("stream_id", JStr (fa_stream_id m))])
  | MFormatCounter m =>
      ("format_counter", [("stream_id", JStr (fc_stream_id m)); ("format", format_json (fc_format m)); ("sample_rate", JNum
       (fc_sample_rate m)); ("channels", JNum (fc_channels m)); ("channel_layout", layout_json (fc_channel_layout m));
       ("bits_per_sample", JNum (fc_bits_per_sample m)); ("dsd_rate", option_json JNum (fc_dsd_rate m))])
  | MFormatReject m =>
      ("format_reject", [("stream_id", JStr (fr_stream_id m)); ("reason", JStr (fr_reason m))])
  | MPlay m =>
      ("play", [("stream_id", JStr (play_stream_id m))])
  | MPause m =>
      ("pause", [("stream_id", JStr (pause_stream_id m))])
  | MStop m =>
      ("stop", [("stream_id", JStr (stop_stream_id m))])
  | MSeek m =>
      ("seek", [("stream_id", JStr (seek_stream_id m)); ("position_ms", JNum (position_ms m))])
  | MVolumeSet m =>
      ("volume_set", [("level", JNum (vs_level m))])
  | MVolumeGet => ("volume_get", [])
  | MVolumeReport m =>
      ("volume_report", [("level", JNum (vr_level m)); ("muted", JBool (vr_muted m))])
  | MMute m =>
      ("mute", [("muted", JBool (mute_muted m))])
  | MMetadata m =>
      ("metadata", [("track", track_json (md_track m))])
  | MZoneAssign m =>
      ("zone_assign", [("zone_id", JStr (za_zone_id m)); ("endpoint_id", JStr (za_endpoint_id m))])
  | MZoneUpdate m =>
      ("zone_update", [("zone_id", JStr (zu_zone_id m)); ("endpoint_ids", strings_json (zu_endpoint_ids m))])
  | MZoneRelease m =>
      ("zone_release", [("zone_id", JStr (zr_zone_id m)); ("endpoint_id", JStr (zr_endpoint_id m))])
  | MZoneAck m =>
      ("zone_ack", [("zone_id", JStr (zk_zone_id m)); ("endpoint_id", JStr (zk_endpoint_id m)); ("accepted", JBool
       (zk_accepted m)); ("reason", option_json JStr (zk_reason m))])
  | MNextTrackPrepare m =>
      ("next_track_prepare", [("stream_id", JStr (np_stream_id m)); ("format", format_json (np_format m)); ("sample_rate",
       JNum (np_sample_rate m)); ("channels", JNum (np_channels m)); ("channel_layout", layout_json (np_channel_layout m));
       ("bits_per_sample", JNum (np_bits_per_sample m))])
  | MNextTrackReady m =>
      ("next_track_ready", [("stream_id", JStr (nr_stream_id m))])
  | MNextTrackReformat m =>
      ("next_track_reformat", [("stream_id", JStr (nf_stream_id m)); ("format", format_json (nf_format m)); ("sample_rate",
       JNum (nf_sample_rate m))])
  | MStreamStats m =>
      ("stream_stats", [("stream_id", JStr (ss_stream_id m)); ("buffer_frames", JNum (ss_buffer_frames m)); ("drift_us",
       JNum (ss_drift_us m)); ("corrections_net_frames", JNum (ss_corrections_net_frames m)); ("packets_lost", JNum
       (ss_packets_lost m)); ("packets_recovered", JNum (ss_packets_recovered m)); ("bit_perfect", JBool (ss_bit_perfect m));
       ("underruns", JNum (ss_underruns m))])
  | MEndpointRelease m =>
      ("endpoint_release", [("stream_id", JStr (er_stream_id m)); ("reason", reason_json (er_reason m))])
  | MError m =>
      ("error", [("code", JNum (err_code m)); ("message", JStr (err_message m))])
  end)%string.

Definition to_json (m : Message) : Json :=
  let '(tag, fields) := message_fields m in JObj (("type"%string, JStr tag) :: fields).

(** ** Reading a message *)

Definition json_hello (j : Json) : option Message :=
  (f ← j_struct ["protocol_version"; "controller_id"; "controller_name"; "clock_port"; "features"] j;
   x0 ← required (j_uint 32) (f "protocol_version"); x1 ← required j_str (f "controller_id"); x2 ← required j_str (f
   "controller_name"); x3 ← required (j_uint 16) (f "clock_port"); x4 ← defaulted (j_list j_str) [] (f "features");
   Some (MHello (mkHello x0 x1 x2 x3 x4)))%string.
Definition json_hello_ack (j : Json) : option Message :=
  (f ← j_struct ["protocol_version"; "endpoint_id"; "endpoint_name"; "capabilities"; "audio_port"; "clock_port"; "buffer_size_ms"; "features"] j;
   x0 ← required (j_uint 32) (f "protocol_version"); x1 ← required j_str (f "endpoint_id"); x2 ← required j_str (f
   "endpoint_name"); x3 ← required json_capabilities (f "capabilities"); x4 ← required (j_uint 16) (f "audio_port"); x5 ←
   required (j_uint 16) (f "clock_port"); x6 ← required (j_uint 32) (f "buffer_size_ms"); x7 ← defaulted (j_list j_str) [] (f
   "features");
   Some (MHelloAck (mkHelloAck x0 x1 x2 x3 x4 x5 x6 x7)))%string.
Definition json_format_propose (j : Json) : option Message :=
  (f ← j_struct ["stream_id"; "format"; "sample_rate"; "channels"; "channel_layout"; "bits_per_sample"; "dsd_rate"] j;
   x0 ← required j_str (f "stream_id"); x1 ← required json_format (f "format"); x2 ← required (j_uint 32) (f "sample_rate"); x3
   ← required (j_uint 8) (f "channels"); x4 ← required json_layout (f "channel_layout"); x5 ← required (j_uint 8) (f
   "bits_per_sample"); x6 ← defaulted (j_option (j_uint 16)) None (f "dsd_rate");
   Some (MFormatPropose (mkFormatPropose x0 x1 x2 x3 x4 x5 x6)))%string.
Definition json_format_accept (j : Json) : option Message :=
  (f ← j_struct ["stream_id"] j;
   x0 ← required j_str (f "stream_id");
   Some (MFormatAccept (mkFormatAccept x0)))%string.
Definition json_format_counter (j : Json) : option Message :=
  (f ← j_struct ["stream_id"; "format"; "sample_rate"; "channels"; "channel_layout"; "bits_per_sample"; "dsd_rate"] j;
   x0 ← required j_str (f "stream_id"); x1 ← required json_format (f "format"); x2 ← required (j_uint 32) (f "sample_rate"); x3
   ← required (j_uint 8) (f "channels"); x4 ← required json_layout (f "channel_layout"); x5 ← required (j_uint 8) (f
   "bits_per_sample"); x6 ← defaulted (j_option (j_uint 16)) None (f "dsd_rate");
   Some (MFormatCounter (mkFormatCounter x0 x1 x2 x3 x4 x5 x6)))%string.
Definition json_format_reject (j : Json) : option Message :=
  (f ← j_struct ["stream_id"; "reason"] j;
   x0 ← required j_str (f "stream_id"); x1 ← required j_str (f "reason");
   Some (MFormatReject (mkFormatReject x0 x1)))%string.
Definition json_play (j : Json) : option Message :=
  (f ← j_struct ["stream_id"] j;
   x0 ← required j_str (f "stream_id");
   Some (MPlay (mkPlay x0)))%string.
Definition json_pause (j : Json) : option Message :=
  (f ← j_struct ["stream_id"] j;
   x0 ← required j_str (f "stream_id");
   Some (MPause (mkPause x0)))%string.
Definition json_stop (j : Json) : option Message :=
  (f ← j_struct ["stream_id"] j;
   x0 ← required j_str (f "stream_id");
   Some (MStop (mkStop x0)))%string.
Definition json_seek (j : Json) : option Message :=
  (f ← j_struct ["stream_id"; "position_ms"] j;
   x0 ← required j_str (f "stream_id"); x1 ← required (j_uint 64) (f "position_ms");
   Some (MSeek (mkSeek x0 x1)))%string.
Definition json_volume_set (j : Json) : option Message :=
  (f ← j_struct ["level"] j;
   x0 ← required (j_uint 8) (f "level");
   Some (MVolumeSet (mkVolumeSet x0)))%string.
Definition json_volume_get (j : Json) : option Message := f ← j_struct [] j; Some MVolumeGet.
Definition json_volume_report (j : Json) : option Message :=
  (f ← j_struct ["level"; "muted"] j;
   x0 ← required (j_uint 8) (f "level"); x1 ← required j_bool (f "muted");
   Some (MVolumeReport (mkVolumeReport x0 x1)))%string.
Definition json_mute (j : Json) : option Message :=
  (f ← j_struct ["muted"] j;
   x0 ← required j_bool (f "muted");
   Some (MMute (mkMute x0)))%string.
Definition json_metadata (j : Json) : option Message :=
  (f ← j_struct ["track"] j;
   x0 ← required json_track (f "track");
   Some (MMetadata (mkMetadata x0)))%string.
Definition json_zone_assign (j : Json) : option Message :=
  (f ← j_struct ["zone_id"; "endpoint_id"] j;
   x0 ← required j_str (f "zone_id"); x1 ← required j_str (f "endpoint_id");
   Some (MZoneAssign (mkZoneAssign x0 x1)))%string.
Definition json_zone_update (j : Json) : option Message :=
  (f ← j_struct ["zone_id"; "endpoint_ids"] j;
   x0 ← required j_str (f "zone_id"); x1 ← required (j_list j_str) (f "endpoint_ids");
   Some (MZoneUpdate (mkZoneUpdate x0 x1)))%string.
Definition json_zone_release (j : Json) : option Message :=
  (f ← j_struct ["zone_id"; "endpoint_id"] j;
   x0 ← required j_str (f "zone_id"); x1 ← required j_str (f "endpoint_id");
   Some (MZoneRelease (mkZoneRelease x0 x1)))%string.
Definition json_zone_ack (j : Json) : option Message :=
  (f ← j_struct ["zone_id"; "endpoint_id"; "accepted"; "reason"] j;
   x0 ← required j_str (f "zone_id"); x1 ← required j_str (f "endpoint_id"); x2 ← required j_bool (f "accepted"); x3 ← defaulted
   (j_option j_str) None (f "reason");
   Some (MZoneAck (mkZoneAck x0 x1 x2 x3)))%string.
Definition json_next_track_prepare (j : Json) : option Message :=
  (f ← j_struct ["stream_id"; "format"; "sample_rate"; "channels"; "channel_layout"; "bits_per_sample"] j;
   x0 ← required j_str (f "stream_id"); x1 ← required json_format (f "format"); x2 ← required (j_uint 32) (f "sample_rate"); x3
   ← required (j_uint 8) (f "channels"); x4 ← required json_layout (f "channel_layout"); x5 ← required (j_uint 8) (f
   "bits_per_sample");
   Some (MNextTrackPrepare (mkNextTrackPrepare x0 x1 x2 x3 x4 x5)))%string.
Definition json_next_track_ready (j : Json) : option Message :=
  (f ← j_struct ["stream_id"] j;
   x0 ← required j_str (f "stream_id");
   Some (MNextTrackReady (mkNextTrackReady x0)))%string.
Definition json_next_track_reformat (j : Json) : option Message :=
  (f ← j_struct ["stream_id"; "format"; "sample_rate"] j;
   x0 ← required j_str (f "stream_id"); x1 ← required json_format (f "format"); x2 ← required (j_uint 32) (f "sample_rate");
   Some (MNextTrackReformat (mkNextTrackReformat x0 x1 x2)))%string.
Definition json_stream_stats (j : Json) : option Message :=
  (f ← j_struct ["stream_id"; "buffer_frames"; "drift_us"; "corrections_net_frames"; "packets_lost"; "packets_recovered"; "bit_perfect"; "underruns"] j;
   x0 ← required j_str (f "stream_id"); x1 ← required (j_uint 64) (f "buffer_frames"); x2 ← required j_i64 (f "drift_us"); x3 ←
   required j_i64 (f "corrections_net_frames"); x4 ← required (j_uint 64) (f "packets_lost"); x5 ← required (j_uint 64) (f
   "packets_recovered"); x6 ← required j_bool (f "bit_perfect"); x7 ← defaulted (j_uint 64) 0 (f "underruns");
   Some (MStreamStats (mkStreamStats x0 x1 x2 x3 x4 x5 x6 x7)))%string.
Definition json_endpoint_release (j : Json) : option Message :=
  (f ← j_struct ["stream_id"; "reason"] j;
   x0 ← required j_str (f "stream_id"); x1 ← required json_reason (f "reason");
   Some (MEndpointRelease (mkEndpointRelease x0 x1)))%string.
Definition json_error_msg (j : Json) : option Message :=
  (f ← j_struct ["code"; "message"] j;
   x0 ← required (j_uint 32) (f "code"); x1 ← required j_str (f "message");
   Some (MError (mkErrorMsg x0 x1)))%string.

Definition variants : list (string * (Json → option Message)) :=
  [("hello", json_hello);
   ("hello_ack", json_hello_ack);
   ("format_propose", json_format_propose);
   ("format_accept", json_format_accept);
   ("format_counter", json_format_counter);
   ("format_reject", json_format_reject);
   ("play", json_play);
   ("pause", json_pause);
   ("stop", json_stop);
   ("seek", json_seek);
   ("volume_set", json_volume_set);
   ("volume_get", json_volume_get);
   ("volume_report", json_volume_report);
   ("mute", json_mute);
   ("metadata", json_metadata);
   ("zone_assign", json_zone_assign);
   ("zone_update", json_zone_update);
   ("zone_release", json_zone_release);
   ("zone_ack", json_zone_ack);
   ("next_track_prepare", json_next_track_prepare);
   ("next_track_ready", json_next_track_ready);
   ("next_track_reformat", json_next_track_reformat);
   ("stream_stats", json_stream_stats);
   ("endpoint_release", json_endpoint_release);
   ("error", json_error_msg)]%string.

(** The tag, which must be given once, and the rest. *)
Definition j_tagged (j : Json) : option (string * Json) :=
  match j with
  | JObj kvs =>
      if (occurrences "type" kvs =? 1)%nat then
        t ← lookup_key "type"%string kvs ≫= j_str; Some (t, JObj (List.filter (λ kv, negb (String.eqb kv.1 "type")) kvs))
      else None
  | JArr (JStr t :: l) => Some (t, JArr l)
  | _ => None
  end.

Definition of_json (j : Json) : option Message :=
  '(t, content) ← j_tagged j; decode ← lookup_key t variants; decode content.

(** ** Specification: messages in range *)

Definition volume_cap_ok (v : VolumeCapability) : Prop := is_u8 (vol_range v).1 ∧ is_u8 (vol_range v).2 ∧ is_u8 (vol_step v).
Definition capabilities_ok (c : EndpointCapabilities) : Prop :=
  is_u32 (pcm_max_rate c) ∧ is_u8 (pcm_max_bits c) ∧ from_option is_u16 True (dsd_max_rate c) ∧ is_u8 (channels_max c) ∧
  from_option volume_cap_ok True (volume_cap c).

(** Every integer within the width of its field. *)
Definition message_ok (m : Message) : Prop :=
  match m with
  | MHello m => is_u32 (hello_protocol_version m) ∧ is_u16 (hello_clock_port m)
  | MHelloAck m => is_u32 (ack_protocol_version m) ∧ capabilities_ok (capabilities m) ∧ is_u16 (ack_audio_port m) ∧ is_u16 (ack_clock_port m) ∧ is_u32 (ack_buffer_size_ms m)
  | MFormatPropose m => is_u32 (fp_sample_rate m) ∧ is_u8 (fp_channels m) ∧ is_u8 (fp_bits_per_sample m) ∧ from_option is_u16 True (fp_dsd_rate m)
  | MFormatCounter m => is_u32 (fc_sample_rate m) ∧ is_u8 (fc_channels m) ∧ is_u8 (fc_bits_per_sample m) ∧ from_option is_u16 True (fc_dsd_rate m)
  | MSeek m => is_u64 (position_ms m)
  | MVolumeSet m => is_u8 (vs_level m)
  | MVolumeReport m => is_u8 (vr_level m)
  | MMetadata m => is_u64 (duration_ms (md_track m))
  | MNextTrackPrepare m => is_u32 (np_sample_rate m) ∧ is_u8 (np_channels m) ∧ is_u8 (np_bits_per_sample m)
  | MNextTrackReformat m => is_u32 (nf_sample_rate m)
  | MStreamStats m => is_u64 (ss_buffer_frames m) ∧ is_i64 (ss_drift_us m) ∧ is_i64 (ss_corrections_net_frames m) ∧ is_u64 (ss_packets_lost m) ∧ is_u64 (ss_packets_recovered m) ∧ is_u64 (ss_underruns m)
  | MError m => is_u32 (err_code m)
  | _ => True
  end.

(** ** Lemmas *)

Lemma j_uint_num w z : in_u w z → j_uint w (JNum z) = Some z.
Proof. intros H. unfold j_uint. by rewrite bool_decide_eq_true_2. Qed.
Lemma j_i64_num z : is_i64 z → j_i64 (JNum z) = Some z.
Proof. intros H. unfold j_i64. by rewrite bool_decide_eq_true_2. Qed.

Lemma j_uint_range w j z : j_uint w j = Some z → in_u w z.
Proof. unfold j_uint. destruct j; try done. case_bool_decide; [by intros [= <-]|done]. Qed.
Lemma j_i64_range j z : j_i64 j = Some z → is_i64 z.
Proof. unfold j_i64. destruct j; try done. case_bool_decide; [by intros [= <-]|done]. Qed.

Lemma j_format_name f : json_format (format_json f) = Some f.
Proof. by destruct f. Qed.
Lemma j_layout_name l : json_layout (layout_json l) = Some l.
Proof. by destruct l. Qed.
Lemma j_volume_type_name v : json_volume_type (volume_type_json v) = Some v.
Proof. by destruct v. Qed.
Lemma j_reason_name r : json_reason (reason_json r) = Some r.
Proof. by destruct r. Qed.

Lemma j_list_map {A} (f : Json → option A) (g : A → Json) l : (∀ a, f (g a) = Some a) → j_list f (JArr (g <$> l)) = Some l.
Proof.
  intros Hfg. cbn [j_list]. apply mapM_Some_2. induction l as [|a l IH]; constructor; auto.
Qed.

Lemma j_strings l : j_list j_str (strings_json l) = Some l.
Proof. by apply j_list_map. Qed.

Lemma j_option_some {A} (f : Json → option A) (g : A → Json) (P : A → Prop) o :
  (∀ a, g a ≠ JNull) → (∀ a, P a → f (g a) = Some a) → from_option P True o → j_option f (option_json g o) = Some o.
Proof.
  intros Hnull Hfg HP. destruct o as [a|]; [|done]. cbn in *. specialize (Hfg a HP). specialize (Hnull a). unfold j_option.
  destruct (g a); [done|..]; by rewrite Hfg.
Qed.

Lemma j_option_uint w o : from_option (in_u w) True o → j_option (j_uint w) (option_json JNum o) = Some o.
Proof. apply j_option_some; [done|]. intros a. apply j_uint_num. Qed.
Lemma j_option_str o : j_option j_str (option_json JStr o) = Some o.
Proof. apply (j_option_some _ _ (λ _, True)); [done|done|]. by destruct o. Qed.

(** A struct written as an object of its own keys, read field by field. *)
#[local] Arguments j_uint : simpl never.
#[local] Arguments j_i64 : simpl never.
#[local] Arguments j_option : simpl never.
#[local] Arguments j_list : simpl never.
#[local] Arguments json_format : simpl never.
#[local] Arguments json_layout : simpl never.
#[local] Arguments json_volume_type : simpl never.
#[local] Arguments json_reason : simpl never.
#[local] Arguments json_range : simpl never.
#[local] Arguments json_volume_cap : simpl never.
#[local] Arguments json_capabilities : simpl never.
#[local] Arguments json_track : simpl never.
#[local] Arguments format_json : simpl never.
#[local] Arguments layout_json : simpl never.
#[local] Arguments volume_type_json : simpl never.
#[local] Arguments reason_json : simpl never.
#[local] Arguments strings_json : simpl never.
#[local] Arguments option_json : simpl never.
#[local] Arguments capabilities_json : simpl never.
#[local] Arguments track_json : simpl never.
#[local] Arguments volume_cap_json : simpl never.

(** A value read back, for the kinds of fields. *)
Ltac json_value :=
  first [ rewrite j_format_name | rewrite j_layout_name | rewrite j_volume_type_name | rewrite j_reason_name | rewrite j_strings
        | rewrite j_option_str | rewrite j_uint_num by done | rewrite j_i64_num by done | rewrite j_option_uint by done ]; cbn.
Ltac json_fields := cbn; repeat json_value.

Lemma j_range a b : is_u8 a → is_u8 b → json_range (JArr [JNum a; JNum b]) = Some (a, b).
Proof. intros Ha Hb. unfold json_range. by json_fields. Qed.

Lemma j_volume_cap_json v : volume_cap_ok v → json_volume_cap (volume_cap_json v) = Some v.
Proof.
  destruct v as [t [a b] s]. intros (Ha & Hb & Hs). cbn in Ha, Hb, Hs. unfold json_volume_cap, volume_cap_json.
  json_fields. rewrite j_range by done. cbn. by json_fields.
Qed.

Lemma j_capabilities_json c : capabilities_ok c → json_capabilities (capabilities_json c) = Some c.
Proof.
  destruct c as [rate bits dsd ch fs v g s]. intros (H1 & H2 & H3 & H4 & H5). cbn in H1, H2, H3, H4, H5. unfold json_capabilities, capabilities_json.
  json_fields. rewrite j_list_map by apply j_format_name. cbn.
  by rewrite (j_option_some _ _ volume_cap_ok) by (done || apply j_volume_cap_json).
Qed.

Lemma j_track_json t : is_u64 (duration_ms t) → json_track (track_json t) = Some t.
Proof. destruct t as [a b c d u f]. cbn. intros Hd. unfold json_track, track_json. by json_fields. Qed.

(** ** Whole messages *)

Lemma occurrences_filter kvs : occurrences (A := Json) "type" kvs = 0%nat → List.filter (λ kv, negb (String.eqb kv.1 "type")) kvs = kvs.
Proof.
  induction kvs as [|[k j] kvs IH]; [done|]. cbn. destruct (String.eqb k "type"); [done|]. cbn. intros H. by rewrite IH.
Qed.

Lemma j_tagged_fields tag fields :
  occurrences "type" fields = 0%nat → j_tagged (JObj (("type"%string, JStr tag) :: fields)) = Some (tag, JObj fields).
Proof. intros H. unfold j_tagged. cbn. rewrite H. cbn. by rewrite occurrences_filter. Qed.

Lemma message_fields_untagged m : occurrences "type" (message_fields m).2 = 0%nat.
Proof. destruct m as [|m| | | | | | | | | | | | | | | | | | | | | | |]; try done. cbn. by case_bool_decide. Qed.

Lemma of_json_fields m : of_json (to_json m) = (let '(tag, fields) := message_fields m in decode ← lookup_key tag variants; decode (JObj fields)).
Proof.
  unfold of_json, to_json. pose proof (message_fields_untagged m) as H. destruct (message_fields m) as [tag fields]. by rewrite j_tagged_fields.
Qed.

Lemma message_read m : message_ok m → of_json (to_json m) = Some m.
Proof.
  intros Hm. rewrite of_json_fields. destruct m as [m|m|m|m|m|m|m|m|m|m|m| |m|m|m|m|m|m|m|m|m|m|m|m|m]; cbn in Hm; destruct_and?;
    try destruct m; try (unfold message_fields; cbn [lookup_key variants String.eqb Ascii.eqb Bool.eqb]).
  all: cbn; try case_bool_decide; subst; cbn;
    repeat first [json_value | rewrite j_capabilities_json by done; cbn | rewrite j_track_json by done; cbn]; done.
Qed.

(** *** What is read is in range *)

Lemma lookup_key_in {A} s (l : list (string * A)) a : lookup_key s l = Some a → (s, a) ∈ l.
Proof.
  induction l as [|[k b] l IH]; [done|]. cbn. destruct (String.eqb_spec k s) as [->|]; [intros [= ->]; left|intros H; right; by apply IH].
Qed.

Lemma j_option_range {A} (f : Json → option A) (P : A → Prop) j o :
  (∀ j a, f j = Some a → P a) → j_option f j = Some o → from_option P True o.
Proof.
  intros Hf. unfold j_option. destruct j; (intros [= <-]; done) || (destruct (f _) as [a|] eqn:E; [|done]; intros [= <-]; by apply Hf in E).
Qed.

Lemma required_inv {A} (f : Json → option A) o a : required f o = Some a → ∃ j, f j = Some a.
Proof. destruct o as [j|]; [|done]. by exists j. Qed.
Lemma defaulted_inv {A} (f : Json → option A) d o a : defaulted f d o = Some a → a = d ∨ ∃ j, f j = Some a.
Proof. destruct o as [j|]; [|by intros [= ->]; left]. right. by exists j. Qed.

(** The ranges that come with a field that was read. *)
Lemma required_uint w o z : required (j_uint w) o = Some z → in_u w z.
Proof. intros [j H]%required_inv. by eapply j_uint_range. Qed.
Lemma required_i64 o z : required j_i64 o = Some z → is_i64 z.
Proof. intros [j H]%required_inv. by eapply j_i64_range. Qed.
Lemma defaulted_uint w o z : 0 ≤ w → defaulted (j_uint w) 0 o = Some z → in_u w z.
Proof.
  intros Hw [->|[j H]]%defaulted_inv; [|by eapply j_uint_range]. split; [done|]. by apply Z.pow_pos_nonneg.
Qed.
Lemma defaulted_option {A} (f : Json → option A) (P : A → Prop) o x :
  (∀ j a, f j = Some a → P a) → defaulted (j_option f) None o = Some x → from_option P True x.
Proof. intros Hf [->|[j H]]%defaulted_inv; [done|by eapply j_option_range]. Qed.

Ltac inv_bind H :=
  repeat match type of H with
  | (?x ≫= _) = Some _ => let E := fresh "E" in destruct x eqn:E; [cbn [mbind option_bind] in H|discriminate H]
  end.

Lemma json_range_ok j r : json_range j = Some r → is_u8 r.1 ∧ is_u8 r.2.
Proof.
  unfold json_range. destruct j as [| | | | |[|a [|b [|]]]|]; try done. intros H. inv_bind H. injection H as <-. split; by eapply j_uint_range.
Qed.

Lemma json_volume_cap_ok j v : json_volume_cap j = Some v → volume_cap_ok v.
Proof.
  unfold json_volume_cap. intros H. inv_bind H. injection H as <-. apply required_inv in E1 as [j1 H1]. apply json_range_ok in H1 as [Ha Hb].
  split; [exact Ha|]. split; [exact Hb|by eapply required_uint].
Qed.

Lemma json_capabilities_ok j c : json_capabilities j = Some c → capabilities_ok c.
Proof.
  unfold json_capabilities. intros H. inv_bind H. injection H as <-. unfold capabilities_ok. cbn [pcm_max_rate pcm_max_bits dsd_max_rate channels_max volume_cap].
  split_and!; [by eapply required_uint|by eapply required_uint| |by eapply required_uint|].
  - eapply defaulted_option; [|eassumption]. apply j_uint_range.
  - eapply defaulted_option; [|eassumption]. apply json_volume_cap_ok.
Qed.

Lemma json_track_ok j t : json_track j = Some t → is_u64 (duration_ms t).
Proof. unfold json_track. intros H. inv_bind H. injection H as <-. by eapply required_uint. Qed.

Lemma required_capabilities o c : required json_capabilities o = Some c → capabilities_ok c.
Proof. intros [j H]%required_inv. by eapply json_capabilities_ok. Qed.
Lemma required_track o t : required json_track o = Some t → is_u64 (duration_ms t).
Proof. intros [j H]%required_inv. by eapply json_track_ok. Qed.

Lemma variant_ok tag decode j m : (tag, decode) ∈ variants → decode j = Some m → message_ok m.
Proof.
  intros Hin Hm. unfold variants in Hin.
  repeat (apply elem_of_cons in Hin as [[= -> ->]|Hin];
    [match type of Hm with ?d _ = _ => unfold d in Hm end; inv_bind Hm; injection Hm as <-;
     cbn -[in_u]; repeat match goal with |- _ ∧ _ => split end;
     first [ done | by eapply required_uint | by eapply required_i64 | by eapply required_capabilities | by eapply required_track
           | by eapply defaulted_uint | by eapply defaulted_option; [apply j_uint_range|] ]|]).
  by apply elem_of_nil in Hin.
Qed.

(** *** Keys that play no part

    [extends names sub kvs kvs']: [kvs'] is [kvs] with keys that are not in
    [names] added anywhere, and some values replaced as [sub] says. *)
Inductive extends (names : list string) (sub : string → Json → Json → Prop)
    : list (string * Json) → list (string * Json) → Prop :=
| extends_nil : extends names sub [] []
| extends_key k v v' kvs kvs' :
    v' = v ∨ sub k v v' → extends names sub kvs kvs' → extends names sub ((k, v) :: kvs) ((k, v') :: kvs')
| extends_unknown k v kvs kvs' :
    k ∉ names → extends names sub kvs kvs' → extends names sub kvs ((k, v) :: kvs').

Definition struct_extends (names : list string) (sub : string → Json → Json → Prop) (j j' : Json) : Prop :=
  ∃ kvs kvs', j = JObj kvs ∧ j' = JObj kvs' ∧ extends names sub kvs kvs'.

Definition capability_keys : list string :=
  ["pcm_max_rate"; "pcm_max_bits"; "dsd_max_rate"; "channels_max"; "formats"; "volume"; "gapless"; "seek"]%string.
Definition track_keys : list string := ["title"; "artist"; "album"; "duration_ms"; "artwork_url"; "format"]%string.

(** The keys of each message, "type" apart. *)
Definition message_keys : list (string * list string) :=
  [("hello", ["protocol_version"; "controller_id"; "controller_name"; "clock_port"; "features"]);
   ("hello_ack", ["protocol_version"; "endpoint_id"; "endpoint_name"; "capabilities"; "audio_port"; "clock_port";
                  "buffer_size_ms"; "features"]);
   ("format_propose", ["stream_id"; "format"; "sample_rate"; "channels"; "channel_layout"; "bits_per_sample"; "dsd_rate"]);
   ("format_accept", ["stream_id"]);
   ("format_counter", ["stream_id"; "format"; "sample_rate"; "channels"; "channel_layout"; "bits_per_sample"; "dsd_rate"]);
   ("format_reject", ["stream_id"; "reason"]);
   ("play", ["stream_id"]); ("pause", ["stream_id"]); ("stop", ["stream_id"]);
   ("seek", ["stream_id"; "position_ms"]);
   ("volume_set", ["level"]); ("volume_get", []); ("volume_report", ["level"; "muted"]); ("mute", ["muted"]);
   ("metadata", ["track"]);
   ("zone_assign", ["zone_id"; "endpoint_id"]); ("zone_update", ["zone_id"; "endpoint_ids"]);
   ("zone_release", ["zone_id"; "endpoint_id"]); ("zone_ack", ["zone_id"; "endpoint_id"; "accepted"; "reason"]);
   ("next_track_prepare", ["stream_id"; "format"; "sample_rate"; "channels"; "channel_layout"; "bits_per_sample"]);
   ("next_track_ready", ["stream_id"]); ("next_track_reformat", ["stream_id"; "format"; "sample_rate"]);
   ("stream_stats", ["stream_id"; "buffer_frames"; "drift_us"; "corrections_net_frames"; "packets_lost";
                     "packets_recovered"; "bit_perfect"; "underruns"]);
   ("endpoint_release", ["stream_id"; "reason"]); ("error", ["code"; "message"])]%string.
Definition keys_of (tag : string) : list string := default [] (lookup_key tag message_keys).

(** The structs inside: the volume of the capabilities, the capabilities of
    the acknowledgement, the track of the metadata. *)
Definition capability_part (k : string) (v v' : Json) : Prop :=
  k = "volume"%string ∧ struct_extends ["type"; "range"; "step"]%string (λ _ _ _, False) v v'.
Definition message_part (k : string) (v v' : Json) : Prop :=
  k = "capabilities"%string ∧ struct_extends capability_keys capability_part v v' ∨
  k = "track"%string ∧ struct_extends track_keys (λ _ _ _, False) v v'.

Lemma extends_keys names names' sub kvs kvs' :
  (∀ n, n ∈ names' → n ∈ names) → extends names sub kvs kvs' → extends names' sub kvs kvs'.
Proof. intros Hsub. induction 1; constructor; auto. Qed.

Lemma extends_occurrences names sub kvs kvs' n :
  extends names sub kvs kvs' → n ∈ names → occurrences n kvs' = occurrences n kvs.
Proof.
  intros Hx Hn. induction Hx as [|k v v' kvs kvs' Hv Hx IH|k v kvs kvs' Hk Hx IH]; cbn; [done|by rewrite IH|].
  rewrite IH. destruct (String.eqb_spec k n) as [->|]; [done|done].
Qed.

Lemma extends_lookup names sub kvs kvs' n :
  extends names sub kvs kvs' → n ∈ names →
  match lookup_key n kvs, lookup_key n kvs' with
  | Some v, Some v' => v' = v ∨ sub n v v'
  | None, None => True
  | _, _ => False
  end.
Proof.
  intros Hx Hn. induction Hx as [|k v v' kvs kvs' Hv Hx IH|k v kvs kvs' Hk Hx IH]; cbn; [done| |].
  - destruct (String.eqb_spec k n) as [->|]; done.
  - destruct (String.eqb_spec k n) as [->|]; done.
Qed.

Lemma extends_filter names sub P kvs kvs' :
  extends names sub kvs kvs' → extends names sub (List.filter (λ kv, P kv.1) kvs) (List.filter (λ kv, P kv.1) kvs').
Proof.
  induction 1 as [|k v v' kvs kvs' Hv Hx IH|k v kvs kvs' Hk Hx IH]; cbn; [constructor| |];
    destruct (P k); try done; by constructor.
Qed.

(** A field read from a struct and from an extension of it. *)
Lemma extends_required {A} names sub kvs kvs' n (f : Json → option A) :
  extends names sub kvs kvs' → n ∈ names → (∀ v v', sub n v v' → f v' = f v) →
  required f (lookup_key n kvs') = required f (lookup_key n kvs).
Proof.
  intros Hx Hn Hf. pose proof (extends_lookup _ _ _ _ n Hx Hn) as Hl.
  destruct (lookup_key n kvs) as [v|], (lookup_key n kvs') as [v'|]; try done. cbn. destruct Hl as [->|Hs]; auto.
Qed.

Lemma extends_defaulted {A} names sub kvs kvs' n (f : Json → option A) d :
  extends names sub kvs kvs' → n ∈ names → (∀ v v', sub n v v' → f v' = f v) →
  defaulted f d (lookup_key n kvs') = defaulted f d (lookup_key n kvs).
Proof.
  intros Hx Hn Hf. pose proof (extends_lookup _ _ _ _ n Hx Hn) as Hl.
  destruct (lookup_key n kvs) as [v|], (lookup_key n kvs') as [v'|]; try done. cbn. destruct Hl as [->|Hs]; auto.
Qed.

Lemma extends_struct {A} names sub kvs kvs' (K : (string → option Json) → option A) :
  extends names sub kvs kvs' → K (λ s, lookup_key s kvs') = K (λ s, lookup_key s kvs) →
  j_struct names (JObj kvs') ≫= K = j_struct names (JObj kvs) ≫= K.
Proof.
  intros Hx HK. unfold j_struct.
  assert (∀ ns, (∀ n, n ∈ ns → n ∈ names) →
    forallb (λ n, (occurrences n kvs' <=? 1)%nat) ns = forallb (λ n, (occurrences n kvs <=? 1)%nat) ns) as Hall.
  { induction ns as [|n ns IH]; intros Hns; [done|]. cbn. rewrite IH by (intros; apply Hns; by right).
    rewrite (extends_occurrences _ _ _ _ n Hx); [done|]. apply Hns. by left. }
  rewrite Hall by done. by case_match.
Qed.

Lemma bind_congr {A B} (o o' : option A) (k k' : A → option B) :
  o' = o → (∀ a, k' a = k a) → o' ≫= k' = o ≫= k.
Proof. intros -> Hk. destruct o; cbn; [apply Hk|done]. Qed.

(** The fields of a struct one by one; [sub] solves what it says of one. *)
Ltac extended_fields Hx sub :=
  apply (extends_struct _ _ _ _ _ Hx); cbv beta;
  repeat match goal with |- mbind _ _ = mbind _ _ => apply bind_congr; [|intros ?] end;
  try (first [eapply (extends_required _ _ _ _ _ _ Hx)|eapply (extends_defaulted _ _ _ _ _ _ _ Hx)];
       [by apply (bool_decide_unpack _)|sub]);
  try done.

Lemma json_volume_cap_extends v v' :
  struct_extends ["type"; "range"; "step"]%string (λ _ _ _, False) v v' → json_volume_cap v' = json_volume_cap v.
Proof. intros (kvs & kvs' & -> & -> & Hx). unfold json_volume_cap. extended_fields Hx ltac:(by intros ?? []). Qed.

Lemma json_track_extends v v' : struct_extends track_keys (λ _ _ _, False) v v' → json_track v' = json_track v.
Proof. intros (kvs & kvs' & -> & -> & Hx). unfold json_track. extended_fields Hx ltac:(by intros ?? []). Qed.

Lemma json_capabilities_extends v v' :
  struct_extends capability_keys capability_part v v' → json_capabilities v' = json_capabilities v.
Proof.
  intros (kvs & kvs' & -> & -> & Hx). unfold json_capabilities.
  extended_fields Hx ltac:(intros ?? [? Hv]; first [done|
    unfold j_option; rewrite (json_volume_cap_extends _ _ Hv); destruct Hv as (? & ? & -> & -> & _); done]).
Qed.

Lemma variant_extends tag decode kvs kvs' :
  (tag, decode) ∈ variants → extends (keys_of tag) message_part kvs kvs' → decode (JObj kvs') = decode (JObj kvs).
Proof.
  intros Hin Hx. unfold variants in Hin.
  repeat (apply elem_of_cons in Hin as [[= -> ->]|Hin];
    [cbn in Hx; match goal with |- ?d _ = _ => unfold d end;
     extended_fields Hx ltac:(intros ?? [[? Hv]|[? Hv]]; first [done|by apply json_capabilities_extends|by apply json_track_extends])|]).
  by apply elem_of_nil in Hin.
Qed.

(** ** The codec

    The text of a value, by [serde_json::to_vec] and [from_slice], and the text
    of an error in the data. *)
Class JsonText := {
  print_json : Json → list Z;
  parse_json : list Z → result Json string;
  data_error : Json → string
}.

#[export] Instance json_codec `{JsonText} : JsonCodec := {|
  to_vec m := print_json (to_json m);
  from_slice text :=
    match parse_json text with
    | Ok j => match of_json j with Some m => Ok m | None => Err (data_error j) end
    | Err e => Err e
    end
|}.

(** What is asked of the text: that of this value is read back. *)
Definition text_faithful `{JsonText} (j : Json) : Prop := parse_json (print_json j) = Ok j ∧ Forall is_u8 (print_json j).

Lemma codec_faithful `{JsonText} m : message_ok m → text_faithful (to_json m) → json_faithful m.
Proof. intros Hm [Hp Hb]. split; [|exact Hb]. cbn. rewrite Hp, message_read by done. done. Qed.

(** ** Specification: other versions of the protocol

    The fields with a default, by message and part; [absent] says which of
    them the peer does not know. *)
Definition optional_keys (tag : string) : list string :=
  (if String.eqb tag "hello" || String.eqb tag "hello_ack" then ["features"]
   else if String.eqb tag "format_propose" || String.eqb tag "format_counter" then ["dsd_rate"]
   else if String.eqb tag "stream_stats" then ["underruns"]
   else if String.eqb tag "zone_ack" then ["reason"] else [])%string.

Section older.
Variable absent : string → bool.

Definition leave_out (keys : list string) (kvs : list (string * Json)) : list (string * Json) :=
  List.filter (λ kv, negb (existsb (String.eqb kv.1) keys && absent kv.1)) kvs.

Definition leave_out_in (keys : list string) (j : Json) : Json :=
  match j with JObj kvs => JObj (leave_out keys kvs) | j => j end.

(** The message as such a peer writes it. *)
Definition older_value (k : string) (v : Json) : Json :=
  (if String.eqb k "capabilities" then leave_out_in ["dsd_max_rate"; "volume"; "gapless"; "seek"] v
   else if String.eqb k "track" then leave_out_in ["artwork_url"; "format"] v else v)%string.

Definition older_json (m : Message) : Json :=
  let '(tag, fields) := message_fields m in
  JObj (("type"%string, JStr tag) :: ((λ kv, (kv.1, older_value kv.1 kv.2)) <$> leave_out (optional_keys tag) fields)).

(** The message it means: the defaults for what it left out. *)
Definition unless {A} (k : string) (d a : A) : A := if absent k then d else a.

Definition older_capabilities (c : EndpointCapabilities) : EndpointCapabilities :=
  mkCapabilities (pcm_max_rate c) (pcm_max_bits c) (unless "dsd_max_rate" None (dsd_max_rate c)) (channels_max c) (formats c)
    (unless "volume" None (volume_cap c)) (unless "gapless" false (gapless c)) (unless "seek" false (seek c)).

Definition older_track (t : TrackMetadata) : TrackMetadata :=
  mkTrackMetadata (title t) (artist t) (album t) (duration_ms t) (unless "artwork_url" None (artwork_url t))
    (unless "format" None (track_format t)).

Definition older (m : Message) : Message :=
  match m with
  | MHello m =>
      MHello (mkHello (hello_protocol_version m) (controller_id m) (controller_name m) (hello_clock_port m)
                (unless "features" [] (hello_features m)))
  | MHelloAck m =>
      MHelloAck (mkHelloAck (ack_protocol_version m) (ack_endpoint_id m) (ack_endpoint_name m)
                   (older_capabilities (capabilities m)) (ack_audio_port m) (ack_clock_port m) (ack_buffer_size_ms m)
                   (unless "features" [] (ack_features m)))
  | MFormatPropose m =>
      MFormatPropose (mkFormatPropose (fp_stream_id m) (fp_format m) (fp_sample_rate m) (fp_channels m) (fp_channel_layout m)
                        (fp_bits_per_sample m) (unless "dsd_rate" None (fp_dsd_rate m)))
  | MFormatCounter m =>
      MFormatCounter (mkFormatCounter (fc_stream_id m) (fc_format m) (fc_sample_rate m) (fc_channels m) (fc_channel_layout m)
                        (fc_bits_per_sample m) (unless "dsd_rate" None (fc_dsd_rate m)))
  | MMetadata m => MMetadata (mkMetadata (older_track (md_track m)))
  | MStreamStats m =>
      MStreamStats (mkStreamStats (ss_stream_id m) (ss_buffer_frames m) (ss_drift_us m) (ss_corrections_net_frames m)
                      (ss_packets_lost m) (ss_packets_recovered m) (ss_bit_perfect m) (unless "underruns" 0 (ss_underruns m)))
  | MZoneAck m =>
      MZoneAck (mkZoneAck (zk_zone_id m) (zk_endpoint_id m) (zk_accepted m) (unless "reason" None (zk_reason m)))
  | m => m
  end.

Lemma older_capabilities_read c :
  capabilities_ok c →
  json_capabilities (leave_out_in ["dsd_max_rate"; "volume"; "gapless"; "seek"]%string (capabilities_json c)) =
  Some (older_capabilities c).
Proof.
  destruct c as [rate bits dsd ch fs v g s]. intros (H1 & H2 & H3 & H4 & H5). cbn in H1, H2, H3, H4, H5.
  unfold json_capabilities, capabilities_json, older_capabilities, unless, leave_out_in, leave_out. cbn.
  destruct (absent "dsd_max_rate"), (absent "volume"), (absent "gapless"), (absent "seek"); json_fields;
    rewrite j_list_map by (apply j_format_name); cbn;
    rewrite ?(j_option_some _ _ volume_cap_ok) by (done || apply j_volume_cap_json); done.
Qed.

Lemma older_track_read t :
  is_u64 (duration_ms t) →
  json_track (leave_out_in ["artwork_url"; "format"]%string (track_json t)) = Some (older_track t).
Proof.
  destruct t as [ti ar al d u f]. intros H1. cbn in H1.
  unfold json_track, track_json, older_track, unless, leave_out_in, leave_out. cbn.
  destruct (absent "artwork_url"), (absent "format"); json_fields; done.
Qed.

Lemma occurrences_older tag kvs :
  occurrences "type" kvs = 0%nat →
  occurrences "type" ((λ kv, (kv.1, older_value kv.1 kv.2)) <$> leave_out (optional_keys tag) kvs) = 0%nat.
Proof.
  intros H. unfold leave_out. induction kvs as [|[k v] kvs IH]; [done|]. cbn in H |- *.
  destruct (String.eqb_spec k "type"); [done|]. destruct (negb _); cbn; [|by apply IH].
  rewrite (proj2 (String.eqb_neq k "type")) by done. by apply IH.
Qed.

#[local] Arguments leave_out_in : simpl never.

Lemma older_read m : message_ok m → of_json (older_json m) = Some (older m).
Proof.
  intros Hm. unfold older_json, of_json. pose proof (occurrences_older (message_fields m).1 _ (message_fields_untagged m)) as Ht.
  destruct (message_fields m) as [tag fields] eqn:E. rewrite j_tagged_fields by done. clear Ht.
  destruct m as [m|m|m|m|m|m|m|m|m|m|m| |m|m|m|m|m|m|m|m|m|m|m|m|m]; cbn in Hm; destruct_and?; injection E as <- <-;
    try destruct m; unfold leave_out; cbn; unfold unless; try case_bool_decide; subst; cbn;
    repeat match goal with |- context [absent ?k] => destruct (absent k) end; cbn;
    repeat first [json_value | rewrite older_capabilities_read by done; cbn | rewrite older_track_read by done; cbn]; done.
Qed.

End older.

Lemma of_json_range j m : of_json j = Some m → message_ok m.
Proof.
  unfold of_json. intros H. destruct (j_tagged j) as [[tag content]|]; [|done]. cbn [mbind option_bind] in H.
  destruct (lookup_key tag variants) as [decode|] eqn:E; [|done]. apply lookup_key_in in E. by eapply variant_ok.
Qed.

(** Keys added to a message, and to the structs inside, play no part. *)
Lemma of_json_extends tag kvs kvs' :
  lookup_key "type"%string kvs = Some (JStr tag) → extends ("type"%string :: keys_of tag) message_part kvs kvs' →
  of_json (JObj kvs') = of_json (JObj kvs).
Proof.
  intros Ht Hx. assert ("type"%string ∈ "type"%string :: keys_of tag) as Hin by by left.
  assert (lookup_key "type"%string kvs' = Some (JStr tag)) as Ht'.
  { pose proof (extends_lookup _ _ _ _ _ Hx Hin) as Hl. rewrite Ht in Hl.
    destruct (lookup_key _ kvs') as [v'|]; [|done]. by destruct Hl as [->|[[? _]|[? _]]]. }
  unfold of_json, j_tagged. rewrite (extends_occurrences _ _ _ _ _ Hx Hin), Ht, Ht'.
  case_match; [|done]. cbn [mbind option_bind j_str].
  destruct (lookup_key tag variants) as [decode|] eqn:E; [|done]. cbn [mbind option_bind].
  apply (variant_extends tag); [by apply lookup_key_in|].
  apply (extends_filter _ _ (λ k, negb (String.eqb k "type"))).
  eapply extends_keys; [|exact Hx]. intros n Hn. by right.
Qed.

(** ** Properties *)

(** C10 What is read from the network is in range: whatever JSON value arrives,
    each integer of the message read from it is within the width of its field,
    and the message, written again, is read as the same message. *)
Theorem read_in_range j m : of_json j = Some m → message_ok m ∧ of_json (to_json m) = Some m.
Proof. intros H. apply of_json_range in H. split; [done|]. by apply message_read. Qed.

(** C8 Messages travel: any messages in range, written as JSON with the names,
    defaults and tags of the source, framed, and cut into any chunks, are read
    exactly, once and in order, and an incomplete frame waits.  Of the JSON text
    only is asked that each value is read back from its own text. *)
Theorem messages_travel `{JsonText} ms chunks tail :
  Forall message_ok ms → Forall (λ m, text_faithful (to_json m)) ms → Forall (λ m, len (print_json (to_json m)) ≤ MAX_FRAME_SIZE) ms →
  chunks ≠ [] → concat chunks = concat (encode_framed <$> ms) ++ tail →
  decode_next {| buf := tail |} = (Ok None, {| buf := tail |}) →
  read_stream FrameCodec_new chunks = (ms, Ok {| buf := tail |}).
Proof.
  intros Hok Htext Hlen Hne Hcat Htail. rewrite read_stream_decode_all by done. rewrite Hcat. apply decode_all_frames; [|exact Hlen|exact Htail].
  rewrite Forall_forall in *. intros m Hm. apply codec_faithful; auto.
Qed.

(** C11 Versions of the protocol understand each other. A newer peer: keys a
    message does not have are ignored wherever they stand in it, among the
    capabilities, their volume or the track, and whether another message has
    them or not. An older peer: whichever of the fields with a default it leaves
    out, in messages, capabilities and tracks, each takes its default and the
    others are read. A release for an unknown reason is still a release. *)
Theorem versions_interoperate m :
  (∀ tag kvs kvs', lookup_key "type"%string kvs = Some (JStr tag) →
     extends ("type"%string :: keys_of tag) message_part kvs kvs' → of_json (JObj kvs') = of_json (JObj kvs)) ∧
  (∀ absent, message_ok m → of_json (older_json absent m) = Some (older absent m)) ∧
  (∀ reason, reason ≠ "local_source"%string → json_reason (JStr reason) = Some OtherReason).
Proof.
  split; [apply of_json_extends|]. split; [intros absent; apply older_read|].
  intros reason Hr. unfold json_reason. cbn [mbind option_bind]. by rewrite (proj2 (String.eqb_neq reason "local_source") Hr).
Qed.

(** ** Witnesses *)

Definition demo_ack : Message :=
  MHelloAck (mkHelloAck 1 "kitchen-1" "Kitchen"
    (mkCapabilities 192000 24 (Some 256) 2 [PcmS16le; PcmS24le; DsdU32le] (Some (mkVolumeCapability Hw (0, 100) 1)) true true)
    40001 40002 500 [FEATURE_ENDPOINT_RELEASE]).

Lemma read_in_range_witness :
  of_json (JArr [JStr "seek"; JStr "s1"; JNum 1500]) = Some (MSeek (mkSeek "s1" 1500)) ∧ message_ok (MSeek (mkSeek "s1" 1500)).
Proof.
  assert (of_json (JArr [JStr "seek"; JStr "s1"; JNum 1500]) = Some (MSeek (mkSeek "s1" 1500))) as Hr by (vm_compute; reflexivity).
  split; [exact Hr|]. exact (proj1 (read_in_range _ _ Hr)).
Defined.

(** A rejection with a key of another message, an acknowledgement with a new
    capability, and one that leaves out two fields. *)
Lemma demo_versions :
  of_json (JObj [("level", JNum 3); ("type", JStr "format_reject"); ("stream_id", JStr "s1"); ("reason", JStr "busy")])
    = Some (MFormatReject (mkFormatReject "s1" "busy")) ∧
  of_json (JObj [("type", JStr "metadata"); ("track", JObj [("title", JStr "t"); ("year", JNum 1971); ("artist", JStr "a");
             ("album", JStr "b"); ("duration_ms", JNum 9)])])
    = Some (MMetadata (mkMetadata (mkTrackMetadata "t" "a" "b" 9 None None))) ∧
  of_json (older_json (λ k, String.eqb k "gapless" || String.eqb k "features") demo_ack) =
    Some (MHelloAck (mkHelloAck 1 "kitchen-1" "Kitchen"
      (mkCapabilities 192000 24 (Some 256) 2 [PcmS16le; PcmS24le; DsdU32le] (Some (mkVolumeCapability Hw (0, 100) 1)) false true)
      40001 40002 500 [])).
Proof. vm_compute. split_and!; reflexivity. Qed.

(** A text for the two values of the witness. *)
#[local] Instance demo_text : JsonText := {|
  print_json j := match j with JObj [("type", JStr "volume_get")]%string => [1] | _ => [2; 2] end;
  parse_json text := match text with [1] => Ok (JObj [("type", JStr "volume_get")]%string) | [2; 2] => Ok (to_json demo_ack) | _ => Err "invalid"%string end;
  data_error _ := "data"%string
|}.

Lemma messages_travel_witness :
  read_stream FrameCodec_new [[0; 0; 0]; [2; 2; 2; 0; 0; 0]; [1; 1; 0; 0]] = ([demo_ack; MVolumeGet], Ok {| buf := [0; 0] |}).
Proof.
  apply (messages_travel [demo_ack; MVolumeGet] [[0; 0; 0]; [2; 2; 2; 0; 0; 0]; [1; 1; 0; 0]] [0; 0]);
    [|repeat constructor; vm_compute; intuition congruence..|discriminate|reflexivity|reflexivity].
  repeat constructor; by apply (bool_decide_unpack _).
Defined.
