(* ===== verification/Fec.v ===== *)
(** * Forward error correction

    Models [crates/oaat-core/src/fec.rs]: the sender's [FecEncoder], which
    emits one XOR parity packet per group of data packets, and the receiver's
    [FecReceiver], which reorders a group, recovers one missing packet and
    delivers.  An out-of-range index of the source is the outcome [Panic];
    [i64] arithmetic wraps, as in release builds; the [u64] packet counters
    are unbounded. *)

From S2P Require Import Prelude Format Session Wire.

Local Open Scope Z_scope.

(** ** Encoder *)

Record FecEncoder := mkEncoder {
  enc_group_size : Z;
  enc_parity : list Z;
  enc_len_xor : Z;
  enc_count : Z
}.

Record FecParity := mkParity { par_payload : list Z; par_len_xor : Z }.

(** [FecEncoder::new]: the group size is asserted to be in 2..=16. *)
Definition FecEncoder_new (group_size : Z) : outcome FecEncoder :=
  if (2 <=? group_size) && (group_size <=? 16)
  then Ret (mkEncoder group_size [] 0 0) else Panic.

Definition next_index (e : FecEncoder) : Z := enc_count e.

(** [for (i, &b) in payload.iter().enumerate() { acc[i] ^= b }], bytes beyond
    the accumulator being skipped. *)
Fixpoint xor_into (acc payload : list Z) : list Z :=
  match acc, payload with
  | x :: acc, b :: payload => Z.lxor x b :: xor_into acc payload
  | acc, _ => acc
  end.

Definition encoder_feed (e : FecEncoder) (payload : list Z) : option FecParity * FecEncoder :=
  let '(parity, len_xor) :=
    if enc_count e =? 0 then (replicate (length payload) 0, 0)
    else (enc_parity e, enc_len_xor e) in
  let parity :=
    if len parity <? len payload then resize (length payload) 0 parity else parity in
  let parity := xor_into parity payload in
  let len_xor := Z.lxor len_xor (as_u 16 (len payload)) in
  let count := enc_count e + 1 in
  if enc_group_size e <=? count
  then (Some (mkParity parity len_xor), mkEncoder (enc_group_size e) [] len_xor 0)
  else (None, mkEncoder (enc_group_size e) parity len_xor count).

(** Feeding a list of payloads: the results, in order. *)
Fixpoint encoder_run (e : FecEncoder) (payloads : list (list Z)) : list (option FecParity) * FecEncoder :=
  match payloads with
  | [] => ([], e)
  | p :: payloads =>
      let '(r, e) := encoder_feed e p in
      let '(rs, e) := encoder_run e payloads in (r :: rs, e)
  end.

(** ** Receiver *)

Abbreviation FecPacket := (AudioPacketHeader * list Z)%type.

Record FecReceiver := mkReceiver {
  base_seq : option Z;
  prev_base_seq : option Z;
  slots : list (option FecPacket);
  parity : option (Z * list Z);
  group_size : Z;
  recovered : Z;
  lost : Z
}.

Definition FecReceiver_new : FecReceiver := mkReceiver None None [] None 0 0 0.

Definition is_none {A} (o : option A) : bool := match o with None => true | Some _ => false end.

(** [slots.iter().filter(|s| s.is_none()).count()]. *)
Definition missing (sl : list (option FecPacket)) : nat := length (List.filter is_none sl).

(** [slots.iter().position(|s| s.is_none())]. *)
Fixpoint position_none (sl : list (option FecPacket)) : option nat :=
  match sl with
  | [] => None
  | None :: _ => Some O
  | Some _ :: sl => S <$> position_none sl
  end.

(** [slots.iter().flatten()]. *)
Definition flatten (sl : list (option FecPacket)) : list FecPacket := omap id sl.

(** The [(index, header)] pairs of the occupied slots, numbered from [i]:
    [slots.iter().enumerate().filter_map(..)]. *)
Fixpoint known_headers (i : nat) (sl : list (option FecPacket)) : list (nat * AudioPacketHeader) :=
  match sl with
  | [] => []
  | Some p :: sl => (i, p.1) :: known_headers (S i) sl
  | None :: sl => known_headers (S i) sl
  end.

(** Linear extrapolation in [i64]: [(v0 + (v1 - v0) / di * d).max(0) as u64]. *)
Definition extrapolate (v0 v1 di d : Z) : Z :=
  let step := i64_div (as_i 64 (as_i 64 v1 - as_i 64 v0)) di in
  as_u 64 (Z.max 0 (as_i 64 (as_i 64 v0 + as_i 64 (step * d)))).

Definition synthesize_header (r : FecReceiver) (idx : nat) (plen : Z) : outcome AudioPacketHeader :=
  match known_headers 0 (slots r) with
  | [] => Panic
  | (i0, h0) :: rest =>
      let '(pts, offset) :=
        match rest with
        | (i1, h1) :: _ =>
            let di := Z.max 1 (Z.of_nat i1 - Z.of_nat i0) in
            let d := Z.of_nat idx - Z.of_nat i0 in
            (extrapolate (pts_ns h0) (pts_ns h1) di d,
             extrapolate (sample_offset h0) (sample_offset h1) di d)
        | [] => (pts_ns h0, sample_offset h0)
        end in
      Ret {| version := version h0;
             flags := 0;
             format := format h0;
             sequence := wrapping_add 16 (default 0 (base_seq r)) (as_u 16 (Z.of_nat idx));
             stream_id := stream_id h0;
             pts_ns := pts;
             sample_offset := offset;
             payload_len := plen;
             fec_group_size := group_size r;
             fec_index := as_u 8 (Z.of_nat idx);
             fec_len_xor := 0 |}
  end.

Definition take_group (r : FecReceiver) : list FecPacket * FecReceiver :=
  (flatten (slots r),
   mkReceiver None (base_seq r) [] None (group_size r) (recovered r) (lost r)).

(** [FecReceiver::flush]. *)
Definition receiver_flush (r : FecReceiver) : list FecPacket * FecReceiver :=
  match base_seq r with
  | None => ([], r)
  | Some _ =>
      take_group (mkReceiver (base_seq r) (prev_base_seq r) (slots r) (parity r) (group_size r)
                    (recovered r) (lost r + Z.of_nat (missing (slots r))))
  end.

(** The payload of the missing packet: the parity XORed with every received
    payload, truncated to the XOR of the lengths. *)
Definition recover_payload (len_xor : Z) (parity_payload : list Z) (known : list FecPacket) : list Z :=
  let '(rec, rlen) :=
    fold_left (λ '(rec, rlen) (s : FecPacket), (xor_into rec s.2, Z.lxor rlen (as_u 16 (len s.2))))
      known (parity_payload, len_xor) in
  take (Z.to_nat rlen) rec.

Definition try_complete (r : FecReceiver) : outcome (list FecPacket * FecReceiver) :=
  let m := missing (slots r) in
  if (m =? 0)%nat && negb (bool_decide (slots r = [])) then Ret (take_group r)
  else if (m =? 1)%nat then
    match parity r with
    | Some (len_xor, parity_payload) =>
        match position_none (slots r) with
        | None => Panic
        | Some idx =>
            let rec := recover_payload len_xor parity_payload (flatten (slots r)) in
            (let! header := synthesize_header r idx (as_u 16 (len rec)) in
             Ret (take_group
                    (mkReceiver (base_seq r) (prev_base_seq r)
                       (<[idx := Some (header, rec)]> (slots r))
                       None (group_size r) (recovered r + 1) (lost r))))%oaat
        end
    | None => Ret ([], r)
    end
  else Ret ([], r).

(** [FecReceiver::feed]. *)
Definition receiver_feed (r : FecReceiver) (header : AudioPacketHeader) (payload : list Z)
  : outcome (list FecPacket * FecReceiver) :=
  if (fec_group_size header =? 0) && negb (flags_contains (flags header) FEC) then
    let '(out, r) := receiver_flush r in
    Ret (out ++ [(header, payload)], r)
  else if flags_contains (flags header) FEC then
    let base := wrapping_sub 16 (sequence header) (fec_group_size header) in
    if bool_decide (base_seq r = Some base) then
      try_complete (mkReceiver (base_seq r) (prev_base_seq r) (slots r)
                      (Some (fec_len_xor header, payload)) (group_size r) (recovered r) (lost r))
    else Ret ([], r)
  else
    let base := wrapping_sub 16 (sequence header) (fec_index header) in
    if bool_decide (prev_base_seq r = Some base) && negb (bool_decide (base_seq r = Some base)) then
      Ret ([(header, payload)], r)
    else
      let '(out, r) :=
        if bool_decide (base_seq r = Some base) then ([], r)
        else
          let '(out, r) := receiver_flush r in
          (out, mkReceiver (Some base) (prev_base_seq r)
                  (replicate (Z.to_nat (fec_group_size header)) None) None
                  (fec_group_size header) (recovered r) (lost r)) in
      let idx := Z.to_nat (fec_index header) in
      let r :=
        if (idx <? length (slots r))%nat
        then mkReceiver (base_seq r) (prev_base_seq r) (<[idx := Some (header, payload)]> (slots r))
               (parity r) (group_size r) (recovered r) (lost r)
        else r in
      (let! (out', r) := try_complete r in Ret (out ++ out', r))%oaat.

(** Feeding a list of packets: what each call delivers, and the receiver. *)
Fixpoint receiver_run (r : FecReceiver) (pkts : list FecPacket)
  : outcome (list (list FecPacket) * FecReceiver) :=
  match pkts with
  | [] => Ret ([], r)
  | (h, p) :: pkts =>
      (let! (out, r) := receiver_feed r h p in
       let! (outs, r) := receiver_run r pkts in
       Ret (out :: outs, r))%oaat
  end.

(** ** What a parity packet promises

    [parity_for payloads lx pp]: [pp] is the XOR of the payloads, each
    zero-extended to the longest, and [lx] the XOR of their lengths. *)

Definition xors (l : list Z) : Z := foldr Z.lxor 0 l.

Definition column (j : nat) (payloads : list (list Z)) : list Z := (λ p, nth j p 0) <$> payloads.

Record parity_for (payloads : list (list Z)) (lx : Z) (pp : list Z) : Prop := {
  pf_length : length pp = max_list (length <$> payloads);
  pf_bytes : ∀ j, nth j pp 0 = xors (column j payloads);
  pf_lens : lx = xors ((λ p, as_u 16 (len p)) <$> payloads)
}.

(** ** Lemmas *)

Lemma xors_app l k : xors (l ++ k) = Z.lxor (xors l) (xors k).
Proof.
  induction l as [|x l IH]; simpl; [by rewrite Z.lxor_0_l|]. by rewrite IH, Z.lxor_assoc.
Qed.

Lemma xors_middle l x k : xors (l ++ x :: k) = Z.lxor x (xors (l ++ k)).
Proof.
  rewrite !xors_app. simpl. by rewrite <- Z.lxor_assoc, (Z.lxor_comm (xors l)), Z.lxor_assoc.
Qed.

Lemma xor_into_length acc p : length (xor_into acc p) = length acc.
Proof. revert p. induction acc as [|x acc IH]; intros [|b p]; simpl; auto. Qed.

Lemma xor_into_nth acc p j :
  (length p ≤ length acc)%nat → nth j (xor_into acc p) 0 = Z.lxor (nth j acc 0) (nth j p 0).
Proof.
  revert p j. induction acc as [|x acc IH]; intros [|b p] [|j] Hl; simpl in *;
    rewrite ?Z.lxor_0_r; try done; try lia. apply IH. lia.
Qed.

Lemma nth_replicate_0 n j : nth j (replicate n 0) 0 = 0.
Proof. revert j; induction n; intros [|j]; simpl; auto. Qed.

(** The accumulator after [parity.resize(payload.len(), 0)] when it is shorter. *)
Definition grow (acc payload : list Z) : list Z :=
  if len acc <? len payload then resize (length payload) 0 acc else acc.

Lemma grow_length acc p : length (grow acc p) = (length acc `max` length p)%nat.
Proof.
  unfold grow, len. destruct (Z.ltb_spec (Z.of_nat (length acc)) (Z.of_nat (length p)));
    rewrite ?length_resize; lia.
Qed.

Lemma grow_nth acc p j : nth j (grow acc p) 0 = nth j acc 0.
Proof.
  unfold grow, len. destruct (Z.ltb_spec (Z.of_nat (length acc)) (Z.of_nat (length p))); [|done].
  rewrite resize_ge by lia. destruct (decide (j < length acc)%nat).
  - by rewrite app_nth1.
  - rewrite app_nth2, nth_replicate_0 by lia. by rewrite nth_overflow by lia.
Qed.

Lemma parity_for_snoc ps p lx pp :
  parity_for ps lx pp →
  parity_for (ps ++ [p]) (Z.lxor lx (as_u 16 (len p))) (xor_into (grow pp p) p).
Proof.
  intros [Hl Hb Hx]. split.
  - rewrite xor_into_length, grow_length, Hl, fmap_app. clear.
    induction ps as [|q ps IH]; csimpl in *; lia.
  - intros j. rewrite xor_into_nth by (rewrite grow_length; lia).
    unfold column. rewrite grow_nth, Hb, fmap_app, xors_app. simpl. by rewrite Z.lxor_0_r.
  - rewrite fmap_app, xors_app, Hx. simpl. by rewrite Z.lxor_0_r.
Qed.

Lemma parity_for_first p :
  parity_for [p] (Z.lxor 0 (as_u 16 (len p))) (xor_into (grow (replicate (length p) 0) p) p).
Proof.
  split.
  - rewrite xor_into_length, grow_length, length_replicate. simpl. lia.
  - intros j. rewrite xor_into_nth by (rewrite grow_length; lia).
    rewrite grow_nth, nth_replicate_0. unfold column. simpl. by rewrite Z.lxor_0_l, Z.lxor_0_r.
  - simpl. by rewrite Z.lxor_0_l, Z.lxor_0_r.
Qed.

(** The encoder between two calls: [ps] are the payloads of the open group. *)
Record encoder_inv (g : Z) (ps : list (list Z)) (e : FecEncoder) : Prop := {
  ei_group_size : enc_group_size e = g;
  ei_bounds : 2 ≤ g ≤ 16;
  ei_count : enc_count e = len ps;
  ei_open : len ps < g;
  ei_parity : ps ≠ [] → parity_for ps (enc_len_xor e) (enc_parity e)
}.

Lemma encoder_feed_spec g ps e p :
  encoder_inv g ps e →
  let '(r, e') := encoder_feed e p in
  if g <=? len ps + 1
  then ∃ lx pp, r = Some (mkParity pp lx) ∧ parity_for (ps ++ [p]) lx pp ∧ encoder_inv g [] e'
  else r = None ∧ encoder_inv g (ps ++ [p]) e'.
Proof.
  intros [Hg Hb Hc Ho Hp]. unfold encoder_feed. rewrite Hc, Hg.
  assert (∃ acc lx, (if len ps =? 0 then (replicate (length p) 0, 0)
                     else (enc_parity e, enc_len_xor e)) = (acc, lx) ∧
          parity_for (ps ++ [p]) (Z.lxor lx (as_u 16 (len p))) (xor_into (grow acc p) p))
    as (acc & lx & -> & Hpf).
  { destruct (Z.eqb_spec (len ps) 0) as [E|E]; eexists _, _; (split; [done|]).
    - destruct ps; [apply parity_for_first|done].
    - apply parity_for_snoc, Hp. by destruct ps. }
  change (if len acc <? len p then resize (length p) 0 acc else acc) with (grow acc p).
  destruct (Z.leb_spec g (len ps + 1)) as [Hle|Hgt].
  - eexists _, _. split_and!; [done|done|]. split; simpl; try done. rewrite len_nil. lia.
  - split; [done|]. split; simpl; try done; autorewrite with oaat; lia.
Qed.

Lemma encoder_new_inv g e : FecEncoder_new g = Ret e → encoder_inv g [] e.
Proof.
  unfold FecEncoder_new. destruct (_ && _) eqn:E; [|done]. intros [= <-].
  apply andb_true_iff in E as [E1 E2]. split; simpl; try done; autorewrite with oaat; lia.
Qed.

(** A whole group: silence, then the parity of all its payloads. *)
Lemma encoder_group g ps0 ps e :
  encoder_inv g ps0 e → len ps0 + len ps = g → ps ≠ [] →
  ∃ lx pp e', encoder_run e ps = (replicate (length ps - 1) None ++ [Some (mkParity pp lx)], e') ∧
    parity_for (ps0 ++ ps) lx pp ∧ encoder_inv g [] e'.
Proof.
  revert ps0 e. induction ps as [|p ps IH]; intros ps0 e Hi Hl Hne; [done|].
  pose proof (encoder_feed_spec g ps0 e p Hi) as Hs. cbn [encoder_run].
  destruct (encoder_feed e p) as [r e1]. autorewrite with oaat in Hl.
  destruct (decide (ps = [])) as [->|Hps].
  - rewrite len_nil in Hl. destruct (Z.leb_spec g (len ps0 + 1)); [|lia].
    destruct Hs as (lx & pp & -> & Hpf & Hi'). by exists lx, pp, e1.
  - assert (0 < len ps) by (destruct ps; [done|rewrite len_cons; pose proof (len_nonneg ps); lia]).
    destruct (Z.leb_spec g (len ps0 + 1)); [lia|]. destruct Hs as [-> Hi'].
    destruct (IH (ps0 ++ [p]) e1 Hi') as (lx & pp & e' & Hrun & Hpf & Hi2);
      [autorewrite with oaat; lia|done|].
    exists lx, pp, e'. rewrite Hrun, <- (assoc_L (++)) in *. split_and!; try done.
    destruct ps; [done|]. simpl. by rewrite Nat.sub_0_r.
Qed.
