(* ===== verification/FecRecovery.v ===== *)
(** * FEC: delivery of a group

    The receiver of [Fec] on the packets of one group and its parity, in any
    order of arrival: it stays silent until all packets but at most one have
    arrived, then delivers the whole group in order, with the missing packet
    reconstructed. *)

From S2P Require Import Prelude Format Session Wire Fec.

Local Open Scope Z_scope.

(** ** The shape of a slot vector *)

Lemma missing_cons s sl : missing (s :: sl) = ((if is_none s then 1 else 0) + missing sl)%nat.
Proof. unfold missing. simpl. by destruct (is_none s). Qed.

Lemma missing_insert sl i p :
  sl !! i = Some None → (missing (<[i := Some p]> sl) + 1 = missing sl)%nat.
Proof.
  revert i. induction sl as [|s sl IH]; intros [|i] Hi; simplify_eq/=; rewrite !missing_cons; simpl.
  - lia.
  - specialize (IH i Hi). lia.
Qed.

Lemma missing_replicate n : missing (replicate n None) = n.
Proof. induction n; simpl; [done|]. rewrite missing_cons. simpl. lia. Qed.

Lemma missing_0 sl : missing sl = 0%nat → ∃ l, sl = Some <$> l.
Proof.
  induction sl as [|[p|] sl IH]; rewrite ?missing_cons; simpl; [by exists []| |done].
  intros [l ->]%IH. by exists (p :: l).
Qed.

Lemma missing_1 sl :
  missing sl = 1%nat →
  ∃ l1 l2, sl = (Some <$> l1) ++ None :: (Some <$> l2) ∧ position_none sl = Some (length l1).
Proof.
  induction sl as [|[p|] sl IH]; rewrite ?missing_cons; simpl; [done| |].
  - intros (l1 & l2 & -> & Hp)%IH. exists (p :: l1), l2. by rewrite Hp.
  - intros [= [l ->]%missing_0]. by exists [], l.
Qed.

Lemma flatten_Some l : flatten (Some <$> l) = l.
Proof. unfold flatten. induction l as [|x l IH]; csimpl; [done|]. by rewrite IH. Qed.

Lemma flatten_app a b : flatten (a ++ b) = flatten a ++ flatten b.
Proof. unfold flatten. by rewrite omap_app. Qed.

Lemma flatten_hole l1 l2 : flatten ((Some <$> l1) ++ None :: (Some <$> l2)) = l1 ++ l2.
Proof. rewrite flatten_app, flatten_Some. f_equal. apply flatten_Some. Qed.

Lemma insert_hole (l1 l2 : list FecPacket) (p : FecPacket) :
  <[length l1 := Some p]> ((Some <$> l1) ++ None :: (Some <$> l2)) = Some <$> (l1 ++ p :: l2).
Proof.
  rewrite fmap_app, fmap_cons. rewrite <- (length_fmap Some l1).
  by rewrite insert_app_r_alt, Nat.sub_diag by done.
Qed.

(** ** Recovering the payload *)

Lemma fold_recover known rec rlen :
  Forall (λ s : FecPacket, (length s.2 ≤ length rec)%nat) known →
  ∃ rec', fold_left (λ '(rec, rlen) (s : FecPacket),
                      (xor_into rec s.2, Z.lxor rlen (as_u 16 (len s.2)))) known (rec, rlen)
          = (rec', Z.lxor rlen (xors ((λ s : FecPacket, as_u 16 (len s.2)) <$> known))) ∧
    length rec' = length rec ∧
    ∀ j, nth j rec' 0 = Z.lxor (nth j rec 0) (xors ((λ s : FecPacket, nth j s.2 0) <$> known)).
Proof.
  revert rec rlen. induction known as [|s known IH]; intros rec rlen Hf.
  - exists rec. simpl. rewrite Z.lxor_0_r. split_and!; try done. intros. by rewrite Z.lxor_0_r.
  - apply Forall_cons_1 in Hf as [Hs Hf]. cbn [fold_left].
    destruct (IH (xor_into rec s.2) (Z.lxor rlen (as_u 16 (len s.2)))) as (rec' & -> & Hl & Hn).
    { by rewrite xor_into_length. }
    exists rec'. rewrite xor_into_length in Hl. csimpl. rewrite Z.lxor_assoc.
    split_and!; try done. intros j. by rewrite Hn, xor_into_nth, Z.lxor_assoc.
Qed.

Lemma lxor_cancel x y : Z.lxor (Z.lxor x y) y = x.
Proof. by rewrite Z.lxor_assoc, Z.lxor_nilpotent, Z.lxor_0_r. Qed.

(** The parity of a group and all payloads but one give that one, with its
    exact length. *)
Lemma recover_payload_exact (l1 l2 : list FecPacket) (x : FecPacket) lx pp :
  parity_for (snd <$> (l1 ++ x :: l2)) lx pp → len x.2 < 2 ^ 16 →
  recover_payload lx pp (l1 ++ l2) = x.2.
Proof.
  intros [Hlen Hbytes Hlx] Hx. unfold recover_payload.
  assert (Forall (λ s : FecPacket, (length s.2 ≤ length pp)%nat) (l1 ++ x :: l2)) as Hall.
  { rewrite Hlen. apply Forall_forall. intros s Hs.
    apply max_list_elem_of_le. apply list_elem_of_fmap. exists s.2. split; [done|].
    apply list_elem_of_fmap. by exists s. }
  assert (Forall (λ s : FecPacket, (length s.2 ≤ length pp)%nat) (l1 ++ l2)) as Hf.
  { apply Forall_app in Hall as [? Hall]. apply Forall_cons_1 in Hall as [_ ?]. by apply Forall_app. }
  destruct (fold_recover _ pp lx Hf) as (rec' & -> & Hl' & Hn').
  assert (Z.lxor lx (xors ((λ s : FecPacket, as_u 16 (len s.2)) <$> (l1 ++ l2))) = len x.2) as ->.
  { rewrite Hlx, <- list_fmap_compose, !fmap_app, fmap_cons, xors_middle, lxor_cancel. simpl.
    apply as_u_id. pose proof (len_nonneg x.2). range. }
  assert (∀ j, nth j rec' 0 = nth j x.2 0) as Hnth.
  { intros j. rewrite Hn', Hbytes. unfold column.
    by rewrite <- list_fmap_compose, !fmap_app, fmap_cons, xors_middle, lxor_cancel. }
  assert (length x.2 ≤ length rec')%nat.
  { rewrite Hl'. apply Forall_app in Hall as [_ Hall]. by apply Forall_cons_1 in Hall as [? _]. }
  apply (nth_ext _ _ 0 0); unfold len; rewrite Nat2Z.id.
  - rewrite length_take. lia.
  - intros j Hj. rewrite length_take in Hj. rewrite nth_firstn.
    destruct (Nat.ltb_spec j (length x.2)); [apply Hnth|lia].
Qed.

(** ** Rebuilding the header *)

(** Values on a line, in the non-negative half of [i64], are extrapolated
    exactly. *)
Lemma extrapolate_exact P D i0 i1 k :
  0 ≤ P → 0 ≤ D → 0 ≤ i0 < i1 → i1 ≤ 16 → 0 ≤ k ≤ 16 → P + 16 * D < 2 ^ 63 →
  extrapolate (P + i0 * D) (P + i1 * D) (Z.max 1 (i1 - i0)) (k - i0) = P + k * D.
Proof.
  intros HP HD Hi Hi1 Hk Hmax. unfold extrapolate, i64_div.
  assert (∀ i, 0 ≤ i ≤ 16 → is_i64 (P + i * D)) as Hr by (intros; unfold in_i; simpl; nia).
  rewrite (as_i_id 64 (P + i1 * D)), (as_i_id 64 (P + i0 * D)) by (apply Hr || idtac; lia).
  replace (P + i1 * D - (P + i0 * D)) with (D * (i1 - i0)) by lia.
  rewrite (as_i_id 64 (D * (i1 - i0))) by (unfold in_i; simpl; nia).
  rewrite (Z.max_r 1), Z.quot_mul by lia.
  rewrite (as_i_id 64 (D * (k - i0))) by (unfold in_i; simpl; nia).
  replace (P + i0 * D + D * (k - i0)) with (P + k * D) by lia.
  rewrite as_i_id by (apply Hr || idtac; lia). rewrite Z.max_r by nia. apply as_u_id.
  specialize (Hr k Hk). unfold in_i, in_u in *. simpl in *. nia.
Qed.

(** The two first known headers of a slot vector come from its packets, in
    order of index. *)
Lemma known_headers_lookup k sl i h :
  (i, h) ∈ known_headers k sl ↔ ∃ j p, i = (k + j)%nat ∧ sl !! j = Some (Some p) ∧ p.1 = h.
Proof.
  revert k. induction sl as [|[p|] sl IH]; intros k; simpl.
  - split; [set_solver|]. by intros (? & ? & ? & ? & ?).
  - rewrite elem_of_cons, IH. split.
    + intros [[= -> ->]|(j & q & -> & ? & ?)]; [exists 0%nat, p|exists (S j), q]; split_and!; auto with lia.
    + intros ([|j] & q & -> & Hj & <-); simplify_eq/=; [left; f_equal; lia|right].
      exists j, q. auto with lia.
  - rewrite IH. split.
    + intros (j & q & -> & ? & ?). exists (S j), q. auto with lia.
    + intros ([|j] & q & -> & Hj & <-); simplify_eq/=. exists j, q. auto with lia.
Qed.

Lemma known_headers_ge k sl : Forall (λ '(i, _), (k ≤ i)%nat) (known_headers k sl).
Proof.
  apply Forall_forall. intros [i h] (j & p & -> & _)%known_headers_lookup. lia.
Qed.

Lemma known_headers_sorted k sl i0 h0 i1 h1 rest :
  known_headers k sl = (i0, h0) :: (i1, h1) :: rest → (i0 < i1)%nat.
Proof.
  revert k. induction sl as [|[p|] sl IH]; intros k; simpl; [done| |apply IH].
  intros [= <- <- Hk]. pose proof (known_headers_ge (S k) sl) as Hf. rewrite Hk in Hf.
  apply Forall_cons_1 in Hf as [? _]. lia.
Qed.

Lemma known_headers_length k sl : (length (known_headers k sl) + missing sl = length sl)%nat.
Proof.
  revert k. induction sl as [|[p|] sl IH]; intros k; rewrite ?missing_cons; simpl; [done| |];
    specialize (IH (S k)); lia.
Qed.

(** ** One group on the wire *)

(** An arrival: data packet [i], or the parity packet. *)
Abbreviation arrival := (option nat).

Section group.

(** [n] data packets [(hdr i, pay i)] and the parity packet [(ph, pp)]. *)
Context (n : nat) (base : Z) (hdr : nat → AudioPacketHeader) (pay : nat → list Z).
Context (ph : AudioPacketHeader) (pp : list Z).

Definition group_packets : list FecPacket := (λ i, (hdr i, pay i)) <$> seq 0 n.

(** What the sender promises of the group (see the [zone] component, which
    builds it). *)
Record fec_group : Prop := {
  fg_size : (2 ≤ n ≤ 16)%nat;
  fg_base : is_u16 base;
  fg_seq i : (i < n)%nat → sequence (hdr i) = wrapping_add 16 base (Z.of_nat i);
  fg_index i : (i < n)%nat → fec_index (hdr i) = Z.of_nat i;
  fg_group_size i : (i < n)%nat → fec_group_size (hdr i) = Z.of_nat n;
  fg_flags i : (i < n)%nat → flags_contains (flags (hdr i)) FEC = false;
  fg_len i : (i < n)%nat → len (pay i) < 2 ^ 16;
  fg_pseq : sequence ph = wrapping_add 16 base (Z.of_nat n);
  fg_pgroup_size : fec_group_size ph = Z.of_nat n;
  fg_pflags : flags_contains (flags ph) FEC = true;
  fg_parity : parity_for (snd <$> group_packets) (fec_len_xor ph) pp
}.

(** Packets of uniform duration in one stream: time stamps and offsets lie on
    a line, below 2^63. *)
Record uniform_group : Prop := {
  ug_size : (3 ≤ n)%nat;
  ug_same i : (i < n)%nat →
    version (hdr i) = version (hdr 0) ∧ format (hdr i) = format (hdr 0) ∧
    stream_id (hdr i) = stream_id (hdr 0) ∧ fec_len_xor (hdr i) = 0 ∧
    payload_len (hdr i) = len (pay i);
  ug_pts : ∃ P D, 0 ≤ P ∧ 0 ≤ D ∧ P + 16 * D < 2 ^ 63 ∧
    ∀ i, (i < n)%nat → pts_ns (hdr i) = P + Z.of_nat i * D;
  ug_offset : ∃ P D, 0 ≤ P ∧ 0 ≤ D ∧ P + 16 * D < 2 ^ 63 ∧
    ∀ i, (i < n)%nat → sample_offset (hdr i) = P + Z.of_nat i * D
}.

(** The header with its flags cleared. *)
Definition clear_flags (h : AudioPacketHeader) : AudioPacketHeader :=
  mkHeader (version h) 0 (format h) (sequence h) (stream_id h) (pts_ns h) (sample_offset h)
    (payload_len h) (fec_group_size h) (fec_index h) (fec_len_xor h).

(** What is always right in the header rebuilt for packet [i]. *)
Record rebuilt_header (i : nat) (h : AudioPacketHeader) : Prop := {
  rh_seq : sequence h = sequence (hdr i);
  rh_index : fec_index h = fec_index (hdr i);
  rh_group_size : fec_group_size h = fec_group_size (hdr i);
  rh_payload_len : payload_len h = len (pay i);
  rh_flags : flags h = 0;
  rh_source : ∃ j, (j < n)%nat ∧ version h = version (hdr j) ∧ format h = format (hdr j) ∧
                   stream_id h = stream_id (hdr j);
  rh_uniform : uniform_group → h = clear_flags (hdr i)
}.

Definition packet_of (a : arrival) : FecPacket :=
  match a with Some i => (hdr i, pay i) | None => (ph, pp) end.

Definition in_group (a : arrival) : Prop := match a with Some i => (i < n)%nat | None => True end.

Definition data_count (seen : list arrival) : nat := length (omap id seen).

(** The receiver while it assembles the group, [seen] having arrived. *)
Record assembling (seen : list arrival) (r : FecReceiver) : Prop := {
  as_base : base_seq r = Some base;
  as_group_size : group_size r = Z.of_nat n;
  as_length : length (slots r) = n;
  as_slots i : (i < n)%nat →
    slots r !! i = Some (if bool_decide (Some i ∈ seen) then Some (hdr i, pay i) else None);
  as_missing : (missing (slots r) + data_count seen)%nat = n;
  as_parity : parity r = if bool_decide (None ∈ seen) then Some (fec_len_xor ph, pp) else None
}.

Hypothesis Hgroup : fec_group.

Lemma data_count_Some i seen : data_count (Some i :: seen) = S (data_count seen).
Proof. done. Qed.

Lemma data_count_None seen : data_count (None :: seen) = data_count seen.
Proof. done. Qed.

Lemma data_count_NoDup seen :
  NoDup seen → length seen = (data_count seen + if bool_decide (None ∈ seen) then 1 else 0)%nat.
Proof.
  induction 1 as [|a seen Ha Hnd IH]; [done|]. rewrite length_cons, IH.
  destruct a as [i|]; rewrite ?data_count_Some, ?data_count_None;
    do 2 case_bool_decide; solve [lia | set_solver].
Qed.

(** Too few arrivals: nothing is delivered, nothing changes. *)
Lemma try_complete_waits seen r :
  assembling seen r → NoDup seen → (length seen < n)%nat → try_complete r = Ret ([], r).
Proof.
  intros [] Hnd Hl. pose proof (data_count_NoDup _ Hnd) as Hdc. unfold try_complete.
  destruct (Nat.eqb_spec (missing (slots r)) 0); [case_bool_decide; lia|]. simpl.
  destruct (Nat.eqb_spec (missing (slots r)) 1); [|done].
  rewrite as_parity0. case_bool_decide; [lia|done].
Qed.

Lemma slots_packet r seen i p :
  assembling seen r → slots r !! i = Some (Some p) → (i < n)%nat ∧ p = (hdr i, pay i).
Proof.
  intros [] Hi. assert (i < n)%nat as Hlt by (rewrite <- as_length0; by apply lookup_lt_Some in Hi).
  split; [done|]. rewrite as_slots0 in Hi by done. case_bool_decide; naive_solver.
Qed.

(** The header rebuilt for the hole. *)
Lemma synthesize_header_ok seen r k :
  assembling seen r → missing (slots r) = 1%nat → (k < n)%nat →
  ∃ h, synthesize_header r k (as_u 16 (len (pay k))) = Ret h ∧ rebuilt_header k h.
Proof.
  intros Has Hm Hk. pose proof Hgroup as []. unfold synthesize_header.
  pose proof (known_headers_length 0 (slots r)) as Hkl. rewrite (as_length _ _ Has) in Hkl.
  destruct (known_headers 0 (slots r)) as [|[i0 h0] rest] eqn:Ekh; [simpl in Hkl; lia|].
  assert ((i0, h0) ∈ known_headers 0 (slots r)) as (j0 & p0 & -> & Hj0 & <-)%known_headers_lookup
    by (rewrite Ekh; set_solver).
  destruct (slots_packet _ _ _ _ Has Hj0) as [Hlt0 ->]. rewrite Nat.add_0_l in *. cbn [fst] in *.
  assert (as_u 16 (len (pay k)) = len (pay k)) as Hlen.
  { apply as_u_id. pose proof (len_nonneg (pay k)). specialize (fg_len0 k Hk). range. }
  assert (∃ pts off, (match rest with
     | (i1, h1) :: _ =>
         (extrapolate (pts_ns (hdr j0)) (pts_ns h1) (Z.max 1 (Z.of_nat i1 - Z.of_nat j0)) (Z.of_nat k - Z.of_nat j0),
          extrapolate (sample_offset (hdr j0)) (sample_offset h1) (Z.max 1 (Z.of_nat i1 - Z.of_nat j0)) (Z.of_nat k - Z.of_nat j0))
     | [] => (pts_ns (hdr j0), sample_offset (hdr j0)) end) = (pts, off) ∧
     (uniform_group → pts = pts_ns (hdr k) ∧ off = sample_offset (hdr k))) as (pts & off & -> & Hpo).
  { destruct rest as [|[i1 h1] rest].
    { eexists _, _. split; [done|]. intros []. simpl in Hkl. lia. }
    assert ((i1, h1) ∈ known_headers 0 (slots r)) as (j1 & p1 & -> & Hj1 & <-)%known_headers_lookup
      by (rewrite Ekh; set_solver).
    destruct (slots_packet _ _ _ _ Has Hj1) as [Hlt1 ->]. rewrite Nat.add_0_l in *.
    apply known_headers_sorted in Ekh.
    eexists _, _. split; [done|]. intros [_ _ (P & D & ? & ? & ? & Hp) (P' & D' & ? & ? & ? & Ho)].
    cbn [fst]. rewrite !Hp, !Ho by done. split; apply extrapolate_exact; lia. }
  eexists. split; [reflexivity|].
  rewrite (as_base _ _ Has), (as_group_size _ _ Has). cbn [default].
  assert (sequence (hdr k) = wrapping_add 16 base (as_u 16 (Z.of_nat k))) as Hseq.
  { rewrite fg_seq0 by done. f_equal. symmetry. apply as_u_id. range. }
  assert (fec_index (hdr k) = as_u 8 (Z.of_nat k)) as Hidx.
  { rewrite fg_index0 by done. symmetry. apply as_u_id. range. }
  split; simpl; auto.
  - by rewrite fg_group_size0.
  - exists j0. auto.
  - intros Hu. destruct (Hpo Hu) as [-> ->].
    destruct (ug_same Hu k Hk) as (Hv & Hf & Hs & Hx & Hpl).
    destruct (ug_same Hu j0 Hlt0) as (Hv0 & Hf0 & Hs0 & _ & _).
    unfold clear_flags. rewrite fg_group_size0 by done. congruence.
Qed.

(** What the receiver delivers once [seen] has arrived. *)
Definition delivered (seen : list arrival) (out : list FecPacket) : Prop :=
  length out = n ∧
  ∀ i, (i < n)%nat → ∃ h, out !! i = Some (h, pay i) ∧
    if bool_decide (Some i ∈ seen) then h = hdr i else rebuilt_header i h.

(** Filling the hole of the slots gives a list whose packets are those of the
    slots, and the new one. *)
Lemma fill_hole (sl : list (option FecPacket)) l1 l2 x i :
  sl = (Some <$> l1) ++ None :: (Some <$> l2) →
  Some <$> (l1 ++ x :: l2) !! i = if decide (i = length l1) then Some (Some x) else sl !! i.
Proof.
  intros ->. rewrite <- list_lookup_fmap, <- insert_hole. case_decide as Hi.
  - subst. apply list_lookup_insert_eq. rewrite length_app, length_fmap. simpl. lia.
  - by rewrite list_lookup_insert_ne.
Qed.

Lemma hole_group seen r (l1 l2 : list FecPacket) :
  assembling seen r → slots r = (Some <$> l1) ++ None :: (Some <$> l2) →
  (length l1 < n)%nat ∧ l1 ++ (hdr (length l1), pay (length l1)) :: l2 = group_packets.
Proof.
  intros Has Hsl. assert (length (slots r) = n) as Hln by apply Has.
  rewrite Hsl, length_app, length_cons, !length_fmap in Hln. split; [lia|].
  apply (list_eq_same_length _ _ n); unfold group_packets.
  - by rewrite length_fmap, length_seq.
  - rewrite length_app, length_cons. done.
  - intros i x y Hi Hx Hy. rewrite list_lookup_fmap, lookup_seq_lt in Hy by lia. simplify_eq/=.
    pose proof (fill_hole (slots r) l1 l2 (hdr (length l1), pay (length l1)) i Hsl) as Hf.
    rewrite Hx in Hf. simpl in Hf. case_decide; [by simplify_eq|].
    destruct (slots_packet r seen i x Has) as [_ ->]; done.
Qed.

Lemma try_complete_delivers seen r :
  assembling seen r → NoDup seen → length seen = n →
  ∃ out r', try_complete r = Ret (out, r') ∧ delivered seen out ∧
    base_seq r' = None ∧ prev_base_seq r' = Some base ∧ lost r' = lost r ∧
    recovered r' = recovered r + if bool_decide (None ∈ seen) then 1 else 0.
Proof.
  intros Has Hnd Hl. pose proof (data_count_NoDup _ Hnd) as Hdc. pose proof Has as [].
  assert (2 ≤ n)%nat by apply Hgroup. unfold try_complete.
  assert (slots r ≠ []) as Hne by (intros E; rewrite E in as_length0; simpl in *; lia).
  case_bool_decide as Hpar.
  - (* recovery of one packet *)
    assert (missing (slots r) = 1%nat) as Hm by lia. rewrite Hm, as_parity0. simpl.
    destruct (missing_1 _ Hm) as (l1 & l2 & Hsl & ->).
    destruct (hole_group _ _ _ _ Has Hsl) as [Hk Hgp].
    assert (recover_payload (fec_len_xor ph) pp (flatten (slots r)) = pay (length l1)) as ->.
    { rewrite Hsl, flatten_hole.
      apply (recover_payload_exact l1 l2 (hdr (length l1), pay (length l1))).
      - rewrite Hgp. apply Hgroup.
      - by apply Hgroup. }
    destruct (synthesize_header_ok seen r (length l1)) as (h & -> & Hh); try done. simpl.
    eexists _, _. split; [reflexivity|]. simpl. split_and!; try done.
    rewrite Hsl, insert_hole, flatten_Some. split.
    { rewrite <- as_length0, Hsl, !length_app. simpl. by rewrite !length_fmap. }
    intros i Hi. pose proof (fill_hole (slots r) l1 l2 (h, pay (length l1)) i Hsl) as Hf.
    case_decide as Hik.
    + subst i. exists h. destruct (_ !! _); simplify_eq/=. split; [done|].
      assert (slots r !! length l1 = Some None) as Hno.
      { rewrite Hsl. rewrite lookup_app_r by (by rewrite length_fmap).
        by rewrite length_fmap, Nat.sub_diag. }
      rewrite as_slots0 in Hno by done. by case_bool_decide.
    + rewrite as_slots0 in Hf by done. exists (hdr i).
      case_bool_decide; destruct (_ !! _); simplify_eq/=; done.
  - (* nothing is missing *)
    assert (missing (slots r) = 0%nat) as Hm by lia. rewrite Hm, bool_decide_eq_false_2 by done.
    simpl. eexists _, _. split; [reflexivity|]. simpl. split_and!; try done; [|lia].
    destruct (missing_0 _ Hm) as [l Hsl]. rewrite Hsl, flatten_Some. split.
    { by rewrite <- as_length0, Hsl, length_fmap. }
    intros i Hi. specialize (as_slots0 i Hi). rewrite Hsl, list_lookup_fmap in as_slots0.
    exists (hdr i). case_bool_decide; destruct (l !! i); by simplify_eq/=.
Qed.

(** Both kinds of packet announce the same base. *)
Lemma data_base i : (i < n)%nat → wrapping_sub 16 (sequence (hdr i)) (fec_index (hdr i)) = base.
Proof.
  intros. pose proof Hgroup as []. rewrite fg_seq0, fg_index0 by done. by apply wrapping_sub_add.
Qed.

Lemma parity_base : wrapping_sub 16 (sequence ph) (fec_group_size ph) = base.
Proof. pose proof Hgroup as []. rewrite fg_pseq0, fg_pgroup_size0. by apply wrapping_sub_add. Qed.

(** The guards of [feed] on a data packet of the group. *)
Lemma feed_data_guards i :
  (i < n)%nat →
  (fec_group_size (hdr i) =? 0) = false ∧ flags_contains (flags (hdr i)) FEC = false ∧
  Z.to_nat (fec_index (hdr i)) = i ∧ Z.to_nat (fec_group_size (hdr i)) = n ∧
  fec_group_size (hdr i) = Z.of_nat n.
Proof.
  intros Hi. pose proof Hgroup as []. rewrite fg_group_size0, fg_index0, fg_flags0 by done.
  split_and!; try done; lia.
Qed.

Definition same_counters (r r' : FecReceiver) : Prop :=
  prev_base_seq r' = prev_base_seq r ∧ recovered r' = recovered r ∧ lost r' = lost r.

Lemma assembling_insert seen r i sl :
  assembling seen r → (i < n)%nat → Some i ∉ seen → sl = <[i := Some (hdr i, pay i)]> (slots r) →
  assembling (Some i :: seen)
    (mkReceiver (base_seq r) (prev_base_seq r) sl (parity r) (group_size r) (recovered r) (lost r)).
Proof.
  intros [] Hi Hn ->. split; simpl; try done.
  - by rewrite length_insert.
  - intros j Hj. destruct (decide (i = j)) as [->|].
    + rewrite list_lookup_insert_eq by lia. by rewrite bool_decide_eq_true_2 by set_solver.
    + rewrite list_lookup_insert_ne, as_slots0 by done.
      by rewrite (bool_decide_ext (Some j ∈ Some i :: seen) (Some j ∈ seen)) by set_solver.
  - rewrite data_count_Some. specialize (as_slots0 i Hi).
    rewrite bool_decide_eq_false_2 in as_slots0 by done.
    pose proof (missing_insert (slots r) i (hdr i, pay i) as_slots0). lia.
  - rewrite as_parity0.
    by rewrite (bool_decide_ext (None ∈ Some i :: seen) (None ∈ seen)) by set_solver.
Qed.

Lemma assembling_parity seen r :
  assembling seen r →
  assembling (None :: seen)
    (mkReceiver (base_seq r) (prev_base_seq r) (slots r) (Some (fec_len_xor ph, pp)) (group_size r)
       (recovered r) (lost r)).
Proof.
  intros []. split; simpl; try done.
  - intros j Hj. rewrite as_slots0 by done.
    by rewrite (bool_decide_ext (Some j ∈ None :: seen) (Some j ∈ seen)) by set_solver.
Qed.

(** A further packet of the group being assembled is filed, then completion
    is tried. *)
Lemma feed_more seen r a :
  assembling seen r → in_group a → a ∉ seen →
  ∃ r1, assembling (a :: seen) r1 ∧ same_counters r r1 ∧
    receiver_feed r (packet_of a).1 (packet_of a).2 = try_complete r1.
Proof.
  intros Has Ha Hn. pose proof Hgroup as Hg. unfold receiver_feed. destruct a as [i|]; simpl.
  - destruct (feed_data_guards i Ha) as (-> & -> & Hidx & _). simpl.
    rewrite data_base, Hidx, (as_base _ _ Has) by done.
    rewrite (bool_decide_eq_true_2 (Some base = Some base)) by done. rewrite andb_false_r.
    destruct (Nat.ltb_spec i (length (slots r))) as [Hlt|Hge];
      [|rewrite (as_length _ _ Has) in Hge; simpl in Ha; lia].
    eexists. split; [by eapply assembling_insert|]. split; [done|].
    rewrite (as_base _ _ Has). by destruct (try_complete _) as [[out r']|].
  - rewrite (fg_pflags Hg), andb_false_r, parity_base.
    rewrite bool_decide_eq_true_2 by by rewrite (as_base _ _ Has).
    eexists. split; [by apply assembling_parity|]. done.
Qed.

(** The first data packet of a group, on an idle receiver. *)
Lemma feed_first r i :
  base_seq r = None → prev_base_seq r ≠ Some base → (i < n)%nat →
  ∃ r1, assembling [Some i] r1 ∧ same_counters r r1 ∧
    receiver_feed r (hdr i) (pay i) = Ret ([], r1).
Proof.
  intros Hb Hp Hi. pose proof Hgroup as Hg. unfold receiver_feed.
  destruct (feed_data_guards i Hi) as (-> & -> & Hidx & Hgn & Hgz). simpl.
  rewrite data_base, Hidx, Hgz, Nat2Z.id by done.
  rewrite (bool_decide_eq_false_2 (prev_base_seq r = Some base)) by done. simpl.
  rewrite Hb. simpl. unfold receiver_flush. rewrite Hb. simpl. rewrite length_replicate.
  destruct (Nat.ltb_spec i n); [|lia].
  set (r0 := mkReceiver (Some base) (prev_base_seq r) (replicate n None) None (Z.of_nat n)
               (recovered r) (lost r)).
  assert (assembling [] r0) as H0.
  { split; simpl; try done.
    - by rewrite length_replicate.
    - intros j Hj. by apply lookup_replicate_2.
    - rewrite missing_replicate. unfold data_count. simpl. lia. }
  pose proof (assembling_insert [] r0 i _ H0 Hi ltac:(set_solver) eq_refl) as H1.
  eexists. split; [exact H1|]. split; [done|]. simpl in H1 |- *.
  rewrite (try_complete_waits [Some i] _ H1); [done|apply NoDup_singleton|].
  destruct Hg. simpl. lia.
Qed.

(** The rest of the group, up to the [n]-th arrival. *)
Lemma feed_rest seen r order :
  assembling seen r → NoDup (order ++ seen) → Forall in_group order → order ≠ [] →
  (length order + length seen = n)%nat →
  ∃ out r', receiver_run r (packet_of <$> order) = Ret (replicate (length order - 1) [] ++ [out], r') ∧
    delivered (reverse order ++ seen) out ∧
    base_seq r' = None ∧ prev_base_seq r' = Some base ∧ lost r' = lost r ∧
    recovered r' = recovered r + if bool_decide (None ∈ order ++ seen) then 1 else 0.
Proof.
  revert seen r. induction order as [|a order IH]; intros seen r Has Hnd Hin Hne Hl; [done|].
  apply Forall_cons in Hin as [Ha Hin]. pose proof Hnd as Hnd0. simpl in Hnd, Hl.
  apply NoDup_cons in Hnd as [Hn Hnd].
  assert (NoDup (order ++ a :: seen)) as Hnd'
    by by rewrite <- Permutation_middle.
  destruct (feed_more seen r a Has Ha) as (r1 & Has1 & (Hp1 & Hr1 & Hl1) & Hf); [set_solver|].
  rewrite fmap_cons. destruct (packet_of a) as [h p] eqn:Epk. cbn [receiver_run].
  simpl in Hf. rewrite Hf. rewrite reverse_cons, <- (assoc_L (++)). simpl.
  assert (∀ m, (m ∈ order ++ a :: seen) ↔ (m ∈ a :: order ++ seen)) as Hmem by set_solver.
  destruct (decide (order = [])) as [->|Hor].
  - destruct (try_complete_delivers (a :: seen) r1) as (out & r' & -> & Hd & Hb & Hpv & Hlo & Hre);
      [done|done|simpl in *; lia|].
    simpl. exists out, r'. split_and!; try done; [by rewrite Hlo|]. by rewrite Hre, Hr1.
  - rewrite (try_complete_waits (a :: seen) r1); [|done|by apply NoDup_app in Hnd' as (_ & _ & ?)|].
    2:{ simpl. destruct order; [done|]. simpl in Hl. lia. }
    simpl. destruct (IH (a :: seen) r1 Has1 Hnd' Hin Hor) as (out & r' & -> & Hd & Hb & Hpv & Hlo & Hre);
      [simpl; lia|].
    simpl. exists out, r'. split_and!; try done.
    + destruct order; [done|]. simpl. by rewrite Nat.sub_0_r.
    + by rewrite Hlo.
    + rewrite Hre, Hr1. f_equal. by rewrite (bool_decide_ext _ _ (Hmem None)).
Qed.

End group.

(** ** Delivery of one group *)

Lemma delivered_ext n hdr pay seen1 seen2 out :
  (∀ a, a ∈ seen1 ↔ a ∈ seen2) → delivered n hdr pay seen1 out → delivered n hdr pay seen2 out.
Proof.
  intros Hs [Hl Hd]. split; [done|]. intros i Hi. destruct (Hd i Hi) as (h & ? & Hh).
  exists h. by rewrite <- (bool_decide_ext _ _ (Hs (Some i))).
Qed.

Lemma delivered_payloads n hdr pay seen out :
  delivered n hdr pay seen out → snd <$> out = pay <$> seq 0 n.
Proof.
  intros [Hl Hd]. apply (list_eq_same_length _ _ n); [by rewrite length_fmap, length_seq|by rewrite length_fmap|].
  intros i x y Hi Hx Hy. rewrite list_lookup_fmap in Hx. rewrite list_lookup_fmap in Hy. rewrite lookup_seq_lt in Hy by done.
  destruct (Hd i Hi) as (h & Ho & _). rewrite Ho in Hx. by simplify_eq/=.
Qed.

Lemma group_delivery n base hdr pay ph pp r first rest :
  fec_group n base hdr pay ph pp →
  base_seq r = None → prev_base_seq r ≠ Some base →
  NoDup (Some first :: rest) → Forall (in_group n) (Some first :: rest) →
  length (Some first :: rest) = n →
  ∃ out r', receiver_run r (packet_of hdr pay ph pp <$> Some first :: rest)
            = Ret (replicate (n - 1) [] ++ [out], r') ∧
    delivered n hdr pay (Some first :: rest) out ∧
    base_seq r' = None ∧ prev_base_seq r' = Some base ∧ lost r' = lost r ∧
    recovered r' = recovered r + if bool_decide (None ∈ Some first :: rest) then 1 else 0.
Proof.
  intros Hg Hb Hp Hnd Hin Hl. assert (2 ≤ n)%nat by apply Hg.
  apply Forall_cons in Hin as [Hi Hin]. simpl in Hi, Hl.
  destruct (feed_first _ _ _ _ _ _ Hg r first Hb Hp Hi) as (r1 & Has & (Hp1 & Hr1 & Hl1) & Hf).
  destruct (feed_rest _ _ _ _ _ _ Hg [Some first] r1 rest) as (out & r' & Hrun & Hd & Hb' & Hp' & Hl' & Hr');
    try done.
  { by rewrite <- Permutation_cons_append. }
  { destruct rest; [simpl in *; lia|done]. }
  { simpl. lia. }
  exists out, r'. rewrite fmap_cons. cbn [packet_of receiver_run]. rewrite Hf. simpl.
  rewrite Hrun. simpl. split_and!; try done.
  - replace (n - 1)%nat with (S (length rest - 1)); [done|]. destruct rest; simpl in *; lia.
  - eapply delivered_ext; [|done]. set_solver.
  - by rewrite Hl'.
  - rewrite Hr', Hr1. f_equal.
    by rewrite (bool_decide_ext (None ∈ rest ++ [Some first]) (None ∈ Some first :: rest)) by set_solver.
Qed.

(** ** Properties *)

(** C5 A receiver between two groups gets a group (not the one it has just
    finished) with a data packet first, the others in any order, and one of its
    [n] data packets and its parity not at all. It is silent for the first
    [n-1] arrivals and at the [n]-th delivers all [n] packets in order: the
    received ones unchanged, the missing one with
    its exact payload, its sequence number, index and group size, no flags, and
    the version, format and stream of a packet of the group; its times are
    exact too, and so the header up to the flags, when the group has three
    packets or more of uniform duration.  Nothing is counted lost, and a
    recovery is counted when the parity was used.  (A parity that arrives first
    is thrown away, so it cannot help then.) *)
Theorem fec_group_delivery n base hdr pay ph pp r first rest :
  fec_group n base hdr pay ph pp →
  base_seq r = None → prev_base_seq r ≠ Some base →
  NoDup (Some first :: rest) → Forall (in_group n) (Some first :: rest) →
  length (Some first :: rest) = n →
  ∃ out r', receiver_run r (packet_of hdr pay ph pp <$> Some first :: rest)
            = Ret (replicate (n - 1) [] ++ [out], r') ∧
    delivered n hdr pay (Some first :: rest) out ∧
    base_seq r' = None ∧ prev_base_seq r' = Some base ∧ lost r' = lost r ∧
    recovered r' = recovered r + if bool_decide (None ∈ Some first :: rest) then 1 else 0.
Proof. apply group_delivery. Qed.

(** A concrete group of three packets, of different lengths. *)
Definition demo_header (base : Z) (i : nat) : AudioPacketHeader :=
  mkHeader 1 0 PcmS24le (wrapping_add 16 base (Z.of_nat i)) 7 (1000 + Z.of_nat i * 10)
    (Z.of_nat i * 480) (Z.of_nat i + 1) 3 (Z.of_nat i) 0.
Definition demo_payload (i : nat) : list Z := replicate (i + 1) (Z.of_nat i + 5).
Definition demo_parity_header (base : Z) : AudioPacketHeader :=
  mkHeader 1 FEC PcmS24le (wrapping_add 16 base 3) 7 1030 1440 3 3 0 0.
Definition demo_parity : list Z := [4; 1; 7].

Lemma demo_group base :
  is_u16 base →
  fec_group 3 base (demo_header base) demo_payload (demo_parity_header base) demo_parity.
Proof.
  intros Hb. split; simpl; try done; try lia;
    try (intros [|[|[|i]]] ?; try done; lia).
  split; [done| |done]. intros [|[|[|j]]]; try done. simpl. by destruct j.
Qed.

(** Packet 1 is lost; the arrivals are packet 2, the parity, packet 0. *)
Lemma fec_group_delivery_witness :
  ∃ out r', receiver_run FecReceiver_new
              (packet_of (demo_header 65534) demo_payload (demo_parity_header 65534) demo_parity
                 <$> [Some 2; None; Some 0]%nat)
            = Ret ([[]; []; out], r') ∧
    delivered 3 (demo_header 65534) demo_payload [Some 2; None; Some 0]%nat out ∧
    base_seq r' = None ∧ prev_base_seq r' = Some 65534 ∧ lost r' = 0 ∧ recovered r' = 1.
Proof.
  apply (fec_group_delivery 3 65534 (demo_header 65534) demo_payload (demo_parity_header 65534) demo_parity);
    [by apply demo_group|done|done| | |done].
  - apply (bool_decide_unpack _). by vm_compute.
  - repeat constructor; simpl; lia.
Defined.

(** ** A stream of groups *)

Record wire_group := mkWireGroup {
  wg_n : nat;
  wg_base : Z;
  wg_hdr : nat → AudioPacketHeader;
  wg_pay : nat → list Z;
  wg_ph : AudioPacketHeader;
  wg_pp : list Z;
  wg_first : nat;
  wg_rest : list arrival;
  wg_late_parity : bool
}.

Definition wg_order (g : wire_group) : list arrival := Some (wg_first g) :: wg_rest g.

(** What arrives for the group: [n] of its packets, and possibly its parity
    after them when all the data arrived. *)
Definition wg_arrivals (g : wire_group) : list FecPacket :=
  packet_of (wg_hdr g) (wg_pay g) (wg_ph g) (wg_pp g)
    <$> wg_order g ++ (if wg_late_parity g then [None] else []).

Record wire_group_ok (g : wire_group) : Prop := {
  wo_group : fec_group (wg_n g) (wg_base g) (wg_hdr g) (wg_pay g) (wg_ph g) (wg_pp g);
  wo_nodup : NoDup (wg_order g);
  wo_in : Forall (in_group (wg_n g)) (wg_order g);
  wo_length : length (wg_order g) = wg_n g
}.

(** Consecutive groups have different base sequence numbers. *)
Fixpoint distinct_bases (prev : option Z) (gs : list wire_group) : Prop :=
  match gs with
  | [] => True
  | g :: gs => prev ≠ Some (wg_base g) ∧ distinct_bases (Some (wg_base g)) gs
  end.

Definition recoveries (gs : list wire_group) : nat :=
  length (filter (λ g, None ∈ wg_order g) gs).

Lemma receiver_run_app r a b :
  receiver_run r (a ++ b) =
    outcome_bind (receiver_run r a) (λ '(outs, r'),
      outcome_bind (receiver_run r' b) (λ '(outs', r''), Ret (outs ++ outs', r''))).
Proof.
  revert r. induction a as [|[h p] a IH]; intros r; simpl.
  { by destruct (receiver_run r b) as [[]|]. }
  destruct (receiver_feed r h p) as [[o r1]|]; [|done]. simpl. rewrite IH.
  destruct (receiver_run r1 a) as [[outs r2]|]; [|done]. simpl.
  by destruct (receiver_run r2 b) as [[]|].
Qed.

(** A parity packet whose group is not the current one is ignored. *)
Lemma feed_parity_idle r h p :
  base_seq r = None → flags_contains (flags h) FEC = true → receiver_feed r h p = Ret ([], r).
Proof.
  intros Hb Hf. unfold receiver_feed. rewrite Hf, andb_false_r, Hb.
  by rewrite bool_decide_eq_false_2 by done.
Qed.

Lemma concat_replicate_nil {A} k (l : list A) : concat (replicate k [] ++ [l]) = l.
Proof. induction k; simpl; [apply app_nil_r|done]. Qed.

Lemma group_arrivals_delivery g r :
  wire_group_ok g → base_seq r = None → prev_base_seq r ≠ Some (wg_base g) →
  ∃ outs out r', receiver_run r (wg_arrivals g) = Ret (outs, r') ∧ concat outs = out ∧
    delivered (wg_n g) (wg_hdr g) (wg_pay g) (wg_order g) out ∧
    base_seq r' = None ∧ prev_base_seq r' = Some (wg_base g) ∧ lost r' = lost r ∧
    recovered r' = recovered r + if bool_decide (None ∈ wg_order g) then 1 else 0.
Proof.
  intros [Hg Hnd Hin Hl] Hb Hp.
  destruct (group_delivery _ _ _ _ _ _ r _ _ Hg Hb Hp Hnd Hin Hl)
    as (out & r' & Hrun & Hd & Hb' & Hp' & Hl' & Hr').
  unfold wg_arrivals. rewrite fmap_app, receiver_run_app. unfold wg_order at 1. rewrite Hrun. simpl.
  exists (replicate (wg_n g - 1) [] ++ [out] ++ if wg_late_parity g then [[]] else []), out, r'.
  split_and!; try done.
  - destruct (wg_late_parity g); simpl; [|by rewrite app_nil_r].
    rewrite feed_parity_idle by (done || apply Hg). simpl. by rewrite <- (assoc_L (++)).
  - destruct (wg_late_parity g); rewrite (assoc_L (++)), concat_app, concat_replicate_nil; simpl;
      by rewrite app_nil_r.
Qed.

Lemma stream_delivery gs r :
  Forall wire_group_ok gs → base_seq r = None → distinct_bases (prev_base_seq r) gs →
  ∃ outs gouts r', receiver_run r (concat (wg_arrivals <$> gs)) = Ret (outs, r') ∧
    concat outs = concat gouts ∧
    Forall2 (λ g out, delivered (wg_n g) (wg_hdr g) (wg_pay g) (wg_order g) out) gs gouts ∧
    lost r' = lost r ∧ recovered r' = recovered r + Z.of_nat (recoveries gs).
Proof.
  intros Hok. revert r. induction Hok as [|g gs Hg _ IH]; intros r Hb Hdis.
  { exists [], [], r. split_and!; try done. unfold recoveries. simpl. lia. }
  destruct Hdis as [Hne Hdis].
  destruct (group_arrivals_delivery g r Hg Hb Hne) as (outs & out & r1 & Hrun & Ho & Hd & Hb1 & Hp1 & Hl1 & Hr1).
  destruct (IH r1 Hb1) as (outs' & gouts & r' & Hrun' & Ho' & Hd' & Hl' & Hr'); [by rewrite Hp1|].
  exists (outs ++ outs'), (out :: gouts), r'. rewrite fmap_cons. cbn [concat].
  rewrite receiver_run_app, Hrun. cbn [outcome_bind]. rewrite Hrun'. cbn [outcome_bind].
  split_and!; try done.
  - by rewrite concat_app, Ho, Ho'.
  - by constructor.
  - by rewrite Hl'.
  - rewrite Hr', Hr1. unfold recoveries. rewrite filter_cons. case_decide; case_bool_decide; try done;
      simpl; lia.
Qed.

(** A stream of groups through a lossy link: as long as each group loses at
    most one packet, the payloads delivered are exactly the payloads sent, in
    order and once, no packet is counted lost, and exactly one recovery is
    counted for each group that needed its parity. *)
Theorem fec_stream_delivery gs :
  Forall wire_group_ok gs → distinct_bases None gs →
  ∃ outs r', receiver_run FecReceiver_new (concat (wg_arrivals <$> gs)) = Ret (outs, r') ∧
    snd <$> concat outs = concat ((λ g, wg_pay g <$> seq 0 (wg_n g)) <$> gs) ∧
    lost r' = 0 ∧ recovered r' = Z.of_nat (recoveries gs).
Proof.
  intros Hok Hdis. destruct (stream_delivery gs FecReceiver_new Hok eq_refl Hdis)
    as (outs & gouts & r' & Hrun & Ho & Hd & Hl & Hr).
  exists outs, r'. split_and!; try done. rewrite Ho. clear -Hd.
  induction Hd as [|g out gs gouts Hd _ IH]; [done|].
  cbn [concat fmap list_fmap]. rewrite fmap_app. f_equal; [by eapply delivered_payloads|done].
Qed.

(** Two groups: packet 1 of the first is lost, the second is complete, out of
    order, with its parity last. *)
Definition demo_stream : list wire_group :=
  [ mkWireGroup 3 65534 (demo_header 65534) demo_payload (demo_parity_header 65534) demo_parity
      0 [Some 2%nat; None] false;
    mkWireGroup 3 2 (demo_header 2) demo_payload (demo_parity_header 2) demo_parity
      1 [Some 0%nat; Some 2%nat] true ].

Lemma demo_stream_ok : Forall wire_group_ok demo_stream.
Proof.
  apply Forall_cons; split; [|apply Forall_singleton];
    (split; [by apply demo_group|apply (bool_decide_unpack _); by vm_compute| |done]);
    by repeat constructor; simpl; lia.
Qed.

Lemma fec_stream_delivery_witness :
  ∃ outs r', receiver_run FecReceiver_new (concat (wg_arrivals <$> demo_stream)) = Ret (outs, r') ∧
    snd <$> concat outs = concat ((λ g, wg_pay g <$> seq 0 (wg_n g)) <$> demo_stream) ∧
    lost r' = 0 ∧ recovered r' = 1.
Proof.
  apply (fec_stream_delivery demo_stream); [exact demo_stream_ok|].
  vm_compute. repeat split; discriminate.
Defined.

(** If [n] of the [n+1] packets arrived and one data packet did not, the
    parity did. *)
Lemma all_but_one_parity n (order : list arrival) i :
  NoDup order → Forall (in_group n) order → length order = n → (i < n)%nat → Some i ∉ order →
  None ∈ order.
Proof.
  intros Hnd Hin Hl Hi Hni. apply dec_stable. intros Hnone.
  assert (length order ≤ length ((Some <$> (seq 0 i ++ seq (S i) (n - S i))) : list arrival))%nat as Hlen.
  { apply List.NoDup_incl_length; [by apply NoDup_ListNoDup|]. intros a Ha%list_elem_of_In.
    apply list_elem_of_In. rewrite Forall_forall in Hin. specialize (Hin a Ha).
    destruct a as [j|]; [|done]. simpl in Hin. assert (j ≠ i) by naive_solver.
    apply list_elem_of_fmap. exists j. split; [done|]. rewrite elem_of_app, !elem_of_seq. lia. }
  rewrite length_fmap, length_app, !length_seq in Hlen. lia.
Qed.

(** A data packet that was only late, not lost, is delivered twice: once
    reconstructed with its group, and once more when it finally arrives. *)
Theorem fec_late_packet_duplicated n base hdr pay ph pp r first rest i :
  fec_group n base hdr pay ph pp →
  base_seq r = None → prev_base_seq r ≠ Some base →
  NoDup (Some first :: rest) → Forall (in_group n) (Some first :: rest) →
  length (Some first :: rest) = n → (i < n)%nat → Some i ∉ Some first :: rest →
  ∃ out r', receiver_run r (packet_of hdr pay ph pp <$> (Some first :: rest) ++ [Some i])
            = Ret (replicate (n - 1) [] ++ [out; [(hdr i, pay i)]], r') ∧
    (∃ h, out !! i = Some (h, pay i)) ∧ recovered r' = recovered r + 1.
Proof.
  intros Hg Hb Hp Hnd Hin Hl Hi Hni.
  destruct (group_delivery _ _ _ _ _ _ r _ _ Hg Hb Hp Hnd Hin Hl)
    as (out & r' & Hrun & [Hol Hd] & Hb' & Hp' & Hl' & Hr').
  exists out, r'. rewrite fmap_app, receiver_run_app, Hrun. cbn [outcome_bind fmap list_fmap].
  assert (receiver_feed r' (hdr i) (pay i) = Ret ([(hdr i, pay i)], r')) as Hfeed.
  { unfold receiver_feed. destruct (feed_data_guards _ _ _ _ _ _ Hg i Hi) as (-> & -> & _). simpl.
    rewrite (data_base _ _ _ _ _ _ Hg i Hi), Hb', Hp'.
    by rewrite bool_decide_eq_true_2, bool_decide_eq_false_2 by done. }
  split_and!.
  - simpl. rewrite Hfeed. simpl. by rewrite <- (assoc_L (++)).
  - destruct (Hd i Hi) as (h & Ho & _). by exists h.
  - rewrite Hr'. f_equal. rewrite bool_decide_eq_true_2; [done|]. by eapply all_but_one_parity.
Qed.

Lemma fec_late_packet_duplicated_witness :
  ∃ out r', receiver_run FecReceiver_new
              (packet_of (demo_header 9) demo_payload (demo_parity_header 9) demo_parity
                 <$> [Some 0; Some 2; None; Some 1]%nat)
            = Ret ([[]; []; out; [(demo_header 9 1, demo_payload 1)]], r') ∧
    (∃ h, out !! 1%nat = Some (h, demo_payload 1)) ∧ recovered r' = 1.
Proof.
  apply (fec_late_packet_duplicated 3 9 (demo_header 9) demo_payload (demo_parity_header 9) demo_parity
           FecReceiver_new 0 [Some 2%nat; None] 1);
    [by apply demo_group|done|done| | |done|lia|apply (bool_decide_unpack _); by vm_compute].
  - apply (bool_decide_unpack _). by vm_compute.
  - repeat constructor; simpl; lia.
Defined.

(** ** Panics *)

(** The receiver cannot panic while its slot vector is not of length one. *)
Lemma position_none_missing sl : (0 < missing sl)%nat → is_Some (position_none sl).
Proof.
  induction sl as [|[p|] sl IH]; rewrite ?missing_cons; simpl; [unfold missing; simpl; lia| |eauto].
  intros H. destruct IH as [k ->]; [lia|]. eauto.
Qed.

Lemma try_complete_total r :
  length (slots r) ≠ 1%nat →
  ∃ out r', try_complete r = Ret (out, r') ∧ (slots r' = slots r ∨ slots r' = []).
Proof.
  intros Hl. unfold try_complete.
  destruct (_ && _); [simpl; eauto 10|]. destruct (Nat.eqb_spec (missing (slots r)) 1) as [Hm|]; [|eauto].
  destruct (parity r) as [[lx pp]|]; [|eauto].
  destruct (position_none_missing (slots r)) as [k ->]; [lia|].
  unfold synthesize_header. pose proof (known_headers_length 0 (slots r)) as Hk.
  destruct (known_headers 0 (slots r)) as [|[i0 h0] rest]; [simpl in Hk; lia|].
  destruct (match rest with [] => _ | _ => _ end). simpl. eauto.
Qed.

Lemma receiver_feed_total r h p :
  length (slots r) ≠ 1%nat → 0 ≤ fec_group_size h → fec_group_size h ≠ 1 →
  ∃ out r', receiver_feed r h p = Ret (out, r') ∧ length (slots r') ≠ 1%nat.
Proof.
  intros Hl Hg0 Hg. unfold receiver_feed.
  assert (∀ r, length (slots r) ≠ 1%nat → length (slots (receiver_flush r).2) ≠ 1%nat) as Hfl.
  { intros r0 ?. unfold receiver_flush. by destruct (base_seq r0). }
  destruct (_ && negb _).
  { specialize (Hfl r Hl). destruct (receiver_flush r) as [out r1]. eauto. }
  destruct (flags_contains _ _).
  { case_bool_decide; [|eauto]. destruct (try_complete_total (mkReceiver (base_seq r) (prev_base_seq r)
      (slots r) (Some (fec_len_xor h, p)) (group_size r) (recovered r) (lost r))) as (out & r' & -> & Hs); [done|].
    exists out, r'. split; [done|]. by destruct Hs as [-> | ->]. }
  destruct (_ && negb _); [eauto|].
  set (st := if bool_decide (base_seq r = _) then _ else _).
  assert (length (slots st.2) ≠ 1%nat) as Hst.
  { unfold st. case_bool_decide; [done|]. destruct (receiver_flush r) as [out r1]. simpl.
    rewrite length_replicate. lia. }
  destruct st as [out r1]. simpl in Hst.
  match goal with |- context [try_complete ?x] => set (r2 := x) end.
  assert (length (slots r2) ≠ 1%nat) as Hr2.
  { unfold r2. destruct (_ <? _)%nat; simpl; [by rewrite length_insert|done]. }
  destruct (try_complete_total r2 Hr2) as (out' & r' & -> & Hs). simpl. eexists _, _.
  split; [done|]. by destruct Hs as [-> | ->].
Qed.

(** On packets whose group size is not one (the protocol allows 2 to 16),
    the receiver never panics, whatever their other fields and order. *)
Theorem fec_receiver_total pkts :
  Forall (λ p : FecPacket, header_wf p.1 ∧ fec_group_size p.1 ≠ 1) pkts →
  ∃ outs r', receiver_run FecReceiver_new pkts = Ret (outs, r').
Proof.
  assert (length (slots FecReceiver_new) ≠ 1%nat) as Hl by done. revert Hl.
  generalize FecReceiver_new as r. induction pkts as [|[h p] pkts IH]; intros r Hl Hf; [simpl; eauto|].
  apply Forall_cons in Hf as [[Hwf Hg] Hf]. pose proof (wf_fec_group_size _ Hwf) as [? _].
  destruct (receiver_feed_total r h p Hl) as (out & r1 & Hr & Hl1); [done|done|].
  destruct (IH r1 Hl1 Hf) as (outs & r' & Hrun). simpl. rewrite Hr. simpl. rewrite Hrun. simpl. eauto.
Qed.

Lemma fec_receiver_total_witness :
  ∃ outs r', receiver_run FecReceiver_new [(sample_header, [1; 2]); (sample_header, [])] = Ret (outs, r').
Proof.
  apply fec_receiver_total. repeat constructor; try discriminate; vm_compute; reflexivity.
Defined.

(** Two packets any peer can put on the wire: group size one, index one, then
    the parity of that group. *)
Definition hostile_packets : list FecPacket :=
  [ (mkHeader 1 0 PcmS16le 10 7 0 0 0 1 1 0, []); (mkHeader 1 FEC PcmS16le 10 7 0 0 0 1 0 0, []) ].

(** Two well-formed packets with group size one bring the receiver to index
    an empty list of known headers: the task that feeds it panics. *)
Theorem fec_group_size_one_panics :
  Forall (λ p : FecPacket, header_wf p.1 ∧ header_decode (header_encode p.1) = Ok p.1) hostile_packets ∧
  receiver_run FecReceiver_new hostile_packets = Panic.
Proof.
  split; [|by vm_compute].
  repeat constructor; try (vm_compute; discriminate); vm_compute; reflexivity.
Qed.
