(* ===== verification/Text.v ===== *)
(** * Text

    The operations of Rust's [str] that the sources use, on strings of ASCII
    characters: splitting, trimming, prefixes, decimal numbers. *)

From S2P Require Import Prelude.
From Stdlib Require Import Ascii.

Local Open Scope Z_scope.

(** [s.split(c)]: at least one part. *)
Fixpoint split (c : ascii) (s : string) : list string :=
  match s with
  | EmptyString => [EmptyString]
  | String a s =>
      if Ascii.eqb a c then EmptyString :: split c s
      else match split c s with
           | p :: ps => String a p :: ps
           | [] => [String a EmptyString]
           end
  end.

(** [s.split_once(c)]. *)
Fixpoint split_once (c : ascii) (s : string) : option (string * string) :=
  match s with
  | EmptyString => None
  | String a s =>
      if Ascii.eqb a c then Some (EmptyString, s)
      else prod_map (String a) id <$> split_once c s
  end.

(** [s.strip_prefix(p)]. *)
Fixpoint strip_prefix (p s : string) : option string :=
  match p, s with
  | EmptyString, s => Some s
  | String a p, String b s => if Ascii.eqb a b then strip_prefix p s else None
  | String _ _, EmptyString => None
  end.

Definition starts_with (s p : string) : bool :=
  match strip_prefix p s with Some _ => true | None => false end.

(** [s.strip_suffix(p)]. *)
Fixpoint strip_suffix (p s : string) : option string :=
  if String.eqb s p then Some EmptyString
  else match s with
       | EmptyString => None
       | String a s => String a <$> strip_suffix p s
       end.

(** [char::is_whitespace], on ASCII: tab to carriage return, and space. *)
Definition is_whitespace (a : ascii) : bool :=
  let n := nat_of_ascii a in ((9 <=? n) && (n <=? 13) || (n =? 32))%nat.

Fixpoint trim_start (s : string) : string :=
  match s with
  | String a s' => if is_whitespace a then trim_start s' else s
  | EmptyString => EmptyString
  end.

Fixpoint trim_end (s : string) : string :=
  match s with
  | EmptyString => EmptyString
  | String a s =>
      match trim_end s with
      | EmptyString => if is_whitespace a then EmptyString else String a EmptyString
      | t => String a t
      end
  end.

Definition trim (s : string) : string := trim_end (trim_start s).

Definition lower_char (a : ascii) : ascii :=
  let n := nat_of_ascii a in
  if ((65 <=? n) && (n <=? 90))%nat then ascii_of_nat (n + 32) else a.

(** [to_lowercase], on ASCII. *)
Fixpoint to_lowercase (s : string) : string :=
  match s with EmptyString => EmptyString | String a s => String (lower_char a) (to_lowercase s) end.

(** [s.contains(p)]. *)
Fixpoint contains (s p : string) : bool :=
  starts_with s p ||
  match s with String _ s => contains s p | EmptyString => false end.

(** What follows the first occurrence of [p]: [s.find(p)] and the slice after
    it. *)
Fixpoint find_after (p s : string) : option string :=
  match strip_prefix p s with
  | Some rest => Some rest
  | None => match s with String _ s => find_after p s | EmptyString => None end
  end.

(** [s.split(p)] for a string [p] that is not empty; [skip] characters are left
    of a match. *)
Fixpoint split_str_loop (p s : string) (skip : nat) : list string :=
  match s with
  | EmptyString => [EmptyString]
  | String a s' =>
      match skip with
      | S skip => split_str_loop p s' skip
      | O =>
          if starts_with s p then EmptyString :: split_str_loop p s' (String.length p - 1)
          else match split_str_loop p s' 0 with
               | part :: parts => String a part :: parts
               | [] => []
               end
      end
  end.
Definition split_str (p s : string) : list string := split_str_loop p s 0.

(** [s.lines()]: parts between line feeds, less one carriage return before
    each; an empty last part is no line. *)
Definition LF : ascii := "010".
Definition CR : ascii := "013".
Definition strip_cr (s : string) : string := default s (strip_suffix (String CR EmptyString) s).
Fixpoint lines_loop (parts : list string) : list string :=
  match parts with
  | [] => []
  | [last] => if bool_decide (last = EmptyString) then [] else [last]
  | part :: parts => strip_cr part :: lines_loop parts
  end.
Definition lines (s : string) : list string := lines_loop (split LF s).

(** The prefix of characters that satisfy [f]. *)
Fixpoint take_chars (f : ascii → bool) (s : string) : string :=
  match s with
  | EmptyString => EmptyString
  | String a s => if f a then String a (take_chars f s) else EmptyString
  end.

(** ** Decimal numbers *)

Definition digit_value (a : ascii) : option Z :=
  let n := Z.of_nat (nat_of_ascii a) in
  if (48 <=? n) && (n <=? 57) then Some (n - 48) else None.

Fixpoint parse_digits (w acc : Z) (s : string) : option Z :=
  match s with
  | EmptyString => Some acc
  | String a s =>
      match digit_value a with
      | Some d => if acc * 10 + d <? 2 ^ w then parse_digits w (acc * 10 + d) s else None
      | None => None
      end
  end.

(** [s.parse::<u w>()]: an optional sign [+], then digits, without overflow. *)
Definition parse_uint (w : Z) (s : string) : option Z :=
  match s with
  | EmptyString => None
  | String a s' =>
      let digits := if Ascii.eqb a "+" then s' else s in
      match digits with EmptyString => None | _ => parse_digits w 0 digits end
  end.

(** [s.parse::<i w>()]: a sign, then digits, without overflow. *)
Definition parse_int (w : Z) (s : string) : option Z :=
  match s with
  | EmptyString => None
  | String a digits =>
      if Ascii.eqb a "-" then
        match digits with
        | EmptyString => None
        | _ =>
            match parse_digits w 0 digits with
            | Some z => if z <=? 2 ^ (w - 1) then Some (- z) else None
            | None => None
            end
        end
      else parse_uint (w - 1) s
  end.

Definition digit_char (d : Z) : ascii := ascii_of_nat (48 + Z.to_nat d).

Fixpoint print_digits (fuel : nat) (z : Z) (acc : string) : string :=
  match fuel with
  | O => acc
  | S fuel =>
      let acc := String (digit_char (z mod 10)) acc in
      if z / 10 =? 0 then acc else print_digits fuel (z / 10) acc
  end.

(** [write!(f, "{z}")] for an unsigned integer of at most 64 bits. *)
Definition print_uint (z : Z) : string := print_digits 20 z EmptyString.

Definition print_int (z : Z) : string :=
  if z <? 0 then String "-" (print_uint (- z)) else print_uint z.

(** ** Lemmas *)

#[export] Instance append_assoc : Assoc (=) String.append.
Proof.
  intros a b c. induction a as [|x a IH]; [done|].
  change (String x (a +:+ (b +:+ c)) = String x ((a +:+ b) +:+ c)). by rewrite IH.
Qed.

#[export] Instance append_nil_r : RightId (=) EmptyString String.append.
Proof.
  intros a. induction a as [|x a IH]; [done|].
  change (String x (a +:+ EmptyString) = String x a). by rewrite IH.
Qed.

Fixpoint char_in (a : ascii) (s : string) : bool :=
  match s with EmptyString => false | String b s => Ascii.eqb b a || char_in a s end.

Lemma split_app c a b :
  char_in c a = false → split c (a ++ String c b) = a :: split c b.
Proof.
  induction a as [|x a IH]; simpl.
  - by rewrite Ascii.eqb_refl.
  - intros [Hx Ha]%orb_false_iff. by rewrite Hx, IH.
Qed.

Lemma split_nosep c a : char_in c a = false → split c a = [a].
Proof.
  induction a as [|x a IH]; simpl; [done|]. intros [Hx Ha]%orb_false_iff. by rewrite Hx, IH.
Qed.

Lemma split_once_app c a b :
  char_in c a = false → split_once c (a ++ String c b) = Some (a, b).
Proof.
  induction a as [|x a IH]; simpl.
  - by rewrite Ascii.eqb_refl.
  - intros [Hx Ha]%orb_false_iff. by rewrite Hx, IH.
Qed.

Lemma strip_prefix_app p s : strip_prefix p (p ++ s) = Some s.
Proof. induction p as [|a p IH]; simpl; [done|]. by rewrite Ascii.eqb_refl. Qed.

Fixpoint no_whitespace (s : string) : bool :=
  match s with EmptyString => true | String a s => negb (is_whitespace a) && no_whitespace s end.

Lemma trim_id s : no_whitespace s = true → trim s = s.
Proof.
  intros Hs. unfold trim.
  assert (trim_start s = s) as ->.
  { destruct s as [|a s]; [done|]. simpl in *. by destruct (is_whitespace a). }
  induction s as [|a s IH]; [done|]. simpl in *. apply andb_true_iff in Hs as [Ha Hs].
  rewrite IH by done. destruct s; [|done]. by destruct (is_whitespace a).
Qed.

Lemma no_whitespace_app a b : no_whitespace (a ++ b) = no_whitespace a && no_whitespace b.
Proof. induction a as [|x a IH]; simpl; [done|]. by rewrite IH, andb_assoc. Qed.

Lemma char_in_app c a b : char_in c (a ++ b) = char_in c a || char_in c b.
Proof. induction a as [|x a IH]; simpl; [done|]. by rewrite IH, orb_assoc. Qed.

Lemma digit_value_char d : 0 ≤ d < 10 → digit_value (digit_char d) = Some d.
Proof.
  intros Hd. assert (d = 0 ∨ d = 1 ∨ d = 2 ∨ d = 3 ∨ d = 4 ∨ d = 5 ∨ d = 6 ∨ d = 7 ∨ d = 8 ∨ d = 9)
    as Hc by lia.
  by destruct_or! Hc; subst.
Qed.

(** A string of digits, which no separator, sign or blank interrupts. *)
Fixpoint all_digits (s : string) : bool :=
  match s with
  | EmptyString => true
  | String a s => match digit_value a with Some _ => all_digits s | None => false end
  end.

Lemma all_digits_no_whitespace s : all_digits s = true → no_whitespace s = true.
Proof.
  induction s as [|a s IH]; simpl; [done|]. destruct (digit_value a) eqn:E; [|done].
  intros Hs. rewrite IH by done. rewrite andb_true_r. unfold digit_value, is_whitespace in *.
  cbv zeta in *. destruct ((48 <=? _) && _) eqn:E2; [|done]. apply andb_true_iff in E2 as [H1 H2].
  apply Z.leb_le in H1. apply negb_true_iff, orb_false_iff.
  split; [apply andb_false_iff; right; apply Nat.leb_gt|apply Nat.eqb_neq]; lia.
Qed.

Lemma all_digits_not_in c s : digit_value c = None → all_digits s = true → char_in c s = false.
Proof.
  intros Hc. induction s as [|a s IH]; simpl; [done|]. destruct (digit_value a) eqn:E; [|done].
  intros Hs. rewrite IH by done. rewrite orb_false_r.
  destruct (Ascii.eqb_spec a c) as [->|]; [congruence|done].
Qed.

Lemma print_digits_all fuel z acc :
  all_digits acc = true → all_digits (print_digits fuel z acc) = true.
Proof.
  revert z acc. induction fuel as [|fuel IH]; intros z acc Hacc; [done|]. cbn [print_digits].
  assert (all_digits (String (digit_char (z mod 10)) acc) = true) as Ha.
  { cbn [all_digits]. rewrite digit_value_char; [done|]. apply Z.mod_pos_bound. lia. }
  case_match; [done|by apply IH].
Qed.

Lemma parse_print_digits w fuel z acc :
  0 ≤ z < 10 ^ Z.of_nat fuel → (0 < fuel)%nat → z < 2 ^ w →
  parse_digits w 0 (print_digits fuel z acc) = parse_digits w z acc.
Proof.
  revert z acc. induction fuel as [|fuel IH]; intros z acc Hz Hf Hw; [lia|]. cbn [print_digits].
  pose proof (Z.div_mod z 10 ltac:(lia)) as Hdm. pose proof (Z.mod_pos_bound z 10 ltac:(lia)).
  assert (0 ≤ z / 10) by (apply Z.div_pos; lia).
  destruct (Z.eqb_spec (z / 10) 0) as [E|E].
  - cbn [parse_digits]. rewrite digit_value_char by lia.
    replace (0 * 10 + z mod 10) with z by lia. by rewrite (proj2 (Z.ltb_lt z (2 ^ w))).
  - assert (z / 10 < 10 ^ Z.of_nat fuel).
    { apply Z.div_lt_upper_bound; [lia|]. rewrite Nat2Z.inj_succ, Z.pow_succ_r in Hz by lia. lia. }
    rewrite IH; [|lia| |lia].
    + cbn [parse_digits]. rewrite digit_value_char by lia.
      replace (z / 10 * 10 + z mod 10) with z by lia. by rewrite (proj2 (Z.ltb_lt z (2 ^ w))).
    + destruct fuel; [|lia]. simpl in *. lia.
Qed.

Lemma print_uint_digits z : all_digits (print_uint z) = true.
Proof. by apply print_digits_all. Qed.

Lemma print_digits_nonempty fuel z acc :
  print_digits (S fuel) z acc ≠ EmptyString.
Proof.
  revert z acc. induction fuel as [|fuel IH]; intros z acc; cbn [print_digits]; case_match; try done.
  apply IH.
Qed.

(** What is printed is read back, at any width that holds it. *)
Lemma parse_print_uint w z : w ≤ 64 → in_u w z → parse_uint w (print_uint z) = Some z.
Proof.
  intros Hw [Hz0 Hz]. unfold parse_uint.
  pose proof (print_uint_digits z) as Hd.
  assert (parse_digits w 0 (print_uint z) = Some z) as Hp.
  { unfold print_uint. rewrite parse_print_digits; [done| |lia|done]. split; [done|].
    apply Z.lt_trans with (2 ^ 64); [|done]. eapply Z.lt_le_trans; [done|].
    apply Z.pow_le_mono_r; lia. }
  destruct (print_uint z) as [|a s] eqn:E; [by apply print_digits_nonempty in E|].
  simpl in Hd. destruct (Ascii.eqb_spec a "+") as [->|]; done.
Qed.

Lemma print_uint_no_char c z : digit_value c = None → char_in c (print_uint z) = false.
Proof. intros. apply all_digits_not_in; [done|apply print_uint_digits]. Qed.

Lemma print_uint_no_whitespace z : no_whitespace (print_uint z) = true.
Proof. apply all_digits_no_whitespace, print_uint_digits. Qed.

Lemma append_length a b : String.length (a ++ b) = (String.length a + String.length b)%nat.
Proof. induction a as [|x a IH]; simpl; [done|]. by rewrite IH. Qed.

Lemma strip_prefix_Some p s r : strip_prefix p s = Some r → s = (p ++ r)%string.
Proof.
  revert s. induction p as [|a p IH]; intros [|b s]; simpl; intros Hs; simplify_eq; try done.
  destruct (Ascii.eqb a b) eqn:E; [|done]. apply Ascii.eqb_eq in E as ->. by rewrite (IH s Hs).
Qed.

Lemma strip_suffix_cons p a s :
  strip_suffix p (String a s) = if String.eqb (String a s) p then Some ""%string else String a <$> strip_suffix p s.
Proof. done. Qed.

Lemma strip_suffix_Some p s r : strip_suffix p s = Some r → s = (r ++ p)%string.
Proof.
  revert r. induction s as [|a s IH]; intros r.
  - destruct p; [by intros [= <-]|done].
  - rewrite strip_suffix_cons. destruct (String.eqb_spec (String a s) p) as [<-|_]; [by intros [= <-]|].
    intros (s' & Hs' & ->)%fmap_Some. by rewrite (IH s' Hs').
Qed.

Lemma strip_suffix_app p a : p ≠ ""%string → strip_suffix p (a ++ p) = Some a.
Proof.
  intros Hp. induction a as [|x a IH].
  - destruct p; [done|]. simpl. by rewrite Ascii.eqb_refl, String.eqb_refl.
  - change (String x a ++ p)%string with (String x (a ++ p)). rewrite strip_suffix_cons, IH.
    destruct (String.eqb_spec (String x (a ++ p)) p) as [E|_]; [|done].
    apply (f_equal String.length) in E. simpl in E. rewrite append_length in E. lia.
Qed.

(** Signed numbers read back what they print. *)
Lemma print_uint_nonempty z : print_uint z ≠ EmptyString.
Proof. apply (print_digits_nonempty 19). Qed.

Lemma parse_print_int w z : 2 ≤ w ≤ 64 → in_i w z → parse_int w (print_int z) = Some z.
Proof.
  intros Hw [Hlo Hhi]. unfold print_int. destruct (z <? 0) eqn:E.
  - apply Z.ltb_lt in E. unfold parse_int. simpl Ascii.eqb. cbv iota.
    assert (2 ^ w = 2 * 2 ^ (w - 1)) as Hpow by (rewrite <- Z.pow_succ_r by lia; f_equal; lia).
    assert (2 ^ (w - 1) ≤ 2 ^ 63) by (apply Z.pow_le_mono_r; lia).
    pose proof (print_uint_nonempty (- z)) as Hne.
    assert (parse_digits w 0 (print_uint (- z)) = Some (- z)) as Hp
      by (unfold print_uint; rewrite parse_print_digits by lia; done).
    destruct (print_uint (- z)); [done|]. rewrite Hp, (proj2 (Z.leb_le _ _)) by lia. by rewrite Z.opp_involutive.
  - apply Z.ltb_ge in E. pose proof (parse_print_uint (w - 1) z ltac:(lia) ltac:(split; lia)) as Hp.
    pose proof (print_uint_digits z) as Hd. unfold parse_int.
    destruct (print_uint z) as [|a s]; [done|]. destruct (Ascii.eqb_spec a "-") as [->|]; [done|exact Hp].
Qed.

Lemma print_int_no_char c z : digit_value c = None → c ≠ "-"%char → char_in c (print_int z) = false.
Proof.
  intros Hc Hm. unfold print_int. case_match; [|by apply print_uint_no_char]. cbn [char_in].
  rewrite print_uint_no_char by done. rewrite orb_false_r. by apply Ascii.eqb_neq.
Qed.

Lemma print_int_no_whitespace z : no_whitespace (print_int z) = true.
Proof. unfold print_int. case_match; [|apply print_uint_no_whitespace]. cbn [no_whitespace]. by rewrite print_uint_no_whitespace. Qed.
