(* ===== verification/Capability.v ===== *)
(** * Capability strings

    Models [crates/oaat-core/src/capability.rs]: the capability string of the
    mDNS TXT records, its parser and its printer. *)

From S2P Require Import Prelude Session Text.
From Stdlib Require Import Ascii.

Local Open Scope Z_scope.

Record Capabilities := mkCaps {
  pcm_max_rate_khz : Z;
  cap_pcm_max_bits : Z;
  dsd_max_multiplier : option Z;
  cap_flac : bool;
  cap_opus : bool;
  cap_truehd : bool;
  cap_eac3 : bool
}.

#[export] Instance Capabilities_eq_dec : EqDecision Capabilities.
Proof. solve_decision. Defined.

(** One turn of the parser's loop, on the trimmed part; [s] is the whole
    string, for the error. *)
Definition parse_part (s part : string) (c : Capabilities) : result Capabilities OaatError :=
  let e := InvalidCapabilityString s in
  match strip_prefix "pcm:" part with
  | Some pcm =>
      (let? (rate_s, bits_s) := ok_or (split_once "/" pcm) e in
       let? rate := ok_or (parse_uint 32 rate_s) e in
       let? bits := ok_or (parse_uint 8 bits_s) e in
       Ok (mkCaps rate bits (dsd_max_multiplier c) (cap_flac c) (cap_opus c) (cap_truehd c) (cap_eac3 c)))%oaat
  | None =>
  match strip_prefix "dsd:" part with
  | Some dsd =>
      (let? m := ok_or (parse_uint 16 dsd) e in
       Ok (mkCaps (pcm_max_rate_khz c) (cap_pcm_max_bits c) (Some m)
             (cap_flac c) (cap_opus c) (cap_truehd c) (cap_eac3 c)))%oaat
  | None =>
      if String.eqb part "flac" then
        Ok (mkCaps (pcm_max_rate_khz c) (cap_pcm_max_bits c) (dsd_max_multiplier c)
              true (cap_opus c) (cap_truehd c) (cap_eac3 c))
      else if String.eqb part "opus" then
        Ok (mkCaps (pcm_max_rate_khz c) (cap_pcm_max_bits c) (dsd_max_multiplier c)
              (cap_flac c) true (cap_truehd c) (cap_eac3 c))
      else if String.eqb part "truehd" then
        Ok (mkCaps (pcm_max_rate_khz c) (cap_pcm_max_bits c) (dsd_max_multiplier c)
              (cap_flac c) (cap_opus c) true (cap_eac3 c))
      else if String.eqb part "eac3" then
        Ok (mkCaps (pcm_max_rate_khz c) (cap_pcm_max_bits c) (dsd_max_multiplier c)
              (cap_flac c) (cap_opus c) (cap_truehd c) true)
      else Ok c
  end
  end.

Fixpoint parse_parts (s : string) (parts : list string) (c : Capabilities) : result Capabilities OaatError :=
  match parts with
  | [] => Ok c
  | part :: parts => (let? c := parse_part s (trim part) c in parse_parts s parts c)%oaat
  end.

(** [Capabilities::parse]. *)
Definition caps_parse (s : string) : result Capabilities OaatError :=
  (let? c := parse_parts s (split "," s) (mkCaps 0 0 None false false false false) in
   if pcm_max_rate_khz c =? 0 then Err (InvalidCapabilityString s) else Ok c)%oaat.

(** [pcm_max_rate_hz]: a [u32] product. *)
Definition pcm_max_rate_hz (c : Capabilities) : Z := as_u 32 (pcm_max_rate_khz c * 1000).

(** [impl Display for Capabilities]. *)
Definition caps_fmt (c : Capabilities) : string :=
  ("pcm:" ++ print_uint (pcm_max_rate_khz c) ++ "/" ++ print_uint (cap_pcm_max_bits c)
   ++ (match dsd_max_multiplier c with Some d => ",dsd:" ++ print_uint d | None => "" end)
   ++ (if cap_flac c then ",flac" else "")
   ++ (if cap_opus c then ",opus" else "")
   ++ (if cap_truehd c then ",truehd" else "")
   ++ (if cap_eac3 c then ",eac3" else ""))%string.

Definition caps_wf (c : Capabilities) : Prop :=
  is_u32 (pcm_max_rate_khz c) ∧ is_u8 (cap_pcm_max_bits c) ∧
  match dsd_max_multiplier c with Some d => is_u16 d | None => True end.

(** ** Lemmas *)

(** The parts the printer joins with commas. *)
Definition flag_part (b : bool) (name : string) : list string := if b then [name] else [].

Definition pcm_part (c : Capabilities) : string :=
  ("pcm:" ++ print_uint (pcm_max_rate_khz c) ++ "/" ++ print_uint (cap_pcm_max_bits c))%string.

Definition dsd_part (d : Z) : string := ("dsd:" ++ print_uint d)%string.

Definition caps_parts (c : Capabilities) : list string :=
  [pcm_part c]
  ++ (match dsd_max_multiplier c with Some d => [dsd_part d] | None => [] end)
  ++ flag_part (cap_flac c) "flac" ++ flag_part (cap_opus c) "opus"
  ++ flag_part (cap_truehd c) "truehd" ++ flag_part (cap_eac3 c) "eac3".

(** [join "," parts]. *)
Fixpoint comma_join (first : string) (rest : list string) : string :=
  match rest with
  | [] => first
  | p :: rest => (first ++ String "," (comma_join p rest))%string
  end.

Lemma comma_join_app first rest tail :
  comma_join first (rest ++ tail) = (comma_join first rest ++ foldr (λ p acc, String "," (p ++ acc)) EmptyString tail)%string.
Proof.
  revert first. induction rest as [|p rest IH]; intros first; simpl.
  - revert first. induction tail as [|p tail IH]; intros first; simpl; [by rewrite (right_id_L "" String.append)|].
    by rewrite IH.
  - by rewrite IH, <- (assoc_L String.append).
Qed.

Lemma caps_fmt_parts c : caps_fmt c = comma_join (pcm_part c) (drop 1 (caps_parts c)).
Proof.
  unfold caps_parts. rewrite (drop_app_length' [pcm_part c]) by done.
  rewrite <- (app_nil_l (_ ++ _)), comma_join_app. simpl comma_join.
  unfold caps_fmt, pcm_part, dsd_part, flag_part. rewrite <- !(assoc_L String.append).
  by destruct (dsd_max_multiplier c), (cap_flac c), (cap_opus c), (cap_truehd c), (cap_eac3 c).
Qed.

Lemma split_comma_join first rest :
  char_in "," first = false → Forall (λ p, char_in "," p = false) rest →
  split "," (comma_join first rest) = first :: rest.
Proof.
  intros Hf Hr. revert first Hf. induction Hr as [|p rest Hp _ IH]; intros first Hf; simpl.
  - by apply split_nosep.
  - by rewrite split_app, IH.
Qed.

Lemma pcm_part_clean c : char_in "," (pcm_part c) = false ∧ no_whitespace (pcm_part c) = true.
Proof.
  unfold pcm_part. rewrite !char_in_app, !no_whitespace_app.
  by rewrite !print_uint_no_char, !print_uint_no_whitespace.
Qed.

Lemma dsd_part_clean d : char_in "," (dsd_part d) = false ∧ no_whitespace (dsd_part d) = true.
Proof.
  unfold dsd_part. by rewrite !char_in_app, !no_whitespace_app, print_uint_no_char, print_uint_no_whitespace.
Qed.

Lemma caps_parts_clean c :
  Forall (λ p, char_in "," p = false ∧ no_whitespace p = true) (caps_parts c).
Proof.
  unfold caps_parts, flag_part. repeat rewrite Forall_app. split_and!.
  - apply Forall_singleton, pcm_part_clean.
  - destruct (dsd_max_multiplier c); [apply Forall_singleton, dsd_part_clean|done].
  - by destruct (cap_flac c); repeat constructor.
  - by destruct (cap_opus c); repeat constructor.
  - by destruct (cap_truehd c); repeat constructor.
  - by destruct (cap_eac3 c); repeat constructor.
Qed.

Lemma parse_pcm_part s c c0 :
  is_u32 (pcm_max_rate_khz c) → is_u8 (cap_pcm_max_bits c) →
  parse_part s (trim (pcm_part c)) c0 =
    Ok (mkCaps (pcm_max_rate_khz c) (cap_pcm_max_bits c) (dsd_max_multiplier c0)
          (cap_flac c0) (cap_opus c0) (cap_truehd c0) (cap_eac3 c0)).
Proof.
  intros. rewrite trim_id by apply pcm_part_clean. unfold parse_part, pcm_part.
  rewrite strip_prefix_app.
  change ("/" +:+ print_uint (cap_pcm_max_bits c))%string
    with (String "/" (print_uint (cap_pcm_max_bits c))).
  rewrite split_once_app by by apply print_uint_no_char.
  cbn [ok_or result_bind]. by rewrite !parse_print_uint by (done || lia).
Qed.

Lemma parse_dsd_part s d c0 :
  is_u16 d →
  parse_part s (trim (dsd_part d)) c0 =
    Ok (mkCaps (pcm_max_rate_khz c0) (cap_pcm_max_bits c0) (Some d)
          (cap_flac c0) (cap_opus c0) (cap_truehd c0) (cap_eac3 c0)).
Proof.
  intros. rewrite trim_id by apply dsd_part_clean. unfold parse_part, dsd_part.
  replace (strip_prefix "pcm:" ("dsd:" ++ print_uint d)%string) with (@None string) by done.
  rewrite strip_prefix_app. by rewrite parse_print_uint by (done || lia).
Qed.

Lemma parse_caps_parts s c :
  caps_wf c → parse_parts s (caps_parts c) (mkCaps 0 0 None false false false false) = Ok c.
Proof.
  intros (Hr & Hb & Hd). unfold caps_parts.
  cbn [app parse_parts]. rewrite parse_pcm_part by done. cbn [result_bind].
  destruct c as [r b [d|] [] [] [] []]; cbn [dsd_max_multiplier] in *;
    cbn [app parse_parts flag_part cap_flac cap_opus cap_truehd cap_eac3];
    rewrite ?parse_dsd_part by done; done.
Qed.

(** The parser on what the printer writes. *)
Lemma caps_parse_fmt c :
  caps_wf c →
  caps_parse (caps_fmt c) =
    if pcm_max_rate_khz c =? 0 then Err (InvalidCapabilityString (caps_fmt c)) else Ok c.
Proof.
  intros Hwf. unfold caps_parse. rewrite caps_fmt_parts at 2.
  pose proof (caps_parts_clean c) as Hclean.
  assert (caps_parts c = pcm_part c :: drop 1 (caps_parts c)) as Hparts by done.
  rewrite split_comma_join, <- Hparts, parse_caps_parts by
    (done || apply pcm_part_clean ||
     (rewrite Hparts in Hclean; apply Forall_cons in Hclean as [_ Hclean];
      eapply Forall_impl; [exact Hclean|naive_solver])).
  done.
Qed.

(** ** Properties *)

(** What an endpoint advertises is what a controller reads: the printed
    capabilities parse back to themselves, for every value of the fields,
    except that a maximal rate of zero is refused by the parser. *)
Theorem caps_roundtrip c :
  caps_wf c →
  caps_parse (caps_fmt c) =
    if pcm_max_rate_khz c =? 0 then Err (InvalidCapabilityString (caps_fmt c)) else Ok c.
Proof. apply caps_parse_fmt. Qed.

Lemma caps_roundtrip_witness :
  caps_parse "pcm:384/32,dsd:512,flac,truehd" = Ok (mkCaps 384 32 (Some 512) true false true false).
Proof.
  apply (caps_roundtrip (mkCaps 384 32 (Some 512) true false true false)).
  vm_compute. repeat split; discriminate.
Defined.
