(* ===== verification/Time.v ===== *)
(** * The OAAT clock

    Models [crates/oaat-core/src/time.rs]: a monotonic clock anchored once on
    the wall clock, and the process-wide instance behind [now_ns].  The
    readings of [Instant] and [SystemTime] are inputs. *)

From Stdlib Require Import Sorted.
From S2P Require Import Prelude.

Local Open Scope Z_scope.

Record AnchoredClock := mkAnchored {
  anchor_wall_ns : Z;
  anchor_mono_ns : Z
}.

(** [AnchoredClock::with_sources]: one reading of each source. *)
Definition with_sources (wall mono : Z) : AnchoredClock :=
  {| anchor_mono_ns := mono; anchor_wall_ns := wall |}.

(** [AnchoredClock::now_ns], [mono] being the reading of the monotonic source. *)
Definition anchored_now_ns (c : AnchoredClock) (mono : Z) : Z :=
  let elapsed := u64_saturating_sub mono (anchor_mono_ns c) in
  u64_saturating_add (anchor_wall_ns c) elapsed.

(** [wall_clock_ns], from the nanoseconds since the UNIX epoch of
    [SystemTime::now] (negative before the epoch). *)
Definition wall_clock_ns (system_time : Z) : Z :=
  if system_time <? 0 then 0 else as_u 64 system_time.

(** ** The process clock

    One call of [now_ns] reads [Instant] at [call_now]; the first call also
    reads it for the origin and for the anchor, and reads the wall clock. *)
Record clock_call := mkCall {
  call_origin : Z;
  call_anchor : Z;
  call_wall : Z;
  call_now : Z
}.

(** [static CLOCK: OnceLock<AnchoredClock>], with the origin its monotonic
    source has captured. *)
Definition process_clock : Type := option (AnchoredClock * Z).

(** [origin.elapsed().as_nanos() as u64]. *)
Definition elapsed_ns (origin instant : Z) : Z := as_u 64 (Z.max 0 (instant - origin)).

Definition system (c : clock_call) : AnchoredClock * Z :=
  (with_sources (wall_clock_ns (call_wall c)) (elapsed_ns (call_origin c) (call_anchor c)), call_origin c).

Definition now_ns (st : process_clock) (c : clock_call) : Z * process_clock :=
  let '(clock, origin) := match st with Some s => s | None => system c end in
  (anchored_now_ns clock (elapsed_ns origin (call_now c)), Some (clock, origin)).

Fixpoint now_ns_run (st : process_clock) (calls : list clock_call) : list Z :=
  match calls with
  | [] => []
  | c :: calls => let '(t, st) := now_ns st c in t :: now_ns_run st calls
  end.

(** ** Lemmas *)

Lemma anchored_now_mono c m1 m2 :
  m1 ≤ m2 → anchored_now_ns c m1 ≤ anchored_now_ns c m2.
Proof. intros. unfold anchored_now_ns, u64_saturating_add, u64_saturating_sub. lia. Qed.

Lemma elapsed_mono o i1 i2 :
  i1 ≤ i2 → i2 - o < 2 ^ 64 → elapsed_ns o i1 ≤ elapsed_ns o i2.
Proof. intros. unfold elapsed_ns. rewrite !as_u_id by (unfold in_u; lia). lia. Qed.

(** The readings of [Instant] during a run: non-decreasing from [from] on,
    and below 2^64 ns after the first (584 years). *)
Fixpoint instants_ok (origin from : Z) (calls : list clock_call) : Prop :=
  match calls with
  | [] => True
  | c :: calls =>
      from ≤ call_origin c ≤ call_anchor c ∧ call_anchor c ≤ call_now c ∧
      call_now c - origin < 2 ^ 64 ∧ instants_ok origin (call_now c) calls
  end.

Lemma now_ns_run_sorted clock origin from lo calls :
  instants_ok origin from calls → lo ≤ anchored_now_ns clock (elapsed_ns origin from) →
  from - origin < 2 ^ 64 →
  Sorted Z.le (lo :: now_ns_run (Some (clock, origin)) calls).
Proof.
  revert from lo. induction calls as [|c calls IH]; intros from lo Hi Hlo Hf; [by repeat constructor|].
  destruct Hi as (H1 & H2 & H3 & Hi). simpl.
  assert (lo ≤ anchored_now_ns clock (elapsed_ns origin (call_now c))).
  { etrans; [done|]. apply anchored_now_mono, elapsed_mono; lia. }
  constructor; [|by constructor]. by apply (IH (call_now c)).
Qed.

(** ** Properties *)

(** The process clock never goes backwards, and after its first reading it
    does not depend on the wall clock: two runs with the same readings of
    [Instant] and the same first wall reading give the same timestamps,
    whatever steps the wall clock made since. *)
Theorem now_ns_monotone_and_step_free calls calls' :
  (∀ c, head calls = Some c → instants_ok (call_origin c) (call_origin c) calls) →
  map call_now calls = map call_now calls' → head calls = head calls' →
  Sorted Z.le (now_ns_run None calls) ∧ now_ns_run None calls = now_ns_run None calls'.
Proof.
  intros Hi Hnow Hhead. destruct calls as [|c calls], calls' as [|c' calls']; simplify_eq/=.
  { by split; [constructor|]. }
  specialize (Hi c' eq_refl). destruct Hi as (H1 & H2 & H3 & Hi). split.
  - apply (now_ns_run_sorted _ _ (call_now c')); [done|lia|lia].
  - unfold system. simpl. f_equal. clear -Hnow.
    generalize (with_sources (wall_clock_ns (call_wall c')) (elapsed_ns (call_origin c') (call_anchor c'))).
    intros clock. revert calls' Hnow. induction calls as [|d calls IH]; intros [|d' calls'] Hnow;
      simplify_eq/=; [done|]. rewrite H. f_equal. by apply IH.
Qed.

Lemma now_ns_monotone_and_step_free_witness :
  let calls := [mkCall 5 6 1000 7; mkCall 8 8 2000 8; mkCall 9 9 1500 20] in
  let calls' := [mkCall 5 6 1000 7; mkCall 8 8 0 8; mkCall 9 9 0 20] in
  Sorted Z.le (now_ns_run None calls) ∧ now_ns_run None calls = now_ns_run None calls'.
Proof.
  apply now_ns_monotone_and_step_free; [|reflexivity|reflexivity].
  intros c [= <-]. vm_compute. repeat split; discriminate.
Defined.
