(* ===== verification/Float.v ===== *)
(** * IEEE 754 arithmetic

    Rust's [f64] and [f32] as the Standard Library's executable
    specification of binary floating point, with the operations the sources
    use.  All operations round to nearest, ties to even. *)

From S2P Require Import Prelude.
From Stdlib Require Export SpecFloat.

Local Open Scope Z_scope.

Abbreviation f64 := spec_float.

Definition f64_prec : Z := 53.
Definition f64_emax : Z := 1024.

Definition f64_add : f64 → f64 → f64 := SFadd f64_prec f64_emax.
Definition f64_sub : f64 → f64 → f64 := SFsub f64_prec f64_emax.
Definition f64_mul : f64 → f64 → f64 := SFmul f64_prec f64_emax.
Definition f64_div : f64 → f64 → f64 := SFdiv f64_prec f64_emax.
Definition f64_sqrt : f64 → f64 := SFsqrt f64_prec f64_emax.
Definition f64_abs : f64 → f64 := SFabs.

(** [z as f64] for an integer; literals with an integral value. *)
Definition f64_of_Z (z : Z) : f64 := binary_normalize f64_prec f64_emax z 0 false.

(** [a > b]. *)
Definition f64_gt (a b : f64) : bool := SFltb b a.

(** [f64::max]: a NaN loses against a number. *)
Definition f64_max (a b : f64) : f64 :=
  match a, b with
  | S754_nan, _ => b
  | _, S754_nan => a
  | _, _ => if SFltb a b then b else a
  end.

(** [f64::total_cmp], for the one NaN of the specification. *)
Definition f64_rank (x : f64) : Z :=
  match x with
  | S754_infinity true => 0
  | S754_finite true _ _ => 1
  | S754_zero true => 2
  | S754_zero false => 3
  | S754_finite false _ _ => 4
  | S754_infinity false => 5
  | S754_nan => 6
  end.

Definition f64_total_le (a b : f64) : bool :=
  if f64_rank a =? f64_rank b
  then match SFcompare a b with Some Gt => false | _ => true end
  else f64_rank a <? f64_rank b.

(** [x.round()] as an integer: halves away from zero; infinities and NaN give
    the bounds and zero of the saturating casts below. *)
Definition f64_round_int (x : f64) (hi lo : Z) : Z :=
  match x with
  | S754_zero _ | S754_nan => 0
  | S754_infinity s => if s then lo else hi
  | S754_finite s m e =>
      let a := if 0 <=? e then Z.pos m * 2 ^ e
               else (Z.pos m + 2 ^ (- e - 1)) / 2 ^ (- e) in
      if s then - a else a
  end.

(** [x.round() as i64] and [x.round() as u64]: saturating casts. *)
Definition f64_round_as_i64 (x : f64) : Z :=
  clamp I64_MIN I64_MAX (f64_round_int x I64_MAX I64_MIN).
Definition f64_round_as_u64 (x : f64) : Z :=
  clamp 0 U64_MAX (f64_round_int x U64_MAX 0).

(** Insertion sort with the total order: [v.sort_by(f64::total_cmp)]. *)
Fixpoint f64_insert (x : f64) (l : list f64) : list f64 :=
  match l with
  | [] => [x]
  | y :: l => if f64_total_le x y then x :: y :: l else y :: f64_insert x l
  end.

Definition f64_sort (l : list f64) : list f64 := foldr f64_insert [] l.

Lemma f64_insert_length x l : length (f64_insert x l) = S (length l).
Proof. induction l as [|y l IH]; simpl; [done|]. case_match; simpl; auto. Qed.

Lemma f64_sort_length l : length (f64_sort l) = length l.
Proof. induction l as [|x l IH]; simpl; [done|]. by rewrite f64_insert_length, IH. Qed.

Lemma f64_insert_perm x l : f64_insert x l ≡ₚ x :: l.
Proof.
  induction l as [|y l IH]; simpl; [done|]. case_match; [done|]. rewrite IH. constructor.
Qed.

Lemma f64_sort_perm l : f64_sort l ≡ₚ l.
Proof. induction l as [|x l IH]; simpl; [done|]. by rewrite f64_insert_perm, IH. Qed.

Lemma f64_round_as_i64_range x : is_i64 (f64_round_as_i64 x).
Proof. unfold f64_round_as_i64. range. Qed.

Lemma f64_round_as_u64_range x : is_u64 (f64_round_as_u64 x).
Proof. unfold f64_round_as_u64. range. Qed.

#[export] Hint Resolve f64_round_as_i64_range f64_round_as_u64_range : oaat.

(** ** [f32] *)

Abbreviation f32 := spec_float.

Definition f32_prec : Z := 24.
Definition f32_emax : Z := 128.

Definition f32_mul : f32 → f32 → f32 := SFmul f32_prec f32_emax.
Definition f32_sub : f32 → f32 → f32 := SFsub f32_prec f32_emax.
Definition f32_div : f32 → f32 → f32 := SFdiv f32_prec f32_emax.
Definition f32_of_Z (z : Z) : f32 := binary_normalize f32_prec f32_emax z 0 false.

(** [x as f64] for an [f32]: exact. *)
Definition f32_to_f64 (x : f32) : f64 :=
  match x with
  | S754_finite s m e => binary_normalize f64_prec f64_emax (cond_Zopp s (Z.pos m)) e s
  | x => x
  end.

(** Conversion to an integer, truncating towards zero, saturating; NaN gives 0. *)
Definition float_trunc (x : spec_float) (lo hi : Z) : Z :=
  match x with
  | S754_zero _ | S754_nan => 0
  | S754_infinity s => if s then lo else hi
  | S754_finite s m e =>
      let a := if 0 <=? e then Z.pos m * 2 ^ e else Z.pos m / 2 ^ (- e) in
      clamp lo hi (if s then - a else a)
  end.

(** [f64::clamp] to two finite bounds. *)
Definition f64_clamp (lo hi x : f64) : f64 :=
  match x with
  | S754_nan => S754_nan
  | _ => if SFltb x lo then lo else if SFltb hi x then hi else x
  end.

(** [f32::from_bits] and [f32::to_bits] (the bits of a NaN are those of the
    default one). *)
Definition f32_from_bits (b : Z) : f32 :=
  let s := Z.testbit b 31 in
  let e := Z.land (Z.shiftr b 23) 0xFF in
  let m := Z.land b 0x7FFFFF in
  if e =? 255 then (if m =? 0 then S754_infinity s else S754_nan)
  else if e =? 0 then
    match m with Z.pos p => S754_finite s p (-149) | _ => S754_zero s end
  else match m + 2 ^ 23 with Z.pos p => S754_finite s p (e - 150) | _ => S754_nan end.

Definition f32_to_bits (x : f32) : Z :=
  let sign (s : bool) := if s then 2 ^ 31 else 0 in
  match x with
  | S754_zero s => sign s
  | S754_infinity s => sign s + 0x7F800000
  | S754_nan => 0x7FC00000
  | S754_finite s m e =>
      if Z.pos m <? 2 ^ 23 then sign s + Z.pos m
      else sign s + Z.shiftl (e + 150) 23 + (Z.pos m - 2 ^ 23)
  end.

Lemma float_trunc_range x lo hi : lo ≤ 0 ≤ hi → lo ≤ float_trunc x lo hi ≤ hi.
Proof. intros. unfold float_trunc, clamp. destruct x as [|[]| |]; try lia. Qed.
