(* ===== verification/FloatExact.v ===== *)
(** * Exact floating point

    When the result of an operation of [Float] needs no more than 53 bits it is
    that result: what the clock computes on offsets of up to about thirteen
    days is exact.  A float denotes [m * 2 ^ e]. *)

From S2P Require Import Prelude Float.

Local Open Scope Z_scope.

(** ** Digits and shifts *)

Lemma digits2_log2 p : Z.pos (digits2_pos p) = Z.log2 (Z.pos p) + 1.
Proof.
  induction p as [p IH|p IH|]; [| |done]; cbn [digits2_pos]; rewrite Pos2Z.inj_succ, IH.
  - rewrite (Pos2Z.inj_xI p), Z.log2_succ_double by lia. lia.
  - rewrite (Pos2Z.inj_xO p), Z.log2_double by lia. lia.
Qed.

Lemma iter_xO p n : Z.pos (Pos.iter xO p n) = Z.pos p * 2 ^ Z.pos n.
Proof.
  induction n as [|n IH] using Pos.peano_ind; [cbn; lia|].
  rewrite Pos.iter_succ, Pos2Z.inj_xO, IH, Pos2Z.inj_succ, Z.pow_succ_r by lia. lia.
Qed.

Lemma shl_align_spec p e e' :
  shl_align p e e' = (p, e) ∧ e ≤ e' ∨
  ∃ q, shl_align p e e' = (q, e') ∧ e' < e ∧ Z.pos q = Z.pos p * 2 ^ (e - e').
Proof.
  unfold shl_align. destruct (e' - e) eqn:E; [left; split; [done|lia]..|]. right.
  exists (Pos.iter xO p p0). split; [done|]. split; [lia|]. rewrite iter_xO. do 2 f_equal. lia.
Qed.

Lemma iter_pos_iter {A} (f : A → A) n x : iter_pos f n x = Pos.iter f x n.
Proof.
  revert x. induction n as [n IH|n IH|]; intros x; cbn [iter_pos Pos.iter]; [|by rewrite !IH|done].
  by rewrite !IH, <- !Pos.iter_swap.
Qed.

Lemma shr_1_double q : 0 ≤ q → shr_1 {| shr_m := 2 * q; shr_r := false; shr_s := false |} = {| shr_m := q; shr_r := false; shr_s := false |}.
Proof. intros Hq. destruct q; [done|done|lia]. Qed.

Lemma shr_exact q n : 0 ≤ q →
  iter_pos shr_1 n {| shr_m := q * 2 ^ Z.pos n; shr_r := false; shr_s := false |} = {| shr_m := q; shr_r := false; shr_s := false |}.
Proof.
  intros Hq. rewrite iter_pos_iter. revert q Hq. induction n as [|n IH] using Pos.peano_ind; intros q Hq.
  - replace (q * 2 ^ 1) with (2 * q) by lia. by apply shr_1_double.
  - rewrite Pos.iter_succ, Pos2Z.inj_succ, Z.pow_succ_r by lia.
    replace (q * (2 * 2 ^ Z.pos n)) with (2 * q * 2 ^ Z.pos n) by lia. rewrite IH by lia. by apply shr_1_double.
Qed.

(** ** Rounding *)

(** The mantissa of a normal number. *)
Definition normal (m : Z) : Prop := 2 ^ 52 ≤ m < 2 ^ 53.

Lemma normal_log2 m : 0 < m → Z.log2 m = 52 ↔ normal m.
Proof. intros Hm. split; [intros E; pose proof (Z.log2_spec m Hm) as H; by rewrite E in H|intros [H1 H2]; by apply Z.log2_unique]. Qed.

Lemma fexp_normal d : -1074 + 53 ≤ d → fexp f64_prec f64_emax d = d - 53.
Proof. intros. unfold fexp, emin, f64_prec, f64_emax. lia. Qed.

(** A shift by the exponent's difference when nothing is lost. *)
Lemma shr_fexp_exact q k e :
  0 < q → normal q → 0 ≤ k → -1000 ≤ e + k ≤ 971 →
  shr_fexp f64_prec f64_emax (q * 2 ^ k) e loc_Exact = ({| shr_m := q; shr_r := false; shr_s := false |}, e + k).
Proof.
  intros Hq Hn Hk He. unfold shr_fexp. cbn [shr_record_of_loc].
  assert (Zdigits2 (q * 2 ^ k) = 53 + k) as ->.
  { assert (0 < q * 2 ^ k) by (apply Z.mul_pos_pos; [done|by apply Z.pow_pos_nonneg]).
    destruct (q * 2 ^ k) as [|p|] eqn:E; [lia| |lia]. cbn [Zdigits2]. rewrite digits2_log2, <- E, Z.log2_mul_pow2 by lia.
    apply normal_log2 in Hn as ->; [lia|done]. }
  rewrite fexp_normal by lia. replace (53 + k + e - 53 - e) with k by lia.
  destruct k as [|n|]; cbn [shr]; [by rewrite Z.mul_1_r, Z.add_0_r|by rewrite shr_exact by lia|lia].
Qed.

Lemma round_aux_exact s q k e :
  normal (Z.pos q) → 0 ≤ k → -1000 ≤ e + k ≤ 971 →
  binary_round_aux f64_prec f64_emax s (Z.pos q * 2 ^ k) e loc_Exact = S754_finite s q (e + k).
Proof.
  intros Hn Hk He. unfold binary_round_aux. rewrite shr_fexp_exact by (done || lia). cbn [shr_m loc_of_shr_record round_nearest_even].
  pose proof (shr_fexp_exact (Z.pos q) 0 (e + k)) as H0. rewrite Z.mul_1_r, Z.add_0_r in H0. rewrite H0 by (done || lia).
  cbn [shr_m]. unfold f64_prec, f64_emax. by rewrite (proj2 (Z.leb_le _ _)) by lia.
Qed.

(** ** What a float denotes *)

Definition denotes (x : f64) (m e : Z) : Prop :=
  match x with
  | S754_zero s => s = false ∧ m = 0
  | S754_finite s M E => normal (Z.pos M) ∧ E ≤ e ∧ m * 2 ^ (e - E) = cond_Zopp s (Z.pos M)
  | _ => False
  end.

(** The numbers within the theorems: 53 bits, far from the limits of the
    exponent. *)
Definition within (m e : Z) : Prop := Z.abs m < 2 ^ 53 ∧ -400 ≤ e ≤ 400.

Lemma round_denotes s p k e :
  0 ≤ k → within (Z.pos p) e → ∃ M E, binary_round f64_prec f64_emax s (Z.to_pos (Z.pos p * 2 ^ k)) (e - k) = S754_finite s M E ∧
    normal (Z.pos M) ∧ E ≤ e ∧ Z.pos p * 2 ^ (e - E) = Z.pos M.
Proof.
  intros Hk [Hp He]. unfold binary_round. set (r := Z.to_pos (Z.pos p * 2 ^ k)).
  assert (0 < 2 ^ k) as H2k by by apply Z.pow_pos_nonneg.
  assert (Z.pos r = Z.pos p * 2 ^ k) as Er by (unfold r; rewrite Z2Pos.id; lia).
  assert (0 ≤ Z.log2 (Z.pos p) ≤ 52) as Hlog.
  { split; [apply Z.log2_nonneg|]. assert (Z.log2 (Z.pos p) < 53); [|lia]. apply Z.log2_lt_pow2; lia. }
  set (l := Z.log2 (Z.pos p)) in *. rewrite digits2_log2, Er, Z.log2_mul_pow2 by lia. fold l.
  rewrite fexp_normal by lia. replace (k + l + 1 + (e - k) - 53) with (e + l - 52) by lia.
  set (M := Z.to_pos (Z.pos p * 2 ^ (52 - l))).
  assert (0 < 2 ^ (52 - l)) by (apply Z.pow_pos_nonneg; lia).
  assert (Z.pos M = Z.pos p * 2 ^ (52 - l)) as EM by (unfold M; rewrite Z2Pos.id; lia).
  assert (normal (Z.pos M)) as HM by (apply normal_log2; [lia|]; rewrite EM, Z.log2_mul_pow2 by lia; fold l; lia).
  exists M, (e + l - 52). split; [|split; [done|split; [lia|rewrite EM; do 2 f_equal; lia]]].
  destruct (shl_align_spec r (e - k) (e + l - 52)) as [[-> Hle]|(q & -> & Hlt & Eq)].
  - replace (Z.pos r) with (Z.pos M * 2 ^ (k + l - 52)).
    2:{ rewrite Er, EM, <- Z.mul_assoc, <- Z.pow_add_r by lia. do 2 f_equal. lia. }
    rewrite round_aux_exact by (done || lia). f_equal. lia.
  - replace (Z.pos q) with (Z.pos M * 2 ^ 0).
    2:{ rewrite Eq, Er, EM, Z.mul_1_r, <- Z.mul_assoc, <- Z.pow_add_r by lia. do 2 f_equal. lia. }
    rewrite round_aux_exact by (done || lia). f_equal. lia.
Qed.

(** Trailing zeros play no part. *)
Lemma normalize_denotes m k e n f :
  0 ≤ k → within m e → n = m * 2 ^ k → f = e - k → denotes (binary_normalize f64_prec f64_emax n f false) m e.
Proof.
  intros Hk Hw -> ->. assert (0 < 2 ^ k) by by apply Z.pow_pos_nonneg. destruct m as [|p|p]; [done| |].
  - destruct (round_denotes false p k e Hk Hw) as (M & E & HR & HM & HE & Hv).
    replace (Z.pos p * 2 ^ k) with (Z.pos (Z.to_pos (Z.pos p * 2 ^ k))) by (rewrite Z2Pos.id; lia).
    cbn [binary_normalize]. rewrite HR. done.
  - destruct (round_denotes true p k e Hk Hw) as (M & E & HR & HM & HE & Hv).
    replace (Z.neg p * 2 ^ k) with (Z.neg (Z.to_pos (Z.pos p * 2 ^ k))) by (rewrite <- (Pos2Z.opp_pos (Z.to_pos _)), Z2Pos.id; lia).
    cbn [binary_normalize]. rewrite HR. cbn [denotes cond_Zopp]. split; [done|]. split; [done|]. lia.
Qed.

Lemma of_Z_denotes m : Z.abs m < 2 ^ 53 → denotes (f64_of_Z m) m 0.
Proof. intros Hm. apply (normalize_denotes m 0 0); [done|split; [done|lia]|lia|done]. Qed.

Lemma denotes_abs s M E m e :
  denotes (S754_finite s M E) m e → Z.abs m * 2 ^ (e - E) = Z.pos M ∧ (s = true ↔ m < 0).
Proof.
  intros ([Hn _] & HE & Hv). assert (0 < 2 ^ (e - E)) by (apply Z.pow_pos_nonneg; lia).
  destruct s; cbn [cond_Zopp] in Hv; split; try nia; split; intros; try done; nia.
Qed.

Lemma denotes_scale x m k e n f : 0 ≤ k → denotes x n f → n = m * 2 ^ k → f = e - k → denotes x m e.
Proof.
  intros Hk Hx -> ->. assert (0 < 2 ^ k) by by apply Z.pow_pos_nonneg. destruct x as [s| | |s M E]; cbn [denotes] in *; [|done|done|].
  - destruct Hx as [-> H0]. split; [done|]. nia.
  - destruct Hx as (Hn & HE & Hv). split; [done|]. split; [lia|]. rewrite <- Hv, <- Z.mul_assoc, <- Z.pow_add_r by lia. do 2 f_equal. lia.
Qed.

Lemma denotes_unique x y m e : denotes x m e → denotes y m e → x = y.
Proof.
  assert (∀ E E' M M', E ≤ E' → E' ≤ e → normal (Z.pos M) → normal (Z.pos M') →
    Z.abs m * 2 ^ (e - E) = Z.pos M → Z.abs m * 2 ^ (e - E') = Z.pos M' → E = E' ∧ M = M') as Hcanon.
  { intros E E' M M' HE HE' [H1 H2] [H3 H4] HM HM'.
    assert (Z.pos M = Z.pos M' * 2 ^ (E' - E)) as HMM.
    { rewrite <- HM, <- HM', <- Z.mul_assoc, <- Z.pow_add_r by lia. do 2 f_equal. lia. }
    destruct (Z.eq_dec E E') as [->|Hne]; [split; [done|]; rewrite Z.sub_diag in HMM; lia|].
    assert (2 ≤ 2 ^ (E' - E)) by (change 2 with (2 ^ 1) at 1; apply Z.pow_le_mono_r; lia). nia. }
  intros Hx Hy. destruct x as [sx| | |sx M E], y as [sy| | |sy M' E']; try done.
  - destruct Hx as [-> _], Hy as [-> _]. done.
  - destruct Hx as [_ ->], Hy as (Hn & _ & Hv). destruct sy; cbn in Hv; lia.
  - destruct Hy as [_ ->], Hx as (Hn & _ & Hv). destruct sx; cbn in Hv; lia.
  - destruct (denotes_abs _ _ _ _ _ Hx) as [Ha Hs], (denotes_abs _ _ _ _ _ Hy) as [Ha' Hs']. destruct Hx as (Hn & HE & _), Hy as (Hn' & HE' & _).
    assert (sx = sy) as -> by (destruct sx, sy; naive_solver).
    destruct (Z.le_ge_cases E E') as [Hle|Hle].
    + by destruct (Hcanon E E' M M') as [-> ->].
    + by destruct (Hcanon E' E M' M) as [-> ->].
Qed.

(** ** Operations *)

Lemma shl_align_value s M E m e ez :
  denotes (S754_finite s M E) m e → ez ≤ E → cond_Zopp s (Z.pos (shl_align M E ez).1) = m * 2 ^ (e - ez).
Proof.
  intros (_ & HE & Hv) Hez. assert (m * 2 ^ (e - ez) = cond_Zopp s (Z.pos M) * 2 ^ (E - ez)) as ->.
  { rewrite <- Hv, <- Z.mul_assoc, <- Z.pow_add_r by lia. do 2 f_equal. lia. }
  destruct (shl_align_spec M E ez) as [[-> ?]|(q & -> & _ & Hq)]; cbn [fst].
  - replace ez with E by lia. rewrite Z.sub_diag. lia.
  - rewrite Hq. destruct s; cbn [cond_Zopp]; lia.
Qed.

Lemma add_denotes x y m n e : denotes x m e → denotes y n e → within (m + n) e → denotes (f64_add x y) (m + n) e.
Proof.
  intros Hx Hy Hw. destruct x as [sx| | |sx M E], y as [sy| | |sy M' E']; try done; cbn [f64_add SFadd].
  - destruct Hx as [-> ->], Hy as [-> ->]. done.
  - by destruct Hx as [_ ->].
  - destruct Hy as [_ ->]. by rewrite Z.add_0_r.
  - unfold f64_add, SFadd. pose proof Hx as (_ & HE & _). pose proof Hy as (_ & HE' & _). set (ez := Z.min E E').
    rewrite (shl_align_value sx M E m e ez), (shl_align_value sy M' E' n e ez) by (done || lia).
    apply (normalize_denotes _ (e - ez)); [lia|done|lia|lia].
Qed.

Lemma sub_denotes x y m n e : denotes x m e → denotes y n e → within (m - n) e → denotes (f64_sub x y) (m - n) e.
Proof.
  intros Hx Hy Hw. destruct x as [sx| | |sx M E], y as [sy| | |sy M' E']; try done; cbn [f64_sub SFsub].
  - destruct Hx as [-> ->], Hy as [-> ->]. done.
  - destruct Hx as [_ ->], Hy as (Hn & HE & Hv). cbn [denotes]. split; [done|]. split; [done|]. destruct sy; cbn in *; lia.
  - destruct Hy as [_ ->]. by rewrite Z.sub_0_r.
  - unfold f64_sub, SFsub. pose proof Hx as (_ & HE & _). pose proof Hy as (_ & HE' & _). set (ez := Z.min E E').
    rewrite (shl_align_value sx M E m e ez), (shl_align_value sy M' E' n e ez) by (done || lia).
    apply (normalize_denotes _ (e - ez)); [lia|done|lia|lia].
Qed.

Lemma round_aux_denotes s p k e :
  within (Z.pos p) e → 0 ≤ k → 52 - Z.log2 (Z.pos p) ≤ k → ∃ M E,
    binary_round_aux f64_prec f64_emax s (Z.pos p * 2 ^ k) (e - k) loc_Exact = S754_finite s M E ∧
    normal (Z.pos M) ∧ E ≤ e ∧ Z.pos p * 2 ^ (e - E) = Z.pos M.
Proof.
  intros [Hp He] Hk0 Hk. set (l := Z.log2 (Z.pos p)) in *.
  assert (0 ≤ l ≤ 52) as Hlog.
  { split; [apply Z.log2_nonneg|]. assert (l < 53); [|lia]. apply Z.log2_lt_pow2; lia. }
  set (M := Z.to_pos (Z.pos p * 2 ^ (52 - l))). assert (0 < 2 ^ (52 - l)) by (apply Z.pow_pos_nonneg; lia).
  assert (Z.pos M = Z.pos p * 2 ^ (52 - l)) as EM by (unfold M; rewrite Z2Pos.id; lia).
  assert (normal (Z.pos M)) as HM by (apply normal_log2; [lia|]; rewrite EM, Z.log2_mul_pow2 by lia; fold l; lia).
  exists M, (e + l - 52). split; [|split; [done|split; [lia|rewrite EM; do 2 f_equal; lia]]].
  replace (Z.pos p * 2 ^ k) with (Z.pos M * 2 ^ (k + l - 52)).
  2:{ rewrite EM, <- Z.mul_assoc, <- Z.pow_add_r by lia. do 2 f_equal. lia. }
  rewrite round_aux_exact by (done || lia). f_equal. lia.
Qed.

(** The sign of a zero is that of the other factor, which is positive here. *)
Lemma mul_denotes x y m n e f : denotes x m e → denotes y n f → 0 < n → within (m * n) (e + f) → denotes (f64_mul x y) (m * n) (e + f).
Proof.
  intros Hx Hy Hn Hw. destruct y as [sy| | |sy M' E']; [destruct Hy; lia|done|done|].
  pose proof Hy as ([Hn1 Hn2] & HE' & Hv'). assert (0 < 2 ^ (f - E')) as Hf by (apply Z.pow_pos_nonneg; lia).
  assert (sy = false) as -> by (destruct sy; [cbn in Hv'; nia|done]). cbn [cond_Zopp] in Hv'.
  destruct x as [sx| | |sx M E]; [by destruct Hx as [-> ->]|done|done|].
  pose proof Hx as ([Hm1 Hm2] & HE & Hv). assert (0 < 2 ^ (e - E)) as He by (apply Z.pow_pos_nonneg; lia).
  unfold f64_mul, SFmul. rewrite xorb_false_r.
  set (k := (e - E) + (f - E')).
  assert (Z.abs m * 2 ^ (e - E) = Z.pos M) as Ha by (destruct sx; cbn [cond_Zopp] in Hv; nia).
  assert (Z.pos (M * M') = Z.abs (m * n) * 2 ^ k) as Hprod.
  { unfold k. rewrite Pos2Z.inj_mul, <- Ha, <- Hv', Z.pow_add_r, Z.abs_mul, (Z.abs_eq n) by lia. ring. }
  destruct (Z.abs (m * n)) as [|p|] eqn:Eabs; [lia| |lia].
  assert (2 ^ 104 ≤ Z.pos p * 2 ^ k) as Hbig.
  { rewrite <- Hprod, Pos2Z.inj_mul. change (2 ^ 104) with (2 ^ 52 * 2 ^ 52). nia. }
  assert (104 ≤ Z.log2 (Z.pos p) + k).
  { rewrite Z.add_comm, <- Z.log2_mul_pow2 by lia. apply Z.log2_le_pow2; lia. }
  assert (Z.log2 (Z.pos p) < 53) by (apply Z.log2_lt_pow2; [lia|]; destruct Hw; lia).
  destruct (round_aux_denotes sx p k (e + f)) as (R & X & HR & HnR & HX & HvR); [split; [destruct Hw; lia|apply Hw]|lia|lia|].
  rewrite Hprod. replace (E + E') with (e + f - k) by (unfold k; lia). rewrite HR. cbn [denotes]. split; [done|]. split; [done|].
  destruct sx; cbn [cond_Zopp] in *; nia.
Qed.

(** Halving is exact. *)
Lemma half_denotes x m e : denotes x m e → -300 ≤ e ≤ 300 → Z.abs m < 2 ^ 53 → denotes (f64_div x (f64_of_Z 2)) m (e - 1).
Proof.
  intros Hx He Hm. change (f64_of_Z 2) with (S754_finite false 4503599627370496 (-51)).
  destruct x as [sx| | |sx M E]; [by destruct Hx as [-> ->]|done|done|].
  destruct (denotes_abs _ _ _ _ _ Hx) as [Ha _]. destruct Hx as (Hn & HE & Hv). assert (-400 ≤ E) as HElow.
  { assert (e - E < 53); [|lia]. destruct (Z.lt_ge_cases (e - E) 53) as [|Hge]; [done|]. exfalso.
    assert (2 ^ 53 ≤ 2 ^ (e - E)) by (apply Z.pow_le_mono_r; lia). destruct Hn.
    assert (Z.abs m ≠ 0) by (intros E0; rewrite E0 in Ha; lia). assert (2 ^ (e - E) ≤ Z.abs m * 2 ^ (e - E)) by nia. lia. }
  unfold f64_div, SFdiv, SFdiv_core_binary. cbn [Zdigits2]. rewrite digits2_log2.
  rewrite (proj2 (normal_log2 (Z.pos M) ltac:(lia)) Hn).
  change (Z.pos (digits2_pos 4503599627370496)) with 53.
  replace (fexp f64_prec f64_emax (52 + 1 + E - (53 + -51))) with (E - 2) by (rewrite fexp_normal; lia).
  replace (Z.min (E - 2) (E - -51)) with (E - 2) by lia. replace (E - -51 - (E - 2)) with 53 by lia.
  rewrite Z.shiftl_mul_pow2 by lia.
  pose proof (Z.div_eucl_eq (Z.pos M * 2 ^ 53) 4503599627370496 ltac:(done)) as Hdiv.
  pose proof (Z.mod_pos_bound (Z.pos M * 2 ^ 53) 4503599627370496 ltac:(done)) as Hmod. unfold Z.modulo in Hmod.
  destruct (Z.div_eucl _ _) as [q r]. assert (r = 0 ∧ q = Z.pos M * 2 ^ 1) as [-> ->] by lia. cbn [new_location new_location_even Z.even Z.eqb].
  change (new_location 4503599627370496 0) with loc_Exact.
  rewrite round_aux_exact by (done || lia). cbn [denotes]. rewrite xorb_false_r. split; [done|]. split; [lia|].
  rewrite <- Hv. do 2 f_equal. lia.
Qed.

(** Rounding an integer value to an integer. *)
Lemma round_denotes_int x m hi lo : denotes x m 0 → f64_round_int x hi lo = m.
Proof.
  intros Hx. destruct x as [s| | |s M E]; [by destruct Hx as [_ ->]|done|done|].
  destruct (denotes_abs _ _ _ _ _ Hx) as [Ha Hs]. destruct Hx as (Hn & HE & _). cbn [f64_round_int]. rewrite Z.sub_0_l in Ha.
  assert ((if 0 <=? E then Z.pos M * 2 ^ E else (Z.pos M + 2 ^ (- E - 1)) / 2 ^ (- E)) = Z.abs m) as ->.
  { destruct (Z.leb_spec 0 E) as [H0|H0].
    - replace E with 0 in * by lia. lia.
    - assert (0 < 2 ^ (- E - 1)) by (apply Z.pow_pos_nonneg; lia).
      replace (2 ^ (- E)) with (2 * 2 ^ (- E - 1)) in * by (rewrite <- Z.pow_succ_r by lia; f_equal; lia).
      rewrite <- Ha, Z.div_add_l by lia. rewrite Z.div_small by lia. lia. }
  destruct s; [assert (m < 0) by by apply Hs|assert (¬ m < 0) by (intros ?%Hs; done)]; lia.
Qed.
