(* ===== verification/FloatBound.v ===== *)
(** * Monotone rounding

    A result of [Float] never passes a number that needs no rounding: if a
    representable number bounds the exact sum or product it bounds the
    computed one, however small the operands become.  With [FloatExact] this
    bounds a long computation without an error that grows.

    Every float is an integer multiple of the least denormal [2 ^ -1074]; all
    values here are counted in that unit. *)

From S2P Require Import Prelude Float FloatExact.

Local Open Scope Z_scope.

(** ** Values *)

(** A number, with its value in units of [2 ^ -1074]. *)
Definition num (x : f64) : Prop :=
  match x with S754_zero _ => True | S754_finite _ _ E => -1074 ≤ E | _ => False end.
Definition val (x : f64) : Z :=
  match x with S754_finite s M E => cond_Zopp s (Z.pos M) * 2 ^ (E + 1074) | _ => 0 end.

(** What 53 bits can hold. *)
Definition representable (r : Z) : Prop := ∃ m k, r = m * 2 ^ k ∧ Z.abs m < 2 ^ 53 ∧ 0 ≤ k.

(** [w] is an admissible rounding of [v], which is in units of [2 ^ -2148]:
    no representable number lies strictly between them. *)
Definition rounds (v w : Z) : Prop :=
  ∀ r, representable r → (r * 2 ^ 1074 ≤ v → r ≤ w) ∧ (v ≤ r * 2 ^ 1074 → w ≤ r).

Lemma rounds_between lo hi v w :
  rounds v w → representable lo → representable hi → lo * 2 ^ 1074 ≤ v ≤ hi * 2 ^ 1074 → lo ≤ w ≤ hi.
Proof. intros Hr Hlo Hhi [H1 H2]. split; [by apply (proj1 (Hr lo Hlo))|by apply (proj2 (Hr hi Hhi))]. Qed.

Lemma rounds_exact w : rounds (w * 2 ^ 1074) w.
Proof. intros r _. assert (0 < 2 ^ 1074) by by apply Z.pow_pos_nonneg. split; intros; nia. Qed.

Lemma representable_opp r : representable r → representable (- r).
Proof. intros (m & k & -> & Hm & Hk). exists (- m), k. split; [lia|]. split; [lia|done]. Qed.

Lemma opp_le_swap r v u : r * u ≤ - v → v ≤ - r * u.
Proof. lia. Qed.
Lemma opp_ge_swap r v u : - v ≤ r * u → - r * u ≤ v.
Proof. lia. Qed.

Lemma rounds_opp v w : rounds v w → rounds (- v) (- w).
Proof.
  intros H r Hr. destruct (H (- r) (representable_opp r Hr)) as [H1 H2]. split; intros Hle.
  - apply Z.opp_le_mono. rewrite Z.opp_involutive. by apply H2, opp_le_swap.
  - apply Z.opp_le_mono. rewrite Z.opp_involutive. by apply H1, opp_ge_swap.
Qed.

Lemma rounds_cond s v w : rounds v w → rounds (cond_Zopp s v) (cond_Zopp s w).
Proof. destruct s; [apply rounds_opp|done]. Qed.

(** ** Rounding *)

Lemma shr_1_floor m r s : 0 ≤ m → shr_m (shr_1 {| shr_m := m; shr_r := r; shr_s := s |}) = m / 2.
Proof.
  intros Hm. destruct m as [|[p|p|]|]; cbn [shr_1 shr_m]; [done| | |done|lia].
  - rewrite (Pos2Z.inj_xI p). Z.div_mod_to_equations; lia.
  - rewrite (Pos2Z.inj_xO p). Z.div_mod_to_equations; lia.
Qed.

Lemma shr_floor m n : 0 ≤ m → shr_m (iter_pos shr_1 n {| shr_m := m; shr_r := false; shr_s := false |}) = m / 2 ^ Z.pos n.
Proof.
  intros Hm. rewrite iter_pos_iter. induction n as [|n IH] using Pos.peano_ind; [by apply shr_1_floor|].
  rewrite Pos.iter_succ, Pos2Z.inj_succ, Z.pow_succ_r, Z.mul_comm, <- Z.div_div, <- IH by (lia || apply Z.pow_pos_nonneg; lia).
  destruct (Pos.iter _ _ _) as [m' r s] eqn:E. cbn [shr_m] in *. apply shr_1_floor. rewrite IH. by apply Z.div_pos; [|apply Z.pow_pos_nonneg].
Qed.

Lemma round_nearest_between m l : m ≤ round_nearest_even m l ≤ m + 1.
Proof. destruct l as [|[]]; cbn [round_nearest_even]; try case_match; lia. Qed.

(** The mantissa after the shift and the rounding: the floor, or the ceiling. *)
Lemma shift_rounded p n :
  0 < p → let r := iter_pos shr_1 n {| shr_m := p; shr_r := false; shr_s := false |} in
  let q := round_nearest_even (shr_m r) (loc_of_shr_record r) in
  p / 2 ^ Z.pos n ≤ q ∧ ∀ c, p ≤ c * 2 ^ Z.pos n → q ≤ c.
Proof.
  intros Hp r q. assert (0 < 2 ^ Z.pos n) as H2 by by apply Z.pow_pos_nonneg.
  pose proof (shr_floor p n ltac:(lia)) as Hfl. pose proof (round_nearest_between (shr_m r) (loc_of_shr_record r)) as Hb.
  fold r in Hfl. fold q in Hb. rewrite Hfl in Hb. split; [lia|]. intros c Hc.
  destruct (Z.eq_dec (p mod 2 ^ Z.pos n) 0) as [E|E].
  - assert (p = p / 2 ^ Z.pos n * 2 ^ Z.pos n) as Ep by (pose proof (Z.div_mod p (2 ^ Z.pos n)); lia).
    assert (r = {| shr_m := p / 2 ^ Z.pos n; shr_r := false; shr_s := false |}) as Er.
    { unfold r. rewrite Ep at 1. apply shr_exact. apply Z.div_pos; lia. }
    unfold q. rewrite Er. cbn [shr_m loc_of_shr_record round_nearest_even]. apply Z.div_le_upper_bound; lia.
  - assert (p / 2 ^ Z.pos n < c); [|lia]. apply Z.div_lt_upper_bound; [done|].
    assert (p ≠ 2 ^ Z.pos n * c); [|lia]. intros ->. rewrite Z.mul_comm, Z.mod_mul in E; lia.
Qed.

Lemma fexp_value d : fexp f64_prec f64_emax d = Z.max (d - 53) (-1074).
Proof. reflexivity. Qed.

(** Numbers below a power of two that a coarser grid has room for. *)
Lemma rounds_grid p q n g e :
  0 < p → 0 ≤ n → 0 ≤ g → e + 2148 = g + 1074 - n → 0 ≤ e + 2148 →
  p / 2 ^ n ≤ q → (∀ c, p ≤ c * 2 ^ n → q ≤ c) → g = 0 ∨ 2 ^ 52 ≤ p / 2 ^ n →
  rounds (p * 2 ^ (e + 2148)) (q * 2 ^ g).
Proof.
  intros Hp Hn Hg He He0 Hfl Hceil Hfull r (m & k & -> & Hm & Hk).
  assert (0 < 2 ^ n) as H2n by by apply Z.pow_pos_nonneg. assert (0 < 2 ^ g) as H2g by by apply Z.pow_pos_nonneg.
  assert (0 < 2 ^ (e + 2148)) as H2e by by apply Z.pow_pos_nonneg.
  assert (2 ^ g * 2 ^ 1074 = 2 ^ n * 2 ^ (e + 2148)) as Egrid by (rewrite <- !Z.pow_add_r by lia; f_equal; lia).
  assert (p / 2 ^ n * 2 ^ n ≤ p) as Hflp by (rewrite Z.mul_comm; by apply Z.mul_div_le).
  destruct (Z.le_ge_cases g k) as [Hgk|Hgk].
  - assert (m * 2 ^ k * 2 ^ 1074 = m * 2 ^ (k - g) * 2 ^ n * 2 ^ (e + 2148)) as ->.
    { rewrite <- Z.mul_assoc, <- (Z.mul_assoc (m * 2 ^ (k - g))), <- Egrid, (Z.mul_assoc _ (2 ^ g)), <- (Z.mul_assoc m (2 ^ (k - g))), <- (Z.pow_add_r 2 (k - g)), Z.mul_assoc by lia.
      do 3 f_equal. lia. }
    replace (m * 2 ^ k) with (m * 2 ^ (k - g) * 2 ^ g) by (rewrite <- Z.mul_assoc, <- Z.pow_add_r by lia; do 2 f_equal; lia).
    rewrite <- !Z.mul_le_mono_pos_r by done. split; intros H.
    + etrans; [|exact Hfl]. apply Z.div_le_lower_bound; lia.
    + by apply Hceil.
  - destruct (Z.eq_dec g k) as [->|Hne].
    { assert (m * 2 ^ k * 2 ^ 1074 = m * 2 ^ n * 2 ^ (e + 2148)) as -> by (rewrite <- !Z.mul_assoc, Egrid; done).
      rewrite <- !Z.mul_le_mono_pos_r by done. split; intros H; [|by apply Hceil]. etrans; [|exact Hfl]. apply Z.div_le_lower_bound; lia. }
    destruct Hfull as [|Hfull]; [lia|].
    assert (m * 2 ^ k < 2 ^ 52 * 2 ^ g) as Hsmall.
    { assert (2 ^ (k + 1) ≤ 2 ^ g) as Hp1 by (apply Z.pow_le_mono_r; lia). rewrite Z.pow_add_r in Hp1 by lia.
      assert (0 < 2 ^ k) by by apply Z.pow_pos_nonneg. change (2 ^ 53) with (2 ^ 52 * 2) in Hm. change (2 ^ 1) with 2 in Hp1. nia. }
    split; intros H; [nia|]. exfalso.
    assert (2 ^ 52 * 2 ^ g * 2 ^ 1074 ≤ p * 2 ^ (e + 2148)) as Hbig.
    { rewrite <- Z.mul_assoc, Egrid, Z.mul_assoc. apply Z.mul_le_mono_nonneg_r; [lia|]. nia. }
    revert H Hbig Hsmall. generalize (Z.pow_pos_nonneg 2 1074 eq_refl ltac:(done)). clear. generalize (2 ^ 1074) as U, (p * 2 ^ (e + 2148)) as v, (2 ^ 52 * 2 ^ g) as w, (m * 2 ^ k) as r.
    intros r w v U HU H Hbig Hsmall. nia.
Qed.

Lemma first_shift p e :
  -2148 ≤ e → let '(r, e1) := shr_fexp f64_prec f64_emax (Z.pos p) e loc_Exact in
  let q := round_nearest_even (shr_m r) (loc_of_shr_record r) in
  -1074 ≤ e1 ∧ (e1 ≤ Z.max (Z.log2 (Z.pos p) + e) (-1074)) ∧ 0 ≤ q ≤ 2 ^ 53 ∧ rounds (Z.pos p * 2 ^ (e + 2148)) (q * 2 ^ (e1 + 1074)).
Proof.
  intros He. unfold shr_fexp. cbn [Zdigits2 shr_record_of_loc]. rewrite digits2_log2, fexp_value. set (l := Z.log2 (Z.pos p)).
  assert (0 ≤ l) as Hl by apply Z.log2_nonneg. pose proof (Z.log2_spec (Z.pos p) ltac:(lia)) as [Hlo Hhi]. fold l in Hlo, Hhi. rewrite <- Z.add_1_r in Hhi.
  destruct (Z.max (l + 1 + e - 53) (-1074) - e) as [|n|n] eqn:En; cbn [shr].
  - cbn [loc_of_shr_record round_nearest_even shr_m]. assert (Z.pos p < 2 ^ 53) as Hp.
    { eapply Z.lt_le_trans; [exact Hhi|]. apply Z.pow_le_mono_r; lia. }
    split; [lia|]. split; [lia|]. split; [lia|].
    replace (Z.pos p * 2 ^ (e + 2148)) with (Z.pos p * 2 ^ (e + 1074) * 2 ^ 1074); [apply rounds_exact|].
    rewrite <- Z.mul_assoc, <- Z.pow_add_r by lia. do 2 f_equal. lia.
  - destruct (shift_rounded (Z.pos p) n ltac:(lia)) as [Hfl Hceil]. set (r := iter_pos _ _ _) in *. set (q := round_nearest_even _ _) in *.
    assert (0 < 2 ^ Z.pos n) as H2n by by apply Z.pow_pos_nonneg.
    assert (0 ≤ Z.pos p / 2 ^ Z.pos n) by (apply Z.div_pos; lia).
    assert (q ≤ 2 ^ 53) as Hq.
    { apply Hceil. rewrite <- Z.pow_add_r by lia. etrans; [apply Z.lt_le_incl, Hhi|]. apply Z.pow_le_mono_r; lia. }
    split; [lia|]. split; [lia|]. split; [lia|].
    apply (rounds_grid (Z.pos p) q (Z.pos n)); [lia|lia|lia|lia|lia|done|done|].
    destruct (Z.le_ge_cases (l + 1 + e - 53) (-1074)); [left; lia|right].
    apply Z.div_le_lower_bound; [done|]. rewrite <- Z.pow_add_r by lia. etrans; [|exact Hlo]. apply Z.pow_le_mono_r; lia.
  - cbn [loc_of_shr_record round_nearest_even shr_m]. assert (Z.pos p < 2 ^ 53) as Hp.
    { eapply Z.lt_le_trans; [exact Hhi|]. apply Z.pow_le_mono_r; lia. }
    split; [lia|]. split; [|split; [lia|]].
    2:{ replace (Z.pos p * 2 ^ (e + 2148)) with (Z.pos p * 2 ^ (e + 1074) * 2 ^ 1074); [apply rounds_exact|].
      rewrite <- Z.mul_assoc, <- Z.pow_add_r by lia. do 2 f_equal. lia. }
    lia.
Qed.

Lemma second_shift q e1 :
  0 ≤ q ≤ 2 ^ 53 → -1074 ≤ e1 → ∃ m e2, shr_fexp f64_prec f64_emax q e1 loc_Exact = ({| shr_m := m; shr_r := false; shr_s := false |}, e2) ∧
  0 ≤ m ∧ e1 ≤ e2 ≤ e1 + 1 ∧ m * 2 ^ (e2 + 1074) = q * 2 ^ (e1 + 1074).
Proof.
  intros Hq He. unfold shr_fexp. cbn [shr_record_of_loc]. destruct (Z.eq_dec q (2 ^ 53)) as [->|Hne].
  - change (Zdigits2 (2 ^ 53)) with 54. rewrite fexp_value. replace (Z.max (54 + e1 - 53) (-1074) - e1) with 1 by lia.
    exists (2 ^ 52), (e1 + 1). split; [reflexivity|]. split; [lia|]. split; [lia|].
    replace (e1 + 1 + 1074) with (1 + (e1 + 1074)) by lia. rewrite (Z.pow_add_r 2 1) by lia. lia.
  - exists q, e1. split; [|lia]. assert (0 ≤ Zdigits2 q ≤ 53) as Hd.
    { destruct q as [|p|]; cbn [Zdigits2]; [lia| |lia]. rewrite digits2_log2. pose proof (Z.log2_nonneg (Z.pos p)).
      assert (Z.log2 (Z.pos p) < 53) by (apply Z.log2_lt_pow2; lia). lia. }
    rewrite fexp_value. destruct (Z.max (Zdigits2 q + e1 - 53) (-1074) - e1) as [|n|n] eqn:En; [done|lia|done].
Qed.

Lemma round_aux_rounds s p e :
  -2148 ≤ e → Z.log2 (Z.pos p) + e ≤ 900 → let x := binary_round_aux f64_prec f64_emax s (Z.pos p) e loc_Exact in
  num x ∧ rounds (cond_Zopp s (Z.pos p) * 2 ^ (e + 2148)) (val x).
Proof.
  intros He Hbig. unfold binary_round_aux. pose proof (first_shift p e He) as H1. destruct (shr_fexp _ _ _ e _) as [r e1].
  cbn zeta in *. destruct H1 as (He1 & He1' & Hq & Hr). set (q := round_nearest_even _ _) in *.
  destruct (second_shift q e1 Hq He1) as (m & e2 & -> & Hm & He2 & Hv). cbn [shr_m].
  assert (rounds (cond_Zopp s (Z.pos p) * 2 ^ (e + 2148)) (cond_Zopp s m * 2 ^ (e2 + 1074))) as Hs.
  { apply (rounds_cond s) in Hr. rewrite <- Hv in Hr. by destruct s; cbn [cond_Zopp] in *; rewrite ?Z.mul_opp_l. }
  destruct m as [|m|]; [|unfold f64_prec, f64_emax; rewrite (proj2 (Z.leb_le _ _)) by lia|lia]; cbn [num val].
  - split; [done|]. by destruct s.
  - split; [lia|done].
Qed.

(** ** Operations *)

(** Far from the largest number. *)
Definition bounded_by (b v : Z) : Prop := Z.abs v < 2 ^ b.

Lemma log2_bound p a b c : 0 < p → 0 ≤ a → p * 2 ^ a < 2 ^ b → c = b - a → Z.log2 p < c.
Proof.
  intros Hp Ha Hb ->. assert (Z.log2 (p * 2 ^ a) < b) as H.
  { apply Z.log2_lt_pow2; [apply Z.mul_pos_pos; [done|by apply Z.pow_pos_nonneg]|done]. }
  rewrite Z.log2_mul_pow2 in H by lia. lia.
Qed.

Lemma normalize_rounds n e sz :
  -1074 ≤ e → bounded_by 1900 (n * 2 ^ (e + 1074)) →
  let x := binary_normalize f64_prec f64_emax n e sz in num x ∧ rounds (n * 2 ^ (e + 2148)) (val x).
Proof.
  intros He Hn. assert (∀ s p, Z.pos p * 2 ^ (e + 1074) < 2 ^ 1900 →
    let x := binary_round f64_prec f64_emax s p e in num x ∧ rounds (cond_Zopp s (Z.pos p) * 2 ^ (e + 2148)) (val x)) as Hround.
  { intros s p Hp. unfold binary_round. set (e' := fexp _ _ _).
    assert (-1074 ≤ e') as He' by (unfold e'; rewrite fexp_value; lia).
    destruct (shl_align_spec p e e') as [[-> Hle]|(q & -> & Hlt & Hq)].
    - apply round_aux_rounds; [lia|]. pose proof (log2_bound (Z.pos p) (e + 1074) 1900 _ ltac:(done) ltac:(lia) Hp eq_refl). lia.
    - assert (Z.pos q * 2 ^ (e' + 1074) = Z.pos p * 2 ^ (e + 1074)) as Eq.
      { rewrite Hq, <- Z.mul_assoc, <- Z.pow_add_r by lia. do 2 f_equal. lia. }
      assert (cond_Zopp s (Z.pos p) * 2 ^ (e + 2148) = cond_Zopp s (Z.pos q) * 2 ^ (e' + 2148)) as ->.
      { assert (Z.pos p * 2 ^ (e + 2148) = Z.pos q * 2 ^ (e' + 2148)); [|destruct s; cbn [cond_Zopp]; lia].
        rewrite Hq, <- Z.mul_assoc, <- Z.pow_add_r by lia. do 2 f_equal. lia. }
      apply round_aux_rounds; [lia|]. rewrite <- Eq in Hp.
      pose proof (log2_bound (Z.pos q) (e' + 1074) 1900 _ ltac:(done) ltac:(lia) Hp eq_refl). lia. }
  unfold bounded_by in Hn. destruct n as [|p|p]; cbn [binary_normalize].
  - split; [done|]. apply (rounds_exact 0).
  - apply (Hround false). rewrite Z.abs_mul, (Z.abs_eq (2 ^ _)) in Hn by (apply Z.pow_nonneg; lia). exact Hn.
  - apply (Hround true). rewrite Z.abs_mul, (Z.abs_eq (2 ^ _)) in Hn by (apply Z.pow_nonneg; lia). exact Hn.
Qed.

Lemma shl_align_val s M E ez : -1074 ≤ ez ≤ E → cond_Zopp s (Z.pos (shl_align M E ez).1) * 2 ^ (ez + 1074) = val (S754_finite s M E).
Proof.
  intros He. cbn [val]. destruct (shl_align_spec M E ez) as [[-> ?]|(q & -> & _ & Hq)]; cbn [fst].
  - by replace ez with E by lia.
  - assert (Z.pos q * 2 ^ (ez + 1074) = Z.pos M * 2 ^ (E + 1074)); [|destruct s; cbn [cond_Zopp]; lia].
    rewrite Hq, <- Z.mul_assoc, <- Z.pow_add_r by lia. do 2 f_equal. lia.
Qed.

Lemma add_rounds x y :
  num x → num y → bounded_by 1900 (val x + val y) →
  num (f64_add x y) ∧ rounds ((val x + val y) * 2 ^ 1074) (val (f64_add x y)).
Proof.
  intros Hx Hy Hb. destruct x as [sx| | |sx M E], y as [sy| | |sy M' E']; try done.
  - split; [by destruct sx, sy|]. assert (val (f64_add (S754_zero sx) (S754_zero sy)) = 0) as -> by by destruct sx, sy. apply (rounds_exact 0).
  - split; [done|]. apply rounds_exact.
  - split; [done|]. rewrite Z.add_0_r. apply rounds_exact.
  - unfold f64_add, SFadd. cbn [num] in Hx, Hy. set (ez := Z.min E E').
    assert (-1074 ≤ ez ∧ ez ≤ E ∧ ez ≤ E') as (H1 & H2 & H3) by lia.
    rewrite <- (shl_align_val sx M E ez), <- (shl_align_val sy M' E' ez), <- Z.mul_add_distr_r in * by lia.
    rewrite <- Z.mul_assoc, <- Z.pow_add_r by lia. replace (ez + 1074 + 1074) with (ez + 2148) by lia. by apply normalize_rounds.
Qed.

Lemma mul_rounds x y :
  num x → num y → bounded_by 3000 (val x * val y) → num (f64_mul x y) ∧ rounds (val x * val y) (val (f64_mul x y)).
Proof.
  intros Hx Hy Hb. destruct x as [sx| | |sx M E], y as [sy| | |sy M' E']; try done.
  - split; [done|]. apply (rounds_exact 0).
  - split; [done|]. apply (rounds_exact 0).
  - split; [done|]. rewrite Z.mul_0_r. apply (rounds_exact 0).
  - cbn [num] in Hx, Hy. change (f64_mul _ _) with (binary_round_aux f64_prec f64_emax (xorb sx sy) (Z.pos (M * M')) (E + E') loc_Exact).
    assert (val (S754_finite sx M E) * val (S754_finite sy M' E') = cond_Zopp (xorb sx sy) (Z.pos (M * M')) * 2 ^ (E + E' + 2148)) as Ev.
    { cbn [val]. rewrite Pos2Z.inj_mul. replace (E + E' + 2148) with ((E + 1074) + (E' + 1074)) by lia. rewrite (Z.pow_add_r 2 (E + 1074)) by lia.
      destruct sx, sy; cbn [cond_Zopp xorb]; ring. }
    rewrite Ev in *. apply round_aux_rounds; [lia|].
    assert (Z.pos (M * M') * 2 ^ (E + E' + 2148) < 2 ^ 3000) as Hb'.
    { unfold bounded_by in Hb. rewrite Z.abs_mul, (Z.abs_eq (2 ^ _)) in Hb by (apply Z.pow_nonneg; lia). by destruct (xorb sx sy). }
    pose proof (log2_bound (Z.pos (M * M')) (E + E' + 2148) 3000 _ ltac:(done) ltac:(lia) Hb' eq_refl). lia.
Qed.

(** ** Against the exact theorems *)

Lemma denotes_val x m e : denotes x m e → -400 ≤ e → Z.abs m < 2 ^ 53 → num x ∧ val x = m * 2 ^ (e + 1074).
Proof.
  intros Hx He Hm. destruct x as [s| | |s M E]; [|done|done|].
  - by destruct Hx as [_ ->].
  - destruct (denotes_abs _ _ _ _ _ Hx) as [Ha _]. destruct Hx as (Hn & HE & Hv). cbn [num val].
    assert (e - E < 53) as Hd.
    { destruct (Z.lt_ge_cases (e - E) 53) as [|Hge]; [done|]. exfalso. assert (2 ^ 53 ≤ 2 ^ (e - E)) by (apply Z.pow_le_mono_r; lia).
      destruct Hn. assert (Z.abs m ≠ 0) by (intros E0; rewrite E0 in Ha; lia). nia. }
    split; [lia|]. rewrite <- Hv, <- Z.mul_assoc, <- Z.pow_add_r by lia. do 2 f_equal. lia.
Qed.

Lemma representable_scaled m k : Z.abs m < 2 ^ 53 → 0 ≤ k → representable (m * 2 ^ k).
Proof. intros Hm Hk. by exists m, k. Qed.

(** [round()] between two integers. *)
Lemma round_int_between x lo hi a b : num x → lo * 2 ^ 1074 ≤ val x ≤ hi * 2 ^ 1074 → lo ≤ f64_round_int x a b ≤ hi.
Proof.
  intros Hx Hv. destruct x as [s| | |s M E]; [|done|done|].
  - cbn [val f64_round_int] in *. assert (0 < 2 ^ 1074) by by apply Z.pow_pos_nonneg. nia.
  - cbn [num val f64_round_int] in *. set (v := if 0 <=? E then _ else _).
    assert (∀ c, Z.pos M * 2 ^ (E + 1074) ≤ c * 2 ^ 1074 → v ≤ c) as Hup.
    { intros c Hc. unfold v. destruct (Z.leb_spec 0 E) as [H0|H0].
      - rewrite Z.pow_add_r, Z.mul_assoc in Hc by lia. apply Z.mul_le_mono_pos_r in Hc; [done|by apply Z.pow_pos_nonneg].
      - assert (2 ^ 1074 = 2 ^ (- E) * 2 ^ (E + 1074)) as Es by (rewrite <- Z.pow_add_r by lia; f_equal; lia). rewrite Es, Z.mul_assoc in Hc.
        apply Z.mul_le_mono_pos_r in Hc; [|apply Z.pow_pos_nonneg; lia].
        assert (0 < 2 ^ (- E - 1)) by (apply Z.pow_pos_nonneg; lia).
        replace (2 ^ (- E)) with (2 * 2 ^ (- E - 1)) in * by (rewrite <- Z.pow_succ_r by lia; f_equal; lia).
        assert ((Z.pos M + 2 ^ (- E - 1)) / (2 * 2 ^ (- E - 1)) < c + 1); [|lia]. apply Z.div_lt_upper_bound; nia. }
    assert (∀ c, c * 2 ^ 1074 ≤ Z.pos M * 2 ^ (E + 1074) → c ≤ v) as Hdown.
    { intros c Hc. unfold v. destruct (Z.leb_spec 0 E) as [H0|H0].
      - rewrite Z.pow_add_r, Z.mul_assoc in Hc by lia. apply Z.mul_le_mono_pos_r in Hc; [done|by apply Z.pow_pos_nonneg].
      - assert (2 ^ 1074 = 2 ^ (- E) * 2 ^ (E + 1074)) as Es by (rewrite <- Z.pow_add_r by lia; f_equal; lia). rewrite Es, Z.mul_assoc in Hc.
        apply Z.mul_le_mono_pos_r in Hc; [|apply Z.pow_pos_nonneg; lia].
        assert (0 < 2 ^ (- E - 1)) by (apply Z.pow_pos_nonneg; lia). assert (0 < 2 ^ (- E)) by (apply Z.pow_pos_nonneg; lia).
        apply Z.div_le_lower_bound; lia. }
    destruct s; cbn [cond_Zopp] in Hv.
    + assert (v ≤ - lo) by (apply Hup; lia). assert (- hi ≤ v) by (apply Hdown; lia). lia.
    + split; [apply Hdown; lia|apply Hup; lia].
Qed.

(** ** Between two integers *)

(** A number from [lo] to [hi], themselves integers. *)
Definition between (lo hi : Z) (x : f64) : Prop := num x ∧ lo * 2 ^ 1074 ≤ val x ≤ hi * 2 ^ 1074.

Lemma round_as_i64_between x lo hi : between lo hi x → is_i64 lo → is_i64 hi → lo ≤ f64_round_as_i64 x ≤ hi.
Proof.
  intros [Hn Hv] Hlo Hhi. pose proof (round_int_between x lo hi I64_MAX I64_MIN Hn Hv). unfold f64_round_as_i64, clamp, is_i64, I64_MIN, I64_MAX in *. lia.
Qed.

(** The two lemmas below are about any units, and so never compute [2 ^ 1074]. *)
Lemma scaled_bounds lo hi v n W U :
  0 < U → 0 < W → 0 < n → lo * U ≤ v ≤ hi * U → lo * n * W * U ≤ v * (n * W) ≤ hi * n * W * U.
Proof.
  intros HU HW Hn Hv. assert (0 ≤ n * W) by (apply Z.mul_nonneg_nonneg; lia).
  replace (lo * n * W * U) with (lo * U * (n * W)) by ring. replace (hi * n * W * U) with (hi * U * (n * W)) by ring.
  split; apply Z.mul_le_mono_nonneg_r; lia.
Qed.

Lemma scaled_size lo hi v n b W U :
  0 < U → 0 < W ≤ U → 0 < n ≤ 8 → 0 < b → Z.abs lo < b → Z.abs hi < b → lo * U ≤ v ≤ hi * U → Z.abs (v * (n * W)) ≤ b * 8 * (U * U).
Proof.
  intros HU HW Hn Hb Hlo Hhi Hv. assert (Z.abs v ≤ b * U) as Hvx by nia. assert (0 ≤ n * W) as Hnw by (apply Z.mul_nonneg_nonneg; lia).
  assert (n * W ≤ 8 * U) as Hnw' by (apply Z.mul_le_mono_nonneg; lia). rewrite Z.abs_mul, (Z.abs_eq (n * W)) by lia.
  replace (b * 8 * (U * U)) with (b * U * (8 * U)) by ring. apply Z.mul_le_mono_nonneg; lia.
Qed.

Lemma weighted_bounds lo hi p q n m W U :
  (n + 1) * W = U → m = 1 → lo * n * W ≤ p ≤ hi * n * W → lo * m * W ≤ q ≤ hi * m * W → lo * U ≤ p + q ≤ hi * U.
Proof. intros <- -> Hp Hq. lia. Qed.

Lemma size_between lo hi v b U : 0 < U → Z.abs lo < b → Z.abs hi < b → lo * U ≤ v ≤ hi * U → Z.abs v ≤ b * U.
Proof. intros. nia. Qed.

Lemma unit_positive : 0 < 2 ^ 1074.
Proof. by apply Z.pow_pos_nonneg. Qed.

Lemma fraction_unit k : 0 ≤ k ≤ 3 → 0 < 2 ^ (1074 - k) ≤ 2 ^ 1074.
Proof. intros Hk. split; [apply Z.pow_pos_nonneg; [done|lia]|apply Z.pow_le_mono_r; [done|lia]]. Qed.

Lemma fraction_units k : 0 ≤ k ≤ 3 → 2 ^ k * 2 ^ (1074 - k) = 2 ^ 1074.
Proof. intros Hk. rewrite <- Z.pow_add_r by lia. f_equal. lia. Qed.

Lemma unit_square_bound : 2 ^ 49 * 8 * (2 ^ 1074 * 2 ^ 1074) < 2 ^ 3000.
Proof. change 8 with (2 ^ 3). rewrite <- !Z.pow_add_r by done. by apply Z.pow_lt_mono_r. Qed.

Lemma unit_bound : 2 ^ 49 * 2 ^ 1074 < 2 ^ 1900.
Proof. rewrite <- !Z.pow_add_r by done. by apply Z.pow_lt_mono_r. Qed.

Lemma small_multiple lo n : Z.abs lo < 2 ^ 49 → 0 < n ≤ 8 → Z.abs (lo * n) < 2 ^ 53.
Proof. intros Hlo Hn. rewrite Z.abs_mul, (Z.abs_eq n) by lia. change (2 ^ 53) with (2 ^ 49 * 16). nia. Qed.

(** A product with a fraction [n / 2 ^ k]. *)
Lemma scaled_between x b n k lo hi :
  Z.abs lo < 2 ^ 49 → Z.abs hi < 2 ^ 49 → between lo hi x → denotes b n (- k) → 0 < n ≤ 8 → 0 ≤ k ≤ 3 →
  num (f64_mul x b) ∧ lo * n * 2 ^ (1074 - k) ≤ val (f64_mul x b) ≤ hi * n * 2 ^ (1074 - k).
Proof.
  intros Hlo Hhi Hx Hb Hn Hk. assert (-400 ≤ - k) as Hk4 by lia. assert (Z.abs n < 2 ^ 53) as Hn53 by lia.
  assert (- k + 1074 = 1074 - k) as Ek by lia. assert (0 ≤ 1074 - k) as Hk0 by lia.
  destruct (denotes_val b n (- k) Hb Hk4 Hn53) as [Hbn Hbv]. rewrite Ek in Hbv.
  destruct Hx as [Hx Hv]. pose proof (fraction_unit k Hk) as HW.
  pose proof (scaled_bounds _ _ _ n _ _ unit_positive (proj1 HW) (proj1 Hn) Hv) as Hprod.
  pose proof (scaled_size _ _ _ n (2 ^ 49) _ _ unit_positive HW Hn eq_refl Hlo Hhi Hv) as Hsize.
  rewrite <- Hbv in Hprod, Hsize. destruct (mul_rounds x b Hx Hbn (Z.le_lt_trans _ _ _ Hsize unit_square_bound)) as [Hm Hr].
  split; [exact Hm|]. apply (rounds_between _ _ _ _ Hr); [| |exact Hprod].
  - apply (representable_scaled (lo * n) (1074 - k)); [by apply small_multiple|exact Hk0].
  - apply (representable_scaled (hi * n) (1074 - k)); [by apply small_multiple|exact Hk0].
Qed.

(** A weighted mean, with weights that are exact fractions. *)
Lemma mean_between a b n k x y lo hi :
  Z.abs lo < 2 ^ 49 → Z.abs hi < 2 ^ 49 → between lo hi x → between lo hi y →
  denotes a 1 (- k) → denotes b n (- k) → 0 < n → n + 1 = 2 ^ k → 0 ≤ k ≤ 3 → between lo hi (f64_add (f64_mul x b) (f64_mul y a)).
Proof.
  intros Hlo Hhi Hx Hy Ha Hb Hn Hnk Hk. assert (n ≤ 7) as Hn7 by (assert (2 ^ k ≤ 2 ^ 3) by (apply Z.pow_le_mono_r; lia); lia).
  assert (Z.abs lo < 2 ^ 53 ∧ Z.abs hi < 2 ^ 53) as [Hlo' Hhi'] by lia.
  assert (0 < n ≤ 8) as Hn8 by lia. assert (0 < 1 ≤ 8) as H18 by lia.
  destruct (scaled_between x b n k lo hi Hlo Hhi Hx Hb Hn8 Hk) as [Hp Hpv].
  destruct (scaled_between y a 1 k lo hi Hlo Hhi Hy Ha H18 Hk) as [Hq Hqv].
  pose proof (fraction_units k Hk) as HU. rewrite <- Hnk in HU.
  pose proof (weighted_bounds _ _ _ _ n 1 _ _ HU eq_refl Hpv Hqv) as Hsum.
  pose proof (Z.le_lt_trans _ _ _ (size_between _ _ _ _ _ unit_positive Hlo Hhi Hsum) unit_bound) as Hbound.
  destruct (add_rounds _ _ Hp Hq Hbound) as [Hr Hrv]. split; [exact Hr|].
  apply (rounds_between _ _ _ _ Hrv); [by apply (representable_scaled lo 1074)|by apply (representable_scaled hi 1074)|].
  split; (apply Z.mul_le_mono_nonneg_r; [apply Z.lt_le_incl, unit_positive|apply Hsum]).
Qed.

(** Half an integer. *)
Lemma doubled_bounds lo hi n W U : 2 * W = U → 0 < W → 2 * lo ≤ n ≤ 2 * hi → lo * U ≤ n * W ≤ hi * U.
Proof. intros <- HW Hn. rewrite !Z.mul_assoc, !(Z.mul_comm _ 2). split; apply Z.mul_le_mono_nonneg_r; lia. Qed.

Lemma half_between x n lo hi : denotes x n (0 - 1) → Z.abs n < 2 ^ 53 → 2 * lo ≤ n ≤ 2 * hi → between lo hi x.
Proof.
  intros Hx Hn Hb. destruct (denotes_val x n (0 - 1) Hx ltac:(done) Hn) as [Hnum Hv]. split; [done|]. rewrite Hv.
  apply doubled_bounds; [apply (fraction_units 1); done|apply (fraction_unit 1); done|done].
Qed.
