(* ===== verification/Clock.v ===== *)
(** * Clock offset estimation

    Models [crates/oaat-core/src/clock.rs]: the filtered estimate of the
    offset between an endpoint's clock and the controller's, with the
    rejection of round-trip outliers, on IEEE 754 doubles. *)

From S2P Require Import Prelude Float.

Local Open Scope Z_scope.

Definition RTT_WINDOW : nat := 16.
Definition RTT_OUTLIER_MADS : f64 := f64_of_Z 5.
Definition RTT_OUTLIER_FLOOR_NS : f64 := f64_of_Z 1000000.
(** The literal [1.4826]. *)
Definition MAD_TO_SIGMA : f64 := f64_div (f64_of_Z 14826) (f64_of_Z 10000).
(** The literals [0.125], [0.5] and [1.0]. *)
Definition f64_eighth : f64 := f64_div (f64_of_Z 1) (f64_of_Z 8).
Definition f64_half : f64 := f64_div (f64_of_Z 1) (f64_of_Z 2).
Definition f64_one : f64 := f64_of_Z 1.

Record ClockState := mkClock {
  alpha : f64;
  clk_offset : f64;
  clk_rtt : f64;
  clk_samples : Z;
  bootstrap_count : Z;
  jitter_mean : f64;
  jitter_var : f64;
  rtt_window : list f64;
  clk_rejected : Z
}.

Definition ClockState_new : ClockState :=
  mkClock f64_eighth (f64_of_Z 0) (f64_of_Z 0) 0 10 (f64_of_Z 0) (f64_of_Z 0) [] 0.

Definition clk_is_bootstrapped (s : ClockState) : bool := bootstrap_count s <=? clk_samples s.

(** [median_of]: the median, and the slice it has sorted. *)
Definition median_of (v : list f64) : f64 * list f64 :=
  let v := f64_sort v in
  let n := length v in
  (if (n mod 2 =? 1)%nat then nth (n / 2) v S754_nan
   else f64_div (f64_add (nth (n / 2 - 1) v S754_nan) (nth (n / 2) v S754_nan)) (f64_of_Z 2), v).

Definition is_rtt_outlier (s : ClockState) (rtt : f64) : bool :=
  if bool_decide (rtt_window s = []) then false
  else
    let '(median, sorted) := median_of (rtt_window s) in
    let deviations := (λ x, f64_abs (f64_sub x median)) <$> sorted in
    let '(mad, _) := median_of deviations in
    let margin := f64_max (f64_mul (f64_mul RTT_OUTLIER_MADS MAD_TO_SIGMA) mad) RTT_OUTLIER_FLOOR_NS in
    f64_gt rtt (f64_add median margin).

(** The offset and round-trip time of one exchange ([i128] arithmetic). *)
Definition exchange_offset (t1 t2 t3 t4 : Z) : f64 :=
  f64_div (f64_of_Z ((t2 - t1) + (t3 - t4))) (f64_of_Z 2).
Definition exchange_rtt (t1 t2 t3 t4 : Z) : f64 :=
  f64_of_Z (Z.max 0 ((t4 - t1) - (t3 - t2))).

(** [rtt_window] after the new measurement: at most [RTT_WINDOW] entries,
    the oldest leaving first. *)
Definition window_push (w : list f64) (rtt : f64) : list f64 :=
  (if (length w =? RTT_WINDOW)%nat then drop 1 w else w) ++ [rtt].

(** [ClockState::update]. *)
Definition clock_update (s : ClockState) (t1 t2 t3 t4 : Z) : ClockState :=
  let offset := exchange_offset t1 t2 t3 t4 in
  let rtt := exchange_rtt t1 t2 t3 t4 in
  let outlier := clk_is_bootstrapped s && is_rtt_outlier s rtt in
  let window := window_push (rtt_window s) rtt in
  if outlier then
    mkClock (alpha s) (clk_offset s) (clk_rtt s) (clk_samples s) (bootstrap_count s)
      (jitter_mean s) (jitter_var s) window (wrapping_add 64 (clk_rejected s) 1)
  else
    let '(offset_ns, rtt_ns, jmean) :=
      if clk_samples s =? 0 then (offset, rtt, offset)
      else
        let a := if clk_samples s <? bootstrap_count s then f64_half else alpha s in
        (f64_add (f64_mul (clk_offset s) (f64_sub f64_one a)) (f64_mul offset a),
         f64_add (f64_mul (clk_rtt s) (f64_sub f64_one a)) (f64_mul rtt a),
         jitter_mean s) in
    let diff := f64_sub offset jmean in
    let incr := f64_mul (alpha s) diff in
    mkClock (alpha s) offset_ns rtt_ns (wrapping_add 32 (clk_samples s) 1) (bootstrap_count s)
      (f64_add jmean incr)
      (f64_mul (f64_sub f64_one (alpha s)) (f64_add (jitter_var s) (f64_mul diff incr)))
      window (clk_rejected s).

Definition rejected_samples (s : ClockState) : Z := clk_rejected s.
Definition clk_offset_ns (s : ClockState) : Z := f64_round_as_i64 (clk_offset s).
Definition clk_rtt_ns (s : ClockState) : Z := f64_round_as_u64 (clk_rtt s).

Definition jitter_ns (s : ClockState) : f64 :=
  if clk_samples s <? 2 then f64_of_Z 0 else f64_sqrt (f64_max (jitter_var s) (f64_of_Z 0)).

Definition clk_suggested_interval_ms (s : ClockState) : Z :=
  if clk_samples s <? bootstrap_count s then 100
  else
    let jitter_us := f64_div (jitter_ns s) (f64_of_Z 1000) in
    if f64_gt jitter_us (f64_of_Z 1000) then 500
    else if f64_gt jitter_us (f64_of_Z 100) then 2000
    else 5000.

(** The two conversions between clock domains, for an offset in nanoseconds
    (shared with the endpoint's [SharedClock]). *)
Definition to_controller (offset local_ns : Z) : Z :=
  as_u 64 (Z.max 0 (i64_saturating_add (as_i 64 local_ns) offset)).
Definition to_local (offset controller_ns : Z) : Z :=
  as_u 64 (Z.max 0 (i64_saturating_sub (as_i 64 controller_ns) offset)).

Definition clk_local_to_controller (s : ClockState) (local_ns : Z) : Z :=
  to_controller (clk_offset_ns s) local_ns.
Definition clk_controller_to_local (s : ClockState) (controller_ns : Z) : Z :=
  to_local (clk_offset_ns s) controller_ns.

(** An exchange, and a run of exchanges. *)
Definition exchange : Type := Z * Z * Z * Z.
Definition clock_run (s : ClockState) (xs : list exchange) : ClockState :=
  fold_left (λ s '(t1, t2, t3, t4), clock_update s t1 t2 t3 t4) xs s.

(** ** Lemmas *)

(** The window holds the last measurements, oldest first. *)
Lemma window_push_last w x l :
  w = drop (length l - RTT_WINDOW) l →
  window_push w x = drop (length (l ++ [x]) - RTT_WINDOW) (l ++ [x]).
Proof.
  intros ->. unfold window_push. rewrite length_drop, length_app. unfold RTT_WINDOW in *. simpl length.
  destruct (Nat.eqb_spec (length l - (length l - 16)) 16) as [E|E].
  - rewrite drop_drop, drop_app_le by lia.
    by replace (length l + 1 - 16)%nat with (length l - 16 + 1)%nat by lia.
  - replace (length l - 16)%nat with 0%nat by lia.
    replace (length l + 1 - 16)%nat with 0%nat by lia. by rewrite !drop_0.
Qed.

(** The state reached after the exchanges [xs]. *)
Record clock_inv (xs : list exchange) (s : ClockState) : Prop := {
  ci_alpha : alpha s = f64_eighth;
  ci_bootstrap : bootstrap_count s = 10;
  ci_count : clk_samples s + clk_rejected s = len xs;
  ci_samples : 0 ≤ clk_samples s;
  ci_rejected : 0 ≤ clk_rejected s;
  ci_boot : clk_samples s < 10 → clk_rejected s = 0;
  ci_window : rtt_window s =
    (let rtts := (λ '(t1, t2, t3, t4), exchange_rtt t1 t2 t3 t4) <$> xs in
     drop (length rtts - RTT_WINDOW) rtts)
}.

Lemma clock_update_inv xs s t1 t2 t3 t4 :
  clock_inv xs s → len xs < 2 ^ 32 - 1 →
  clock_inv (xs ++ [(t1, t2, t3, t4)]) (clock_update s t1 t2 t3 t4).
Proof.
  intros [] Hlen. pose proof (len_nonneg xs).
  assert (wrapping_add 32 (clk_samples s) 1 = clk_samples s + 1) as Hs.
  { apply as_u_id. range. }
  assert (wrapping_add 64 (clk_rejected s) 1 = clk_rejected s + 1) as Hr.
  { apply as_u_id. range. }
  assert (len (xs ++ [(t1, t2, t3, t4)]) = len xs + 1) as Hl by (autorewrite with oaat; lia).
  assert (window_push (rtt_window s) (exchange_rtt t1 t2 t3 t4) =
    (let rtts := (λ '(t1, t2, t3, t4), exchange_rtt t1 t2 t3 t4) <$> (xs ++ [(t1, t2, t3, t4)]) in
     drop (length rtts - RTT_WINDOW) rtts)) as Hw.
  { cbv zeta. rewrite fmap_app. by apply window_push_last. }
  unfold clock_update, clk_is_bootstrapped.
  destruct ((bootstrap_count s <=? clk_samples s) && is_rtt_outlier s _) eqn:E.
  - apply andb_true_iff in E as [E _]. apply Z.leb_le in E.
    split; cbn [alpha bootstrap_count clk_samples clk_rejected rtt_window]; try done; lia.
  - destruct (if clk_samples s =? 0 then _ else _) as [[o r] j].
    split; cbn [alpha bootstrap_count clk_samples clk_rejected rtt_window]; try done; lia.
Qed.

Lemma clock_run_inv xs : len xs < 2 ^ 32 → clock_inv xs (clock_run ClockState_new xs).
Proof.
  induction xs as [|[[[t1 t2] t3] t4] xs IH] using rev_ind; intros Hlen.
  { split; try done; simpl; lia. }
  autorewrite with oaat in Hlen. unfold clock_run. rewrite fold_left_app. simpl.
  apply clock_update_inv; [|lia]. apply IH. lia.
Qed.

Lemma to_local_exact off c :
  is_u64 c → is_i64 off → c < 2 ^ 63 → 0 ≤ c - off < 2 ^ 63 → to_local off c = c - off.
Proof.
  intros. unfold to_local, i64_saturating_sub. rewrite (as_i_id 64) by (lia || range).
  rewrite as_u_id by range. range.
Qed.

Lemma to_controller_exact off l :
  is_u64 l → is_i64 off → l < 2 ^ 63 → 0 ≤ l + off < 2 ^ 63 → to_controller off l = l + off.
Proof.
  intros. unfold to_controller, i64_saturating_add. rewrite (as_i_id 64) by (lia || range).
  rewrite as_u_id by range. range.
Qed.

Lemma clk_offset_range s : is_i64 (clk_offset_ns s).
Proof. apply f64_round_as_i64_range. Qed.

(** ** Properties *)

(** After any run of exchanges: every exchange was either used or counted
    rejected; none was rejected before ten were used, so the estimate is
    bootstrapped after exactly ten exchanges; and the window holds the round
    trips of the last sixteen exchanges, rejected ones included, in order. *)
Theorem clock_run_accounts xs :
  len xs < 2 ^ 32 →
  let s := clock_run ClockState_new xs in
  clk_samples s + rejected_samples s = len xs ∧
  (rejected_samples s ≠ 0 → 10 ≤ clk_samples s) ∧
  clk_is_bootstrapped s = (10 <=? len xs) ∧
  rtt_window s = (let rtts := (λ '(t1, t2, t3, t4), exchange_rtt t1 t2 t3 t4) <$> xs in
                  drop (length rtts - RTT_WINDOW) rtts).
Proof.
  intros Hlen s. destruct (clock_run_inv xs Hlen) as [Ha Hb Hc Hs Hr Hbo Hw]. fold s in Ha, Hb, Hc, Hs, Hr, Hbo, Hw.
  unfold rejected_samples, clk_is_bootstrapped. rewrite Hb. split_and!; try done; [lia|].
  destruct (Z.leb_spec 10 (clk_samples s)), (Z.leb_spec 10 (len xs)); try done; lia.
Qed.

(** Twelve exchanges on a 2 ms path, one of them delayed by half a second. *)
Definition demo_exchanges : list exchange :=
  replicate 11 (0, 500001000000, 500001000000, 2000000) ++ [(0, 500001000000, 500001000000, 502000000)].

Lemma clock_run_accounts_witness :
  let s := clock_run ClockState_new demo_exchanges in
  clk_samples s = 11 ∧ rejected_samples s = 1 ∧ clk_samples s + rejected_samples s = len demo_exchanges.
Proof.
  split_and!; [vm_compute; reflexivity|vm_compute; reflexivity|].
  refine (proj1 (clock_run_accounts demo_exchanges _)). vm_compute. reflexivity.
Defined.

(** A rejected exchange leaves the offset, the round trip and the jitter as
    they were: only the window and the count of rejections move. *)
Theorem outlier_changes_no_estimate s t1 t2 t3 t4 :
  clk_is_bootstrapped s = true → is_rtt_outlier s (exchange_rtt t1 t2 t3 t4) = true →
  let s' := clock_update s t1 t2 t3 t4 in
  clk_offset_ns s' = clk_offset_ns s ∧ clk_rtt_ns s' = clk_rtt_ns s ∧ jitter_ns s' = jitter_ns s ∧
  clk_suggested_interval_ms s' = clk_suggested_interval_ms s ∧
  rtt_window s' = window_push (rtt_window s) (exchange_rtt t1 t2 t3 t4).
Proof. intros Hb Ho s'. unfold s', clock_update. by rewrite Hb, Ho. Qed.

Lemma outlier_changes_no_estimate_witness :
  let s := clock_run ClockState_new (take 11 demo_exchanges) in
  clk_offset_ns (clock_update s 0 500001000000 500001000000 502000000) = clk_offset_ns s.
Proof.
  refine (proj1 (outlier_changes_no_estimate (clock_run ClockState_new (take 11 demo_exchanges))
                   0 500001000000 500001000000 502000000 _ _)); vm_compute; reflexivity.
Defined.

(** The two clock-domain conversions are inverse to each other wherever
    neither saturates: instants below 2^63 ns on both clocks. *)
Theorem clock_domains_roundtrip s c :
  is_u64 c → c < 2 ^ 63 → 0 ≤ c - clk_offset_ns s < 2 ^ 63 →
  clk_local_to_controller s (clk_controller_to_local s c) = c ∧
  clk_controller_to_local s c = c - clk_offset_ns s.
Proof.
  intros Hc Hlt Hr. pose proof (clk_offset_range s) as Ho.
  unfold clk_local_to_controller, clk_controller_to_local.
  rewrite (to_local_exact _ c) by (done || lia).
  rewrite to_controller_exact by (try done; range). lia.
Qed.

Lemma clock_domains_roundtrip_witness :
  let s := clock_run ClockState_new demo_exchanges in
  clk_local_to_controller s (clk_controller_to_local s 1700000000000000000) = 1700000000000000000 ∧
  clk_controller_to_local s 1700000000000000000 = 1700000000000000000 - clk_offset_ns s.
Proof.
  refine (clock_domains_roundtrip (clock_run ClockState_new demo_exchanges) 1700000000000000000 _ _ _);
    vm_compute; try split; (reflexivity || discriminate).
Defined.
