(* ===== verification/Sync.v ===== *)
(** * The endpoint's shared clock and playback tracker

    Models [crates/oaat-endpoint/src/sync.rs]: [SharedClock], the estimate
    published through atomics to the audio path, and [PtsTracker], the
    playback error in frames; and the controller's clock responder
    ([crates/oaat-controller/src/clock_responder.rs]). *)

From S2P Require Import Prelude Session Wire Float Clock.

Local Open Scope Z_scope.

(** ** [SharedClock] *)

Record SharedClock := mkShared {
  sc_state : ClockState;
  sc_offset_ns : Z;
  sc_rtt_ns : Z;
  sc_bootstrapped : bool;
  sc_packets_lost : Z;
  sc_packets_recovered : Z
}.

Definition SharedClock_new : SharedClock := mkShared ClockState_new 0 0 false 0 0.

Definition set_link_stats (c : SharedClock) (lost recovered : Z) : SharedClock :=
  mkShared (sc_state c) (sc_offset_ns c) (sc_rtt_ns c) (sc_bootstrapped c) lost recovered.

Definition link_stats (c : SharedClock) : Z * Z := (sc_packets_lost c, sc_packets_recovered c).

Definition shared_update (c : SharedClock) (t1 t2 t3 t4 : Z) : SharedClock :=
  let state := clock_update (sc_state c) t1 t2 t3 t4 in
  mkShared state (clk_offset_ns state) (clk_rtt_ns state) (clk_is_bootstrapped state)
    (sc_packets_lost c) (sc_packets_recovered c).

Definition shared_controller_to_local (c : SharedClock) (controller_ns : Z) : Z :=
  to_local (sc_offset_ns c) controller_ns.
Definition shared_local_to_controller (c : SharedClock) (local_ns : Z) : Z :=
  to_controller (sc_offset_ns c) local_ns.

Definition shared_suggested_interval_ms (c : SharedClock) : Z := clk_suggested_interval_ms (sc_state c).

(** ** [PtsTracker] *)

Record PtsTracker := mkTracker { start_ns : Z; sample_rate : Z }.

(** [drift_frames]: [u128] product, [i64] casts. *)
Definition drift_frames (t : PtsTracker) (now_ns frames_played : Z) : Z :=
  let elapsed_ns := u64_saturating_sub now_ns (start_ns t) in
  let expected := elapsed_ns * sample_rate t / 1000000000 in
  as_i 64 (as_i 64 expected - as_i 64 frames_played).

(** ** [ClockResponder]

    The answer to one datagram of [n] bytes, received in the 28-byte buffer
    [buf]; [t2] and [t3] are the two readings of the clock. *)
Definition clock_respond (n : Z) (buf : list Z) (t2 t3 : Z) : option (list Z) :=
  if n <? Z.of_nat CLOCK_SYNC_SIZE then None
  else match clock_decode buf with
       | Err _ => None
       | Ok pkt =>
           if bool_decide (cs_kind pkt = Request)
           then Some (clock_encode (mkClockSync 1 Response (cs_sequence pkt) (cs_t1 pkt) t2 t3))
           else None
       end.

(** ** Lemmas *)

(** The atomics mirror the state behind the lock. *)
Definition published (c : SharedClock) : Prop :=
  sc_offset_ns c = clk_offset_ns (sc_state c) ∧ sc_rtt_ns c = clk_rtt_ns (sc_state c) ∧
  sc_bootstrapped c = clk_is_bootstrapped (sc_state c).

Lemma published_new : published SharedClock_new.
Proof. by vm_compute. Qed.

Lemma published_update c t1 t2 t3 t4 : published (shared_update c t1 t2 t3 t4).
Proof. done. Qed.

Lemma published_set_link_stats c l r : published c → published (set_link_stats c l r).
Proof. done. Qed.

#[export] Hint Resolve published_new published_update published_set_link_stats : oaat.

(** ** Properties *)

(** The playback error is measured exactly: the expected position is the
    number of whole frames elapsed since the start instant, zero before it;
    the error is positive exactly when fewer frames have been played than
    expected, and no cast truncates as long as the positions are below 2^62
    frames. *)
Theorem drift_frames_spec t now played :
  0 ≤ start_ns t → 0 ≤ now → 0 ≤ sample_rate t →
  now * sample_rate t < 2 ^ 62 * 1000000000 → 0 ≤ played < 2 ^ 62 →
  ∃ expected, drift_frames t now played = expected - played ∧ 0 ≤ expected ∧
    (now ≤ start_ns t → expected = 0) ∧
    (start_ns t ≤ now →
       expected * 1000000000 ≤ (now - start_ns t) * sample_rate t < (expected + 1) * 1000000000).
Proof.
  intros Hs Hn Hr Hb Hp. unfold drift_frames, u64_saturating_sub.
  set (el := Z.max 0 (now - start_ns t)). set (ex := el * sample_rate t / 1000000000).
  assert (0 ≤ el * sample_rate t ≤ now * sample_rate t) as Hel by (unfold el; nia).
  assert (0 ≤ ex) by (apply Z.div_pos; lia).
  assert (ex < 2 ^ 62) by (apply Z.div_lt_upper_bound; lia).
  exists ex. rewrite (as_i_id 64 ex), (as_i_id 64 played), (as_i_id 64 (ex - played)) by range.
  split_and!; [done|done| |].
  - intros. unfold ex, el. rewrite Z.max_l by lia. done.
  - intros. replace (now - start_ns t) with el by (unfold el; lia).
    pose proof (Z.div_mod (el * sample_rate t) 1000000000 ltac:(lia)) as Hdm.
    pose proof (Z.mod_pos_bound (el * sample_rate t) 1000000000 ltac:(lia)). fold ex in Hdm. lia.
Qed.

(** 44100 frames after one second; 1000 of them have not been played. *)
Lemma drift_frames_spec_witness :
  ∃ expected, drift_frames (mkTracker 1700000000000000000 44100) 1700000001000000000 43100 = expected - 43100 ∧
    0 ≤ expected ∧ (1700000001000000000 ≤ 1700000000000000000 → expected = 0) ∧
    (1700000000000000000 ≤ 1700000001000000000 →
       expected * 1000000000 ≤ (1700000001000000000 - 1700000000000000000) * 44100 < (expected + 1) * 1000000000).
Proof.
  apply (drift_frames_spec (mkTracker 1700000000000000000 44100)); vm_compute;
    try split; (reflexivity || discriminate).
Defined.

(** One exchange through the wire: the responder answers a well-formed
    request with a response that the endpoint decodes to the request's
    sequence number and [t1] and the responder's two timestamps; every other
    datagram (short, of another version, a response) gets no answer. *)
Theorem clock_exchange p t2 t3 :
  clock_wf p → is_u64 t2 → is_u64 t3 →
  (∀ n, clock_respond n (clock_encode p) t2 t3 ≠ None →
     cs_kind p = Request ∧ cs_version p mod 16 = CURRENT_VERSION ∧ Z.of_nat CLOCK_SYNC_SIZE ≤ n) ∧
  (cs_kind p = Request → cs_version p mod 16 = CURRENT_VERSION →
     ∃ resp, clock_respond 28 (clock_encode p) t2 t3 = Some resp ∧
       clock_decode resp = Ok (mkClockSync 1 Response (cs_sequence p) (cs_t1 p) t2 t3)).
Proof.
  intros Hwf H2 H3. unfold clock_respond. rewrite clock_decode_encode by done. split.
  - intros n Hn. destruct (Z.ltb_spec n (Z.of_nat CLOCK_SYNC_SIZE)); [done|].
    destruct (Z.eqb_spec (cs_version p mod 16) CURRENT_VERSION); [|done]. simpl in Hn.
    case_bool_decide; [done|]. done.
  - intros Hk Hv. rewrite Hv, Z.eqb_refl. simpl. rewrite bool_decide_eq_true_2 by done.
    eexists. split; [done|]. rewrite clock_decode_encode; [done|].
    destruct Hwf. split; simpl; done || (unfold in_u; lia).
Qed.

Lemma clock_exchange_witness :
  (∀ n, clock_respond n (clock_encode (mkClockSync 1 Request 3 1000 0 0)) 5 6 ≠ None →
     Request = Request ∧ 1 mod 16 = CURRENT_VERSION ∧ Z.of_nat CLOCK_SYNC_SIZE ≤ n) ∧
  (Request = Request → 1 mod 16 = CURRENT_VERSION →
     ∃ resp, clock_respond 28 (clock_encode (mkClockSync 1 Request 3 1000 0 0)) 5 6 = Some resp ∧
       clock_decode resp = Ok (mkClockSync 1 Response 3 1000 5 6)).
Proof.
  apply (clock_exchange (mkClockSync 1 Request 3 1000 0 0));
    vm_compute; repeat split; (reflexivity || discriminate).
Defined.
