(* ===== verification/Negotiate.v ===== *)
(** * Format negotiation

    Models [negotiate_format] and [best_rate_in_family] of
    [crates/oaat-endpoint/src/transport.rs]: the endpoint's answer to a
    format proposal. *)

From S2P Require Import Prelude Format Text Message.

Local Open Scope Z_scope.

(** [find(|&r| r <= max_rate)] on the rates, highest first. *)
Definition highest_rate_le (rs : list Z) (max_rate : Z) : option Z :=
  snd <$> list_find (λ r, r ≤ max_rate) (reverse rs).

Definition best_rate_in_family (proposed_rate max_rate : Z) : Z :=
  match family_of proposed_rate with
  | Some family => default (hd 0 (rates family)) (highest_rate_le (rates family) max_rate)
  | None => max_rate
  end.

Definition negotiate_format (caps : EndpointCapabilities) (fp : FormatPropose) : Message :=
  let accept := MFormatAccept (mkFormatAccept (fp_stream_id fp)) in
  if negb (bool_decide (fp_format fp ∈ formats caps)) then
    MFormatReject (mkFormatReject (fp_stream_id fp) ("unsupported format: " ++ AudioFormat_fmt (fp_format fp)))
  else if is_pcm (fp_format fp) then
    let rate_ok := fp_sample_rate fp <=? pcm_max_rate caps in
    let bits_ok := fp_bits_per_sample fp <=? pcm_max_bits caps in
    if rate_ok && bits_ok then accept
    else
      let counter_rate :=
        if rate_ok then fp_sample_rate fp
        else best_rate_in_family (fp_sample_rate fp) (pcm_max_rate caps) in
      let counter_bits := if bits_ok then fp_bits_per_sample fp else pcm_max_bits caps in
      MFormatCounter (mkFormatCounter (fp_stream_id fp) (fp_format fp) counter_rate (fp_channels fp)
                        (fp_channel_layout fp) counter_bits (fp_dsd_rate fp))
  else if is_dsd (fp_format fp) then
    match dsd_max_rate caps with
    | None =>
        MFormatReject (mkFormatReject (fp_stream_id fp) "DSD not supported (no dsd_max_rate)")
    | Some max_rate =>
        let requested_rate := default 64 (fp_dsd_rate fp) in
        if max_rate <? requested_rate then
          MFormatReject (mkFormatReject (fp_stream_id fp)
            ("DSD rate " ++ print_uint requested_rate ++ "x exceeds max " ++ print_uint max_rate ++ "x"))
        else accept
    end
  else accept.

(** The proposal a controller makes of a counter-proposal. *)
Definition propose_counter (c : FormatCounter) : FormatPropose :=
  mkFormatPropose (fc_stream_id c) (fc_format c) (fc_sample_rate c) (fc_channels c)
    (fc_channel_layout c) (fc_bits_per_sample c) (fc_dsd_rate c).

(** ** Lemmas *)

Lemma highest_rate_le_Some rs m r :
  highest_rate_le rs m = Some r → r ∈ rs ∧ r ≤ m.
Proof.
  unfold highest_rate_le. destruct (list_find _ _) as [[i x]|] eqn:E; [|done]. intros [= ->].
  apply list_find_Some in E as (Hx & Hr & _). split; [|done].
  apply list_elem_of_lookup_2 in Hx. by apply elem_of_reverse.
Qed.

Lemma highest_rate_le_None rs m r :
  highest_rate_le rs m = None → r ∈ rs → m < r.
Proof.
  unfold highest_rate_le. destruct (list_find _ _) as [[i x]|] eqn:E; [done|]. intros _ Hr.
  apply list_find_None in E. rewrite Forall_forall in E.
  specialize (E r ltac:(by apply elem_of_reverse)). simpl in E. lia.
Qed.

(** The rates of a family are ascending, so the first that fits from the top
    is the highest that fits. *)
Lemma highest_rate_le_max f m r r' :
  highest_rate_le (rates f) m = Some r → r' ∈ rates f → r' ≤ m → r' ≤ r.
Proof.
  intros H Hr' Hm. unfold highest_rate_le in H.
  destruct f; cbn [rates reverse rev_append] in *; rewrite !elem_of_cons, elem_of_nil in Hr';
    cbn [list_find] in H; repeat case_decide; simplify_eq/=; lia.
Qed.

Lemma best_rate_family rate m f :
  family_of rate = Some f → family_of (best_rate_in_family rate m) = Some f.
Proof.
  intros Hf. apply family_of_rates. unfold best_rate_in_family. rewrite Hf.
  destruct (highest_rate_le (rates f) m) as [r|] eqn:E; simpl.
  - by apply highest_rate_le_Some in E as [? _].
  - destruct f; simpl; set_solver.
Qed.

(** The fallback: no rate of the family fits. *)
Lemma best_rate_le rate m f :
  family_of rate = Some f → hd 0 (rates f) ≤ m →
  best_rate_in_family rate m ≤ m ∧
  ∀ r, r ∈ rates f → r ≤ m → r ≤ best_rate_in_family rate m.
Proof.
  intros Hf Hm. unfold best_rate_in_family. rewrite Hf.
  destruct (highest_rate_le (rates f) m) as [r|] eqn:E; simpl.
  - split; [by apply highest_rate_le_Some in E as [_ ?]|]. intros. by eapply highest_rate_le_max.
  - pose proof (highest_rate_le_None _ _ (hd 0 (rates f)) E) as Hh.
    assert (hd 0 (rates f) ∈ rates f) as Hin by (destruct f; simpl; set_solver).
    specialize (Hh Hin). lia.
Qed.

(** The answer is always an accept, a reject or a counter-proposal, for the
    stream proposed. *)
Lemma negotiate_format_answer caps fp :
  match negotiate_format caps fp with
  | MFormatAccept a => a = mkFormatAccept (fp_stream_id fp)
  | MFormatReject r => fr_stream_id r = fp_stream_id fp
  | MFormatCounter c => fc_stream_id c = fp_stream_id fp
  | _ => False
  end.
Proof. unfold negotiate_format. by repeat (case_match; simplify_eq/=). Qed.

(** Without a rate that fits: the lowest of the family. *)
Lemma best_rate_fallback rate m f :
  family_of rate = Some f → m < hd 0 (rates f) → best_rate_in_family rate m = hd 0 (rates f).
Proof.
  intros Hf Hm. unfold best_rate_in_family. rewrite Hf.
  destruct (highest_rate_le (rates f) m) as [r|] eqn:E; [|done]. apply highest_rate_le_Some in E as [Hr Hle].
  destruct f; simpl in *; rewrite !elem_of_cons, elem_of_nil in Hr; lia.
Qed.

Lemma lowest_rate f rate : family_of rate = Some f → hd 0 (rates f) ≤ rate.
Proof. intros Hr%family_of_rates. destruct f; simpl in *; rewrite !elem_of_cons, elem_of_nil in Hr; lia. Qed.

(** A counter-proposal is for a listed PCM format beyond one of the limits. *)
Lemma counter_of caps fp c :
  negotiate_format caps fp = MFormatCounter c →
  fp_format fp ∈ formats caps ∧ is_pcm (fp_format fp) = true ∧
  fc_sample_rate c = (if fp_sample_rate fp <=? pcm_max_rate caps then fp_sample_rate fp
                      else best_rate_in_family (fp_sample_rate fp) (pcm_max_rate caps)) ∧
  propose_counter c =
    mkFormatPropose (fp_stream_id fp) (fp_format fp) (fc_sample_rate c) (fp_channels fp) (fp_channel_layout fp)
      (Z.min (fp_bits_per_sample fp) (pcm_max_bits caps)) (fp_dsd_rate fp) ∧
  (pcm_max_rate caps < fp_sample_rate fp ∨ pcm_max_bits caps < fp_bits_per_sample fp).
Proof.
  unfold negotiate_format. case_bool_decide as Hin; [|done]. simpl. destruct (is_pcm (fp_format fp)) eqn:Hpcm; [|repeat case_match; done].
  destruct (Z.leb_spec (fp_sample_rate fp) (pcm_max_rate caps)), (Z.leb_spec (fp_bits_per_sample fp) (pcm_max_bits caps));
    simpl; intros [= <-]; unfold propose_counter; simpl; split_and!; try done; try (f_equal; lia); lia.
Qed.

(** Proposing it: within the depth, it is the rate that decides. *)
Lemma propose_again caps fp c :
  fp_format fp ∈ formats caps → is_pcm (fp_format fp) = true →
  propose_counter c =
    mkFormatPropose (fp_stream_id fp) (fp_format fp) (fc_sample_rate c) (fp_channels fp) (fp_channel_layout fp)
      (Z.min (fp_bits_per_sample fp) (pcm_max_bits caps)) (fp_dsd_rate fp) →
  negotiate_format caps (propose_counter c) =
    if fc_sample_rate c <=? pcm_max_rate caps then MFormatAccept (mkFormatAccept (fp_stream_id fp))
    else MFormatCounter (mkFormatCounter (fc_stream_id c) (fc_format c)
           (best_rate_in_family (fc_sample_rate c) (pcm_max_rate caps)) (fc_channels c) (fc_channel_layout c)
           (fc_bits_per_sample c) (fc_dsd_rate c)).
Proof.
  intros Hin Hpcm Hp. unfold propose_counter in Hp. injection Hp as E1 E2 E3 E4 E5 E6.
  unfold negotiate_format, propose_counter. simpl. rewrite E2, bool_decide_eq_true_2, Hpcm by done. simpl.
  rewrite (proj2 (Z.leb_le (fc_bits_per_sample c) _)) by lia. rewrite andb_true_r, E1. by destruct (_ <=? _).
Qed.

(** ** Properties *)

(** C37 Negotiation takes one more round, or none ends it. A counter-proposal
    changes nothing of the proposal but the rate and the depth (not the
    channels, which the endpoint does not compare with what it announced); the
    depth is cut to the limit, and a rate within the limit is kept. A rate
    above it becomes the highest one of its family the endpoint can play, or
    the limit itself for a rate of no family, and the endpoint accepts the
    counter-proposal when the controller proposes it. But when even the lowest
    rate of the family exceeds the limit, the endpoint counters with that rate,
    which it cannot play, and answers the counter-proposal with itself for
    ever. *)
Theorem negotiation_converges caps fp c :
  negotiate_format caps fp = MFormatCounter c →
  propose_counter c =
    mkFormatPropose (fp_stream_id fp) (fp_format fp) (fc_sample_rate c) (fp_channels fp) (fp_channel_layout fp)
      (Z.min (fp_bits_per_sample fp) (pcm_max_bits caps)) (fp_dsd_rate fp) ∧
  (fp_sample_rate fp ≤ pcm_max_rate caps → fc_sample_rate c = fp_sample_rate fp) ∧
  match family_of (fp_sample_rate fp) with
  | None =>
      fc_sample_rate c = Z.min (fp_sample_rate fp) (pcm_max_rate caps) ∧
      negotiate_format caps (propose_counter c) = MFormatAccept (mkFormatAccept (fp_stream_id fp))
  | Some f =>
      fc_sample_rate c ∈ rates f ∧
      (hd 0 (rates f) ≤ pcm_max_rate caps →
         fc_sample_rate c ≤ pcm_max_rate caps ∧
         (pcm_max_rate caps < fp_sample_rate fp → ∀ r, r ∈ rates f → r ≤ pcm_max_rate caps → r ≤ fc_sample_rate c) ∧
         negotiate_format caps (propose_counter c) = MFormatAccept (mkFormatAccept (fp_stream_id fp))) ∧
      (pcm_max_rate caps < hd 0 (rates f) →
         fc_sample_rate c = hd 0 (rates f) ∧ negotiate_format caps (propose_counter c) = MFormatCounter c)
  end.
Proof.
  intros Hn. destruct (counter_of _ _ _ Hn) as (Hin & Hpcm & Hrate & Hprop & Hor).
  pose proof (propose_again caps fp c Hin Hpcm Hprop) as Hagain.
  split_and!; [done|intros Hr; by rewrite Hrate, (proj2 (Z.leb_le _ _) Hr)|].
  destruct (family_of (fp_sample_rate fp)) as [f|] eqn:Hf.
  - pose proof (best_rate_family (fp_sample_rate fp) (pcm_max_rate caps) f Hf) as Hfam.
    assert (family_of (fc_sample_rate c) = Some f) as Hfc
      by (rewrite Hrate; destruct (_ <=? _); [exact Hf|exact Hfam]).
    split_and!; [by apply family_of_rates| |].
    + intros Hm. destruct (best_rate_le _ _ _ Hf Hm) as [Hle Hmax].
      assert (fc_sample_rate c ≤ pcm_max_rate caps) as Hc.
      { rewrite Hrate. destruct (Z.leb_spec (fp_sample_rate fp) (pcm_max_rate caps)); lia. }
      split_and!; [done| |rewrite Hagain, (proj2 (Z.leb_le _ _) Hc); done].
      intros Hr. by rewrite Hrate, (proj2 (Z.leb_gt _ _)).
    + intros Hm. pose proof (lowest_rate f (fp_sample_rate fp) Hf) as Hlow.
      assert (fc_sample_rate c = hd 0 (rates f)) as Hc.
      { rewrite Hrate, (proj2 (Z.leb_gt _ _)) by lia. by apply best_rate_fallback. }
      split; [done|]. rewrite Hagain, (proj2 (Z.leb_gt _ _)) by lia. f_equal.
      rewrite (best_rate_fallback _ _ f) by (done || lia). rewrite <- Hc. by destruct c.
  - assert (fc_sample_rate c = Z.min (fp_sample_rate fp) (pcm_max_rate caps)) as Hc.
    { rewrite Hrate. unfold best_rate_in_family. rewrite Hf.
      destruct (Z.leb_spec (fp_sample_rate fp) (pcm_max_rate caps)); lia. }
    split; [done|]. rewrite Hagain, (proj2 (Z.leb_le _ _)) by lia. done.
Qed.

Definition demo_caps : EndpointCapabilities :=
  mkCapabilities 96000 24 (Some 256) 2 [PcmS16le; PcmS24le; PcmS32le; DsdU8] None true false.

(** 352.8 kHz and 32 bits to an endpoint of 96 kHz and 24 bits. *)
Lemma negotiation_converges_witness :
  let fp := mkFormatPropose "s" PcmS32le 352800 2 Stereo 32 None in
  let c := mkFormatCounter "s" PcmS32le 88200 2 Stereo 24 None in
  negotiate_format demo_caps fp = MFormatCounter c ∧
  negotiate_format demo_caps (propose_counter c) = MFormatAccept (mkFormatAccept "s").
Proof.
  intros fp c. assert (negotiate_format demo_caps fp = MFormatCounter c) as Hn by (vm_compute; reflexivity).
  split; [exact Hn|]. destruct (negotiation_converges demo_caps fp c Hn) as (_ & _ & Hf).
  destruct Hf as (_ & Hok & _). apply Hok. vm_compute. discriminate.
Defined.

(** An endpoint of 44.1 kHz answers 48 kHz to every rate of that family. *)
Lemma counter_can_exceed_limit :
  let caps := mkCapabilities 44100 24 None 2 [PcmS24le] None false false in
  let fp := mkFormatPropose "s" PcmS24le 96000 2 Stereo 24 None in
  let c := mkFormatCounter "s" PcmS24le 48000 2 Stereo 24 None in
  negotiate_format caps fp = MFormatCounter c ∧ pcm_max_rate caps < fc_sample_rate c ∧
  negotiate_format caps (propose_counter c) = MFormatCounter c.
Proof. by vm_compute. Qed.
