(* ===== verification/EndpointTransport.v ===== *)
(** * The endpoint's transport

    Models [crates/oaat-endpoint/src/transport.rs] (the control session of
    one connection, the clock and audio datagram loops) and
    [crates/oaat-endpoint/src/session.rs] (the stand-alone handshake state).

    The control session is a [tokio::select!] loop over three sources.  One
    turn of it is [session_step]: the input says which source fired, the
    outputs are the messages written to the controller and the events sent to
    the application, in order.  A failing socket ends the session with its
    error and is the input [ReadError]; writes are taken to succeed. *)

From S2P Require Import Prelude Format Session Wire Message Codec Fec Float Clock Sync Negotiate.

Local Open Scope Z_scope.

Definition PROTOCOL_VERSION : Z := 1.
Definition MAX_AUDIO_PAYLOAD : Z := 8192.

Inductive PlaybackCommand :=
| CmdPlay (stream_id : string)
| CmdPause (stream_id : string)
| CmdStop (stream_id : string)
| CmdSeek (stream_id : string) (position_ms : Z).

Inductive VolumeCommand := VolSet (level : Z) | VolGet | VolMute (muted : bool).

Inductive EndpointEvent :=
| EvConnected (controller_id controller_name : string)
| EvFormatProposed (fp : FormatPropose)
| EvFormatAccepted (stream_id : string)
| EvFormatRejected (stream_id reason : string)
| EvAudioPacket (header : AudioPacketHeader) (payload : list Z)
| EvPlayback (cmd : PlaybackCommand)
| EvMetadata (m : Metadata)
| EvVolume (cmd : VolumeCommand)
| EvNextTrackReady (stream_id : string)
| EvNextTrackReformat (stream_id : string) (fmt : AudioFormat) (rate : Z)
| EvZoneAssigned (zone_id : string)
| EvZoneUpdated (zone_id : string) (endpoint_ids : list string)
| EvZoneReleased (zone_id : string)
| EvDisconnected
| EvError (e : OaatError).

(** What one turn of the session does: frames written to the controller and
    events sent to the application. *)
Inductive Output := Write (m : Message) | Event (e : EndpointEvent).

Definition written (outs : list Output) : list Message :=
  omap (λ o, match o with Write m => Some m | Event _ => None end) outs.

Record EndpointConfig := mkEndpointConfig {
  cfg_endpoint_id : string;
  cfg_endpoint_name : string;
  cfg_capabilities : EndpointCapabilities;
  cfg_audio_port : Z;
  cfg_clock_port : Z;
  cfg_buffer_size_ms : Z;
  cfg_defer_format_accept : bool
}.

(** The local variables of [EndpointSession::run] after the handshake. *)
Record SessionVars := mkSession {
  es_codec : FrameCodec;
  current_format : option AudioFormat;
  current_sample_rate : option Z;
  pending_accept : option (string * Message * Z);
  controller_handles_release : bool;
  controller_clock_port : option Z
}.

Inductive SessionPhase :=
| WaitHello (codec : FrameCodec)
| Running (s : SessionVars)
| Ended (r : result unit OaatError).

Inductive Input :=
| TcpRead (data : list Z) (now : Z)
| ReadError (e : OaatError)
| Control (m : Message)
| AcceptTimer (now : Z).

Definition FIVE_SECONDS : Z := 5000000000.

Section session.
Context `{JsonCodec}.
Variable cfg : EndpointConfig.

Definition hello_ack : Message :=
  MHelloAck (mkHelloAck PROTOCOL_VERSION (cfg_endpoint_id cfg) (cfg_endpoint_name cfg)
               (cfg_capabilities cfg) (cfg_audio_port cfg) (cfg_clock_port cfg)
               (cfg_buffer_size_ms cfg) [FEATURE_ENDPOINT_RELEASE]).

(** Phase 1: one read while the session waits for Hello; only one message is
    taken out of the codec per read. *)
Definition wait_hello_read (codec : FrameCodec) (data : list Z) : SessionPhase * list Output :=
  if bool_decide (data = []) then (Ended (Ok tt), [Event EvDisconnected])
  else
    match decode_next (feed codec data) with
    | (Err e, _) => (Ended (Err e), [])
    | (Ok (Some (MHello hello)), codec) =>
        if negb (hello_protocol_version hello =? PROTOCOL_VERSION) then
          (Ended (Err (VersionMismatch PROTOCOL_VERSION (hello_protocol_version hello))), [])
        else
          (Running {| es_codec := codec;
                      current_format := None;
                      current_sample_rate := None;
                      pending_accept := None;
                      controller_handles_release :=
                        existsb (String.eqb FEATURE_ENDPOINT_RELEASE) (hello_features hello);
                      controller_clock_port :=
                        if negb (hello_clock_port hello =? 0) then Some (hello_clock_port hello) else None |},
           [Event (EvConnected (controller_id hello) (controller_name hello)); Write hello_ack])
    | (Ok _, codec) => (WaitHello codec, [])
    end.

Definition set_format (s : SessionVars) (f : AudioFormat) (rate : Z) : SessionVars :=
  mkSession (es_codec s) (Some f) (Some rate) (pending_accept s) (controller_handles_release s)
    (controller_clock_port s).

Definition set_pending (s : SessionVars) (p : option (string * Message * Z)) : SessionVars :=
  mkSession (es_codec s) (current_format s) (current_sample_rate s) p (controller_handles_release s)
    (controller_clock_port s).

Definition set_codec (s : SessionVars) (c : FrameCodec) : SessionVars :=
  mkSession c (current_format s) (current_sample_rate s) (pending_accept s) (controller_handles_release s)
    (controller_clock_port s).

(** The body of [Message::FormatPropose(fp) => ..]. *)
Definition on_format_propose (s : SessionVars) (fp : FormatPropose) (now : Z) : SessionVars * list Output :=
  let response := negotiate_format (cfg_capabilities cfg) fp in
  let deferred := cfg_defer_format_accept cfg && match response with MFormatAccept _ => true | _ => false end in
  let w := if deferred then [] else [Write response] in
  let '(s, ev) :=
    match response with
    | MFormatAccept _ =>
        (set_format s (fp_format fp) (fp_sample_rate fp), [Event (EvFormatAccepted (fp_stream_id fp))])
    | MFormatReject r => (s, [Event (EvFormatRejected (fp_stream_id fp) (fr_reason r))])
    | _ => (s, [])
    end in
  let s := if deferred then set_pending s (Some (fp_stream_id fp, response, now + FIVE_SECONDS)) else s in
  (s, w ++ ev ++ [Event (EvFormatProposed fp)]).

(** The body of [Message::NextTrackPrepare(ntp) => ..]. *)
Definition on_next_track (s : SessionVars) (ntp : NextTrackPrepare) : SessionVars * list Output :=
  let same_format := bool_decide (current_format s = Some (np_format ntp)) &&
                     bool_decide (current_sample_rate s = Some (np_sample_rate ntp)) in
  if same_format then
    (s, [Write (MNextTrackReady (mkNextTrackReady (np_stream_id ntp)));
         Event (EvNextTrackReady (np_stream_id ntp))])
  else
    (set_format s (np_format ntp) (np_sample_rate ntp),
     [Write (MNextTrackReformat (mkNextTrackReformat (np_stream_id ntp) (np_format ntp) (np_sample_rate ntp)));
      Event (EvNextTrackReformat (np_stream_id ntp) (np_format ntp) (np_sample_rate ntp))]).

(** One message of the controller. *)
Definition on_message (s : SessionVars) (msg : Message) (now : Z) : SessionVars * list Output :=
  match msg with
  | MFormatPropose fp => on_format_propose s fp now
  | MNextTrackPrepare ntp => on_next_track s ntp
  | MPlay p => (s, [Event (EvPlayback (CmdPlay (play_stream_id p)))])
  | MPause p => (s, [Event (EvPlayback (CmdPause (pause_stream_id p)))])
  | MStop p => (s, [Event (EvPlayback (CmdStop (stop_stream_id p)))])
  | MSeek k => (s, [Event (EvPlayback (CmdSeek (seek_stream_id k) (position_ms k)))])
  | MMetadata m => (s, [Event (EvMetadata m)])
  | MVolumeSet v => (s, [Event (EvVolume (VolSet (vs_level v)))])
  | MVolumeGet => (s, [Event (EvVolume VolGet)])
  | MMute m => (s, [Event (EvVolume (VolMute (mute_muted m)))])
  | MZoneAssign za =>
      (s, [Write (MZoneAck (mkZoneAck (za_zone_id za) (za_endpoint_id za) true None));
           Event (EvZoneAssigned (za_zone_id za))])
  | MZoneUpdate zu => (s, [Event (EvZoneUpdated (zu_zone_id zu) (zu_endpoint_ids zu))])
  | MZoneRelease zr => (s, [Event (EvZoneReleased (zr_zone_id zr))])
  | _ => (s, [])
  end.

Fixpoint on_messages (s : SessionVars) (msgs : list Message) (now : Z) : SessionVars * list Output :=
  match msgs with
  | [] => (s, [])
  | m :: msgs =>
      let '(s, o) := on_message s m now in
      let '(s, os) := on_messages s msgs now in (s, o ++ os)
  end.

(** The read arm: [while let Some(msg) = codec.decode_next()? { .. }]. *)
Definition on_read (s : SessionVars) (data : list Z) (now : Z) : SessionPhase * list Output :=
  if bool_decide (data = []) then (Ended (Ok tt), [Event EvDisconnected])
  else
    let '(msgs, r) := decode_all (feed (es_codec s) data) in
    let '(s, outs) := on_messages s msgs now in
    match r with
    | Ok codec => (Running (set_codec s codec), outs)
    | Err e => (Ended (Err e), outs)
    end.

(** The control arm: a message of the application. *)
Definition on_control (s : SessionVars) (msg : Message) : SessionVars * list Output :=
  match msg with
  | MEndpointRelease _ =>
      (set_pending s None, if controller_handles_release s then [Write msg] else [])
  | _ =>
      let resolves_pending :=
        match pending_accept s, msg with
        | Some (sid, _, _), MFormatAccept a => String.eqb (fa_stream_id a) sid
        | Some (sid, _, _), MFormatReject r => String.eqb (fr_stream_id r) sid
        | _, _ => false
        end in
      if resolves_pending then (set_pending s None, [Write msg])
      else match pending_accept s with
           | Some _ => (s, [])
           | None => (s, [Write msg])
           end
  end.

(** The timer arm, enabled by [pending_accept.is_some()] once its deadline has
    passed. *)
Definition on_accept_timer (s : SessionVars) (now : Z) : option (SessionVars * list Output) :=
  match pending_accept s with
  | Some (_, auto, deadline) =>
      if deadline <=? now then Some (set_pending s None, [Write auto]) else None
  | None => None
  end.

(** One turn; [None] when the source of the input is not polled in this
    phase: the application's channel before the handshake, the timer unless
    an accept is pending and due, anything once the session has ended. *)
Definition session_step (p : SessionPhase) (i : Input) : option (SessionPhase * list Output) :=
  match p, i with
  | WaitHello codec, TcpRead data _ => Some (wait_hello_read codec data)
  | WaitHello _, ReadError e | Running _, ReadError e => Some (Ended (Err e), [])
  | Running s, TcpRead data now => Some (on_read s data now)
  | Running s, Control m => let '(s, o) := on_control s m in Some (Running s, o)
  | Running s, AcceptTimer now =>
      match on_accept_timer s now with Some (s, o) => Some (Running s, o) | None => None end
  | _, _ => None
  end.

Definition session_start : SessionPhase := WaitHello FrameCodec_new.

(** The runs of [EndpointSession::run]: the inputs taken so far, with the
    outputs of each turn, and the phase reached. *)
Inductive session_reach : list (Input * list Output) → SessionPhase → Prop :=
| reach_start : session_reach [] session_start
| reach_step tr p i p' o :
    session_reach tr p → session_step p i = Some (p', o) → session_reach (tr ++ [(i, o)]) p'.

(** ** The datagram loops *)

(** One datagram on the clock socket: the answer, and the shared clock. *)
Definition clock_sync_recv (clock : SharedClock) (n : Z) (buf : list Z) (t2 t3 t4 : Z)
  : option (list Z) * SharedClock :=
  if n <? Z.of_nat CLOCK_SYNC_SIZE then (None, clock)
  else
    match clock_decode buf with
    | Err _ => (None, clock)
    | Ok pkt =>
        match cs_kind pkt with
        | Request =>
            (Some (clock_encode (mkClockSync 1 Response (cs_sequence pkt) (cs_t1 pkt) t2 t3)), clock)
        | Response =>
            if 1000000000 <? u64_saturating_sub t4 (cs_t1 pkt) then (None, clock)
            else (None, shared_update clock (cs_t1 pkt) (cs_t2 pkt) (cs_t3 pkt) t4)
        end
    end.

(** The sender half: the request sent, the next sequence number, and the
    delay before the next one. *)
Definition clock_sync_send (clock : SharedClock) (sequence t1 : Z) : list Z * Z * Z :=
  (clock_encode (mkClockSync 1 Request sequence t1 0 0), wrapping_add 16 sequence 1,
   shared_suggested_interval_ms clock).

(** One datagram on the audio socket, cut to the receive buffer: what is
    delivered to the application, the FEC receiver and the shared clock. *)
Definition audio_recv (fec_rx : FecReceiver) (clock : SharedClock) (datagram : list Z)
  : outcome (list EndpointEvent * FecReceiver * SharedClock) :=
  let buf := take (AUDIO_HEADER_SIZE + Z.to_nat MAX_AUDIO_PAYLOAD) datagram in
  if (length buf <? AUDIO_HEADER_SIZE)%nat then Ret ([], fec_rx, clock)
  else
    match header_decode (take AUDIO_HEADER_SIZE buf) with
    | Err _ => Ret ([], fec_rx, clock)
    | Ok header =>
        if negb (len buf - Z.of_nat AUDIO_HEADER_SIZE =? payload_len header) then Ret ([], fec_rx, clock)
        else
          (let! (deliverable, fec_rx) := receiver_feed fec_rx header (drop AUDIO_HEADER_SIZE buf) in
           let '(deliverable, fec_rx) :=
             if flags_contains (flags header) LAST_PACKET then
               let '(tail, fec_rx) := receiver_flush fec_rx in (deliverable ++ tail, fec_rx)
             else (deliverable, fec_rx) in
           Ret ((λ p : FecPacket, EvAudioPacket p.1 p.2) <$> deliverable, fec_rx,
                set_link_stats clock (lost fec_rx) (recovered fec_rx)))%oaat
    end.

(** ** Lemmas *)

(** Every turn of the session keeps the pending accept well formed, and does
    not change what the controller announced. *)
Definition pending_ok (s : SessionVars) : Prop :=
  match pending_accept s with
  | Some (sid, m, _) => m = MFormatAccept (mkFormatAccept sid)
  | None => True
  end.

(** A message of the controller makes the endpoint write an accept only when
    accepts are not deferred. *)
Lemma on_message_spec s m now s' o :
  on_message s m now = (s', o) → pending_ok s →
  pending_ok s' ∧ controller_handles_release s' = controller_handles_release s ∧
  (∀ r, MEndpointRelease r ∉ written o) ∧
  (cfg_defer_format_accept cfg = true → ∀ a, MFormatAccept a ∉ written o).
Proof.
  intros Hm Hp. destruct m; simplify_eq/=; try (split_and!; [done|done|set_solver|set_solver]).
  - unfold on_format_propose in Hm. pose proof (negotiate_format_answer (cfg_capabilities cfg) m) as Hd.
    destruct (negotiate_format _ m) eqn:En; try done; rewrite ?andb_false_r, ?andb_true_r in Hm; simplify_eq/=;
      try (split_and!; [done|done|set_solver|set_solver]).
    destruct (cfg_defer_format_accept cfg) eqn:Ed; simplify_eq/=; split_and!; try done; set_solver.
  - unfold on_next_track in Hm. destruct (_ && _); simplify_eq/=; split_and!; try done; set_solver.
Qed.

Lemma written_app o1 o2 : written (o1 ++ o2) = written o1 ++ written o2.
Proof. unfold written. by rewrite omap_app. Qed.

Lemma on_messages_spec s ms now s' o :
  on_messages s ms now = (s', o) → pending_ok s →
  pending_ok s' ∧ controller_handles_release s' = controller_handles_release s ∧
  (∀ r, MEndpointRelease r ∉ written o) ∧
  (cfg_defer_format_accept cfg = true → ∀ a, MFormatAccept a ∉ written o).
Proof.
  revert s s' o. induction ms as [|m ms IH]; intros s s' o Hm Hp; simpl in Hm.
  { simplify_eq. split_and!; try done; set_solver. }
  destruct (on_message s m now) as [s1 o1] eqn:E1, (on_messages s1 ms now) as [s2 o2] eqn:E2.
  simplify_eq. destruct (on_message_spec _ _ _ _ _ E1 Hp) as (Hp1 & Hr1 & Hw1 & Ha1).
  destruct (IH _ _ _ E2 Hp1) as (Hp2 & Hr2 & Hw2 & Ha2). rewrite written_app.
  split_and!; [done|congruence|set_solver|]. intros Hd a. specialize (Ha1 Hd a). specialize (Ha2 Hd a).
  set_solver.
Qed.

(** Why a turn may write a given message. *)
Definition release_justified (p : SessionPhase) (i : Input) (r : EndpointRelease) : Prop :=
  ∃ s, p = Running s ∧ i = Control (MEndpointRelease r) ∧ controller_handles_release s = true.

Definition accept_justified (p : SessionPhase) (i : Input) (a : FormatAccept) : Prop :=
  i = Control (MFormatAccept a) ∨
  ∃ s deadline now, p = Running s ∧ i = AcceptTimer now ∧ deadline ≤ now ∧
    pending_accept s = Some (fa_stream_id a, MFormatAccept a, deadline).

Definition phase_ok (p : SessionPhase) : Prop :=
  match p with Running s => pending_ok s | _ => True end.

Lemma on_control_spec s m s' o :
  on_control s m = (s', o) → pending_ok s →
  pending_ok s' ∧ (∀ m', m' ∈ written o → m' = m) ∧
  (∀ r, MEndpointRelease r ∈ written o → controller_handles_release s = true).
Proof.
  intros Hc Hp. unfold on_control in Hc.
  destruct m; repeat case_match; simplify_eq/=; split_and!; try done; set_solver.
Qed.

Lemma session_step_spec p i p' o :
  session_step p i = Some (p', o) → phase_ok p →
  phase_ok p' ∧
  (∀ r, MEndpointRelease r ∈ written o → release_justified p i r) ∧
  (cfg_defer_format_accept cfg = true → ∀ a, MFormatAccept a ∈ written o → accept_justified p i a).
Proof.
  intros Hs Hp. destruct p as [codec|s|r], i as [data now|e|m|now]; simplify_eq/=;
    try (split_and!; [done|set_solver|set_solver]).
  - unfold wait_hello_read in Hs. case_bool_decide; simplify_eq; [split_and!; [done|set_solver|set_solver]|].
    destruct (decode_next _) as [[[[]|]|] ?]; simplify_eq/=; try (split_and!; [done|set_solver|set_solver]).
    destruct (_ =? _); simplify_eq/=; split_and!; try done; set_solver.
  - unfold on_read in Hs. case_bool_decide; simplify_eq; [split_and!; [done|set_solver|set_solver]|].
    destruct (decode_all _) as [msgs r], (on_messages s msgs now) as [s1 o1] eqn:E.
    destruct (on_messages_spec _ _ _ _ _ E Hp) as (Hp1 & _ & Hw & Ha).
    destruct r; simplify_eq/=; split_and!; try done; try (intros; exfalso; by eapply Hw);
      intros Hd a' Hin; by destruct (Ha Hd a').
  - destruct (on_control s m) as [s1 o1] eqn:E. simplify_eq.
    destruct (on_control_spec _ _ _ _ E Hp) as (Hp1 & Hm & Hr). split_and!; [done| |].
    + intros r Hin. pose proof (Hm _ Hin) as <-. exists s. eauto.
    + intros _ a Hin. left. by rewrite (Hm _ Hin).
  - unfold on_accept_timer in Hs. unfold pending_ok in Hp.
    destruct (pending_accept s) as [[[sid m] d]|] eqn:Epa; [|done].
    destruct (Z.leb_spec d now); [|done]. simplify_eq/=. split_and!; [done|set_solver|].
    intros _ a Hin. apply list_elem_of_singleton in Hin as [= ->]. right. exists s, d, now. auto.
Qed.

Lemma session_reach_ok tr p : session_reach tr p → phase_ok p.
Proof.
  induction 1 as [|tr p i p' o _ IH Hs]; [done|]. by destruct (session_step_spec _ _ _ _ Hs IH).
Qed.

End session.

(** ** Properties *)

(** C14 With deferred accepts, the controller hears [FormatAccept] for a stream
    only on the application's own confirmation, or when the five seconds
    granted to a pending accept of that very stream have passed. *)
Theorem accept_only_when_device_ready `{JsonCodec} cfg tr p i p' o a :
  cfg_defer_format_accept cfg = true →
  session_reach cfg tr p → session_step cfg p i = Some (p', o) →
  MFormatAccept a ∈ written o → accept_justified p i a.
Proof.
  intros Hd Hreach Hs Ha. pose proof (session_reach_ok cfg _ _ Hreach) as Hok.
  destruct (session_step_spec cfg _ _ _ _ Hs Hok) as (_ & _ & Hacc). by apply Hacc.
Qed.

(** An endpoint releases its output only towards a controller whose Hello
    announced that it handles [endpoint_release]; the message is otherwise
    never written, whatever the application does. *)
Theorem release_only_if_announced `{JsonCodec} cfg tr p i p' o r :
  session_reach cfg tr p → session_step cfg p i = Some (p', o) →
  MEndpointRelease r ∈ written o → release_justified p i r.
Proof.
  intros Hreach Hs Hr. pose proof (session_reach_ok cfg _ _ Hreach) as Hok.
  destruct (session_step_spec cfg _ _ _ _ Hs Hok) as (_ & Hrel & _). by apply Hrel.
Qed.

(** ** Witnesses

    A JSON codec that knows one Hello and one proposal. *)

Definition demo_hello : Hello := mkHello 1 "ctl" "Controller" 9742 ["endpoint_release"%string].
Definition demo_proposal : FormatPropose := mkFormatPropose "s1" PcmS24le 96000 2 Stereo 24 None.

Definition demo_json : JsonCodec := {|
  to_vec m := match m with MHello _ => [1] | MFormatPropose _ => [2] | _ => [0] end;
  from_slice l :=
    match l with
    | [1] => Ok (MHello demo_hello)
    | [2] => Ok (MFormatPropose demo_proposal)
    | _ => Err "expected value"%string
    end
|}.

Definition demo_cfg : EndpointConfig := mkEndpointConfig "ep" "Endpoint" demo_caps 9741 9742 500 true.

(** Hello, then the proposal: the accept is pending until 5 s after it. *)
Definition demo_phase : SessionPhase :=
  Running (mkSession (mkCodec []) (Some PcmS24le) (Some 96000)
             (Some ("s1"%string, MFormatAccept (mkFormatAccept "s1"), 5000000007)) true (Some 9742)).

Definition demo_trace : list (Input * list Output) :=
  [ (TcpRead [0; 0; 0; 1; 1] 3,
     [Event (EvConnected "ctl" "Controller"); Write (hello_ack demo_cfg)]);
    (TcpRead [0; 0; 0; 1; 2] 7,
     [Event (EvFormatAccepted "s1"); Event (EvFormatProposed demo_proposal)]) ].

Lemma demo_reach : @session_reach demo_json demo_cfg demo_trace demo_phase.
Proof.
  apply (@reach_step demo_json demo_cfg [(TcpRead [0; 0; 0; 1; 1] 3,
     [Event (EvConnected "ctl" "Controller"); Write (hello_ack demo_cfg)])]
    (Running (mkSession (mkCodec []) None None None true (Some 9742)))); [|by vm_compute].
  apply (@reach_step demo_json demo_cfg [] session_start); [constructor|by vm_compute].
Qed.

Lemma accept_only_when_device_ready_witness :
  accept_justified demo_phase (AcceptTimer 6000000000) (mkFormatAccept "s1").
Proof.
  eapply (@accept_only_when_device_ready demo_json demo_cfg);
    [reflexivity|exact demo_reach|vm_compute; reflexivity|].
  simpl. set_solver.
Defined.

Lemma release_only_if_announced_witness :
  release_justified demo_phase (Control (MEndpointRelease (mkEndpointRelease "s1" LocalSource)))
    (mkEndpointRelease "s1" LocalSource).
Proof.
  eapply (@release_only_if_announced demo_json demo_cfg);
    [exact demo_reach|vm_compute; reflexivity|].
  simpl. set_solver.
Defined.

(** ** Datagrams *)

(** A response older than a second, or of another version, or a short
    datagram, never reaches the clock estimate. *)
Lemma stale_response_ignored clock p t2 t3 t4 :
  clock_wf p → cs_kind p = Response → 1000000000 < t4 - cs_t1 p →
  clock_sync_recv clock 28 (clock_encode p) t2 t3 t4 = (None, clock).
Proof.
  intros Hwf Hk Hold. unfold clock_sync_recv. rewrite clock_decode_encode by done. simpl.
  destruct (_ =? _); [|done]. simpl. rewrite Hk. unfold u64_saturating_sub.
  by rewrite (proj2 (Z.ltb_lt _ _)) by lia.
Qed.

(** The endpoint's clock estimate only ever moves on a complete response
    that is at most a second old, and then exactly by the four timestamps of
    that exchange; requests are answered and leave it unchanged, and the
    published atomics follow the estimate. *)
Theorem clock_sync_recv_sound clock n buf t2 t3 t4 r clock' :
  published clock → clock_sync_recv clock n buf t2 t3 t4 = (r, clock') →
  published clock' ∧
  (clock' = clock ∨
   ∃ pkt, clock_decode buf = Ok pkt ∧ cs_kind pkt = Response ∧ Z.of_nat CLOCK_SYNC_SIZE ≤ n ∧
     t4 - cs_t1 pkt ≤ 1000000000 ∧ r = None ∧
     sc_state clock' = clock_update (sc_state clock) (cs_t1 pkt) (cs_t2 pkt) (cs_t3 pkt) t4 ∧
     link_stats clock' = link_stats clock).
Proof.
  intros Hp Hr. unfold clock_sync_recv in Hr.
  destruct (Z.ltb_spec n (Z.of_nat CLOCK_SYNC_SIZE)); [simplify_eq; auto|].
  destruct (clock_decode buf) as [pkt|] eqn:Ed; [|simplify_eq; auto].
  destruct (cs_kind pkt) eqn:Ek; [simplify_eq; auto|].
  destruct (Z.ltb_spec 1000000000 (u64_saturating_sub t4 (cs_t1 pkt))) as [?|Hle]; [simplify_eq; auto|].
  simplify_eq. split; [apply published_update|]. right. exists pkt.
  unfold u64_saturating_sub in Hle. split_and!; try done. lia.
Qed.

Definition demo_response : list Z := clock_encode (mkClockSync 1 Response 3 1000 5000 6000).

Lemma clock_sync_recv_sound_witness :
  let clock' := shared_update SharedClock_new 1000 5000 6000 9000 in
  published clock' ∧
  (clock' = SharedClock_new ∨
   ∃ pkt, clock_decode demo_response = Ok pkt ∧ cs_kind pkt = Response ∧ Z.of_nat CLOCK_SYNC_SIZE ≤ 28 ∧
     9000 - cs_t1 pkt ≤ 1000000000 ∧ @None (list Z) = None ∧
     sc_state clock' = clock_update (sc_state SharedClock_new) (cs_t1 pkt) (cs_t2 pkt) (cs_t3 pkt) 9000 ∧
     link_stats clock' = link_stats SharedClock_new).
Proof.
  refine (clock_sync_recv_sound SharedClock_new 28 demo_response 0 0 9000 None _ published_new _).
  vm_compute. reflexivity.
Defined.

(** An audio datagram shorter than a header, of another version, or whose
    length is not the announced one, is dropped without a trace. *)
Lemma audio_recv_drops fec clock datagram :
  (length datagram < AUDIO_HEADER_SIZE)%nat ∨
  is_ok (header_decode (take AUDIO_HEADER_SIZE datagram)) = false →
  audio_recv fec clock datagram = Ret ([], fec, clock).
Proof.
  intros Hd. unfold audio_recv.
  destruct (Nat.ltb_spec (length (take (AUDIO_HEADER_SIZE + Z.to_nat MAX_AUDIO_PAYLOAD) datagram)) AUDIO_HEADER_SIZE)
    as [?|Hge]; [done|].
  rewrite take_take, Nat.min_l by lia. rewrite length_take in Hge.
  destruct Hd as [?|Hd]; [lia|]. by destruct (header_decode _).
Qed.

(** The sender's datagram of a packet, as the endpoint receives it. *)
Lemma audio_recv_datagram fec clock h p :
  header_wf h → version h = 1 → len p = payload_len h → len p ≤ MAX_AUDIO_PAYLOAD →
  audio_recv fec clock (header_encode h ++ p) =
    outcome_bind (receiver_feed fec h p) (λ '(out, fec'),
      let '(out, fec') :=
        if flags_contains (flags h) LAST_PACKET then
          let '(tail, fec') := receiver_flush fec' in (out ++ tail, fec')
        else (out, fec') in
      Ret ((λ q : FecPacket, EvAudioPacket q.1 q.2) <$> out, fec',
           set_link_stats clock (lost fec') (recovered fec'))).
Proof.
  intros Hwf Hv Hl Hmax. unfold audio_recv.
  assert (length (header_encode h) = AUDIO_HEADER_SIZE) as Hhl by apply header_encode_length.
  rewrite (take_ge (header_encode h ++ p)).
  2:{ rewrite length_app, Hhl. unfold len, MAX_AUDIO_PAYLOAD in *. lia. }
  rewrite (take_app_length' (header_encode h)), (drop_app_length' (header_encode h)) by done.
  rewrite header_decode_encode, Hv by done. cbn [Z.modulo Z.eqb].
  destruct (Nat.ltb_spec (length (header_encode h ++ p)) AUDIO_HEADER_SIZE) as [Hlt|_].
  { rewrite length_app in Hlt. lia. }
  replace (1 mod 16 =? CURRENT_VERSION) with true by done. cbn [payload_len].
  assert (len (header_encode h ++ p) - Z.of_nat AUDIO_HEADER_SIZE = payload_len h) as ->.
  { rewrite len_app. unfold len at 1. rewrite Hhl. lia. }
  rewrite Z.eqb_refl. simpl negb. cbv iota. cbn [flags].
  destruct h; simpl in Hv; subst. reflexivity.
Qed.

Lemma audio_recv_packet fec clock h p :
  header_wf h → version h = 1 → len p = payload_len h → len p ≤ MAX_AUDIO_PAYLOAD →
  flags_contains (flags h) LAST_PACKET = false →
  audio_recv fec clock (header_encode h ++ p) =
    outcome_bind (receiver_feed fec h p) (λ '(out, fec'),
      Ret ((λ q : FecPacket, EvAudioPacket q.1 q.2) <$> out, fec',
           set_link_stats clock (lost fec') (recovered fec'))).
Proof. intros Hwf Hv Hl Hmax Hlast. rewrite audio_recv_datagram by done. by rewrite Hlast. Qed.

(** A datagram longer than the receive buffer is cut, so its length is not
    the announced one. *)
Lemma audio_recv_too_long fec clock h p :
  header_wf h → version h = 1 → len p = payload_len h → MAX_AUDIO_PAYLOAD < len p →
  audio_recv fec clock (header_encode h ++ p) = Ret ([], fec, clock).
Proof.
  intros Hwf Hv Hl Hmax. unfold audio_recv.
  assert (length (header_encode h) = AUDIO_HEADER_SIZE) as Hhl by apply header_encode_length.
  assert (length (take (AUDIO_HEADER_SIZE + Z.to_nat MAX_AUDIO_PAYLOAD) (header_encode h ++ p)) =
          AUDIO_HEADER_SIZE + Z.to_nat MAX_AUDIO_PAYLOAD)%nat as Hcut.
  { rewrite length_take, length_app, Hhl. unfold len, MAX_AUDIO_PAYLOAD in *. lia. }
  rewrite Hcut. destruct (Nat.ltb_spec (AUDIO_HEADER_SIZE + Z.to_nat MAX_AUDIO_PAYLOAD) AUDIO_HEADER_SIZE); [lia|].
  rewrite take_take, Nat.min_l, take_app_length' by (done || lia).
  rewrite header_decode_encode, Hv by done.
  replace (1 mod 16 =? CURRENT_VERSION) with true by done. cbn [payload_len].
  unfold len at 1. rewrite Hcut. rewrite (proj2 (Z.eqb_neq _ _)); [done|].
  unfold MAX_AUDIO_PAYLOAD in *. lia.
Qed.

(** ** [EndpointSession] of session.rs *)

Record EndpointSession := mkEndpointSession {
  se_state : SessionState;
  se_endpoint_id : string;
  se_endpoint_name : string;
  se_controller_id : option string;
  se_stream_id : option string
}.

Definition EndpointSession_new (id name : string) : EndpointSession :=
  mkEndpointSession Discovery id name None None.

Definition with_state (s : EndpointSession) (st : SessionState) : EndpointSession :=
  mkEndpointSession st (se_endpoint_id s) (se_endpoint_name s) (se_controller_id s) (se_stream_id s).

Definition session_transition (s : EndpointSession) (next : SessionState)
  : result unit OaatError * EndpointSession :=
  match transition (se_state s) next with
  | Ok st => (Ok tt, with_state s st)
  | Err e => (Err e, s)
  end.

Definition handle_hello (s : EndpointSession) (msg : Message) (caps : EndpointCapabilities)
    (audio_port clock_port buffer_ms : Z) : result Message OaatError * EndpointSession :=
  match msg with
  | MHello hello =>
      if negb (hello_protocol_version hello =? PROTOCOL_VERSION) then
        (Err (VersionMismatch PROTOCOL_VERSION (hello_protocol_version hello)), s)
      else
        let s := mkEndpointSession (se_state s) (se_endpoint_id s) (se_endpoint_name s)
                   (Some (controller_id hello)) (se_stream_id s) in
        match session_transition s Handshake with
        | (Err e, s) => (Err e, s)
        | (Ok _, s) =>
            let ack := MHelloAck (mkHelloAck PROTOCOL_VERSION (se_endpoint_id s) (se_endpoint_name s)
                                    caps audio_port clock_port buffer_ms [FEATURE_ENDPOINT_RELEASE]) in
            match session_transition s Idle with
            | (Err e, s) => (Err e, s)
            | (Ok _, s) => (Ok ack, s)
            end
        end
  | _ => (Err (InvalidStateTransition (se_state s) Handshake), s)
  end.

(** The handshake succeeds exactly on a Hello of the right version in the
    state [Discovery]; it then ends in [Idle] with the controller recorded,
    and its error otherwise leaves the state where it was. *)
Theorem handle_hello_spec s msg caps ap cp b :
  let '(r, s') := handle_hello s msg caps ap cp b in
  match r with
  | Ok ack => ∃ hello, msg = MHello hello ∧ hello_protocol_version hello = PROTOCOL_VERSION ∧
      se_state s = Discovery ∧ se_state s' = Idle ∧ se_controller_id s' = Some (controller_id hello) ∧
      ack = MHelloAck (mkHelloAck PROTOCOL_VERSION (se_endpoint_id s) (se_endpoint_name s) caps ap cp b
                         [FEATURE_ENDPOINT_RELEASE])
  | Err e => se_state s' = se_state s ∧
      (∀ hello, msg = MHello hello → hello_protocol_version hello = PROTOCOL_VERSION → se_state s ≠ Discovery)
  end.
Proof.
  unfold handle_hello. destruct msg; try (split; [done|naive_solver]).
  destruct (Z.eqb_spec (hello_protocol_version m) PROTOCOL_VERSION) as [Hv|Hv]; simpl;
    [|split; [done|naive_solver]].
  destruct s as [[] id nm c st]; cbn; try (split; [done|naive_solver]). by exists m.
Qed.
