(* ===== verification/ControllerTransport.v ===== *)
(** * The controller's transport

    Models [crates/oaat-controller/src/transport.rs] and the data of
    [crates/oaat-controller/src/clock.rs]: the connection of a controller to
    one endpoint, up to the reader task it leaves behind ([Reader]).

    The control stream to the endpoint is the list of messages written so
    far, [ep_sent]; writes fail once [ep_writable] is false.  The datagrams
    sent to the audio port are [ep_audio_sent].  What the network delivers
    (bytes read, clock responses) is an argument. *)

From S2P Require Import Prelude Format Session Wire Message Codec Float Clock EndpointTransport.

Local Open Scope Z_scope.

(** An IPv4 or IPv6 address as a number, and a port. *)
Definition SocketAddr : Type := Z * Z.

Record ControllerConfig := mkControllerConfig {
  cc_controller_id : string;
  cc_controller_name : string;
  cc_features : list string;
  cc_clock_port : Z;
  cc_tls : bool
}.

Inductive EndpointResponse :=
| RFormatAccept (m : FormatAccept)
| RFormatCounter (m : FormatCounter)
| RFormatReject (m : FormatReject)
| RNextTrackReady (m : NextTrackReady)
| RNextTrackReformat (m : NextTrackReformat)
| RStreamStats (m : StreamStats).

Record ConnectedEndpoint := mkConnected {
  ep_info : HelloAck;
  ep_sent : list Message;
  ep_writable : bool;
  ep_audio_target : SocketAddr;
  ep_clock_target : SocketAddr;
  ep_audio_sent : list (list Z);
  ep_clock_state : ClockState;
  ep_sequence : Z;
  ep_reader_alive : bool
}.

(** [ConnectedEndpoint::handshake_and_spawn]: the Hello it writes. *)
Definition hello_message (config : ControllerConfig) : Message :=
  MHello (mkHello PROTOCOL_VERSION (cc_controller_id config) (cc_controller_name config)
            (cc_clock_port config) (cc_features config)).

Section transport.
Context `{JsonCodec}.

(** The handshake's read loop, on the chunks the endpoint sends ([[]] when it
    closes): the acknowledgement and the codec, which the reader task goes on
    with.  [None] while it is still waiting. *)
Fixpoint read_hello_ack (codec : FrameCodec) (chunks : list (list Z))
  : option (result (HelloAck * FrameCodec) OaatError) :=
  match chunks with
  | [] => None
  | data :: chunks =>
      if bool_decide (data = []) then
        Some (Err (Io ConnectionReset "endpoint closed during handshake"))
      else
        match decode_next (feed codec data) with
        | (Err e, _) => Some (Err e)
        | (Ok (Some (MHelloAck ack)), codec) => Some (Ok (ack, codec))
        | (Ok _, codec) => read_hello_ack codec chunks
        end
  end.

Definition handshake (config : ControllerConfig) (addr : SocketAddr) (chunks : list (list Z))
  : option (result (ConnectedEndpoint * FrameCodec) OaatError) :=
  match read_hello_ack FrameCodec_new chunks with
  | None => None
  | Some (Err e) => Some (Err e)
  | Some (Ok (ack, codec)) =>
      if negb (ack_protocol_version ack =? PROTOCOL_VERSION) then
        Some (Err (VersionMismatch PROTOCOL_VERSION (ack_protocol_version ack)))
      else
        Some (Ok (mkConnected ack [hello_message config] true
                    (fst addr, ack_audio_port ack) (fst addr, ack_clock_port ack)
                    [] ClockState_new 0 true, codec))
  end.

(** [connect_with_time_source]: [tcp] is what connecting comes to, [None] after
    five seconds, and [tls] the TLS handshake; [addr_text] the printed address. *)
Definition connect_with_time_source (config : ControllerConfig) (addr : SocketAddr) (addr_text : string)
    (tcp : option (result unit OaatError)) (tls : result unit string) (chunks : list (list Z))
  : option (result (ConnectedEndpoint * FrameCodec) OaatError) :=
  match tcp with
  | None => Some (Err (Io TimedOut ("connect timeout (5s) to " ++ addr_text)))
  | Some (Err e) => Some (Err e)
  | Some (Ok _) =>
      if cc_tls config then
        match tls with
        | Err e => Some (Err (Io ConnectionRefused ("TLS handshake failed: " ++ e)))
        | Ok _ => handshake config addr chunks
        end
      else handshake config addr chunks
  end.

(** ** Requests *)

Definition send_message (ep : ConnectedEndpoint) (msg : Message)
  : result unit OaatError * ConnectedEndpoint :=
  if ep_writable ep then
    (Ok tt, mkConnected (ep_info ep) (ep_sent ep ++ [msg]) (ep_writable ep) (ep_audio_target ep)
              (ep_clock_target ep) (ep_audio_sent ep) (ep_clock_state ep) (ep_sequence ep)
              (ep_reader_alive ep))
  else (Err (Io ConnectionReset "broken pipe"), ep).

Definition propose_format (ep : ConnectedEndpoint) (stream_id : string) (fmt : AudioFormat)
    (rate channels : Z) (layout : ChannelLayout) (bits : Z) : result unit OaatError * ConnectedEndpoint :=
  send_message ep (MFormatPropose (mkFormatPropose stream_id fmt rate channels layout bits None)).

(** The bytes of an audio packet: the header, then the payload. *)
Definition audio_datagram (h : AudioPacketHeader) (payload : list Z) : list Z :=
  header_encode h ++ payload.

Definition send_audio (ep : ConnectedEndpoint) (sid : Z) (fmt : AudioFormat) (pts offset : Z)
    (payload : list Z) (fl : Z) : result unit OaatError * ConnectedEndpoint :=
  let h := {| version := CURRENT_VERSION; flags := fl; format := fmt; sequence := ep_sequence ep;
              stream_id := sid; pts_ns := pts; sample_offset := offset;
              payload_len := as_u 16 (len payload);
              fec_group_size := 0; fec_index := 0; fec_len_xor := 0 |} in
  (Ok tt, mkConnected (ep_info ep) (ep_sent ep) (ep_writable ep) (ep_audio_target ep)
            (ep_clock_target ep) (ep_audio_sent ep ++ [audio_datagram h payload]) (ep_clock_state ep)
            (wrapping_add 16 (ep_sequence ep) 1) (ep_reader_alive ep)).

Definition send_play (ep : ConnectedEndpoint) (stream_id : string) :=
  send_message ep (MPlay (mkPlay stream_id)).
Definition send_stop (ep : ConnectedEndpoint) (stream_id : string) :=
  send_message ep (MStop (mkStop stream_id)).
Definition send_metadata (ep : ConnectedEndpoint) (track : TrackMetadata) :=
  send_message ep (MMetadata (mkMetadata track)).
Definition send_volume (ep : ConnectedEndpoint) (level : Z) :=
  send_message ep (MVolumeSet (mkVolumeSet level)).
Definition send_mute (ep : ConnectedEndpoint) (muted : bool) :=
  send_message ep (MMute (mkMute muted)).

Definition prepare_next_track (ep : ConnectedEndpoint) (stream_id : string) (fmt : AudioFormat)
    (rate channels : Z) (layout : ChannelLayout) (bits : Z) : result unit OaatError * ConnectedEndpoint :=
  send_message ep (MNextTrackPrepare (mkNextTrackPrepare stream_id fmt rate channels layout bits)).

(** ** Clock *)

Definition with_clock (ep : ConnectedEndpoint) (c : ClockState) : ConnectedEndpoint :=
  mkConnected (ep_info ep) (ep_sent ep) (ep_writable ep) (ep_audio_target ep) (ep_clock_target ep)
    (ep_audio_sent ep) c (ep_sequence ep) (ep_reader_alive ep).

(** [clock_sync_once]: [t1] and [t4] are the readings of the time source,
    [resp] what [recv] returned (or its error).  The response's sequence
    number, kind and [t1] are not looked at. *)
Definition clock_sync_once (ep : ConnectedEndpoint) (t1 t4 : Z) (resp : result (list Z) OaatError)
  : result (Z * Z) OaatError * ConnectedEndpoint :=
  match resp with
  | Err e => (Err e, ep)
  | Ok resp_buf =>
      match clock_decode resp_buf with
      | Err e => (Err e, ep)
      | Ok response =>
          let c := clock_update (ep_clock_state ep) t1 (cs_t2 response) (cs_t3 response) t4 in
          (Ok (clk_offset_ns c, clk_rtt_ns c), with_clock ep c)
      end
  end.

(** [clock_sync_bootstrap]: the exchanges of the loop [0..10], up to the first
    error. *)
Fixpoint clock_sync_bootstrap (ep : ConnectedEndpoint) (exchanges : list (Z * Z * result (list Z) OaatError))
  : result unit OaatError * ConnectedEndpoint :=
  match exchanges with
  | [] => (Ok tt, ep)
  | (t1, t4, resp) :: exchanges =>
      match clock_sync_once ep t1 t4 resp with
      | (Ok _, ep) => clock_sync_bootstrap ep exchanges
      | (Err e, ep) => (Err e, ep)
      end
  end.

Record ClockMeasurement := mkMeasurement {
  cm_samples : Z;
  cm_bootstrapped : bool;
  cm_offset_ns : Z;
  cm_rtt_ns : Z;
  cm_jitter_ns : Z
}.

Definition clock_measurement (ep : ConnectedEndpoint) : option ClockMeasurement :=
  let s := ep_clock_state ep in
  if 0 <? clk_samples s then
    Some (mkMeasurement (clk_samples s) (clk_is_bootstrapped s) (clk_offset_ns s) (clk_rtt_ns s)
            (f64_round_as_u64 (jitter_ns s)))
  else None.

(** ** Lemmas *)

Lemma send_message_Ok ep msg : ep_writable ep = true → (send_message ep msg).1 = Ok tt.
Proof. unfold send_message. by intros ->. Qed.

(** Whatever is sent, only the log of the control stream grows. *)
Lemma send_message_sent ep msg :
  ep_sent (send_message ep msg).2 = ep_sent ep ++ (if ep_writable ep then [msg] else []).
Proof. unfold send_message. destruct (ep_writable ep); simpl; [done|by rewrite app_nil_r]. Qed.

Lemma send_message_writable ep msg : ep_writable (send_message ep msg).2 = ep_writable ep.
Proof. unfold send_message. by destruct (ep_writable ep) eqn:E. Qed.

Lemma send_message_info ep msg : ep_info (send_message ep msg).2 = ep_info ep.
Proof. unfold send_message. by destruct (ep_writable ep). Qed.

Lemma send_message_audio ep msg : ep_audio_sent (send_message ep msg).2 = ep_audio_sent ep.
Proof. unfold send_message. by destruct (ep_writable ep). Qed.

(** The acknowledgement, however it is cut, is read whole and leaves nothing. *)
Lemma incomplete_waits m p q :
  json_faithful m → len (to_vec m) ≤ MAX_FRAME_SIZE → encode_framed m = p ++ q → q ≠ [] →
  decode_next {| buf := p |} = (Ok None, {| buf := p |}).
Proof.
  intros Hm Hl E Hq. pose proof (decode_next_frame m [] Hm Hl) as Hd. rewrite app_nil_r, E in Hd.
  pose proof (decode_next_feed {| buf := p |} q) as Hf. unfold feed in Hf. cbn [buf] in Hf.
  destruct (decode_next {| buf := p |}) as [[[m'|]|e] [b]] eqn:Ep.
  - rewrite Hd in Hf. injection Hf as _ Hb. cbn in Hb. apply (f_equal length) in Hb. rewrite length_app in Hb. destruct q; cbn in Hb; [done|lia].
  - by rewrite (decode_next_None _ _ Ep).
  - by rewrite Hd in Hf.
Qed.

Lemma read_hello_ack_frame ack codec chunks :
  json_faithful (MHelloAck ack) → len (to_vec (MHelloAck ack)) ≤ MAX_FRAME_SIZE →
  Forall (λ d, d ≠ []) chunks → chunks ≠ [] → buf codec ++ concat chunks = encode_framed (MHelloAck ack) →
  read_hello_ack codec chunks = Some (Ok (ack, FrameCodec_new)).
Proof.
  intros Hj Hl Hne Hch. revert codec. induction Hne as [|d chunks Hd Hne IH]; intros codec E; [done|].
  cbn [read_hello_ack concat] in *. rewrite bool_decide_eq_false_2 by done. rewrite (assoc_L (++)) in E.
  destruct (decide (chunks = [])) as [->|Hc].
  - cbn in E. rewrite app_nil_r in E. replace (feed codec d) with (mkCodec (encode_framed (MHelloAck ack))) by (unfold feed; by rewrite E).
    pose proof (decode_next_frame (MHelloAck ack) [] Hj Hl) as Hdec. rewrite app_nil_r in Hdec. by rewrite Hdec.
  - assert (concat chunks ≠ []) as Hq.
    { destruct chunks as [|d' chunks]; [done|]. apply Forall_cons in Hne as [Hd' _]. cbn. by destruct d'. }
    unfold feed. rewrite (incomplete_waits (MHelloAck ack) _ (concat chunks)) by done. by apply IH.
Qed.

End transport.
