(* ===== verification/Tls.v ===== *)
(** * Certificates

    Models [crates/oaat-core/src/tls.rs]: the certificate an endpoint makes at
    each start, its fingerprint, and the verifier a controller uses.  The
    libraries are arguments: [rcgen]'s and [rustls]'s calls with what they
    answer, and SHA-256 as a function.  Of a TLS 1.3 handshake only is said
    which two questions it asks the verifier. *)

From S2P Require Import Prelude Format Session Wire Message Codec Text Float Clock EndpointTransport ControllerTransport.
From Stdlib Require Import Ascii.

Local Open Scope Z_scope.

(** ** The fingerprint *)

(** [{b:02x}]. *)
Definition nibble_char (d : Z) : ascii := if d <? 10 then digit_char d else ascii_of_nat (87 + Z.to_nat d).
Definition hex_octet (b : Z) : string := String (nibble_char (b / 16)) (String (nibble_char (b mod 16)) EmptyString).

Definition cert_fingerprint (sha256 : list Z → list Z) (cert_der : list Z) : string :=
  String.concat ":" (hex_octet <$> sha256 cert_der).

(** ** The endpoint's certificate *)

Record ServerConfig := mkServerConfig { client_auth : bool; cert_chain : list (list Z); private_key : list Z }.

Section generate.
Variable sha256 : list Z → list Z.

(** [params], [key], [self_signed] and [with_single_cert]: what the library
    calls answer, the key as its PKCS 8 text. *)
Definition generate_self_signed_cert (params : result unit string) (key : result (list Z) string)
    (self_signed : list Z → result (list Z) string) (with_single_cert : ServerConfig → result ServerConfig string)
  : result (ServerConfig * list Z * string) string :=
  (let? _ := params in
   let? key_der := key in
   let? cert_der := self_signed key_der in
   let fingerprint := cert_fingerprint sha256 cert_der in
   let? server_config := with_single_cert (mkServerConfig false [cert_der] key_der) in
   Ok (server_config, cert_der, fingerprint))%oaat.
End generate.

(** ** The controller's verifier *)

Record Verifier := mkVerifier {
  verify_server_cert : list Z → result unit string;
  verify_tls12_signature : list Z → list Z → list Z → result unit string;
  verify_tls13_signature : list Z → list Z → list Z → result unit string
}.

(** Every certificate and every signature is asserted to be good. *)
Definition TofuVerifier : Verifier := mkVerifier (λ _, Ok tt) (λ _ _ _, Ok tt) (λ _ _ _, Ok tt).
Definition make_client_config_tofu : Verifier := TofuVerifier.

(** What a TLS 1.3 client asks of its verifier: the certificate presented, and
    the signature of the handshake so far ([transcript]) under it. *)
Definition tls13_client (v : Verifier) (cert transcript signature : list Z) : result unit string :=
  (let? _ := verify_server_cert v cert in verify_tls13_signature v transcript cert signature)%oaat.

(** ** Specification: reading a fingerprint *)

Fixpoint nibble_index (a : ascii) (n : nat) : Z :=
  match n with O => 0 | S n => if Ascii.eqb a (nibble_char (Z.of_nat n)) then Z.of_nat n else nibble_index a n end.
Definition read_octet (s : string) : option Z :=
  match s with
  | String a (String b EmptyString) => Some (16 * nibble_index a 16 + nibble_index b 16)
  | _ => None
  end.
Definition read_fingerprint (s : string) : option (list Z) := mapM read_octet (split ":" s).

(** ** Lemmas *)

Lemma nibble_spec d : 0 ≤ d < 16 → nibble_index (nibble_char d) 16 = d ∧ Ascii.eqb (nibble_char d) ":" = false.
Proof.
  intros Hd. assert (d ∈ seqZ 0 16) as Hin by (apply elem_of_seqZ; lia).
  assert (Forall (λ d, nibble_index (nibble_char d) 16 = d ∧ Ascii.eqb (nibble_char d) ":" = false) (seqZ 0 16)) as Hall.
  { by apply (bool_decide_unpack _). }
  by eapply (proj1 (Forall_forall _ _) Hall).
Qed.

Lemma hex_octet_read b : is_u8 b → read_octet (hex_octet b) = Some b ∧ char_in ":" (hex_octet b) = false.
Proof.
  intros Hb. unfold in_u in Hb. change (2 ^ 8) with 256 in Hb.
  destruct (nibble_spec (b / 16)) as [H1 H2]; [split; [by apply Z.div_pos; lia|apply Z.div_lt_upper_bound; lia]|].
  destruct (nibble_spec (b mod 16)) as [H3 H4]; [by apply Z.mod_pos_bound|].
  unfold hex_octet, read_octet. split; [|cbn [char_in]; by rewrite H2, H4].
  rewrite H1, H3. f_equal. pose proof (Z.div_mod b 16 ltac:(done)). lia.
Qed.

Lemma read_fingerprint_octets l : Forall is_u8 l → l ≠ [] → read_fingerprint (String.concat ":" (hex_octet <$> l)) = Some l.
Proof.
  intros Hl Hne. unfold read_fingerprint. apply mapM_Some_2. induction Hl as [|b l Hb Hl IH]; [done|].
  destruct (hex_octet_read b Hb) as [Hr Hc]. destruct l as [|c l].
  - cbn [fmap list_fmap String.concat]. rewrite split_nosep by done. by repeat constructor.
  - specialize (IH ltac:(done)). cbn [fmap list_fmap String.concat] in *.
    change (":" ++ ?s)%string with (String ":" s). rewrite split_app by done. by constructor.
Qed.

(** ** Properties *)

(** A fingerprint shows its digest: the thirty-two octets can be read back
    from it, so two certificates have the same fingerprint exactly when they
    have the same digest. *)
Theorem fingerprint_faithful sha256 cert cert' :
  (∀ c, Forall is_u8 (sha256 c) ∧ length (sha256 c) = 32%nat) →
  read_fingerprint (cert_fingerprint sha256 cert) = Some (sha256 cert) ∧
  (cert_fingerprint sha256 cert = cert_fingerprint sha256 cert' ↔ sha256 cert = sha256 cert').
Proof.
  intros Hsha. assert (∀ c, read_fingerprint (cert_fingerprint sha256 c) = Some (sha256 c)) as Hread.
  { intros c. destruct (Hsha c) as [Hb Hlen]. apply read_fingerprint_octets; [done|]. by destruct (sha256 c). }
  split; [apply Hread|]. split; [|unfold cert_fingerprint; by intros ->].
  intros E. pose proof (Hread cert) as H. rewrite E, Hread in H. by injection H.
Qed.

(** TLS here keeps out nobody who is on the network: whatever certificate a
    peer presents, its own, a copy of the endpoint's or bytes that are none, and
    whatever it signs with, the controller connects as it does without TLS and
    notes the fingerprint of what was presented. *)
Theorem tls_authenticates_nobody `{JsonCodec} config addr text tcp chunks cert transcript signature :
  connect_with_time_source config addr text tcp (tls13_client make_client_config_tofu cert transcript signature) chunks =
  connect_with_time_source (mkControllerConfig (cc_controller_id config) (cc_controller_name config) (cc_features config) (cc_clock_port config) false)
    addr text tcp (Err "not used"%string) chunks.
Proof. unfold connect_with_time_source. by destruct tcp as [[]|], config as [? ? ? ? []]. Qed.

(** The endpoint's certificate: made with a fresh key, it is the whole chain,
    clients are not asked for theirs, its fingerprint is the one announced, and
    the first library call that fails is the error. *)
Theorem certificate_made sha256 params key self_signed with_single_cert :
  (∀ c, with_single_cert c = Ok c ∨ ∃ e, with_single_cert c = Err e) →
  match generate_self_signed_cert sha256 params key self_signed with_single_cert with
  | Ok (config, der, fingerprint) =>
      ∃ key_der, key = Ok key_der ∧ self_signed key_der = Ok der ∧ config = mkServerConfig false [der] key_der ∧
      fingerprint = cert_fingerprint sha256 der
  | Err e => params = Err e ∨ key = Err e ∨ (∃ k, self_signed k = Err e) ∨ ∃ c, with_single_cert c = Err e
  end.
Proof.
  intros Hw. unfold generate_self_signed_cert. destruct params as [[]|e]; cbn; [|by left]. destruct key as [k|e]; cbn; [|by right; left].
  destruct (self_signed k) as [der|e] eqn:Es; cbn; [|right; right; left; by exists k].
  destruct (Hw (mkServerConfig false [der] k)) as [E|[e E]]; rewrite E; cbn.
  - by exists k.
  - right; right; right. by eexists.
Qed.

(** A fingerprint as it is printed. *)
Example fingerprint_text : cert_fingerprint (λ c, c) [171; 205; 7] = "ab:cd:07"%string.
Proof. reflexivity. Qed.
