(* ===== verification/Reader.v ===== *)
(** * The controller's reader task

    Models the task [ConnectedEndpoint::handshake_and_spawn] of
    [crates/oaat-controller/src/transport.rs] leaves behind: it reads the
    control stream of one endpoint and sorts its messages into two bounded
    channels, [response_tx] (32 replies, and it waits for room) and
    [release_tx] (4 releases, and what finds no room is dropped).  The
    application reads them at its own pace, or not at all; a run is any
    sequence of reads of either side. *)

From S2P Require Import Prelude Format Session Wire Message Codec Float Clock EndpointTransport ControllerTransport.

Local Open Scope Z_scope.

(** [rd_waiting] is the reply [response_tx.send] waits with. *)
Record ReaderState := mkReader {
  rd_codec : FrameCodec;
  rd_waiting : option EndpointResponse;
  rd_responses : list EndpointResponse;
  rd_releases : list EndpointRelease;
  rd_alive : bool
}.

Definition RESPONSE_CAPACITY : nat := 32.
Definition RELEASE_CAPACITY : nat := 4.

#[local] Arguments RESPONSE_CAPACITY : simpl never.
#[local] Arguments RELEASE_CAPACITY : simpl never.

(** The task starts with what the handshake left in the codec. *)
Definition reader_start (codec : FrameCodec) : ReaderState := mkReader codec None [] [] true.

Section reader.
Context `{JsonCodec}.

Definition send_response (s : ReaderState) (r : EndpointResponse) : ReaderState :=
  if (length (rd_responses s) <? RESPONSE_CAPACITY)%nat
  then mkReader (rd_codec s) None (rd_responses s ++ [r]) (rd_releases s) (rd_alive s)
  else mkReader (rd_codec s) (Some r) (rd_responses s) (rd_releases s) (rd_alive s).

Definition forward (s : ReaderState) (msg : Message) : ReaderState :=
  match msg with
  | MFormatAccept m => send_response s (RFormatAccept m)
  | MFormatCounter m => send_response s (RFormatCounter m)
  | MFormatReject m => send_response s (RFormatReject m)
  | MNextTrackReady m => send_response s (RNextTrackReady m)
  | MNextTrackReformat m => send_response s (RNextTrackReformat m)
  | MStreamStats m => send_response s (RStreamStats m)
  | MEndpointRelease m =>
      if (length (rd_releases s) <? RELEASE_CAPACITY)%nat
      then mkReader (rd_codec s) (rd_waiting s) (rd_responses s) (rd_releases s ++ [m]) (rd_alive s) else s
  | _ => s
  end.

(** [while let Ok(Some(msg)) = codec.decode_next()], up to a reply that has to
    wait.  An error also ends the loop, and the task goes on with the next
    read. *)
Fixpoint reader_loop (fuel : nat) (s : ReaderState) : ReaderState :=
  match fuel with
  | O => s
  | S fuel =>
      match rd_waiting s with
      | Some _ => s
      | None =>
          match decode_next (rd_codec s) with
          | (Ok (Some msg), codec) =>
              reader_loop fuel (forward (mkReader codec None (rd_responses s) (rd_releases s) (rd_alive s)) msg)
          | (_, codec) => mkReader codec None (rd_responses s) (rd_releases s) (rd_alive s)
          end
      end
  end.

Definition reader_drain (s : ReaderState) : ReaderState := reader_loop (S (length (buf (rd_codec s)))) s.

Inductive ReaderOp :=
(** the stream: bytes ([[]] at its end), or an error *)
| Reads (data : list Z)
| ReadFails
(** the application *)
| TakesResponse
| TakesRelease.

(** What the application gets. *)
Inductive Taken := TResponse (r : EndpointResponse) | TRelease (r : EndpointRelease).

Definition reader_step (s : ReaderState) (op : ReaderOp) : option (ReaderState * list Taken) :=
  match op with
  | Reads data =>
      match rd_alive s, rd_waiting s with
      | true, None =>
          if bool_decide (data = []) then Some (mkReader (rd_codec s) None (rd_responses s) (rd_releases s) false, [])
          else Some (reader_drain (mkReader (feed (rd_codec s) data) None (rd_responses s) (rd_releases s) true), [])
      | _, _ => None
      end
  | ReadFails =>
      match rd_alive s, rd_waiting s with
      | true, None => Some (mkReader (rd_codec s) None (rd_responses s) (rd_releases s) false, [])
      | _, _ => None
      end
  | TakesResponse =>
      match rd_responses s with
      | r :: rest =>
          Some (match rd_waiting s with
                | None => mkReader (rd_codec s) None rest (rd_releases s) (rd_alive s)
                | Some w => reader_drain (mkReader (rd_codec s) None (rest ++ [w]) (rd_releases s) (rd_alive s))
                end, [TResponse r])
      | [] => None
      end
  | TakesRelease =>
      match rd_releases s with
      | r :: rest => Some (mkReader (rd_codec s) (rd_waiting s) (rd_responses s) rest (rd_alive s), [TRelease r])
      | [] => None
      end
  end.

Fixpoint reader_run (s : ReaderState) (ops : list ReaderOp) : option (ReaderState * list Taken) :=
  match ops with
  | [] => Some (s, [])
  | op :: ops =>
      match reader_step s op with
      | Some (s, t) => match reader_run s ops with Some (s, ts) => Some (s, t ++ ts) | None => None end
      | None => None
      end
  end.

(** ** What a run is observed to do *)

(** What a message becomes for the application. *)
Definition reply_of (m : Message) : option EndpointResponse :=
  match m with
  | MFormatAccept m => Some (RFormatAccept m)
  | MFormatCounter m => Some (RFormatCounter m)
  | MFormatReject m => Some (RFormatReject m)
  | MNextTrackReady m => Some (RNextTrackReady m)
  | MNextTrackReformat m => Some (RNextTrackReformat m)
  | MStreamStats m => Some (RStreamStats m)
  | _ => None
  end.

Definition release_of (m : Message) : option EndpointRelease :=
  match m with MEndpointRelease m => Some m | _ => None end.

Definition bytes_read (ops : list ReaderOp) : list Z :=
  concat (omap (λ op, match op with Reads data => Some data | _ => None end) ops).

Definition responses_taken (ts : list Taken) : list EndpointResponse :=
  omap (λ t, match t with TResponse r => Some r | TRelease _ => None end) ts.
Definition releases_taken (ts : list Taken) : list EndpointRelease :=
  omap (λ t, match t with TRelease r => Some r | TResponse _ => None end) ts.

(** The replies of a state, the one that waits last. *)
Definition replies_held (s : ReaderState) : list EndpointResponse := rd_responses s ++ option_list (rd_waiting s).

(** ** Lemmas *)

(** The channels keep to their capacities, and the task waits only for room. *)
Record channels_ok (s : ReaderState) : Prop := {
  ch_responses : (length (rd_responses s) ≤ RESPONSE_CAPACITY)%nat;
  ch_waiting : rd_waiting s ≠ None → length (rd_responses s) = RESPONSE_CAPACITY;
  ch_releases : (length (rd_releases s) ≤ RELEASE_CAPACITY)%nat
}.

Lemma forward_spec s m :
  channels_ok s → rd_waiting s = None →
  let s' := forward s m in
  channels_ok s' ∧ rd_codec s' = rd_codec s ∧ rd_alive s' = rd_alive s ∧
  replies_held s' = rd_responses s ++ option_list (reply_of m) ∧
  rd_releases s' = take RELEASE_CAPACITY (rd_releases s ++ option_list (release_of m)).
Proof.
  intros [H1 H2 H3] Hw s'.
  assert (∀ r, channels_ok (send_response s r) ∧ rd_codec (send_response s r) = rd_codec s ∧ rd_alive (send_response s r) = rd_alive s ∧
      replies_held (send_response s r) = rd_responses s ++ [r] ∧ rd_releases (send_response s r) = rd_releases s) as Hsend.
  { intros r. unfold send_response. destruct (Nat.ltb_spec (length (rd_responses s)) RESPONSE_CAPACITY) as [Hlt|Hge].
    - split_and!; try done; [split; cbn; [rewrite length_app; cbn; lia|done|done]|apply app_nil_r].
    - split_and!; try done. split; cbn; [done|intros _; lia|done]. }
  assert (take RELEASE_CAPACITY (rd_releases s ++ []) = rd_releases s) as Hrel by (rewrite app_nil_r; by apply take_ge).
  unfold s', forward. destruct m; cbv [option_list option_rect reply_of release_of]; rewrite ?Hrel; try apply Hsend;
    try (unfold replies_held; rewrite Hw; split_and!; by (done || split)).
  unfold replies_held. destruct (Nat.ltb_spec (length (rd_releases s)) RELEASE_CAPACITY) as [Hlt|Hge]; cbn; rewrite Hw.
  - split_and!; try done; [split; cbn; rewrite ?Hw, ?length_app; cbn [length]; try done; lia|].
    rewrite take_ge; [done|]. rewrite length_app. cbn [length]. lia.
  - split_and!; try done. rewrite take_app_le by lia. by rewrite take_ge by lia.
Qed.

Lemma take_more {A} (n : nat) (l1 l2 : list A) : take n (take n l1 ++ l2) = take n (l1 ++ l2).
Proof.
  destruct (decide (length l1 ≤ n)%nat) as [Hle|Hgt]; [by rewrite (take_ge l1)|].
  rewrite !take_app_le by (rewrite ?length_take; lia). rewrite take_take. f_equal. lia.
Qed.

(** The loop forwards the messages of the buffer up to where it has to wait. *)
Lemma reader_loop_spec fuel s ms c :
  channels_ok s → (length (buf (rd_codec s)) < fuel)%nat → rd_waiting s = None → decode_all (rd_codec s) = (ms, Ok c) →
  ∃ handled rest, let s' := reader_loop fuel s in
    ms = handled ++ rest ∧ channels_ok s' ∧ decode_all (rd_codec s') = (rest, Ok c) ∧ (rd_waiting s' = None → rest = []) ∧
    replies_held s' = rd_responses s ++ omap reply_of handled ∧ rd_alive s' = rd_alive s ∧
    rd_releases s' = take RELEASE_CAPACITY (rd_releases s ++ omap release_of handled).
Proof.
  revert s ms. induction fuel as [|fuel IH]; intros s ms Hch Hf Hw Hd; [lia|]. cbn [reader_loop]. rewrite Hw.
  pose proof Hd as Hd0. rewrite decode_all_eq in Hd. destruct (decode_next (rd_codec s)) as [[[m|]|e] codec] eqn:E; [| |done].
  - destruct (decode_all codec) as [ms1 r1] eqn:Ed. injection Hd as <- ->. apply decode_next_shrinks in E.
    set (s0 := mkReader codec None (rd_responses s) (rd_releases s) (rd_alive s)).
    destruct (forward_spec s0 m ltac:(by destruct Hch; split) eq_refl) as (Hch1 & Hc1 & Ha1 & Hr1 & Hrel1). cbn in Hc1, Ha1, Hr1, Hrel1.
    destruct (rd_waiting (forward s0 m)) as [w|] eqn:Ew.
    + exists [m], ms1. replace (reader_loop fuel (forward s0 m)) with (forward s0 m) by (destruct fuel; cbn; by rewrite ?Ew).
      cbn. rewrite Hc1, Ew.
      split_and!; done.
    + destruct (IH (forward s0 m) ms1 Hch1) as (handled & rest & -> & Hch' & Hdec & Hrest & Hheld & Halive & Hrel); [rewrite Hc1; lia|done|by rewrite Hc1|].
      exists (m :: handled), rest. cbn [omap list_omap]. split_and!; try done.
      * unfold replies_held in Hr1. rewrite Ew, app_nil_r in Hr1. rewrite Hheld, Hr1, <- (assoc_L (++)). by destruct (reply_of m).
      * by rewrite Halive, Ha1.
      * rewrite Hrel, Hrel1, take_more, <- (assoc_L (++)). by destruct (release_of m).
  - apply decode_next_None in E as ->. injection Hd as <- <-. exists [], []. cbn -[decode_all]. rewrite !app_nil_r.
    split_and!; try done; [by destruct Hch; split|]. symmetry. by apply take_ge, Hch.
Qed.

(** What a reader has done with the bytes it has read so far. *)
Record reader_inv (c0 : FrameCodec) (bytes : list Z) (ts : list Taken) (s : ReaderState) (ms : list Message) (c : FrameCodec)
  (handled rest : list Message) : Prop := {
  rv_messages : decode_all (feed c0 bytes) = (ms, Ok c) ∧ ms = handled ++ rest;
  rv_channels : channels_ok s;
  rv_left : decode_all (rd_codec s) = (rest, Ok c);
  rv_waiting : rd_waiting s = None → rest = [];
  rv_replies : responses_taken ts ++ replies_held s = omap reply_of handled;
  rv_releases : releases_taken ts ++ rd_releases s `sublist_of` omap release_of handled
}.

Lemma decoded_before c a b ms c' :
  decode_all (feed c (a ++ b)) = (ms, Ok c') → ∃ ms1 c1, decode_all (feed c a) = (ms1, Ok c1).
Proof.
  rewrite <- feed_feed, decode_all_feed. destruct (decode_all (feed c a)) as [ms1 [c1|e]]; [by eauto|done].
Qed.

Lemma inv_reads c0 bytes ts s ms c handled rest data ms' c' :
  reader_inv c0 bytes ts s ms c handled rest → rd_waiting s = None → rd_alive s = true →
  decode_all (feed c0 (bytes ++ data)) = (ms', Ok c') →
  ∃ handled' rest', reader_inv c0 (bytes ++ data) ts (reader_drain (mkReader (feed (rd_codec s) data) None (rd_responses s) (rd_releases s) true))
    ms' c' handled' rest'.
Proof.
  intros [[Hms ->] Hch Hleft Hwait Hrep Hrel] Hw Ha Hd. specialize (Hwait Hw) as ->. rewrite app_nil_r in Hms.
  pose proof Hd as Hfull. rewrite <- feed_feed, decode_all_feed, Hms in Hd. destruct (decode_all (feed c data)) as [ms2 r2] eqn:E2. simplify_eq.
  set (s0 := mkReader (feed (rd_codec s) data) None (rd_responses s) (rd_releases s) true).
  assert (decode_all (rd_codec s0) = (ms2, Ok c')) as Hd0.
  { unfold s0. cbn [rd_codec]. by rewrite decode_all_feed, Hleft, E2. }
  destruct (reader_loop_spec (S (length (buf (rd_codec s0)))) s0 ms2 c' ltac:(by destruct Hch; split) ltac:(lia) eq_refl Hd0)
    as (h & rest & -> & Hch' & Hleft' & Hwait' & Hheld & Halive & Hrel'). cbn [s0 rd_responses rd_releases] in Hheld, Hrel'.
  exists (handled ++ h), rest. unfold reader_drain. split; try done.
  - split; [exact Hfull|by rewrite (assoc_L (++))].
  - unfold replies_held in Hrep. rewrite Hw, app_nil_r in Hrep. rewrite Hheld, omap_app, (assoc_L (++)), Hrep. done.
  - rewrite Hrel', omap_app. etrans; [apply sublist_app; [done|apply sublist_take]|].
    rewrite (assoc_L (++)). by apply sublist_app.
Qed.

Lemma inv_takes c0 bytes ts s ms c handled rest s' t :
  reader_inv c0 bytes ts s ms c handled rest → reader_step s TakesResponse = Some (s', t) →
  ∃ handled' rest', reader_inv c0 bytes (ts ++ t) s' ms c handled' rest'.
Proof.
  intros [[Hms ->] Hch Hleft Hwait Hrep Hrel] Hs. cbn [reader_step] in Hs. unfold replies_held in Hrep.
  destruct (rd_responses s) as [|r q] eqn:Er; [done|]. destruct Hch as [H1 H2 H3]. rewrite Er in H1, H2. cbn [length] in H1, H2.
  destruct (rd_waiting s) as [w|] eqn:Ew; simplify_eq.
  - set (s0 := mkReader (rd_codec s) None (q ++ [w]) (rd_releases s) (rd_alive s)).
    assert (channels_ok s0) as Hch0.
    { split; cbn; [rewrite length_app; cbn [length]; lia|done|done]. }
    destruct (reader_loop_spec (S (length (buf (rd_codec s0)))) s0 rest c Hch0 ltac:(lia) eq_refl Hleft)
      as (h & rest' & -> & Hch' & Hleft' & Hwait' & Hheld & Halive & Hrel'). cbn [s0 rd_responses rd_releases] in Hheld, Hrel'.
    exists (handled ++ h), rest'. unfold reader_drain. split; try done.
    + split; [done|by rewrite (assoc_L (++))].
    + rewrite Hheld, omap_app, <- Hrep. unfold responses_taken. rewrite omap_app. cbn. rewrite <- !(assoc_L (++)). cbn. by rewrite <- !(assoc_L (++)).
    + rewrite Hrel'. unfold releases_taken in *. rewrite !omap_app, app_nil_r.
      etrans; [apply sublist_app; [done|apply sublist_take]|]. rewrite (assoc_L (++)). by apply sublist_app.
  - specialize (Hwait eq_refl) as ->. exists handled, []. split; cbn; try done.
    + split; cbn; [lia|done|done].
    + rewrite <- Hrep. unfold responses_taken, replies_held. cbn. rewrite omap_app, <- (assoc_L (++)). done.
    + unfold releases_taken in *. by rewrite omap_app, app_nil_r.
Qed.

Lemma reader_inv_step c0 bytes ts s ms c handled rest op s' t ms' c' :
  reader_inv c0 bytes ts s ms c handled rest → reader_step s op = Some (s', t) →
  decode_all (feed c0 (bytes ++ bytes_read [op])) = (ms', Ok c') →
  ∃ handled' rest', reader_inv c0 (bytes ++ bytes_read [op]) (ts ++ t) s' ms' c' handled' rest'.
Proof.
  intros Hinv Hs Hd. destruct op as [data| | |]; cbn [reader_step] in Hs; unfold bytes_read in *; cbn -[decode_all] in Hd |- *;
    rewrite ?app_nil_r in *.
  - destruct (rd_alive s) eqn:Ea, (rd_waiting s) eqn:Ew; try done. case_bool_decide as Hdata; simplify_eq; rewrite ?app_nil_r in *.
    + pose proof Hinv as [[Hms Hsplit] Hch Hleft Hwait Hrep Hrel]. rewrite Hms in Hd. simplify_eq. exists handled, rest. rewrite ?app_nil_r.
      split; cbn -[decode_all]; try done; [by destruct Hch; split|by rewrite Ew in Hwait|]. unfold replies_held in *. by rewrite Ew in Hrep.
    + by eapply inv_reads.
  - destruct (rd_alive s) eqn:Ea, (rd_waiting s) eqn:Ew; try done. simplify_eq. rewrite ?app_nil_r.
    pose proof Hinv as [[Hms Hsplit] Hch Hleft Hwait Hrep Hrel]. rewrite Hms in Hd. simplify_eq. exists handled, rest.
    split; cbn -[decode_all]; try done; [by destruct Hch; split|by rewrite Ew in Hwait|]. unfold replies_held in *. by rewrite Ew in Hrep.
  - pose proof Hinv as [[Hms Hsplit] _ _ _ _ _]. rewrite Hms in Hd. simplify_eq. by eapply inv_takes.
  - pose proof Hinv as [[Hms Hsplit] Hch Hleft Hwait Hrep Hrel]. rewrite Hms in Hd. simplify_eq.
    destruct (rd_releases s) as [|r q] eqn:Eq; [done|]. simplify_eq. exists handled, rest. destruct Hch as [H1 H2 H3].
    rewrite Eq in H3. cbn [length] in H3. split; cbn; try done.
    + split; cbn; [done|done|lia].
    + unfold responses_taken in *. rewrite omap_app. cbn. by rewrite app_nil_r.
    + unfold releases_taken in *. rewrite omap_app. cbn. by rewrite <- (assoc_L (++)).
Qed.

Lemma bytes_read_cons op ops : bytes_read (op :: ops) = bytes_read [op] ++ bytes_read ops.
Proof. unfold bytes_read. destruct op; cbn; by rewrite ?app_nil_r. Qed.

Lemma reader_inv_run c0 bytes ts s ms c handled rest ops s' t ms' c' :
  reader_inv c0 bytes ts s ms c handled rest → reader_run s ops = Some (s', t) →
  decode_all (feed c0 (bytes ++ bytes_read ops)) = (ms', Ok c') →
  ∃ handled' rest', reader_inv c0 (bytes ++ bytes_read ops) (ts ++ t) s' ms' c' handled' rest'.
Proof.
  revert bytes ts s ms c handled rest t. induction ops as [|op ops IH]; intros bytes ts s ms c handled rest t Hinv Hr Hd; cbn [reader_run] in Hr.
  - simplify_eq. unfold bytes_read in *. cbn [omap list_omap concat] in *. rewrite !app_nil_r in *. pose proof Hinv as [[Hms _] _ _ _ _ _]. rewrite Hms in Hd.
    simplify_eq. by exists handled, rest.
  - destruct (reader_step s op) as [[s1 t1]|] eqn:E; [|done]. destruct (reader_run s1 ops) as [[s2 t2]|] eqn:E2; [|done]. simplify_eq.
    rewrite bytes_read_cons, (assoc_L (++)) in Hd |- *. destruct (decoded_before _ _ _ _ _ Hd) as (ms1 & c1 & Hd1).
    destruct (reader_inv_step _ _ _ _ _ _ _ _ _ _ _ _ _ Hinv E Hd1) as (h1 & r1 & Hinv1).
    destruct (IH _ _ _ _ _ _ _ _ Hinv1 E2 Hd) as (h2 & r2 & Hinv2). exists h2, r2. by rewrite (assoc_L (++)).
Qed.

Lemma reader_inv_start codec : decode_next codec = (Ok None, codec) → reader_inv codec [] [] (reader_start codec) [] codec [] [].
Proof.
  intros Hd. assert (decode_all codec = ([], Ok codec)) as Hall by by rewrite decode_all_eq, Hd.
  split; try done; [split; [by rewrite feed_nil|done]|split; cbn; [lia|done|lia]].
Qed.

(** A task that waits reads nothing more until a reply is taken. *)
Lemma waiting_step s op s' t :
  rd_waiting s ≠ None → op ≠ TakesResponse → reader_step s op = Some (s', t) →
  op = TakesRelease ∧ rd_waiting s' = rd_waiting s ∧ rd_codec s' = rd_codec s ∧ rd_responses s' = rd_responses s.
Proof.
  intros Hw Hop Hs. destruct op; try done; cbn [reader_step] in Hs.
  - by destruct (rd_alive s), (rd_waiting s).
  - by destruct (rd_alive s), (rd_waiting s).
  - destruct (rd_releases s); [done|]. by simplify_eq.
Qed.

Lemma waiting_run s ops s' ts :
  rd_waiting s ≠ None → TakesResponse ∉ ops → reader_run s ops = Some (s', ts) →
  bytes_read ops = [] ∧ releases_taken ts ++ rd_releases s' = rd_releases s.
Proof.
  revert s ts. induction ops as [|op ops IH]; intros s ts Hw Hno Hr; cbn [reader_run] in Hr; [by simplify_eq|].
  destruct (reader_step s op) as [[s1 t1]|] eqn:E; [|done]. destruct (reader_run s1 ops) as [[s2 t2]|] eqn:E2; [|done]. simplify_eq.
  apply not_elem_of_cons in Hno as [Hop Hno]. destruct (waiting_step _ _ _ _ Hw (not_eq_sym Hop) E) as (-> & Hw1 & _).
  destruct (IH s1 t2 ltac:(by rewrite Hw1) Hno E2) as [Hb Hrel]. rewrite bytes_read_cons, Hb. split; [done|].
  cbn [reader_step] in E. destruct (rd_releases s) as [|r q]; [done|]. simplify_eq. cbn in Hrel. rewrite <- Hrel. done.
Qed.

Lemma nothing_taken s ops s' ts :
  TakesResponse ∉ ops → reader_run s ops = Some (s', ts) → responses_taken ts = [].
Proof.
  revert s ts. induction ops as [|op ops IH]; intros s ts Hno Hr; cbn [reader_run] in Hr; [by simplify_eq|].
  destruct (reader_step s op) as [[s1 t1]|] eqn:E; [|done]. destruct (reader_run s1 ops) as [[s2 t2]|] eqn:E2; [|done]. simplify_eq.
  apply not_elem_of_cons in Hno as [Hop Hno]. unfold responses_taken. rewrite omap_app. fold (responses_taken t2). rewrite (IH _ _ Hno E2).
  rewrite app_nil_r. destruct op; cbn [reader_step] in E; repeat case_match; by simplify_eq.
Qed.

End reader.

(** ** Properties *)

Section properties.
Context `{JsonCodec}.

(** C35 The replies of an endpoint reach the application complete, once and in
    order, however TCP cuts the stream and whenever the application reads: the
    replies taken, those in the channel and the one that waits for room are
    those of a first part of the messages read, and of all of them when none
    waits; the channel never exceeds its capacity.  Of the releases of that
    part some may be lost, but none is duplicated or reordered. *)
Theorem reader_forwards codec ops s ts ms c :
  decode_next codec = (Ok None, codec) → reader_run (reader_start codec) ops = Some (s, ts) →
  decode_all (feed codec (bytes_read ops)) = (ms, Ok c) →
  ∃ handled rest, ms = handled ++ rest ∧ (rd_waiting s = None → rest = []) ∧
    responses_taken ts ++ rd_responses s ++ option_list (rd_waiting s) = omap reply_of handled ∧
    releases_taken ts ++ rd_releases s `sublist_of` omap release_of handled ∧
    (length (rd_responses s) ≤ RESPONSE_CAPACITY)%nat ∧ (length (rd_releases s) ≤ RELEASE_CAPACITY)%nat.
Proof.
  intros Hc Hr Hd. destruct (reader_inv_run _ _ _ _ _ _ _ _ _ _ _ _ _ (reader_inv_start _ Hc) Hr Hd) as (handled & rest & [[_ ->] [H1 H2 H3] _ Hw Hrep Hrel]).
  by exists handled, rest.
Qed.

(** An application that reads no replies hears no releases for long: as no
    code of a zone reads them, after thirty-three replies (an endpoint reports
    its statistics every five seconds, each report a reply) the task waits for
    room for ever, reads nothing more, and whatever release comes after the
    thirty-third reply is never heard. *)
Theorem unread_replies_deafen codec ops s ts ms c :
  decode_next codec = (Ok None, codec) → TakesResponse ∉ ops → reader_run (reader_start codec) ops = Some (s, ts) →
  decode_all (feed codec (bytes_read ops)) = (ms, Ok c) →
  ∃ handled rest, ms = handled ++ rest ∧ (length (omap reply_of handled) ≤ S RESPONSE_CAPACITY)%nat ∧
    releases_taken ts ++ rd_releases s `sublist_of` omap release_of handled ∧
    ((RESPONSE_CAPACITY < length (omap reply_of ms))%nat →
     rd_waiting s ≠ None ∧ ∀ ops' s' ts', TakesResponse ∉ ops' → reader_run s ops' = Some (s', ts') →
       bytes_read ops' = [] ∧ releases_taken ts' ++ rd_releases s' = rd_releases s).
Proof.
  intros Hc Hno Hr Hd. destruct (reader_inv_run _ _ _ _ _ _ _ _ _ _ _ _ _ (reader_inv_start _ Hc) Hr Hd) as (handled & rest & [[_ ->] [H1 H2 H3] _ Hw Hrep Hrel]).
  pose proof (nothing_taken _ _ _ _ Hno Hr) as Ht.
  cbn [app] in Hrep. rewrite Ht in Hrep. cbn in Hrep.
  exists handled, rest. split; [done|]. split.
  { rewrite <- Hrep. unfold replies_held. rewrite length_app. destruct (rd_waiting s); cbn; lia. }
  split; [done|]. intros Hmany. assert (rd_waiting s ≠ None) as Hwait.
  { intros E. specialize (Hw E) as ->. rewrite app_nil_r, <- Hrep in Hmany. unfold replies_held in Hmany. rewrite E in Hmany. cbn in Hmany. rewrite app_nil_r in Hmany. lia. }
  split; [done|]. intros ops' s' ts' Hno' Hr'. by apply (waiting_run s ops').
Qed.

End properties.

(** ** Witnesses

    A JSON codec of a reply, a report and a release. *)
Definition reply_json : JsonCodec := {|
  to_vec m := match m with MFormatAccept _ => [3] | MEndpointRelease _ => [4] | MStreamStats _ => [5] | _ => [0] end;
  from_slice l :=
    match l with
    | [3] => Ok (MFormatAccept (mkFormatAccept "s1"))
    | [4] => Ok (MEndpointRelease (mkEndpointRelease "s1" LocalSource))
    | [5] => Ok (MStreamStats (mkStreamStats "s1" 0 0 0 0 0 true 0))
    | _ => Err "expected value"%string
    end
|}.

Lemma reader_forwards_witness :
  ∃ s ts, @reader_run reply_json (reader_start FrameCodec_new) [Reads [0; 0; 0]; Reads [1; 3; 0; 0; 0; 1; 4; 0]; TakesResponse] = Some (s, ts) ∧
    responses_taken ts ++ rd_responses s ++ option_list (rd_waiting s) = [RFormatAccept (mkFormatAccept "s1")] ∧
    releases_taken ts ++ rd_releases s `sublist_of` [mkEndpointRelease "s1" LocalSource].
Proof.
  eexists _, _. split; [vm_compute; reflexivity|].
  destruct (@reader_forwards reply_json FrameCodec_new [Reads [0; 0; 0]; Reads [1; 3; 0; 0; 0; 1; 4; 0]; TakesResponse]
    (mkReader (mkCodec [0]) None [] [mkEndpointRelease "s1" LocalSource] true) [TResponse (RFormatAccept (mkFormatAccept "s1"))]
    [MFormatAccept (mkFormatAccept "s1"); MEndpointRelease (mkEndpointRelease "s1" LocalSource)] (mkCodec [0]))
    as (handled & rest & E & Hrest & H1 & H2 & _); [reflexivity|vm_compute; reflexivity|vm_compute; reflexivity|].
  rewrite (Hrest eq_refl), app_nil_r in E. subst handled. split; [exact H1|exact H2].
Defined.

(** Thirty-three reports, then a release. *)
Definition reports_then_release : list Z := concat (replicate 33 [0; 0; 0; 1; 5]) ++ [0; 0; 0; 1; 4].

Lemma unread_replies_deafen_witness :
  ∃ s, @reader_run reply_json (reader_start FrameCodec_new) [Reads reports_then_release] = Some (s, []) ∧
    rd_releases s = [] ∧ rd_waiting s ≠ None ∧
    ∀ ops' s' ts', TakesResponse ∉ ops' → @reader_run reply_json s ops' = Some (s', ts') → bytes_read ops' = [].
Proof.
  eexists. split; [vm_compute; reflexivity|]. split; [reflexivity|].
  match goal with |- rd_waiting ?s ≠ None ∧ _ =>
    destruct (@unread_replies_deafen reply_json FrameCodec_new [Reads reports_then_release] s []
      (replicate 33 (MStreamStats (mkStreamStats "s1" 0 0 0 0 0 true 0)) ++ [MEndpointRelease (mkEndpointRelease "s1" LocalSource)]) (mkCodec []))
      as (handled & rest & _ & _ & _ & Hdeaf)
  end; [reflexivity|by intros ?%list_elem_of_singleton|vm_compute; reflexivity|vm_compute; reflexivity|].
  destruct Hdeaf as [Hw Hforever]; [apply Nat.ltb_lt; vm_compute; reflexivity|].
  split; [exact Hw|]. intros ops' s' ts' Hno Hr. exact (proj1 (Hforever ops' s' ts' Hno Hr)).
Defined.
