(* ===== verification/Zone.v ===== *)
(** * Zones

    Models [crates/oaat-controller/src/zone.rs]: a zone of endpoints that
    play the same stream, with its volume map, its active stream for late
    joiners, its FEC encoder and its operations on all endpoints.

    A [HashMap] is a [gmap]; where the source iterates over one, each turn
    touches its own entry, so the loop is a map over the entries.  The order
    of the keys in a zone update is the one of [map_to_list]: unspecified in
    the source.  Connecting to an endpoint is an argument of the operations
    that do it, with the exchanges of its clock bootstrap. *)

From S2P Require Import Prelude Format Session Wire Message Fec Float Clock EndpointTransport ControllerTransport.
From stdpp Require Import sorting.

Local Open Scope Z_scope.

Definition DEFAULT_SINGLE_PLAY_DELAY_MS : Z := 200.
Definition DEFAULT_MULTIROOM_PLAY_DELAY_MS : Z := 500.

Inductive EndpointState :=
| EsConnected | EsSyncing | EsReady | EsStreaming | EsDegraded | EsDisconnected.

#[export] Instance EndpointState_eq_dec : EqDecision EndpointState.
Proof. solve_decision. Defined.

(** [impl Display for EndpointState]. *)
Definition EndpointState_fmt (s : EndpointState) : string :=
  match s with
  | EsConnected => "connected"
  | EsSyncing => "syncing"
  | EsReady => "ready"
  | EsStreaming => "streaming"
  | EsDegraded => "degraded"
  | EsDisconnected => "disconnected"
  end.

(** ** Volume *)

Record VolumeMap := mkVolumeMap { vm_master : Z; vm_offsets : gmap string Z }.

Definition VolumeMap_new : VolumeMap := mkVolumeMap 100 ∅.

Definition volume_offset (v : VolumeMap) (id : string) : Z := default 0 (vm_offsets v !! id).

(** [effective_volume]: [i16] sum, clamped. *)
Definition effective_volume (v : VolumeMap) (id : string) : Z :=
  as_u 8 (clamp 0 100 (vm_master v + volume_offset v id)).

(** [level as i8 - master as i8]: an [i8] difference of [i8] casts. *)
Definition i8_difference (level master : Z) : Z := as_i 8 (as_i 8 level - as_i 8 master).

(** ** The zone *)

Record ActiveStream := mkActive {
  as_stream_id : string;
  as_format : AudioFormat;
  as_sample_rate : Z;
  as_channels : Z;
  as_channel_layout : ChannelLayout;
  as_bits_per_sample : Z;
  as_metadata : option TrackMetadata;
  as_playing : bool
}.

Record EndpointEntry := mkEntry {
  en_endpoint : ConnectedEndpoint;
  en_addr : SocketAddr;
  en_state : EndpointState;
  en_clock_sync : bool
}.

Record Zone := mkZone {
  z_id : string;
  z_name : string;
  z_endpoints : gmap string EndpointEntry;
  z_config : ControllerConfig;
  z_sequence : Z;
  z_clock_sequence : Z;
  z_volume : VolumeMap;
  z_active : option ActiveStream;
  z_fec : option FecEncoder;
  z_play_delay_override : option Z
}.

Definition Zone_new (id name : string) (config : ControllerConfig) : Zone :=
  mkZone id name ∅ config 0 0 VolumeMap_new None None None.

Definition set_endpoints (z : Zone) (m : gmap string EndpointEntry) : Zone :=
  mkZone (z_id z) (z_name z) m (z_config z) (z_sequence z) (z_clock_sequence z) (z_volume z)
    (z_active z) (z_fec z) (z_play_delay_override z).
Definition set_volume (z : Zone) (v : VolumeMap) : Zone :=
  mkZone (z_id z) (z_name z) (z_endpoints z) (z_config z) (z_sequence z) (z_clock_sequence z) v
    (z_active z) (z_fec z) (z_play_delay_override z).
Definition set_active (z : Zone) (a : option ActiveStream) : Zone :=
  mkZone (z_id z) (z_name z) (z_endpoints z) (z_config z) (z_sequence z) (z_clock_sequence z)
    (z_volume z) a (z_fec z) (z_play_delay_override z).
Definition set_fec (z : Zone) (f : option FecEncoder) (sequence : Z) : Zone :=
  mkZone (z_id z) (z_name z) (z_endpoints z) (z_config z) sequence (z_clock_sequence z)
    (z_volume z) (z_active z) f (z_play_delay_override z).

Definition set_endpoint (e : EndpointEntry) (ep : ConnectedEndpoint) : EndpointEntry :=
  mkEntry ep (en_addr e) (en_state e) (en_clock_sync e).
Definition set_state (e : EndpointEntry) (s : EndpointState) : EndpointEntry :=
  mkEntry (en_endpoint e) (en_addr e) s (en_clock_sync e).

(** ** Queries *)

Definition endpoint_count (z : Zone) : nat := size (z_endpoints z).
Definition endpoint_ids (z : Zone) : list string := (map_to_list (z_endpoints z)).*1.
Definition endpoint_name (z : Zone) (id : string) : option string :=
  (λ e, ack_endpoint_name (ep_info (en_endpoint e))) <$> z_endpoints z !! id.
Definition endpoint_addr (z : Zone) (id : string) : option SocketAddr :=
  en_addr <$> z_endpoints z !! id.
Definition is_multiroom (z : Zone) : bool := (1 <? size (z_endpoints z))%nat.
Definition is_streaming (z : Zone) : bool :=
  match z_active z with Some s => as_playing s | None => false end.

Definition play_delay_ms (z : Zone) : Z :=
  match z_play_delay_override z with
  | Some delay => delay
  | None => if is_multiroom z then DEFAULT_MULTIROOM_PLAY_DELAY_MS else DEFAULT_SINGLE_PLAY_DELAY_MS
  end.

Definition set_play_delay_ms (z : Zone) (delay : option Z) : Zone :=
  mkZone (z_id z) (z_name z) (z_endpoints z) (z_config z) (z_sequence z) (z_clock_sequence z)
    (z_volume z) (z_active z) (z_fec z) delay.

Record EndpointSnapshot := mkSnapshot {
  sn_endpoint_id : string;
  sn_endpoint_name : string;
  sn_addr : SocketAddr;
  sn_state : EndpointState;
  sn_volume_offset : Z
}.

Definition endpoint_snapshots (z : Zone) : list EndpointSnapshot :=
  (λ '(id, e), mkSnapshot id (ack_endpoint_name (ep_info (en_endpoint e))) (en_addr e) (en_state e)
                 (volume_offset (z_volume z) id)) <$> map_to_list (z_endpoints z).

(** ** Messages to all endpoints *)

(** One turn of a sending loop: a failed send is logged, and changes nothing
    but what the connection recorded. *)
Definition send_entry (e : EndpointEntry) (msg : Message) : bool * EndpointEntry :=
  let '(r, ep) := send_message (en_endpoint e) msg in (is_ok r, set_endpoint e ep).

Definition send_each (z : Zone) (msg : string → Message) : Zone :=
  set_endpoints z (map_imap (λ id e, Some (send_entry e (msg id)).2) (z_endpoints z)).

(** The same, with a new state for the endpoints that took the message. *)
Definition send_each_state (z : Zone) (msg : Message) (s : EndpointState) : Zone :=
  set_endpoints z (map_imap (λ _ e, let '(ok, e) := send_entry e msg in
                                    Some (if ok then set_state e s else e)) (z_endpoints z)).

Definition broadcast_zone_update (z : Zone) : Zone :=
  send_each z (λ _, MZoneUpdate (mkZoneUpdate (z_id z) (endpoint_ids z))).

(** ** Endpoint lifecycle *)

(** [add_endpoint]: [dial] is the outcome of connecting, [boot] the exchanges
    of the clock bootstrap. *)
Definition add_endpoint (z : Zone) (addr : SocketAddr) (dial : result ConnectedEndpoint OaatError)
    (boot : list (Z * Z * result (list Z) OaatError)) : result string OaatError * Zone :=
  match dial with
  | Err e => (Err e, z)
  | Ok ep =>
      let '(_, ep) := clock_sync_bootstrap ep boot in
      let ep_id := ack_endpoint_id (ep_info ep) in
      let '(_, ep) := send_message ep (MZoneAssign (mkZoneAssign (z_id z) ep_id)) in
      let entry := mkEntry ep addr EsReady true in
      (Ok ep_id, broadcast_zone_update (set_endpoints z (<[ep_id := entry]> (z_endpoints z))))
  end.

Definition join_active (z : Zone) (addr : SocketAddr) (dial : result ConnectedEndpoint OaatError)
    (boot : list (Z * Z * result (list Z) OaatError)) : outcome (result string OaatError * Zone) :=
  let '(r, z) := add_endpoint z addr dial boot in
  match r with
  | Err e => Ret (Err e, z)
  | Ok ep_id =>
      match z_active z with
      | None => Ret (Ok ep_id, z)
      | Some stream =>
          match z_endpoints z !! ep_id with
          | None => Panic
          | Some entry =>
              let '(r, ep) := propose_format (en_endpoint entry) (as_stream_id stream) (as_format stream)
                                (as_sample_rate stream) (as_channels stream) (as_channel_layout stream)
                                (as_bits_per_sample stream) in
              match r with
              | Err e => Ret (Err e, set_endpoints z (delete ep_id (z_endpoints z)))
              | Ok _ =>
                  let '(_, ep) := match as_metadata stream with
                                  | Some meta => send_metadata ep meta
                                  | None => (Ok tt, ep)
                                  end in
                  let '(_, ep) := send_volume ep (effective_volume (z_volume z) ep_id) in
                  let '(ep, st) :=
                    if as_playing stream
                    then ((send_play ep (as_stream_id stream)).2, EsStreaming)
                    else (ep, en_state entry) in
                  Ret (Ok ep_id,
                       set_endpoints z (<[ep_id := set_state (set_endpoint entry ep) st]> (z_endpoints z)))
              end
          end
      end
  end.

Definition remove_offset (v : VolumeMap) (id : string) : VolumeMap :=
  mkVolumeMap (vm_master v) (delete id (vm_offsets v)).

(** [remove_endpoint]: whether it was there, its connection with the release
    written to it, and the zone. *)
Definition remove_endpoint (z : Zone) (id : string) : bool * option ConnectedEndpoint * Zone :=
  match z_endpoints z !! id with
  | Some entry =>
      let '(_, ep) := send_message (en_endpoint entry) (MZoneRelease (mkZoneRelease (z_id z) id)) in
      (true, Some ep,
       set_volume (set_endpoints z (delete id (z_endpoints z))) (remove_offset (z_volume z) id))
  | None => (false, None, z)
  end.

Definition remove_endpoint_and_notify (z : Zone) (id : string) : bool * Zone :=
  let '(removed, _, z) := remove_endpoint z id in
  if removed then (true, broadcast_zone_update z) else (false, z).

Definition mark_degraded (z : Zone) (id : string) : Zone :=
  set_endpoints z (alter (λ e, set_state e EsDegraded) id (z_endpoints z)).

Definition mark_disconnected (z : Zone) (id : string) : Zone :=
  match z_endpoints z !! id with
  | Some e =>
      if bool_decide (en_state e = EsDisconnected) then z
      else set_endpoints z (<[id := set_state e EsDisconnected]> (z_endpoints z))
  | None => z
  end.

Definition is_disconnected (e : EndpointEntry) : bool := bool_decide (en_state e = EsDisconnected).

Definition prune_disconnected (z : Zone) : list string * Zone :=
  let dead := (filter (λ p, is_disconnected p.2 = true) (map_to_list (z_endpoints z))).*1 in
  (dead,
   fold_left (λ z id, set_volume (set_endpoints z (delete id (z_endpoints z))) (remove_offset (z_volume z) id))
     dead z).

Definition check_health (z : Zone) : list string :=
  (filter (λ p, negb (is_disconnected p.2) && negb (ep_reader_alive (en_endpoint p.2)) = true)
     (map_to_list (z_endpoints z))).*1.

(** ** Stream control *)

Definition propose_format_all (z : Zone) (stream_id : string) (fmt : AudioFormat) (rate channels : Z)
    (layout : ChannelLayout) (bits : Z) : Zone :=
  let z := set_active z (Some (mkActive stream_id fmt rate channels layout bits None false)) in
  send_each z (λ _, MFormatPropose (mkFormatPropose stream_id fmt rate channels layout bits None)).

Definition send_metadata_all (z : Zone) (track : TrackMetadata) : Zone :=
  let z := set_active z
    ((λ s, mkActive (as_stream_id s) (as_format s) (as_sample_rate s) (as_channels s)
             (as_channel_layout s) (as_bits_per_sample s) (Some track) (as_playing s)) <$> z_active z) in
  send_each z (λ _, MMetadata (mkMetadata track)).

Definition play_all (z : Zone) (stream_id : string) : Zone :=
  let z := set_active z
    ((λ s, mkActive (as_stream_id s) (as_format s) (as_sample_rate s) (as_channels s)
             (as_channel_layout s) (as_bits_per_sample s) (as_metadata s) true) <$> z_active z) in
  send_each_state z (MPlay (mkPlay stream_id)) EsStreaming.

Definition stop_all (z : Zone) (stream_id : string) : Zone :=
  send_each_state (set_active z None) (MStop (mkStop stream_id)) EsReady.

(** ** FEC and audio *)

Definition enable_fec (z : Zone) (group_size : Z) : outcome Zone :=
  (let! enc := FecEncoder_new group_size in Ret (set_fec z (Some enc) (z_sequence z)))%oaat.

Definition disable_fec (z : Zone) : Zone := set_fec z None (z_sequence z).

Definition data_header (z : Zone) (sid : Z) (fmt : AudioFormat) (pts offset : Z)
    (payload : list Z) (fl : Z) : AudioPacketHeader :=
  let '(gs, idx) := match z_fec z with Some e => (enc_group_size e, next_index e) | None => (0, 0) end in
  {| version := CURRENT_VERSION; flags := fl; format := fmt; sequence := z_sequence z;
     stream_id := sid; pts_ns := pts; sample_offset := offset;
     payload_len := as_u 16 (len payload);
     fec_group_size := gs; fec_index := idx; fec_len_xor := 0 |}.

Definition parity_header (z : Zone) (sid : Z) (fmt : AudioFormat) (pts offset gs : Z)
    (p : FecParity) : AudioPacketHeader :=
  {| version := CURRENT_VERSION; flags := FEC; format := fmt;
     sequence := wrapping_add 16 (z_sequence z) 1;
     stream_id := sid; pts_ns := pts; sample_offset := offset;
     payload_len := as_u 16 (len (par_payload p));
     fec_group_size := gs; fec_index := 0; fec_len_xor := par_len_xor p |}.

(** The packets one call of [send_audio_all] puts on the wire, and the zone
    after it. *)
Definition send_audio_packets (z : Zone) (sid : Z) (fmt : AudioFormat) (pts offset : Z)
    (payload : list Z) (fl : Z) : list (AudioPacketHeader * list Z) * Zone :=
  let h := data_header z sid fmt pts offset payload fl in
  let seq1 := wrapping_add 16 (z_sequence z) 1 in
  match z_fec z with
  | None => ([(h, payload)], set_fec z None seq1)
  | Some e =>
      match encoder_feed e payload with
      | (Some p, e) =>
          ([(h, payload); (parity_header z sid fmt pts offset (fec_group_size h) p, par_payload p)],
           set_fec z (Some e) (wrapping_add 16 seq1 1))
      | (None, e) => ([(h, payload)], set_fec z (Some e) seq1)
      end
  end.

Definition add_datagrams (ep : ConnectedEndpoint) (ds : list (list Z)) : ConnectedEndpoint :=
  mkConnected (ep_info ep) (ep_sent ep) (ep_writable ep) (ep_audio_target ep) (ep_clock_target ep)
    (ep_audio_sent ep ++ ds) (ep_clock_state ep) (ep_sequence ep) (ep_reader_alive ep).

(** [send_audio_all]: every endpoint that is not disconnected. *)
Definition send_audio_all (z : Zone) (sid : Z) (fmt : AudioFormat) (pts offset : Z)
    (payload : list Z) (fl : Z) : Zone :=
  let '(pkts, z) := send_audio_packets z sid fmt pts offset payload fl in
  let ds := (λ '(h, p), audio_datagram h p) <$> pkts in
  set_endpoints z ((λ e, if is_disconnected e then e
                         else set_endpoint e (add_datagrams (en_endpoint e) ds)) <$> z_endpoints z).

(** ** Volume commands *)

Definition set_volume_all (z : Zone) (level : Z) : Zone :=
  let z := set_volume z (mkVolumeMap level (vm_offsets (z_volume z))) in
  send_each z (λ id, MVolumeSet (mkVolumeSet (effective_volume (z_volume z) id))).

Definition set_offset (z : Zone) (id : string) (offset : Z) : Zone :=
  set_volume z (mkVolumeMap (vm_master (z_volume z)) (<[id := offset]> (vm_offsets (z_volume z)))).

(** Send to one endpoint, if it is there; the error is returned. *)
Definition send_one (z : Zone) (id : string) (msg : Message) : result unit OaatError * Zone :=
  match z_endpoints z !! id with
  | Some e =>
      let '(r, ep) := send_message (en_endpoint e) msg in
      (r, set_endpoints z (<[id := set_endpoint e ep]> (z_endpoints z)))
  | None => (Ok tt, z)
  end.

Definition set_volume_endpoint (z : Zone) (id : string) (level : Z) : result unit OaatError * Zone :=
  let z := set_offset z id (i8_difference level (vm_master (z_volume z))) in
  send_one z id (MVolumeSet (mkVolumeSet level)).

Definition set_volume_offset (z : Zone) (id : string) (offset : Z) : result unit OaatError * Zone :=
  let z := set_offset z id offset in
  send_one z id (MVolumeSet (mkVolumeSet (effective_volume (z_volume z) id))).

Definition set_mute_all (z : Zone) (muted : bool) : Zone := send_each z (λ _, MMute (mkMute muted)).

Definition set_mute_endpoint (z : Zone) (id : string) (muted : bool) : result unit OaatError * Zone :=
  send_one z id (MMute (mkMute muted)).

(** ** Clock *)

(** [clock_sync_all], on the entries in the order [ids] of the iteration, with
    the exchange of each. *)
Fixpoint clock_sync_all (z : Zone) (ids : list string)
    (exchanges : list (Z * Z * result (list Z) OaatError)) : Zone :=
  match ids, exchanges with
  | id :: ids, (t1, t4, resp) :: exchanges =>
      let z := mkZone (z_id z) (z_name z)
                 (alter (λ e, set_endpoint e (clock_sync_once (en_endpoint e) t1 t4 resp).2) id (z_endpoints z))
                 (z_config z) (z_sequence z) (wrapping_add 16 (z_clock_sequence z) 1) (z_volume z)
                 (z_active z) (z_fec z) (z_play_delay_override z) in
      clock_sync_all z ids exchanges
  | _, _ => z
  end.

(** [start_steady_clock_sync]: the endpoints a task is spawned for; those that
    joined have one. *)
Definition start_steady_clock_sync (z : Zone) : list string :=
  (filter (λ p, en_clock_sync p.2 = false) (map_to_list (z_endpoints z))).*1.

Record EndpointClockSnapshot := mkClockSnapshot { cs_endpoint_id : string; cs_measurement : option ClockMeasurement }.

Definition snapshot_le (a b : EndpointClockSnapshot) : Prop := String.leb (cs_endpoint_id a) (cs_endpoint_id b) = true.
#[export] Instance snapshot_le_dec : RelDecision snapshot_le.
Proof. intros a b. unfold snapshot_le. apply _. Defined.

Definition endpoint_clock_snapshots (z : Zone) : list EndpointClockSnapshot :=
  merge_sort snapshot_le ((λ '(id, e), mkClockSnapshot id (clock_measurement (en_endpoint e))) <$> map_to_list (z_endpoints z)).

(** One turn of the steady-state loop of [spawn_endpoint_clock_sync]: the
    clock and the next interval, from the response received within a second
    ([None] on a timeout or an error). *)
Definition steady_clock_sync (c : ClockState) (interval t1 t4 : Z) (resp : option (list Z)) : ClockState * Z :=
  match resp with
  | None => (c, 500)
  | Some resp_buf =>
      match clock_decode resp_buf with
      | Ok response =>
          let c := clock_update c t1 (cs_t2 response) (cs_t3 response) t4 in
          (c, clk_suggested_interval_ms c)
      | Err _ => (c, interval)
      end
  end.
