(* ===== verification/ZoneAudio.v ===== *)
(** * From the zone to the loudspeaker

    The audio path end to end: [Zone::send_audio_all] with FEC, the wire
    format, the endpoint's receive loop and its FEC receiver. *)

From S2P Require Import Prelude Format Session Wire Message Fec FecRecovery Float Clock Sync EndpointTransport ControllerTransport Zone.

Local Open Scope Z_scope.

(** The varying arguments of one call: time stamp, sample offset, payload and
    flags. *)
Record audio_args := mkArgs { aa_pts : Z; aa_offset : Z; aa_payload : list Z; aa_flags : Z }.

(** Successive calls of [send_audio_all]: the packets on the wire. *)
Fixpoint send_many (z : Zone) (sid : Z) (fmt : AudioFormat) (args : list audio_args)
  : list FecPacket * Zone :=
  match args with
  | [] => ([], z)
  | a :: args =>
      let '(pkts, z) := send_audio_packets z sid fmt (aa_pts a) (aa_offset a) (aa_payload a) (aa_flags a) in
      let '(pkts', z) := send_many z sid fmt args in (pkts ++ pkts', z)
  end.

(** The receive loop on successive datagrams. *)
Fixpoint audio_run (fec : FecReceiver) (clock : SharedClock) (ds : list (list Z))
  : outcome (list EndpointEvent * FecReceiver * SharedClock) :=
  match ds with
  | [] => Ret ([], fec, clock)
  | d :: ds =>
      (let! (evs, fec, clock) := audio_recv fec clock d in
       let! (evs', fec, clock) := audio_run fec clock ds in
       Ret (evs ++ evs', fec, clock))%oaat
  end.

(** ** The group a zone sends *)

Definition zone_header (base g sid : Z) (fmt : AudioFormat) (i : nat) (a : audio_args) : AudioPacketHeader :=
  mkHeader CURRENT_VERSION (aa_flags a) fmt (wrapping_add 16 base (Z.of_nat i)) sid (aa_pts a) (aa_offset a)
    (as_u 16 (len (aa_payload a))) g (Z.of_nat i) 0.

Lemma wrapping_add_add base i j :
  wrapping_add 16 (wrapping_add 16 base i) j = wrapping_add 16 base (i + j).
Proof.
  unfold wrapping_add, as_u. rewrite Zplus_mod_idemp_l. f_equal. lia.
Qed.

Definition payloads (args : list audio_args) : list (list Z) := aa_payload <$> args.

Lemma send_many_group g base sid fmt args ps0 z e :
  encoder_inv g ps0 e → z_fec z = Some e → z_sequence z = wrapping_add 16 base (len ps0) →
  len ps0 + len args = g → args ≠ [] →
  ∃ pp lx pts off z' e',
    send_many z sid fmt args =
      (imap (λ j a, (zone_header base g sid fmt (length ps0 + j) a, aa_payload a)) args ++
       [(mkHeader CURRENT_VERSION FEC fmt (wrapping_add 16 base g) sid pts off (as_u 16 (len pp)) g 0 lx, pp)], z') ∧
    parity_for (ps0 ++ payloads args) lx pp ∧
    z_fec z' = Some e' ∧ encoder_inv g [] e' ∧ z_sequence z' = wrapping_add 16 base (g + 1) ∧
    z_endpoints z' = z_endpoints z ∧
    (∃ a, a ∈ args ∧ pts = aa_pts a ∧ off = aa_offset a).
Proof.
  revert ps0 z e. induction args as [|a args IH]; intros ps0 z e Hi Hz Hseq Hlen Hne; [done|].
  pose proof (encoder_feed_spec g ps0 e (aa_payload a) Hi) as Hf. cbn [send_many].
  unfold send_audio_packets. rewrite Hz. rewrite len_cons in Hlen.
  assert (data_header z sid fmt (aa_pts a) (aa_offset a) (aa_payload a) (aa_flags a)
          = zone_header base g sid fmt (length ps0) a) as Hh.
  { unfold data_header, zone_header. rewrite Hz, Hseq. destruct Hi as [Hg _ Hc _ _].
    rewrite Hg. unfold next_index. by rewrite Hc. }
  rewrite Hh. destruct (encoder_feed e (aa_payload a)) as [r e1]. pose proof (len_nonneg args).
  destruct (decide (args = [])) as [->|Hargs].
  - rewrite len_nil in Hlen. destruct (Z.leb_spec g (len ps0 + 1)); [|lia].
    destruct Hf as (lx & pp & -> & Hpf & Hi'). unfold parity_header.
    rewrite Hseq, !wrapping_add_add. replace (len ps0 + 1) with g by lia.
    eexists pp, lx, (aa_pts a), (aa_offset a), _, e1. split; [simpl; by rewrite Nat.add_0_r|].
    split_and!; try done; [simpl; f_equal; lia|]. exists a. set_solver.
  - assert (0 < len args) by (destruct args; [done|rewrite len_cons; pose proof (len_nonneg args); lia]).
    destruct (Z.leb_spec g (len ps0 + 1)); [lia|]. destruct Hf as [-> Hi'].
    rewrite Hseq, wrapping_add_add.
    destruct (IH (ps0 ++ [aa_payload a]) (set_fec z (Some e1) (wrapping_add 16 base (len ps0 + 1))) e1 Hi')
      as (pp & lx & pts & off & z' & e' & Hrun & Hpf & Hz' & Hi2 & Hs' & He & a' & Ha' & Hpts & Hoff); try done.
    { simpl. autorewrite with oaat. f_equal; lia. }
    { autorewrite with oaat. lia. }
    exists pp, lx, pts, off, z', e'. rewrite Hrun. split_and!; try done.
    + simpl. rewrite Nat.add_0_r. f_equal. f_equal. f_equal. apply imap_ext. intros j b Hb. simpl.
      do 2 f_equal. rewrite length_app. simpl. lia.
    + unfold payloads. by rewrite fmap_cons, cons_middle, (assoc_L (++)).
    + exists a'. set_solver.
Qed.

(** The flags a sender sets on data packets: neither FEC nor the end mark. *)
Definition data_flags (fl : Z) : Prop :=
  in_u 4 fl ∧ flags_contains fl FEC = false ∧ flags_contains fl LAST_PACKET = false.

Record args_ok (a : audio_args) : Prop := {
  ao_flags : data_flags (aa_flags a);
  ao_pts : is_u64 (aa_pts a);
  ao_offset : is_u64 (aa_offset a);
  ao_len : len (aa_payload a) ≤ MAX_AUDIO_PAYLOAD
}.

Lemma max_list_le l b : Forall (λ x, (x ≤ b)%nat) l → (max_list l ≤ b)%nat.
Proof. induction 1; simpl; lia. Qed.

Lemma xors_range w l : 0 ≤ w → Forall (in_u w) l → in_u w (xors l).
Proof.
  intros Hw. induction 1 as [|x l Hx _ IH]; simpl; [split; [done|]; apply Z.pow_pos_nonneg; lia|].
  by apply in_u_lxor.
Qed.

Lemma parity_for_len ps lx pp :
  parity_for ps lx pp → Forall (λ p, len p ≤ MAX_AUDIO_PAYLOAD) ps →
  len pp ≤ MAX_AUDIO_PAYLOAD ∧ is_u16 lx.
Proof.
  intros [Hl _ Hx] Hps. split.
  - assert (max_list (length <$> ps) ≤ Z.to_nat MAX_AUDIO_PAYLOAD)%nat.
    { apply max_list_le, Forall_fmap. eapply Forall_impl; [exact Hps|].
      unfold len, MAX_AUDIO_PAYLOAD. simpl. intros. lia. }
    unfold len, MAX_AUDIO_PAYLOAD in *. lia.
  - rewrite Hx. apply xors_range; [lia|]. apply Forall_fmap, Forall_true. intros. by apply as_u_range.
Qed.

(** ** The endpoint's side *)

(** A packet the receive loop takes whole. *)
Definition deliverable (p : FecPacket) : Prop :=
  header_wf p.1 ∧ version p.1 = 1 ∧ len p.2 = payload_len p.1 ∧ len p.2 ≤ MAX_AUDIO_PAYLOAD ∧
  flags_contains (flags p.1) LAST_PACKET = false.

Definition datagram_of (p : FecPacket) : list Z := audio_datagram p.1 p.2.

Definition packet_event (p : FecPacket) : EndpointEvent := EvAudioPacket p.1 p.2.

(** On such packets the receive loop is the FEC receiver, its counters
    published. *)
Lemma audio_run_receiver fec clock pkts outs fec' :
  Forall deliverable pkts → receiver_run fec pkts = Ret (outs, fec') → pkts ≠ [] →
  ∃ clock', audio_run fec clock (datagram_of <$> pkts) = Ret (packet_event <$> concat outs, fec', clock') ∧
    link_stats clock' = (lost fec', recovered fec').
Proof.
  intros Hf. revert fec clock outs. induction Hf as [|[h p] pkts (Hwf & Hv & Hl & Hm & Hla) Hf IH];
    intros fec clock outs Hrun Hne; [done|].
  cbn [receiver_run] in Hrun. rewrite fmap_cons. cbn [audio_run].
  unfold datagram_of at 1, audio_datagram. cbn [fst snd] in *.
  rewrite audio_recv_packet by done.
  destruct (receiver_feed fec h p) as [[out fec1]|]; [|done]. cbn [outcome_bind] in *.
  destruct (decide (pkts = [])) as [->|Hp].
  - simpl in Hrun. simplify_eq. simpl. rewrite !app_nil_r. by eexists.
  - destruct (receiver_run fec1 pkts) as [[outs1 fec2]|] eqn:E; [|done]. simpl in Hrun. simplify_eq.
    destruct (IH fec1 (set_link_stats clock (lost fec1) (recovered fec1)) outs1) as (c & Hc & Hls); [done|done|].
    exists c. rewrite Hc. simpl. by rewrite fmap_app.
Qed.

(** ** End to end *)

(** The packets of the group as functions of the index. *)
Definition nth_args (args : list audio_args) (i : nat) : audio_args := nth i args (mkArgs 0 0 [] 0).

Lemma imap_nth_args {B} (f : nat → audio_args → B) args :
  imap f args = (λ i, f i (nth_args args i)) <$> seq 0 (length args).
Proof.
  apply list_eq. intros i. rewrite list_lookup_imap, list_lookup_fmap.
  destruct (decide (i < length args)%nat) as [Hi|Hi].
  - rewrite lookup_seq_lt by done. simpl. destruct (lookup_lt_is_Some_2 args i Hi) as [a Ha].
    rewrite Ha. simpl. unfold nth_args. by rewrite (nth_lookup_Some _ _ _ _ Ha).
  - rewrite lookup_seq_ge by lia. by rewrite lookup_ge_None_2 by lia.
Qed.

Lemma nth_args_in args i : (i < length args)%nat → nth_args args i ∈ args.
Proof.
  intros Hi. destruct (lookup_lt_is_Some_2 args i Hi) as [a Ha]. unfold nth_args.
  rewrite (nth_lookup_Some _ _ _ _ Ha). by eapply list_elem_of_lookup_2.
Qed.

Lemma payloads_nth args :
  payloads args = (λ i, aa_payload (nth_args args i)) <$> seq 0 (length args).
Proof.
  unfold payloads. rewrite <- (imap_nth_args (λ _ a, aa_payload a)).
  symmetry. apply (imap_const aa_payload).
Qed.

(** A packet of the protocol, whatever its flags. *)
Definition sendable (p : FecPacket) : Prop :=
  header_wf p.1 ∧ version p.1 = 1 ∧ len p.2 = payload_len p.1 ∧ len p.2 ≤ MAX_AUDIO_PAYLOAD.

Record args_sendable (a : audio_args) : Prop := {
  as_flags : in_u 4 (aa_flags a) ∧ flags_contains (aa_flags a) FEC = false;
  as_pts : is_u64 (aa_pts a);
  as_offset : is_u64 (aa_offset a);
  as_len : len (aa_payload a) ≤ MAX_AUDIO_PAYLOAD
}.

Lemma args_ok_sendable a : args_ok a → args_sendable a.
Proof. by intros [(? & ? & _) ???]. Qed.

(** What a zone with FEC puts on the wire for one group is a [fec_group]. *)
Lemma zone_group_sends g z e sid fmt args :
  z_fec z = Some e → encoder_inv g [] e → is_u16 (z_sequence z) → is_u32 sid →
  len args = g → Forall args_sendable args →
  ∃ ph pp z' e',
    let hdr := λ i, zone_header (z_sequence z) g sid fmt i (nth_args args i) in
    let pay := λ i, aa_payload (nth_args args i) in
    send_many z sid fmt args = (group_packets (length args) hdr pay ++ [(ph, pp)], z') ∧
    fec_group (length args) (z_sequence z) hdr pay ph pp ∧
    Forall sendable (group_packets (length args) hdr pay ++ [(ph, pp)]) ∧ flags ph = FEC ∧
    z_fec z' = Some e' ∧ encoder_inv g [] e' ∧
    z_sequence z' = wrapping_add 16 (z_sequence z) (g + 1) ∧ z_endpoints z' = z_endpoints z.
Proof.
  intros Hz Hi Hseq Hsid Hlen Hok. pose proof Hi as [Hg Hb _ _ _].
  destruct (send_many_group g (z_sequence z) sid fmt args [] z e)
    as (pp & lx & pts & off & z' & e' & Hrun & Hpf & Hz' & Hi' & Hs' & He & a & Ha & -> & ->); try done.
  { rewrite len_nil. unfold wrapping_add. rewrite Z.add_0_r. symmetry. by apply as_u_id. }
  { intros ->. rewrite len_nil in Hlen. lia. }
  assert (Z.of_nat (length args) = g) as Hn by done.
  assert (∀ i, (i < length args)%nat → args_sendable (nth_args args i)) as Hnth.
  { intros i Hlt. rewrite Forall_forall in Hok. by apply Hok, nth_args_in. }
  assert (args_sendable a) as Haok by (rewrite Forall_forall in Hok; by apply Hok).
  assert (Forall (λ p, len p ≤ MAX_AUDIO_PAYLOAD) (payloads args)) as Hlens.
  { apply Forall_fmap. eapply Forall_impl; [exact Hok|]. by intros ? []. }
  destruct (parity_for_len _ _ _ Hpf Hlens) as [Hpp Hlx].
  eexists _, pp, z', e'. cbv zeta. rewrite Hrun.
  split_and!; try done.
  - f_equal. f_equal. by rewrite imap_nth_args.
  - split; simpl; [lia|done|done|done|intros; lia| | |by rewrite Hn|lia|done|].
    + intros i Hlt. by destruct (Hnth i Hlt) as [(_ & ?) _ _ _].
    + intros i Hlt. destruct (Hnth i Hlt) as [_ _ _ Hl]. unfold MAX_AUDIO_PAYLOAD in Hl. lia.
    + unfold group_packets. rewrite <- list_fmap_compose. simpl in Hpf.
      by rewrite payloads_nth in Hpf.
  - apply Forall_app. split.
    + apply Forall_fmap, Forall_seq. intros i Hlt. destruct (Hnth i ltac:(lia)) as [(Hf1 & _) Hpt Hof Hl].
      pose proof (len_nonneg (aa_payload (nth_args args i))). unfold MAX_AUDIO_PAYLOAD in *.
      split_and!; simpl; try done; [|by rewrite as_u_id by range].
      split; simpl; try done; try (apply as_u_range; lia); range.
    + apply Forall_singleton. pose proof (len_nonneg pp). unfold MAX_AUDIO_PAYLOAD in *.
      destruct Haok as [_ Hpt Hof _].
      split_and!; simpl; try done; [|by rewrite as_u_id by range].
      split; simpl; try done; try (apply as_u_range; lia); range.
  - reflexivity.
Qed.

(** Without the end mark among them, the endpoint's receive loop takes all. *)
Lemma zone_group_on_wire g z e sid fmt args :
  z_fec z = Some e → encoder_inv g [] e → is_u16 (z_sequence z) → is_u32 sid →
  len args = g → Forall args_ok args →
  ∃ ph pp z' e',
    let hdr := λ i, zone_header (z_sequence z) g sid fmt i (nth_args args i) in
    let pay := λ i, aa_payload (nth_args args i) in
    send_many z sid fmt args = (group_packets (length args) hdr pay ++ [(ph, pp)], z') ∧
    fec_group (length args) (z_sequence z) hdr pay ph pp ∧
    Forall deliverable (group_packets (length args) hdr pay ++ [(ph, pp)]) ∧
    z_fec z' = Some e' ∧ encoder_inv g [] e' ∧
    z_sequence z' = wrapping_add 16 (z_sequence z) (g + 1) ∧ z_endpoints z' = z_endpoints z.
Proof.
  intros Hz Hi Hseq Hsid Hlen Hok.
  destruct (zone_group_sends g z e sid fmt args Hz Hi Hseq Hsid Hlen) as (ph & pp & z' & e' & Hrun & Hg & Hs & Hph & Hrest).
  { eapply Forall_impl; [exact Hok|]. apply args_ok_sendable. }
  exists ph, pp, z', e'. split; [exact Hrun|]. split; [exact Hg|]. split; [|exact Hrest].
  apply Forall_app in Hs as [Hd Hp]. apply Forall_app. split.
  - apply Forall_fmap, Forall_seq. intros i Hlt.
    assert (i ∈ seq 0 (length args)) as Hin by (apply elem_of_seq; lia).
    rewrite Forall_forall in Hd. destruct (Hd _ (list_elem_of_fmap_2 _ _ i Hin)) as (? & ? & ? & ?).
    rewrite Forall_forall in Hok. destruct (Hok _ (nth_args_in args i ltac:(lia))) as [(_ & _ & ?) _ _ _]. done.
  - apply Forall_singleton in Hp as (? & ? & ? & ?). apply Forall_singleton. split_and!; try done. cbn [fst]. by rewrite Hph.
Qed.

(** The arrival of the [i]-th packet of a group on the wire: the last one is
    the parity. *)
Definition arrival_of (n i : nat) : arrival := if (i <? n)%nat then Some i else None.

Lemma wire_packet n hdr pay ph pp i :
  (i ≤ n)%nat →
  (group_packets n hdr pay ++ [(ph, pp)]) !! i = Some (packet_of hdr pay ph pp (arrival_of n i)).
Proof.
  intros Hi. unfold arrival_of, group_packets.
  assert (length ((λ i, (hdr i, pay i)) <$> seq 0 n) = n) as Hl by by rewrite length_fmap, length_seq.
  destruct (Nat.ltb_spec i n) as [Hlt|Hge].
  - rewrite lookup_app_l by lia. rewrite list_lookup_fmap, lookup_seq_lt by done. done.
  - rewrite lookup_app_r by lia. rewrite Hl. by replace (i - n)%nat with 0%nat by lia.
Qed.

Lemma wire_packets n hdr pay ph pp order :
  Forall (λ i, (i ≤ n)%nat) order →
  omap (λ i, datagram_of <$> (group_packets n hdr pay ++ [(ph, pp)]) !! i) order =
    datagram_of <$> (packet_of hdr pay ph pp <$> (arrival_of n <$> order)).
Proof.
  induction 1 as [|i order Hi _ IH]; [done|]. cbn [omap list_omap]. rewrite wire_packet by done.
  simpl. by f_equal.
Qed.

Lemma arrival_of_NoDup n order :
  NoDup order → Forall (λ i, (i ≤ n)%nat) order → NoDup (arrival_of n <$> order).
Proof.
  intros Hnd Hle. apply NoDup_fmap_2_strong; [|done]. intros i j Hi Hj. rewrite Forall_forall in Hle.
  specialize (Hle i Hi) as Hi'. specialize (Hle j Hj) as Hj'. unfold arrival_of.
  destruct (Nat.ltb_spec i n), (Nat.ltb_spec j n); intros; simplify_eq; lia.
Qed.

Lemma arrival_of_in_group n order : Forall (in_group n) (arrival_of n <$> order).
Proof.
  apply Forall_fmap, Forall_true. intros i. unfold arrival_of. simpl.
  by destruct (Nat.ltb_spec i n).
Qed.

(** C1 From the zone to the application of the endpoint: a zone with FEC sends
    the payloads of one group; the network loses any one of the packets on the
    wire (data or parity), a data packet of the group arrives first, and the
    others in any order.  Then the receive loop of an endpoint at the start of
    a session passes on exactly those payloads, in order, and reports no packet
    lost.  (A group whose parity arrives first and that lost a data packet is
    not recovered: the receiver throws that parity away.) *)
Theorem zone_to_endpoint g z e sid fmt args first rest clock :
  z_fec z = Some e → encoder_inv g [] e → is_u16 (z_sequence z) → is_u32 sid →
  len args = g → Forall args_ok args →
  (first < length args)%nat → NoDup (first :: rest) → Forall (λ i, (i ≤ length args)%nat) rest →
  length (first :: rest) = length args →
  ∃ pkts z' evs fec' clock',
    send_many z sid fmt args = (pkts, z') ∧ length pkts = S (length args) ∧
    audio_run FecReceiver_new clock (omap (λ i, datagram_of <$> pkts !! i) (first :: rest))
      = Ret (evs, fec', clock') ∧
    omap (λ ev, match ev with EvAudioPacket _ p => Some p | _ => None end) evs = payloads args ∧
    (link_stats clock').1 = 0.
Proof.
  intros Hz Hi Hseq Hsid Hlen Hok Hfirst Hnd Hle Hl.
  destruct (zone_group_on_wire g z e sid fmt args Hz Hi Hseq Hsid Hlen Hok)
    as (ph & pp & z' & e' & Hsend & Hgrp & Hdel & _).
  set (n := length args) in *. set (hdr := λ i, zone_header (z_sequence z) g sid fmt i (nth_args args i)) in *.
  set (pay := λ i, aa_payload (nth_args args i)) in *.
  assert (Forall (λ i, (i ≤ n)%nat) (first :: rest)) as Hle' by (constructor; [lia|done]).
  pose proof (arrival_of_NoDup n _ Hnd Hle') as Hnd'. pose proof (arrival_of_in_group n (first :: rest)) as Hin'.
  assert (arrival_of n first = Some first) as Hfst
    by (unfold arrival_of; by rewrite (proj2 (Nat.ltb_lt first n) Hfirst)).
  rewrite fmap_cons, Hfst in Hnd', Hin'.
  destruct (group_delivery n (z_sequence z) hdr pay ph pp FecReceiver_new first (arrival_of n <$> rest))
    as (out & fec' & Hrun & Hd & _ & _ & Hlost & _); try done.
  { simpl. rewrite length_fmap. done. }
  destruct (audio_run_receiver FecReceiver_new clock
              (packet_of hdr pay ph pp <$> Some first :: (arrival_of n <$> rest))
              (replicate (n - 1) [] ++ [out]) fec') as (clock' & Hav & Hls); try done.
  { apply Forall_fmap. rewrite Forall_forall in Hdel.
    rewrite Forall_forall in Hin'. apply Forall_forall. intros a Ha. specialize (Hin' a Ha). simpl.
    apply Hdel. destruct a as [i|]; simpl.
    - apply elem_of_app. left. apply list_elem_of_fmap. exists i. split; [done|]. apply elem_of_seq. simpl in *. lia.
    - apply elem_of_app. right. set_solver. }
  exists (group_packets n hdr pay ++ [(ph, pp)]), z', (packet_event <$> out), fec', clock'.
  split_and!.
  - done.
  - rewrite length_app. unfold group_packets. rewrite length_fmap, length_seq. simpl. lia.
  - rewrite wire_packets by done. rewrite fmap_cons, Hfst, Hav. by rewrite concat_replicate_nil.
  - rewrite payloads_nth. fold n pay. rewrite <- (delivered_payloads _ _ _ _ _ Hd). clear.
    induction out as [|[h p] out IH]; [done|]. csimpl. by f_equal.
  - by rewrite Hls.
Qed.

(** A zone with FEC in groups of three, and three payloads. *)
Definition demo_zone : Zone :=
  mkZone "z" "Living room" ∅ (mkControllerConfig "c" "C" [] 9742 false) 65534 0 VolumeMap_new None
    (Some (mkEncoder 3 [] 0 0)) None.

Definition demo_args : list audio_args :=
  [mkArgs 1000 0 [1; 2; 3] FIRST_PACKET; mkArgs 1010 480 [4] 0; mkArgs 1020 960 [5; 6] 0].

(** The second packet is lost and the parity overtakes the first. *)
Lemma zone_to_endpoint_witness :
  ∃ pkts z' evs fec' clock',
    send_many demo_zone 7 PcmS24le demo_args = (pkts, z') ∧ length pkts = 4%nat ∧
    audio_run FecReceiver_new SharedClock_new (omap (λ i, datagram_of <$> pkts !! i) [2; 3; 0]%nat)
      = Ret (evs, fec', clock') ∧
    omap (λ ev, match ev with EvAudioPacket _ p => Some p | _ => None end) evs = [[1; 2; 3]; [4]; [5; 6]] ∧
    (link_stats clock').1 = 0.
Proof.
  refine (zone_to_endpoint 3 demo_zone (mkEncoder 3 [] 0 0) 7 PcmS24le demo_args 2 [3; 0]%nat SharedClock_new
            eq_refl _ _ _ eq_refl _ _ _ _ eq_refl).
  - split; try done; vm_compute; try split; discriminate || reflexivity.
  - split; vm_compute; discriminate || reflexivity.
  - split; vm_compute; discriminate || reflexivity.
  - repeat constructor; vm_compute; discriminate || reflexivity.
  - simpl. lia.
  - apply (bool_decide_unpack _). by vm_compute.
  - repeat constructor; simpl; lia.
Defined.
