(* ===== verification/ZoneStream.v ===== *)
(** * A whole stream, from a zone to an endpoint

    The audio path of [ZoneAudio] over a stream of any length: complete groups,
    each of which may lose one packet and arrive in any order, then a last
    group that is usually not full and ends with the end mark, on which the
    receive loop flushes ([crates/oaat-core/src/fec.rs], [FecReceiver::flush],
    and [audio_receive_loop] of [crates/oaat-endpoint/src/transport.rs]). *)

From S2P Require Import Prelude Format Wire Fec FecRecovery Sync EndpointTransport ControllerTransport Zone ZoneAudio.

Local Open Scope Z_scope.

(** ** A group that is not full *)

Section partial.
Context (n : nat) (base : Z) (hdr : nat → AudioPacketHeader) (pay : nat → list Z).
Context (ph : AudioPacketHeader) (pp : list Z).
Hypothesis Hgroup : fec_group n base hdr pay ph pp.

Abbreviation packet_of := (packet_of hdr pay ph pp).
Abbreviation assembling := (assembling n base hdr pay ph pp).
Abbreviation group_packets := (group_packets n hdr pay).

Lemma same_counters_trans r1 r2 r3 : same_counters r1 r2 → same_counters r2 r3 → same_counters r1 r3.
Proof. intros (? & ? & ?) (? & ? & ?). unfold same_counters. split_and!; congruence. Qed.

(** Fewer arrivals than the group has packets deliver nothing. *)
Lemma feed_waits seen r order :
  assembling seen r → NoDup (order ++ seen) → Forall (in_group n) order → (length order + length seen < n)%nat →
  ∃ r', receiver_run r (packet_of <$> order) = Ret (replicate (length order) [], r') ∧
    assembling (reverse order ++ seen) r' ∧ same_counters r r'.
Proof.
  revert seen r. induction order as [|a order IH]; intros seen r Has Hnd Hin Hl; [by exists r|].
  apply Forall_cons in Hin as [Ha Hin]. cbn [length app] in Hl, Hnd. apply NoDup_cons in Hnd as [Hn Hnd].
  destruct (feed_more n base hdr pay ph pp Hgroup seen r a Has Ha) as (r1 & Has1 & Hc1 & Hf); [set_solver|].
  assert (NoDup (order ++ a :: seen)) as Hnd' by (rewrite <- Permutation_middle; by constructor).
  destruct (IH (a :: seen) r1 Has1 Hnd' Hin) as (r' & Hrun & Has' & Hc'); [cbn; lia|].
  exists r'. rewrite fmap_cons. destruct (packet_of a) as [h p] eqn:Ep. cbn [receiver_run]. cbn [fst snd] in Hf. rewrite Hf.
  rewrite (try_complete_waits n base hdr pay ph pp Hgroup (a :: seen) r1 Has1);
    [|by apply NoDup_app in Hnd' as (_ & _ & ?)|cbn; lia].
  cbn [outcome_bind]. rewrite Hrun. cbn [outcome_bind length replicate]. rewrite reverse_cons, <- (assoc_L (++)).
  split_and!; [done|done|by eapply same_counters_trans].
Qed.

(** The first [m] packets of a group, in order. *)
Definition firsts (m : nat) : list arrival := Some <$> seq 0 m.

Lemma firsts_packets m : (m ≤ n)%nat → packet_of <$> firsts m = take m group_packets.
Proof.
  intros Hm. unfold firsts, FecRecovery.group_packets. rewrite <- list_fmap_compose, <- fmap_take.
  f_equal. rewrite take_seq. f_equal. lia.
Qed.

Lemma firsts_in_group m : (m ≤ n)%nat → Forall (in_group n) (firsts m).
Proof. intros Hm. apply Forall_fmap, Forall_seq. intros i Hi. simpl. lia. Qed.

Lemma firsts_NoDup m : NoDup (firsts m).
Proof. apply NoDup_fmap_2; [intros ?? [=]; done|apply NoDup_seq]. Qed.

Lemma elem_of_firsts m i : Some i ∈ firsts m ↔ (i < m)%nat.
Proof.
  unfold firsts. rewrite list_elem_of_fmap. split.
  - intros (j & [= ->] & Hj). apply elem_of_seq in Hj. lia.
  - intros Hi. exists i. split; [done|]. apply elem_of_seq. lia.
Qed.

Lemma firsts_data_count m : data_count (firsts m) = m.
Proof.
  unfold data_count, firsts. rewrite <- (length_seq m 0) at 2.
  induction (seq 0 m) as [|i l IH]; [done|]. cbn. by f_equal.
Qed.

(** Flushing then hands over what has arrived, in order, and counts the packets
    of the group that have not, sent or not, as lost. *)
Lemma flush_partial seen r m :
  assembling seen r → (∀ a, a ∈ seen ↔ a ∈ firsts m) → data_count seen = m → (m ≤ n)%nat →
  ∃ r', receiver_flush r = (take m group_packets, r') ∧ base_seq r' = None ∧ prev_base_seq r' = Some base ∧
    lost r' = lost r + Z.of_nat (n - m) ∧ recovered r' = recovered r.
Proof.
  intros Has Hseen Hcount Hm. unfold receiver_flush. rewrite (as_base _ _ _ _ _ _ _ _ Has). unfold take_group. cbn.
  eexists. split; [f_equal|].
  - assert (slots r = (Some <$> take m group_packets) ++ replicate (n - m) None) as ->.
    { assert (length group_packets = n) as Hlen by (unfold FecRecovery.group_packets; by rewrite length_fmap, length_seq).
      apply (list_eq_same_length _ _ n); [|apply (as_length _ _ _ _ _ _ _ _ Has)|].
      { rewrite length_app, length_fmap, length_take, length_replicate, Hlen. lia. }
      intros i x y Hi Hx Hy. rewrite (as_slots _ _ _ _ _ _ _ _ Has i Hi) in Hx. injection Hx as <-.
      destruct (decide (i < m)%nat) as [Him|Him].
      - rewrite bool_decide_eq_true_2 by by apply Hseen, elem_of_firsts.
        rewrite lookup_app_l in Hy by (rewrite length_fmap, length_take; lia).
        rewrite list_lookup_fmap, lookup_take_lt in Hy by done. unfold FecRecovery.group_packets in Hy.
        rewrite list_lookup_fmap, lookup_seq_lt in Hy by done. by injection Hy.
      - rewrite bool_decide_eq_false_2 by (rewrite Hseen, elem_of_firsts; done).
        rewrite lookup_app_r in Hy by (rewrite length_fmap, length_take; lia).
        apply lookup_replicate in Hy as [-> _]. done. }
    rewrite flatten_app, flatten_Some.
    assert (flatten (replicate (n - m) None) = []) as -> by (clear; induction (n - m)%nat; done). apply app_nil_r.
  - pose proof (as_missing _ _ _ _ _ _ _ _ Has).
    split_and!; try done. cbn. lia.
Qed.

Lemma firsts_S m : firsts (S m) = firsts m ++ [Some m].
Proof. unfold firsts. by rewrite seq_S, fmap_app. Qed.

Lemma seen_count m seen : NoDup seen → (∀ a, a ∈ seen ↔ a ∈ firsts m) → data_count seen = m ∧ length seen = m.
Proof.
  intros Hnd Hseen. assert (seen ≡ₚ firsts m) as Hp by (apply NoDup_Permutation; [done|apply firsts_NoDup|done]).
  split.
  - unfold data_count. rewrite Hp. apply firsts_data_count.
  - rewrite Hp. unfold firsts. by rewrite length_fmap, length_seq.
Qed.

(** A group's first [m] packets, on an idle receiver. *)
Lemma partial_run r m :
  base_seq r = None → prev_base_seq r ≠ Some base → (1 ≤ m < n)%nat →
  ∃ outs r1 seen, receiver_run r (take m group_packets) = Ret (outs, r1) ∧ concat outs = [] ∧
    assembling seen r1 ∧ NoDup seen ∧ (∀ a, a ∈ seen ↔ a ∈ firsts m) ∧ same_counters r r1.
Proof.
  intros Hb Hp [Hm Hmn]. rewrite <- firsts_packets by lia. destruct m as [|m]; [lia|].
  destruct (feed_first n base hdr pay ph pp Hgroup r 0 Hb Hp ltac:(lia)) as (r0 & Has & Hc & Hf).
  assert (firsts (S m) = Some 0%nat :: (Some <$> seq 1 m)) as Hfirsts by done.
  pose proof (firsts_NoDup (S m)) as Hnd. pose proof (firsts_in_group (S m) ltac:(lia)) as Hin. rewrite Hfirsts in Hnd, Hin |- *.
  destruct (feed_waits [Some 0%nat] r0 (Some <$> seq 1 m) Has) as (r1 & Hrun & Has1 & Hc1).
  { by rewrite <- Permutation_cons_append. }
  { by apply Forall_cons in Hin as [_ ?]. }
  { rewrite length_fmap, length_seq. cbn. lia. }
  exists ([] :: replicate (length (Some <$> seq 1 m)) []), r1, (reverse (Some <$> seq 1 m) ++ [Some 0%nat]).
  rewrite fmap_cons. cbn [FecRecovery.packet_of receiver_run]. rewrite Hf. cbn [outcome_bind]. rewrite Hrun.
  split; [done|]. split; [|split; [done|split; [|split; [|by eapply same_counters_trans]]]].
  - cbn [concat app]. generalize (length (Some <$> seq 1 m)). intros k. induction k; done.
  - by rewrite reverse_Permutation, <- Permutation_cons_append.
  - intros a. rewrite elem_of_app, elem_of_reverse. set_solver.
Qed.

Lemma delivered_all seen out :
  FecRecovery.delivered n hdr pay seen out → (∀ a, a ∈ seen ↔ a ∈ firsts n) → out = group_packets.
Proof.
  intros [Hl Hd] Hseen. unfold FecRecovery.group_packets.
  apply (list_eq_same_length _ _ n); [by rewrite length_fmap, length_seq|done|].
  intros i x y Hi Hx Hy. rewrite list_lookup_fmap, lookup_seq_lt in Hy by done. cbn in Hy.
  destruct (Hd i Hi) as (h & Ho & Hh). rewrite bool_decide_eq_true_2 in Hh by by apply Hseen, elem_of_firsts.
  subst h. by simplify_eq.
Qed.

(** The last packet to arrive in order: if it fills the group, the group is
    delivered; if not, the flush delivers what there is. *)
Lemma last_feed r m :
  base_seq r = None → prev_base_seq r ≠ Some base → (1 ≤ m ≤ n)%nat →
  ∃ outs r1 out r2 tail r3,
    receiver_run r (take (m - 1) group_packets) = Ret (outs, r1) ∧ concat outs = [] ∧
    receiver_feed r1 (hdr (m - 1)) (pay (m - 1)) = Ret (out, r2) ∧ receiver_flush r2 = (tail, r3) ∧
    out ++ tail = take m group_packets ∧ base_seq r3 = None ∧ lost r3 = lost r + Z.of_nat (n - m) ∧ recovered r3 = recovered r.
Proof.
  intros Hb Hp [Hm1 Hmn]. assert (2 ≤ n)%nat by apply Hgroup. destruct (decide (m = 1)%nat) as [->|Hne].
  - destruct (feed_first n base hdr pay ph pp Hgroup r 0 Hb Hp ltac:(lia)) as (r1 & Has & (_ & Hr & Hl) & Hf).
    destruct (flush_partial [Some 0%nat] r1 1 Has) as (r' & Hfl & Hb' & _ & Hl' & Hr'); [done|done|lia|].
    exists [], r, [], r1, (take 1 group_packets), r'. rewrite Hl', Hr', Hl, Hr. split_and!; done.
  - destruct (partial_run r (m - 1) Hb Hp ltac:(lia)) as (outs & r1 & seen & Hrun & Ho & Has & Hnd & Hseen & (Hp1 & Hr1 & Hl1)).
    assert (∀ a, a ∈ Some (m - 1)%nat :: seen ↔ a ∈ firsts m) as Hseen'.
    { intros a. replace m with (S (m - 1)) at 2 by lia. rewrite firsts_S, elem_of_app, elem_of_cons, Hseen. set_solver. }
    assert (Some (m - 1)%nat ∉ seen) as Hnew by (rewrite Hseen, elem_of_firsts; lia).
    assert (NoDup (Some (m - 1)%nat :: seen)) as Hnd' by by constructor.
    destruct (seen_count m _ Hnd' Hseen') as [Hcount Hlen].
    destruct (feed_more n base hdr pay ph pp Hgroup seen r1 (Some (m - 1)%nat) Has) as (r2 & Has2 & (Hp2 & Hr2 & Hl2) & Hf);
      [cbn; lia|done|]. cbn [FecRecovery.packet_of fst snd] in Hf.
    destruct (decide (m = n)) as [Hfull|Hfull].
    + destruct (try_complete_delivers n base hdr pay ph pp Hgroup _ r2 Has2 Hnd') as (out & r3 & Htc & Hd & Hb3 & _ & Hl3 & Hr3);
        [by rewrite Hlen|].
      exists outs, r1, out, r3, [], r3. rewrite Hf, Htc. unfold receiver_flush. rewrite Hb3.
      rewrite bool_decide_eq_false_2 in Hr3.
      2:{ rewrite Hseen'. unfold firsts. intros (? & [=] & _)%list_elem_of_fmap. }
      subst m. rewrite app_nil_r, (delivered_all _ _ Hd Hseen'), (take_ge group_packets n) by (unfold FecRecovery.group_packets; rewrite length_fmap, length_seq; lia).
      split_and!; try done; [|lia]. rewrite Hl3, Hl2, Hl1. lia.
    + destruct (flush_partial _ r2 m Has2 Hseen' Hcount ltac:(lia)) as (r3 & Hfl & Hb3 & _ & Hl3 & Hr3).
      exists outs, r1, [], r2, (take m group_packets), r3. rewrite Hf, (try_complete_waits n base hdr pay ph pp Hgroup _ r2 Has2) by (done || lia).
      rewrite Hl3, Hr3, Hl2, Hr2, Hl1, Hr1. split_and!; done.
Qed.

End partial.

(** ** The receive loop on it *)

Lemma audio_run_app fec clock a b :
  audio_run fec clock (a ++ b) =
  outcome_bind (audio_run fec clock a) (λ '(evs, fec1, clock1),
    outcome_bind (audio_run fec1 clock1 b) (λ '(evs', fec2, clock2), Ret (evs ++ evs', fec2, clock2))).
Proof.
  revert fec clock. induction a as [|d a IH]; intros fec clock; cbn [audio_run app].
  { cbn [outcome_bind]. by destruct (audio_run fec clock b) as [[[]]|]. }
  destruct (audio_recv fec clock d) as [[[e0 f0] c0]|]; [|done]. cbn [outcome_bind]. rewrite IH.
  destruct (audio_run f0 c0 a) as [[[e1 f1] c1]|]; [|done]. cbn [outcome_bind].
  destruct (audio_run f1 c1 b) as [[[e2 f2] c2]|]; [|done]. cbn [outcome_bind]. by rewrite (assoc_L (++)).
Qed.

Lemma audio_run_feeds fec clock pkts outs fec' :
  Forall deliverable pkts → receiver_run fec pkts = Ret (outs, fec') →
  ∃ clock', audio_run fec clock (datagram_of <$> pkts) = Ret (packet_event <$> concat outs, fec', clock').
Proof.
  intros Hd Hrun. destruct (decide (pkts = [])) as [->|Hne].
  - cbn [receiver_run] in Hrun. simplify_eq. by exists clock.
  - destruct (audio_run_receiver fec clock pkts outs fec' Hd Hrun Hne) as (c & Hc & _). by exists c.
Qed.

(** The end of a stream: the last group in order, its last packet with the end
    mark, and its parity if it is full. *)
Lemma last_group_received n base hdr pay ph pp fec clock m :
  fec_group n base hdr pay ph pp → Forall sendable (group_packets n hdr pay ++ [(ph, pp)]) → flags ph = FEC →
  base_seq fec = None → prev_base_seq fec ≠ Some base → (1 ≤ m ≤ n)%nat →
  (∀ i, (i < m - 1)%nat → flags_contains (flags (hdr i)) LAST_PACKET = false) →
  flags_contains (flags (hdr (m - 1)%nat)) LAST_PACKET = true →
  ∃ fec' clock',
    audio_run fec clock (datagram_of <$> take m (group_packets n hdr pay) ++ (if (m =? n)%nat then [(ph, pp)] else [])) =
      Ret (packet_event <$> take m (group_packets n hdr pay), fec', clock') ∧
    link_stats clock' = (lost fec + Z.of_nat (n - m), recovered fec).
Proof.
  intros Hg Hs Hph Hb Hp Hm Hinit Hlast.
  destruct (last_feed n base hdr pay ph pp Hg fec m Hb Hp Hm) as (outs & r1 & out & r2 & tail & r3 & Hrun & Ho & Hf & Hfl & Happ & Hb3 & Hl & Hr).
  apply Forall_app in Hs as [Hdata Hpar]. apply Forall_cons in Hpar as [Hpar _].
  assert (∀ i, (i < n)%nat → sendable (hdr i, pay i)) as Hsend.
  { intros i Hi. rewrite Forall_forall in Hdata. apply Hdata, (list_elem_of_fmap_2 (λ i, (hdr i, pay i))), elem_of_seq. lia. }
  assert (take m (group_packets n hdr pay) = take (m - 1) (group_packets n hdr pay) ++ [(hdr (m - 1)%nat, pay (m - 1)%nat)]) as Htake.
  { replace m with (S (m - 1)) at 1 by lia. apply take_S_r. unfold group_packets.
    rewrite list_lookup_fmap, lookup_seq_lt by lia. done. }
  assert (Forall deliverable (take (m - 1) (group_packets n hdr pay))) as Hdel.
  { unfold group_packets. rewrite <- fmap_take, take_seq. apply Forall_fmap, Forall_seq. intros i Hi.
    destruct (Hsend i ltac:(lia)) as (? & ? & ? & ?). unfold deliverable. cbn. split_and!; try done. apply Hinit. lia. }
  destruct (audio_run_feeds fec clock _ outs r1 Hdel Hrun) as (c1 & Hc1). rewrite Ho in Hc1. cbn [fmap list_fmap] in Hc1.
  rewrite Htake, !fmap_app, <- (assoc_L (++)), audio_run_app, Hc1. cbn [outcome_bind]. cbn [fmap list_fmap app audio_run].
  destruct (Hsend (m - 1)%nat ltac:(lia)) as (Hwf & Hv & Hlen & Hmax). cbn [fst snd] in Hwf, Hv, Hlen, Hmax.
  unfold datagram_of at 1, audio_datagram. cbn [fst snd]. rewrite audio_recv_datagram by done. rewrite Hf. cbn [outcome_bind].
  rewrite Hlast, Hfl. cbn [outcome_bind].
  assert (packet_event <$> take (m - 1) (group_packets n hdr pay) ++ [(hdr (m - 1)%nat, pay (m - 1)%nat)] =
          (λ q : FecPacket, EvAudioPacket q.1 q.2) <$> out ++ tail) as Hevs by by rewrite Happ, Htake.
  rewrite fmap_app in Hevs. cbn [fmap list_fmap] in Hevs.
  destruct (m =? n)%nat; cbn [fmap list_fmap audio_run outcome_bind].
  - destruct Hpar as (Hwf2 & Hv2 & Hlen2 & Hmax2). cbn [fst snd] in *.
    unfold datagram_of, audio_datagram. cbn [fst snd]. rewrite audio_recv_packet by (done || by rewrite Hph).
    rewrite feed_parity_idle by (done || by rewrite Hph). cbn [outcome_bind]. cbn [fmap list_fmap]. rewrite !app_nil_r.
    eexists _, _. rewrite <- Hevs. split; [done|]. unfold link_stats, set_link_stats. cbn. by rewrite Hl, Hr.
  - eexists _, _. rewrite app_nil_r, <- Hevs. split; [done|]. unfold link_stats, set_link_stats. cbn. by rewrite Hl, Hr.
Qed.

(** ** The sender *)

Lemma send_many_app z sid fmt a b :
  send_many z sid fmt (a ++ b) =
  let '(p, z1) := send_many z sid fmt a in let '(q, z2) := send_many z1 sid fmt b in (p ++ q, z2).
Proof.
  revert z. induction a as [|x a IH]; intros z; cbn [send_many app].
  { by destruct (send_many z sid fmt b). }
  destruct (send_audio_packets z _ _ _ _ _ _) as [p0 z0]. rewrite IH.
  destruct (send_many z0 sid fmt a) as [p1 z1]. destruct (send_many z1 sid fmt b) as [p2 z2]. by rewrite (assoc_L (++)).
Qed.

(** Before its last packet a group puts one packet on the wire per call. *)
Lemma send_many_open g ps0 z e sid fmt args :
  encoder_inv g ps0 e → z_fec z = Some e → len ps0 + len args < g →
  length (send_many z sid fmt args).1 = length args.
Proof.
  revert ps0 z e. induction args as [|a args IH]; intros ps0 z e Hi Hz Hlen; [done|].
  rewrite len_cons in Hlen. pose proof (len_nonneg args). pose proof (encoder_feed_spec g ps0 e (aa_payload a) Hi) as Hf.
  cbn [send_many]. unfold send_audio_packets. rewrite Hz. destruct (encoder_feed e (aa_payload a)) as [r e1].
  destruct (Z.leb_spec g (len ps0 + 1)); [lia|]. destruct Hf as [-> Hi'].
  match goal with |- context [send_many ?z1 sid fmt args] =>
    pose proof (IH (ps0 ++ [aa_payload a]) z1 e1 Hi' eq_refl ltac:(autorewrite with oaat; lia)) as Hl;
    destruct (send_many z1 sid fmt args) as [p z2] end.
  cbn in *. lia.
Qed.

(** The order in which the packets of a complete group arrive: as many of the
    packets on the wire (the last is the parity) as the group has data, a data
    packet first, and possibly the parity after them. *)
Record group_order := mkOrder { go_first : nat; go_rest : list nat; go_late_parity : bool }.

Definition order_ok (n : nat) (o : group_order) : Prop :=
  (go_first o < n)%nat ∧ NoDup (go_first o :: go_rest o) ∧ Forall (λ i, (i ≤ n)%nat) (go_rest o) ∧
  length (go_first o :: go_rest o) = n.

Definition arrives (pkts : list FecPacket) (o : group_order) : list FecPacket :=
  omap (λ i, pkts !! i) (go_first o :: go_rest o ++ if go_late_parity o then [length pkts - 1]%nat else []).

Definition payloads_of (evs : list EndpointEvent) : list (list Z) :=
  omap (λ ev, match ev with EvAudioPacket _ p => Some p | _ => None end) evs.

Lemma payloads_of_packets pkts : payloads_of (packet_event <$> pkts) = snd <$> pkts.
Proof. induction pkts as [|p pkts IH]; [done|]. cbn. by f_equal. Qed.

Lemma payloads_of_app a b : payloads_of (a ++ b) = payloads_of a ++ payloads_of b.
Proof. unfold payloads_of. by rewrite omap_app. Qed.

Lemma wire_arrivals n hdr pay ph pp order :
  Forall (λ i, (i ≤ n)%nat) order →
  omap (λ i, (group_packets n hdr pay ++ [(ph, pp)]) !! i) order = packet_of hdr pay ph pp <$> (arrival_of n <$> order).
Proof.
  induction 1 as [|i order Hi _ IH]; [done|]. cbn [omap list_omap]. rewrite wire_packet by done.
  cbn. by f_equal.
Qed.

Lemma arrives_wire n base hdr pay ph pp o :
  order_ok n o →
  arrives (group_packets n hdr pay ++ [(ph, pp)]) o =
    wg_arrivals (mkWireGroup n base hdr pay ph pp (go_first o) (arrival_of n <$> go_rest o) (go_late_parity o)).
Proof.
  intros (Hf & _ & Hr & _). unfold arrives, wg_arrivals, wg_order. cbn [wg_n wg_hdr wg_pay wg_ph wg_pp wg_first wg_rest wg_late_parity].
  assert (length (group_packets n hdr pay ++ [(ph, pp)]) - 1 = n)%nat as ->.
  { unfold group_packets. rewrite length_app, length_fmap, length_seq. cbn. lia. }
  rewrite wire_arrivals.
  - f_equal. rewrite fmap_cons, fmap_app. unfold arrival_of at 1. rewrite (proj2 (Nat.ltb_lt _ _)) by done. cbn [app]. f_equal. f_equal.
    destruct (go_late_parity o); [|done]. cbn. unfold arrival_of. by rewrite Nat.ltb_irrefl.
  - constructor; [lia|]. apply Forall_app. split; [done|]. destruct (go_late_parity o); by repeat constructor.
Qed.

Lemma order_wire_group n base hdr pay ph pp o :
  fec_group n base hdr pay ph pp → order_ok n o →
  wire_group_ok (mkWireGroup n base hdr pay ph pp (go_first o) (arrival_of n <$> go_rest o) (go_late_parity o)).
Proof.
  intros Hg (Hf & Hnd & Hr & Hl).
  assert (Some (go_first o) :: (arrival_of n <$> go_rest o) = arrival_of n <$> go_first o :: go_rest o) as E.
  { rewrite fmap_cons. f_equal. unfold arrival_of. by rewrite (proj2 (Nat.ltb_lt _ _)). }
  assert (Forall (λ i, (i ≤ n)%nat) (go_first o :: go_rest o)) as Hle by (constructor; [lia|done]).
  split; unfold wg_order; cbn [wg_n wg_base wg_hdr wg_pay wg_ph wg_pp wg_first wg_rest]; [done|rewrite E..].
  - by apply arrival_of_NoDup.
  - apply arrival_of_in_group.
  - by rewrite length_fmap.
Qed.

(** A sender between two groups. *)
Record between_groups (g : Z) (z : Zone) : Prop := {
  bg_fec : ∃ e, z_fec z = Some e ∧ encoder_inv g [] e;
  bg_sequence : is_u16 (z_sequence z)
}.

(** A receiver between two groups, the next of which is not the last one. *)
Definition receptive (fec : FecReceiver) (z : Zone) : Prop :=
  base_seq fec = None ∧ prev_base_seq fec ≠ Some (z_sequence z).

Lemma group_step g z sid fmt gs o fec clock :
  between_groups g z → is_u32 sid → len gs = g → Forall args_ok gs → order_ok (length gs) o → receptive fec z →
  ∃ pkts z' evs fec' clock',
    send_many z sid fmt gs = (pkts, z') ∧ length pkts = S (length gs) ∧ between_groups g z' ∧
    audio_run fec clock (datagram_of <$> arrives pkts o) = Ret (evs, fec', clock') ∧
    payloads_of evs = payloads gs ∧ receptive fec' z' ∧ lost fec' = lost fec.
Proof.
  intros [(e & Hz & Hi) Hseq] Hsid Hlen Hok Ho [Hb Hp]. pose proof Hi as [_ Hg _ _ _].
  destruct (zone_group_on_wire g z e sid fmt gs Hz Hi Hseq Hsid Hlen Hok) as (ph & pp & z' & e' & Hsend & Hgrp & Hdel & Hz' & Hi' & Hs' & _).
  set (hdr := λ i, zone_header (z_sequence z) g sid fmt i (nth_args gs i)) in *. set (pay := λ i, aa_payload (nth_args gs i)) in *.
  pose proof (order_wire_group _ (z_sequence z) hdr pay ph pp o Hgrp Ho) as Hw.
  destruct (group_arrivals_delivery _ fec Hw Hb Hp) as (outs & out & fec' & Hrun & <- & Hd & Hb' & Hp' & Hl' & _).
  rewrite <- arrives_wire in Hrun by done. cbn [wg_n wg_base wg_hdr wg_pay] in *.
  assert (Forall deliverable (arrives (group_packets (length gs) hdr pay ++ [(ph, pp)]) o)) as Hdl.
  { apply Forall_forall. intros p Hin. unfold arrives in Hin. apply list_elem_of_omap in Hin as (i & _ & Hi2).
    rewrite Forall_forall in Hdel. apply Hdel. by eapply list_elem_of_lookup_2. }
  destruct (audio_run_feeds fec clock _ _ _ Hdl Hrun) as (clock' & Hav).
  eexists _, z', _, fec', clock'. split; [exact Hsend|]. split; [|split; [|split; [exact Hav|split; [|split; [|done]]]]].
  - unfold group_packets. rewrite length_app, length_fmap, length_seq. cbn. lia.
  - split; [by exists e'|]. rewrite Hs'. apply wrapping_add_range. lia.
  - rewrite payloads_of_packets, payloads_nth. by apply (delivered_payloads _ _ _ _ _ Hd).
  - split; [done|]. rewrite Hp', Hs'. intros [= E]. unfold wrapping_add, as_u in E. unfold in_u in Hseq.
    Z.div_mod_to_equations. lia.
Qed.

Lemma groups_stream g z sid fmt gss orders fec clock :
  between_groups g z → is_u32 sid → Forall (λ gs, len gs = g ∧ Forall args_ok gs) gss →
  Forall2 (λ gs o, order_ok (length gs) o) gss orders → receptive fec z →
  ∃ gpkts z' evs fec' clock',
    send_many z sid fmt (concat gss) = (concat gpkts, z') ∧ between_groups g z' ∧
    Forall2 (λ gs pkts, length pkts = S (length gs)) gss gpkts ∧
    audio_run fec clock (datagram_of <$> concat (zip_with arrives gpkts orders)) = Ret (evs, fec', clock') ∧
    payloads_of evs = payloads (concat gss) ∧ receptive fec' z' ∧ lost fec' = lost fec.
Proof.
  intros Hz Hsid Hgss Horders. revert z fec clock Hz Hgss. induction Horders as [|gs o gss orders Ho _ IH]; intros z fec clock Hz Hgss Hrec.
  { exists [], z, [], fec, clock. by split_and!. }
  apply Forall_cons in Hgss as [[Hlen Hok] Hgss].
  destruct (group_step g z sid fmt gs o fec clock Hz Hsid Hlen Hok Ho Hrec) as (pkts & z1 & evs & fec1 & clock1 & Hsend & Hl & Hz1 & Hrun & Hev & Hrec1 & Hlost).
  destruct (IH z1 fec1 clock1 Hz1 Hgss Hrec1) as (gpkts & z' & evs' & fec' & clock' & Hsend' & Hz' & Hl' & Hrun' & Hev' & Hrec' & Hlost').
  exists (pkts :: gpkts), z', (evs ++ evs'), fec', clock'. cbn [concat zip_with].
  rewrite send_many_app, Hsend, Hsend', fmap_app, audio_run_app, Hrun. cbn [outcome_bind]. rewrite Hrun'. cbn [outcome_bind].
  split_and!; try done; [by constructor| |by rewrite Hlost'].
  rewrite payloads_of_app, Hev, Hev'. unfold payloads. by rewrite fmap_app.
Qed.

(** A last group of [m] packets, the sender's side: the first [m] packets of a
    group, and the parity only when it is full. *)
Lemma tail_on_wire g z sid fmt args :
  between_groups g z → is_u32 sid → (1 ≤ length args)%nat → len args ≤ g → Forall args_sendable args →
  ∃ hdr pay ph pp z',
    fec_group (Z.to_nat g) (z_sequence z) hdr pay ph pp ∧ flags ph = FEC ∧
    Forall sendable (group_packets (Z.to_nat g) hdr pay ++ [(ph, pp)]) ∧
    (∀ i a, args !! i = Some a → flags (hdr i) = aa_flags a) ∧
    snd <$> take (length args) (group_packets (Z.to_nat g) hdr pay) = payloads args ∧
    send_many z sid fmt args =
      (take (length args) (group_packets (Z.to_nat g) hdr pay) ++
       (if (length args =? Z.to_nat g)%nat then [(ph, pp)] else []), z').
Proof.
  intros [(e & Hz & Hi) Hseq] Hsid Hm Hlen Hok. pose proof Hi as [_ Hg _ _ _].
  set (pad := replicate (Z.to_nat g - length args) (mkArgs 0 0 [] 0)).
  assert (length (args ++ pad) = Z.to_nat g) as Hfull by (unfold pad, len in *; rewrite length_app, length_replicate; lia).
  destruct (zone_group_sends g z e sid fmt (args ++ pad) Hz Hi Hseq Hsid) as (ph & pp & z' & e' & Hsend & Hgrp & Hs & Hph & _).
  { unfold len. lia. }
  { apply Forall_app. split; [done|]. unfold pad. apply Forall_replicate. by repeat split. }
  rewrite Hfull in Hsend, Hgrp, Hs. set (hdr := λ i, zone_header _ _ _ _ i _) in *. set (pay := λ i, aa_payload _) in *.
  assert (∀ i a, args !! i = Some a → nth_args (args ++ pad) i = a) as Hnth.
  { intros i a Ha. unfold nth_args. rewrite app_nth1 by by apply lookup_lt_Some in Ha. by apply nth_lookup_Some. }
  destruct (send_many z sid fmt args) as [pkts z1] eqn:Ha.
  exists hdr, pay, ph, pp, z1. do 3 (split; [done|]).
  assert (length (group_packets (Z.to_nat g) hdr pay) = Z.to_nat g) as Hgl by (unfold group_packets; by rewrite length_fmap, length_seq).
  split; [intros i a Hl; unfold hdr; by rewrite (Hnth i a Hl)|]. split.
  - assert (snd <$> group_packets (Z.to_nat g) hdr pay = payloads (args ++ pad)) as Hp.
    { rewrite payloads_nth, Hfull. unfold group_packets. by rewrite <- list_fmap_compose. }
    rewrite fmap_take, Hp. unfold payloads. rewrite fmap_app, take_app_length'; [done|by rewrite length_fmap].
  - rewrite send_many_app, Ha in Hsend. f_equal. destruct (Nat.eqb_spec (length args) (Z.to_nat g)) as [Heq|Hne].
    + unfold pad in Hsend. rewrite Heq, Nat.sub_diag in Hsend. cbn [replicate send_many] in Hsend. rewrite app_nil_r in Hsend.
      simplify_eq. by rewrite take_ge by lia.
    + pose proof (send_many_open g [] z e sid fmt args Hi Hz ltac:(unfold len in *; cbn; lia)) as Hl. rewrite Ha in Hl. cbn in Hl.
      destruct (send_many z1 sid fmt pad) as [q z2]. injection Hsend as Hpk _. rewrite app_nil_r, <- Hl.
      apply (f_equal (take (length pkts))) in Hpk. rewrite take_app_length in Hpk. rewrite Hpk at 1.
      apply take_app_le. rewrite Hgl. unfold len in Hlen. lia.
Qed.

(** Any list of packets is some complete groups and a rest. *)
Lemma split_groups {A} (n k : nat) (l : list A) :
  (k * n ≤ length l)%nat →
  ∃ gss, length gss = k ∧ Forall (λ gs, length gs = n) gss ∧ l = concat gss ++ drop (k * n) l.
Proof.
  revert l. induction k as [|k IH]; intros l Hl; [by exists []|].
  destruct (IH (drop n l)) as (gss & Hk & Hall & E); [rewrite length_drop; lia|].
  exists (take n l :: gss). split; [by cbn; rewrite Hk|]. split.
  - constructor; [|done]. rewrite length_take. lia.
  - cbn [concat]. rewrite <- (assoc_L (++)). rewrite <- (take_drop n l) at 1. f_equal.
    rewrite E at 1. by rewrite drop_drop.
Qed.

(** The same from any receiver between two groups. *)
Lemma stream_delivered g z sid fmt gss orders init last fec clock :
  between_groups g z → is_u32 sid →
  Forall (λ gs, len gs = g ∧ Forall args_ok gs) gss → Forall2 (λ gs o, order_ok (length gs) o) gss orders →
  receptive fec z → Forall args_ok init → args_sendable last → flags_contains (aa_flags last) LAST_PACKET = true → len init < g →
  ∃ gpkts tpkts z' evs fec' clock',
    send_many z sid fmt (concat gss ++ init ++ [last]) = (concat gpkts ++ tpkts, z') ∧
    Forall2 (λ gs pkts, length pkts = S (length gs)) gss gpkts ∧
    audio_run fec clock (datagram_of <$> concat (zip_with arrives gpkts orders) ++ tpkts) = Ret (evs, fec', clock') ∧
    payloads_of evs = payloads (concat gss ++ init ++ [last]) ∧
    (link_stats clock').1 = lost fec + (g - (len init + 1)).
Proof.
  intros Hz Hsid Hgss Ho Hrec Hinit Hlast Hend Hlen.
  destruct (groups_stream g z sid fmt gss orders fec clock Hz Hsid Hgss Ho Hrec) as
    (gpkts & z1 & evs & fec1 & clock1 & Hsend & Hz1 & Hl & Hrun & Hev & [Hb Hp] & Hlost).
  assert (Forall args_sendable (init ++ [last])) as Hok.
  { apply Forall_app. split; [eapply Forall_impl; [exact Hinit|apply args_ok_sendable]|by apply Forall_singleton]. }
  assert (length (init ++ [last]) = S (length init)) as Hm by (rewrite length_app; cbn; lia).
  destruct (tail_on_wire g z1 sid fmt (init ++ [last]) Hz1 Hsid) as (hdr & pay & ph & pp & z' & Hgrp & Hph & Hs & Hfl & Hpay & Htail);
    [lia|unfold len in *; lia|done|].
  destruct (last_group_received _ _ hdr pay ph pp fec1 clock1 (length (init ++ [last])) Hgrp Hs Hph Hb Hp) as (fec' & clock' & Htr & Hstats).
  { unfold len in *. lia. }
  { intros i Hi. rewrite Hm in Hi. destruct (lookup_lt_is_Some_2 init i ltac:(lia)) as [a Ha].
    rewrite (Hfl i a) by by apply lookup_app_l_Some. rewrite Forall_lookup in Hinit. by destruct (Hinit i a Ha) as [(_ & _ & ?) _ _ _]. }
  { rewrite (Hfl _ last); [done|]. rewrite Hm, lookup_app_r by lia. by replace (S (length init) - 1 - length init)%nat with 0%nat by lia. }
  exists gpkts, (take (length (init ++ [last])) (group_packets (Z.to_nat g) hdr pay) ++
    (if (length (init ++ [last]) =? Z.to_nat g)%nat then [(ph, pp)] else [])), z', (evs ++ (packet_event <$> take (length (init ++ [last])) (group_packets (Z.to_nat g) hdr pay))), fec', clock'.
  split; [by rewrite send_many_app, Hsend, Htail|]. split; [done|]. split; [|split].
  - rewrite (fmap_app datagram_of (concat _)), audio_run_app, Hrun. cbn [outcome_bind]. by rewrite Htr.
  - rewrite payloads_of_app, Hev, payloads_of_packets, Hpay. unfold payloads. by rewrite !fmap_app.
  - rewrite Hstats. cbn [fst]. rewrite Hlost. unfold len in *. rewrite Hm. lia.
Qed.

(** C6 A whole stream, from the zone to the loudspeaker: any number of
    complete groups, each losing at most one of its packets (data or parity)
    and arriving in any order (a data packet first), then a last group of one
    packet or more whose last packet has the end mark, in order.  The endpoint
    delivers exactly the payloads of the stream, in order.  The packets a last
    group that is not full lacks, which were never sent, are reported as
    lost. *)
Theorem stream_to_endpoint g z sid fmt gss orders init last clock :
  between_groups g z → is_u32 sid →
  Forall (λ gs, len gs = g ∧ Forall args_ok gs) gss → Forall2 (λ gs o, order_ok (length gs) o) gss orders →
  Forall args_ok init → args_sendable last → flags_contains (aa_flags last) LAST_PACKET = true → len init < g →
  ∃ gpkts tpkts z' evs fec' clock',
    send_many z sid fmt (concat gss ++ init ++ [last]) = (concat gpkts ++ tpkts, z') ∧
    Forall2 (λ gs pkts, length pkts = S (length gs)) gss gpkts ∧
    audio_run FecReceiver_new clock (datagram_of <$> concat (zip_with arrives gpkts orders) ++ tpkts) = Ret (evs, fec', clock') ∧
    payloads_of evs = payloads (concat gss ++ init ++ [last]) ∧
    (link_stats clock').1 = g - (len init + 1).
Proof.
  intros Hz Hsid Hgss Ho Hinit Hlast Hend Hlen.
  by apply (stream_delivered g z sid fmt gss orders init last FecReceiver_new clock).
Qed.

(** A group whose second packet is lost and whose parity overtakes the first
    and comes again, then a group of two. *)
Lemma stream_to_endpoint_witness :
  ∃ gpkts tpkts z' evs fec' clock',
    send_many demo_zone 7 PcmS24le (concat [demo_args] ++ [mkArgs 1030 1440 [7; 8] 0] ++ [mkArgs 1040 1920 [] LAST_PACKET]) =
      (concat gpkts ++ tpkts, z') ∧
    Forall2 (λ gs pkts, length pkts = S (length gs)) [demo_args] gpkts ∧
    audio_run FecReceiver_new SharedClock_new
      (datagram_of <$> concat (zip_with arrives gpkts [mkOrder 2 [3; 0]%nat true]) ++ tpkts) = Ret (evs, fec', clock') ∧
    payloads_of evs = [[1; 2; 3]; [4]; [5; 6]; [7; 8]; []] ∧
    (link_stats clock').1 = 1.
Proof.
  refine (stream_to_endpoint 3 demo_zone 7 PcmS24le [demo_args] [mkOrder 2 [3; 0]%nat true] [mkArgs 1030 1440 [7; 8] 0]
            (mkArgs 1040 1920 [] LAST_PACKET) SharedClock_new _ _ _ _ _ _ eq_refl _).
  - split; [exists (mkEncoder 3 [] 0 0); split; [done|]|split; vm_compute; discriminate || reflexivity].
    split; try done; vm_compute; try split; discriminate || reflexivity.
  - split; vm_compute; discriminate || reflexivity.
  - repeat constructor; vm_compute; discriminate || reflexivity.
  - constructor; [|done]. split; [cbn; lia|]. split; [apply (bool_decide_unpack _); by vm_compute|].
    split; [repeat constructor; cbn; lia|done].
  - repeat constructor; vm_compute; discriminate || reflexivity.
  - repeat constructor; vm_compute; discriminate || reflexivity.
  - vm_compute. reflexivity.
Defined.
