(* ===== verification/Server.v ===== *)
(** * The endpoint's accept loop

    Models [run_with_clock] of [crates/oaat-endpoint/src/transport.rs]: the
    loop that accepts one controller after another, the session it runs for
    each ([EndpointTransport]), the clock and audio tasks of that session, and
    what outlives the sessions: the channel of the application, the shared
    clock and the two datagram sockets.

    One turn is [server_step].  The accept loop, the session, the tasks and the
    application run concurrently, so a run is any sequence of enabled turns.
    A task that panics or whose socket fails is gone until the next session.
    What a turn tells the application is its output here: whether and when it
    gets through the bounded event channel, which a turn awaits, is the matter
    of [Endpoint], where a turn is over only once its last event is sent and
    may wait for ever ([wedged_for_good]). *)

From S2P Require Import Prelude Format Session Wire Message Codec Fec FecRecovery Clock Sync Negotiate EndpointTransport Zone ZoneAudio.

Local Open Scope Z_scope.

Section server.
Context `{JsonCodec} {IpAddr : Type}.
(** [tls] is the configuration's; [capacity] that of the control channel. *)
Context (cfg : EndpointConfig) (tls : bool) (capacity : nat).

Definition SocketAddr : Type := (IpAddr * Z)%type.

(** The sender half of [clock_sync_loop]; there is none without a target. *)
Record ClockTask := mkClockTask { ct_target : option SocketAddr; ct_sequence : Z }.

(** One connection: [peer.ip()], the phase of [EndpointSession::run], and the
    tasks it has spawned. *)
Record Connection := mkConnection {
  cn_peer : IpAddr;
  cn_phase : SessionPhase;
  cn_audio : option FecReceiver;
  cn_clock : option ClockTask
}.

(** [None] as the connection: the loop waits in [accept]. *)
Record Server := mkServer {
  sv_connection : option Connection;
  sv_channel : list Message;
  sv_clock : SharedClock;
  sv_audio_socket : list (list Z);
  sv_clock_socket : list (SocketAddr * list Z)
}.

Definition server_start (clock : SharedClock) : Server := mkServer None [] clock [] [].

Inductive ServerInput :=
(** the listener *)
| Accepted (peer : IpAddr) (tls_handshake : bool)
| AcceptFailed
(** the session: its stream, the channel, the timer *)
| Received (data : list Z) (now : Z)
| StreamFailed (e : OaatError)
| TakesControl (m : Message)
| TimerFired (now : Z)
(** the application *)
| AppSends (m : Message)
(** the datagram sockets, and the turns of the two tasks *)
| AudioArrives (d : list Z)
| AudioTurn (d : list Z)
| AudioSocketFailed
| ClockArrives (from : SocketAddr) (d : list Z)
| ClockTurn (d : list Z) (t2 t3 t4 : Z)
| ClockSocketFailed
| ClockRequestDue (t1 : Z).

Inductive ServerOutput :=
| SessionOut (o : Output)
| ClockSent (to : SocketAddr) (bytes : list Z).

(** The session's input of a turn. *)
Definition session_input (i : ServerInput) : option Input :=
  match i with
  | Received data now => Some (TcpRead data now)
  | StreamFailed e => Some (ReadError e)
  | TakesControl m => Some (Control m)
  | TimerFired now => Some (AcceptTimer now)
  | _ => None
  end.

Definition with_connection (s : Server) (c : option Connection) : Server :=
  mkServer c (sv_channel s) (sv_clock s) (sv_audio_socket s) (sv_clock_socket s).

Definition with_channel (s : Server) (q : list Message) : Server :=
  mkServer (sv_connection s) q (sv_clock s) (sv_audio_socket s) (sv_clock_socket s).

Definition with_audio (s : Server) (c : Connection) (a : option FecReceiver) (clock : SharedClock)
  (socket : list (list Z)) : Server :=
  mkServer (Some (mkConnection (cn_peer c) (cn_phase c) a (cn_clock c))) (sv_channel s) clock socket (sv_clock_socket s).

Definition with_clock_task (s : Server) (c : Connection) (t : option ClockTask) (clock : SharedClock)
  (socket : list (SocketAddr * list Z)) : Server :=
  mkServer (Some (mkConnection (cn_peer c) (cn_phase c) (cn_audio c) t)) (sv_channel s) clock (sv_audio_socket s) socket.

(** [EndpointSession::new]. *)
Definition new_connection (peer : IpAddr) : Connection := mkConnection peer session_start None None.

(** The tasks spawned after the handshake. *)
Definition spawn_tasks (peer : IpAddr) (v : SessionVars) : Connection :=
  mkConnection peer (Running v) (Some FecReceiver_new)
    (Some (mkClockTask ((λ port, (peer, port)) <$> controller_clock_port v) 0)).

(** Where the connection is after a turn of its session: its tasks start with
    the handshake and are aborted with it ([TaskGuard]); at its end the loop is
    back in [accept]. *)
Definition advance (c : Connection) (p : SessionPhase) : option Connection :=
  match cn_phase c, p with
  | _, Ended _ => None
  | WaitHello _, Running v => Some (spawn_tasks (cn_peer c) v)
  | _, _ => Some (mkConnection (cn_peer c) p (cn_audio c) (cn_clock c))
  end.

Definition session_turn (s : Server) (i : Input) : option (Server * list ServerOutput) :=
  match sv_connection s with
  | Some c =>
      match session_step cfg (cn_phase c) i with
      | Some (p, o) => Some (with_connection s (advance c p), SessionOut <$> o)
      | None => None
      end
  | None => None
  end.

(** [accept] returned a stream; with TLS its handshake follows, and a failed
    one is only logged. *)
Definition accepted (s : Server) (peer : IpAddr) (tls_handshake : bool) : Server :=
  if tls && negb tls_handshake then s else with_connection s (Some (new_connection peer)).

(** One datagram of [audio_receive_loop]. *)
Definition audio_turn (s : Server) (d : list Z) : option (Server * list ServerOutput) :=
  match sv_connection s, sv_audio_socket s with
  | Some c, first :: rest =>
      match cn_audio c with
      | Some fec =>
          if bool_decide (first = d) then
            match audio_recv fec (sv_clock s) d with
            | Ret (evs, fec, clock) => Some (with_audio s c (Some fec) clock rest, (SessionOut ∘ Event) <$> evs)
            | Panic => Some (with_audio s c None (sv_clock s) rest, [])
            end
          else None
      | None => None
      end
  | _, _ => None
  end.

(** One datagram of [clock_sync_loop]; the receive buffer has the size of a
    clock packet. *)
Definition clock_turn (s : Server) (d : list Z) (t2 t3 t4 : Z) : option (Server * list ServerOutput) :=
  match sv_connection s, sv_clock_socket s with
  | Some c, (from, first) :: rest =>
      match cn_clock c with
      | Some task =>
          if bool_decide (first = d) then
            let buf := take CLOCK_SYNC_SIZE d in
            let '(reply, clock) := clock_sync_recv (sv_clock s) (len buf) buf t2 t3 t4 in
            Some (with_clock_task s c (Some task) clock rest,
                  match reply with Some bytes => [ClockSent from bytes] | None => [] end)
          else None
      | None => None
      end
  | _, _ => None
  end.

(** One request of the sender half. *)
Definition clock_request_turn (s : Server) (t1 : Z) : option (Server * list ServerOutput) :=
  match sv_connection s with
  | Some c =>
      match cn_clock c with
      | Some (mkClockTask (Some target) sequence) =>
          let '(bytes, sequence, _) := clock_sync_send (sv_clock s) sequence t1 in
          Some (with_clock_task s c (Some (mkClockTask (Some target) sequence)) (sv_clock s) (sv_clock_socket s),
                [ClockSent target bytes])
      | _ => None
      end
  | None => None
  end.

(** One turn and what it tells, as if the application took every event at
    once; [Endpoint] makes it wait for the channel. *)
Definition server_step (s : Server) (i : ServerInput) : option (Server * list ServerOutput) :=
  match i with
  | Accepted peer tls_handshake =>
      match sv_connection s with None => Some (accepted s peer tls_handshake, []) | Some _ => None end
  | AcceptFailed => match sv_connection s with None => Some (s, []) | Some _ => None end
  | Received data now => session_turn s (TcpRead data now)
  | StreamFailed e => session_turn s (ReadError e)
  | TimerFired now => session_turn s (AcceptTimer now)
  | TakesControl m =>
      match sv_channel s with
      | first :: rest => if bool_decide (first = m) then session_turn (with_channel s rest) (Control m) else None
      | [] => None
      end
  | AppSends m =>
      if (length (sv_channel s) <? capacity)%nat then Some (with_channel s (sv_channel s ++ [m]), []) else None
  | AudioArrives d =>
      Some (mkServer (sv_connection s) (sv_channel s) (sv_clock s) (sv_audio_socket s ++ [d]) (sv_clock_socket s), [])
  | AudioTurn d => audio_turn s d
  | AudioSocketFailed =>
      match sv_connection s with
      | Some c => if cn_audio c is Some _ then Some (with_audio s c None (sv_clock s) (sv_audio_socket s), []) else None
      | None => None
      end
  | ClockArrives from d =>
      Some (mkServer (sv_connection s) (sv_channel s) (sv_clock s) (sv_audio_socket s) (sv_clock_socket s ++ [(from, d)]), [])
  | ClockTurn d t2 t3 t4 => clock_turn s d t2 t3 t4
  | ClockSocketFailed =>
      match sv_connection s with
      | Some c => if cn_clock c is Some _ then Some (with_clock_task s c None (sv_clock s) (sv_clock_socket s), []) else None
      | None => None
      end
  | ClockRequestDue t1 => clock_request_turn s t1
  end.

Fixpoint server_run (s : Server) (ins : list ServerInput) : option (Server * list ServerOutput) :=
  match ins with
  | [] => Some (s, [])
  | i :: ins =>
      match server_step s i with
      | Some (s, o) => match server_run s ins with Some (s, os) => Some (s, o ++ os) | None => None end
      | None => None
      end
  end.

Definition Trace : Type := list (ServerInput * list ServerOutput).

Inductive server_reach (clock : SharedClock) : Trace → Server → Prop :=
| server_reach_start : server_reach clock [] (server_start clock)
| server_reach_step tr s i s' o :
    server_reach clock tr s → server_step s i = Some (s', o) → server_reach clock (tr ++ [(i, o)]) s'.

(** ** What a run is observed to do *)

Definition session_outs (os : list ServerOutput) : list Output :=
  omap (λ o, match o with SessionOut o => Some o | ClockSent _ _ => None end) os.

(** The turns of the session in a part of a run. *)
Definition session_trace (tr : Trace) : list (Input * list Output) :=
  omap (λ t, (λ i, (i, session_outs t.2)) <$> session_input t.1) tr.

(** The packets delivered to the application. *)
Definition packets (os : list ServerOutput) : list EndpointEvent :=
  omap (λ o, match o with SessionOut (Event (EvAudioPacket h p)) => Some (EvAudioPacket h p) | _ => None end) os.

Definition delivered (tr : Trace) : list EndpointEvent := concat ((λ t, packets t.2) <$> tr).

Definition app_sent (tr : Trace) : list Message := omap (λ t, match t.1 with AppSends m => Some m | _ => None end) tr.
Definition app_taken (tr : Trace) : list Message := omap (λ t, match t.1 with TakesControl m => Some m | _ => None end) tr.
Definition audio_arrived (tr : Trace) : list (list Z) := omap (λ t, match t.1 with AudioArrives d => Some d | _ => None end) tr.
Definition audio_taken (tr : Trace) : list (list Z) := omap (λ t, match t.1 with AudioTurn d => Some d | _ => None end) tr.

Definition accepts (t : ServerInput * list ServerOutput) : bool :=
  match t.1 with Accepted _ _ | AcceptFailed => true | _ => false end.

(** What is known of a connection from the turns since it was accepted. *)
Definition audio_of (c : Connection) (post : Trace) : Prop :=
  match cn_audio c with
  | Some fec => ∀ clock, ∃ clock', audio_run FecReceiver_new clock (audio_taken post) = Ret (delivered post, fec, clock')
  | None => True
  end.

Definition connection_run (c : Connection) (post : Trace) : Prop :=
  Forall (λ t, accepts t = false) post ∧ session_reach cfg (session_trace post) (cn_phase c) ∧ audio_of c post ∧
  match cn_phase c with
  | WaitHello _ => cn_audio c = None ∧ cn_clock c = None ∧ audio_taken post = [] ∧ delivered post = []
  | Running v => ∀ target n, cn_clock c = Some (mkClockTask target n) →
      target = (λ port, (cn_peer c, port)) <$> controller_clock_port v
  | Ended _ => False
  end.

(** ** Lemmas *)

Lemma audio_recv_clock fec clock d evs fec' clock' :
  audio_recv fec clock d = Ret (evs, fec', clock') → ∀ clock2, ∃ clock2', audio_recv fec clock2 d = Ret (evs, fec', clock2').
Proof.
  unfold audio_recv. intros Hr clock2. destruct (_ <? _)%nat; [simplify_eq; eauto|].
  destruct (header_decode _) as [h|]; [|simplify_eq; eauto]. destruct (negb _); [simplify_eq; eauto|].
  destruct (receiver_feed _ _ _) as [[out fec1]|]; [|done]. cbn [outcome_bind] in *.
  destruct (if flags_contains _ _ then _ else _). simplify_eq. eauto.
Qed.

Lemma audio_run_snoc fec clock ds d evs fec1 clock1 evs' fec2 clock2 :
  audio_run fec clock ds = Ret (evs, fec1, clock1) → audio_recv fec1 clock1 d = Ret (evs', fec2, clock2) →
  audio_run fec clock (ds ++ [d]) = Ret (evs ++ evs', fec2, clock2).
Proof.
  revert fec clock evs. induction ds as [|d0 ds IH]; intros fec clock evs Hr Hd.
  - cbn [audio_run] in Hr. simplify_eq. cbn [audio_run app]. rewrite Hd. cbn [outcome_bind]. by rewrite app_nil_r.
  - cbn [audio_run app] in *. destruct (audio_recv fec clock d0) as [[[e0 f0] c0]|]; [|done]. cbn [outcome_bind] in *.
    destruct (audio_run f0 c0 ds) as [[[e1 f1] c1]|] eqn:E; [|done]. cbn [outcome_bind] in Hr. simplify_eq.
    rewrite (IH _ _ _ E Hd). cbn [outcome_bind]. by rewrite (assoc_L (++)).
Qed.

(** The receive loop emits packets and nothing else. *)
Lemma audio_recv_packets fec clock d evs fec' clock' :
  audio_recv fec clock d = Ret (evs, fec', clock') → packets ((SessionOut ∘ Event) <$> evs) = evs.
Proof.
  unfold audio_recv. intros Hr. destruct (_ <? _)%nat; [by simplify_eq|].
  destruct (header_decode _) as [h|]; [|by simplify_eq]. destruct (negb _); [by simplify_eq|].
  destruct (receiver_feed _ _ _) as [[out fec1]|]; [|done]. cbn [outcome_bind] in *.
  destruct (if flags_contains _ _ then _ else _) as [out' fec2]. simplify_eq.
  clear. induction out' as [|p out IH]; [done|]. rewrite !fmap_cons. cbn [packets omap list_omap compose].
  by f_equal.
Qed.

(** A turn of the session delivers no packet. *)
Definition quiet (o : list Output) : Prop := packets (SessionOut <$> o) = [].

Lemma packets_app o1 o2 : packets (o1 ++ o2) = packets o1 ++ packets o2.
Proof. unfold packets. by rewrite omap_app. Qed.

Lemma quiet_app o1 o2 : quiet o1 → quiet o2 → quiet (o1 ++ o2).
Proof. unfold quiet. intros H1 H2. by rewrite fmap_app, packets_app, H1, H2. Qed.

Lemma on_message_quiet s m now s' o : on_message cfg s m now = (s', o) → quiet o.
Proof.
  intros Hm. destruct m; simplify_eq/=; try done.
  - unfold on_format_propose in Hm. destruct (negotiate_format _ m), (cfg_defer_format_accept cfg); simplify_eq/=; done.
  - unfold on_next_track in Hm. destruct (_ && _); simplify_eq/=; done.
Qed.

Lemma on_messages_quiet s ms now s' o : on_messages cfg s ms now = (s', o) → quiet o.
Proof.
  revert s s' o. induction ms as [|m ms IH]; intros s s' o Hm; simpl in Hm; [by simplify_eq|].
  destruct (on_message cfg s m now) as [s1 o1] eqn:E1, (on_messages cfg s1 ms now) as [s2 o2] eqn:E2. simplify_eq.
  apply quiet_app; [by eapply on_message_quiet|by eapply IH].
Qed.

Lemma session_step_quiet p i p' o : session_step cfg p i = Some (p', o) → quiet o.
Proof.
  intros Hs. destruct p as [codec|s|r], i as [data now|e|m|now]; simplify_eq/=; try done.
  - unfold wait_hello_read in Hs. repeat case_match; simplify_eq/=; done.
  - unfold on_read in Hs. case_bool_decide; simplify_eq; [done|].
    destruct (decode_all _) as [msgs r], (on_messages cfg s msgs now) as [s1 o1] eqn:E.
    apply on_messages_quiet in E. by destruct r; simplify_eq.
  - destruct (on_control s m) as [s1 o1] eqn:E. simplify_eq. unfold on_control in E. repeat case_match; simplify_eq/=; done.
  - unfold on_accept_timer in Hs. repeat case_match; simplify_eq/=; done.
Qed.

Lemma session_trace_snoc tr i o :
  session_trace (tr ++ [(i, o)]) =
  session_trace tr ++ match session_input i with Some i => [(i, session_outs o)] | None => [] end.
Proof. unfold session_trace. rewrite omap_app. simpl. by destruct (session_input i). Qed.

Lemma delivered_snoc tr i o : delivered (tr ++ [(i, o)]) = delivered tr ++ packets o.
Proof. unfold delivered. by rewrite fmap_app, concat_app, fmap_cons, concat_cons, app_nil_r. Qed.

Lemma audio_taken_snoc tr i o :
  audio_taken (tr ++ [(i, o)]) = audio_taken tr ++ match i with AudioTurn d => [d] | _ => [] end.
Proof. unfold audio_taken. rewrite omap_app. by destruct i. Qed.

Lemma session_outs_fmap o : session_outs (SessionOut <$> o) = o.
Proof. induction o as [|x o IH]; [done|]. rewrite fmap_cons. cbn [session_outs omap list_omap]. by f_equal. Qed.

Lemma on_message_port s m now s' o :
  on_message cfg s m now = (s', o) → controller_clock_port s' = controller_clock_port s.
Proof.
  intros Hm. destruct m; simplify_eq/=; try done.
  - unfold on_format_propose in Hm. destruct (negotiate_format _ m), (cfg_defer_format_accept cfg); simplify_eq/=; done.
  - unfold on_next_track in Hm. destruct (_ && _); simplify_eq/=; done.
Qed.

Lemma on_messages_port s ms now s' o :
  on_messages cfg s ms now = (s', o) → controller_clock_port s' = controller_clock_port s.
Proof.
  revert s s' o. induction ms as [|m ms IH]; intros s s' o Hm; simpl in Hm; [by simplify_eq|].
  destruct (on_message cfg s m now) as [s1 o1] eqn:E1, (on_messages cfg s1 ms now) as [s2 o2] eqn:E2. simplify_eq.
  by rewrite (IH _ _ _ E2), (on_message_port _ _ _ _ _ E1).
Qed.

(** A running session stays running, with the clock port of its Hello, or
    ends. *)
Lemma session_step_running s i p o :
  session_step cfg (Running s) i = Some (p, o) →
  (∃ r, p = Ended r) ∨ ∃ s', p = Running s' ∧ controller_clock_port s' = controller_clock_port s.
Proof.
  intros Hs. destruct i as [data now|e|m|now]; simplify_eq/=; [| |..].
  - unfold on_read in Hs. case_bool_decide; simplify_eq; [by left; eexists|].
    destruct (decode_all _) as [msgs r], (on_messages cfg s msgs now) as [s1 o1] eqn:E.
    apply on_messages_port in E. destruct r; simplify_eq; [right|left]; by eexists.
  - left. by eexists.
  - right. destruct (on_control s m) as [s1 o1] eqn:E. simplify_eq. unfold on_control in E.
    repeat case_match; simplify_eq/=; by eexists.
  - right. unfold on_accept_timer in Hs. repeat case_match; simplify_eq/=; by eexists.
Qed.

(** The turns of a connection that neither belong to its session nor deliver. *)
Lemma connection_run_idle c post i o :
  connection_run c post → accepts (i, o) = false → session_input i = None →
  (∀ d, i ≠ AudioTurn d) → packets o = [] → connection_run c (post ++ [(i, o)]).
Proof.
  intros (Hacc & Hreach & Haudio & Hph) Ha Hi Hd Hp. unfold connection_run, audio_of in *.
  assert (audio_taken (post ++ [(i, o)]) = audio_taken post) as ->.
  { rewrite audio_taken_snoc. destruct i; try by rewrite app_nil_r. by destruct (Hd d). }
  rewrite session_trace_snoc, delivered_snoc, Hi, Hp, !app_nil_r. split_and!; [|done..].
  apply Forall_app. split; [done|]. by constructor.
Qed.

(** The tasks of a connection may change as long as the audio task keeps what
    it has received or is gone. *)
Lemma connection_run_tasks c post a t v :
  connection_run c post → cn_phase c = Running v →
  (a = cn_audio c ∨ a = None) →
  (t = cn_clock c ∨ t = None ∨ ∃ target n n', cn_clock c = Some (mkClockTask target n) ∧ t = Some (mkClockTask target n')) →
  connection_run (mkConnection (cn_peer c) (cn_phase c) a t) post.
Proof.
  intros (Hacc & Hreach & Haudio & Hph) Hv Ha Ht. unfold connection_run, audio_of in *. cbn [cn_phase cn_audio cn_clock cn_peer].
  rewrite Hv in *. split_and!; [done|done| |].
  - by destruct Ha as [->| ->].
  - intros target n Hn. destruct Ht as [->|[->|(t0 & n0 & n1 & Hc & ->)]]; [by eapply Hph|done|].
    simplify_eq. by eapply Hph.
Qed.

Lemma connection_run_session c post i0 i o p :
  connection_run c post → session_input i0 = Some i → session_step cfg (cn_phase c) i = Some (p, o) →
  match advance c p with
  | Some c' => cn_peer c' = cn_peer c ∧ connection_run c' (post ++ [(i0, SessionOut <$> o)])
  | None => ∃ r, p = Ended r
  end.
Proof.
  intros (Hacc & Hreach & Haudio & Hph) Hi Hstep. pose proof (session_step_quiet _ _ _ _ Hstep) as Hq.
  assert (Forall (λ t, accepts t = false) (post ++ [(i0, SessionOut <$> o)])) as Hacc'.
  { apply Forall_app. split; [done|]. constructor; [by destruct i0|done]. }
  assert (session_reach cfg (session_trace (post ++ [(i0, SessionOut <$> o)])) p) as Hreach'.
  { rewrite session_trace_snoc, Hi, session_outs_fmap. by eapply reach_step. }
  assert (delivered (post ++ [(i0, SessionOut <$> o)]) = delivered post) as Hdel.
  { rewrite delivered_snoc, Hq. apply app_nil_r. }
  assert (audio_taken (post ++ [(i0, SessionOut <$> o)]) = audio_taken post) as Htak.
  { rewrite audio_taken_snoc. destruct i0; try done; by rewrite app_nil_r. }
  unfold advance, connection_run, audio_of in *. rewrite Hdel, Htak.
  destruct (cn_phase c) as [codec|v|r] eqn:Ec, p as [codec'|v'|r']; try done; try by eexists; cbn [cn_phase cn_audio cn_clock cn_peer].
  - destruct Hph as (_ & _ & -> & ->). unfold spawn_tasks. cbn [cn_phase cn_audio cn_clock cn_peer]. split_and!; try done; [|by intros target n [= <- _]].
    intros clock. by exists clock.
  - by destruct (session_step_running _ _ _ _ Hstep) as [(? & ?)|(? & ? & _)].
  - destruct (session_step_running _ _ _ _ Hstep) as [(? & ?)|(? & [= <-] & Hport)]; [done|].
    split_and!; try done. intros target n Hc. rewrite (Hph _ _ Hc). by rewrite Hport.
Qed.

(** The connection served in a state of a run: the turns since it was
    accepted. *)
Definition serves (tr : Trace) (s : Server) : Prop :=
  match sv_connection s with
  | None => True
  | Some c =>
      ∃ pre tls_handshake post, tr = pre ++ (Accepted (cn_peer c) tls_handshake, []) :: post ∧
        (tls = true → tls_handshake = true) ∧ connection_run c post
  end.

Lemma new_connection_run peer : connection_run (new_connection peer) [].
Proof. split_and!; try done. constructor. Qed.

(** A turn of the connection extends its part of the run. *)
Lemma serves_next tr s c s' c' i o :
  serves tr s → sv_connection s = Some c → sv_connection s' = Some c' → cn_peer c' = cn_peer c →
  (∀ post, connection_run c post → connection_run c' (post ++ [(i, o)])) →
  serves (tr ++ [(i, o)]) s'.
Proof.
  unfold serves. intros Hs Hc Hc' Hp Hrun. rewrite Hc in Hs. rewrite Hc', Hp.
  destruct Hs as (pre & h & post & -> & Hh & Hpost). exists pre, h, (post ++ [(i, o)]).
  split_and!; [by rewrite <- (assoc_L (++))|done|by apply Hrun].
Qed.

Lemma serves_session tr s s' i0 i o :
  serves tr s → session_input i0 = Some i → session_turn s i = Some (s', o) → serves (tr ++ [(i0, o)]) s'.
Proof.
  unfold session_turn. intros Hs Hi Ht. destruct (sv_connection s) as [c|] eqn:Ec; [|done].
  destruct (session_step cfg (cn_phase c) i) as [[p o1]|] eqn:Estep; [|done]. simplify_eq.
  pose proof (λ post Hrun, connection_run_session c post i0 i o1 p Hrun Hi Estep) as Hnext.
  destruct (advance c p) as [c'|] eqn:Ea; [|done].
  eapply serves_next; [done|done|done| |].
  - unfold serves in Hs. rewrite Ec in Hs. destruct Hs as (? & ? & ? & _ & _ & Hrun). by destruct (Hnext _ Hrun).
  - intros post Hrun. by destruct (Hnext _ Hrun).
Qed.

Lemma audio_running c post fec : connection_run c post → cn_audio c = Some fec → ∃ v, cn_phase c = Running v.
Proof. intros (_ & _ & _ & Hph) Ha. destruct (cn_phase c) as [codec|v|r]; [|by eexists|done]. destruct Hph as [? _]. congruence. Qed.

Lemma clock_running c post t : connection_run c post → cn_clock c = Some t → ∃ v, cn_phase c = Running v.
Proof. intros (_ & _ & _ & Hph) Ha. destruct (cn_phase c) as [codec|v|r]; [|by eexists|done]. destruct Hph as (_ & ? & _). congruence. Qed.

Lemma serves_audio tr s s' d o :
  serves tr s → audio_turn s d = Some (s', o) → serves (tr ++ [(AudioTurn d, o)]) s'.
Proof.
  unfold audio_turn. intros Hs Ht. destruct (sv_connection s) as [c|] eqn:Ec; [|done].
  destruct (sv_audio_socket s) as [|first rest]; [done|]. destruct (cn_audio c) as [fec|] eqn:Ea; [|done].
  case_bool_decide as Hd; [subst first|done].
  destruct (audio_recv fec (sv_clock s) d) as [[[evs fec'] clock']|] eqn:Er; simplify_eq;
    (eapply serves_next; [exact Hs|exact Ec|reflexivity|reflexivity|]); intros post Hrun;
    pose proof (audio_running _ _ _ Hrun Ea) as (v & Hv); pose proof Hrun as (Hacc & Hreach & Haudio & Hph);
    unfold connection_run, audio_of in *; cbn [cn_phase cn_audio cn_clock cn_peer]; rewrite ?Ea in *;
    rewrite session_trace_snoc, delivered_snoc, audio_taken_snoc; cbn [session_input]; rewrite app_nil_r, Hv in *;
    (split_and!; [apply Forall_app; split; [done|by constructor]|done| |done]); [|done].
  intros clock. destruct (Haudio clock) as (clock1 & H1).
  destruct (audio_recv_clock _ _ _ _ _ _ Er clock1) as (clock2 & H2). exists clock2.
  rewrite (audio_recv_packets _ _ _ _ _ _ Er). by eapply audio_run_snoc.
Qed.

(** Turns that leave the connection as it is, or change only its tasks. *)
Lemma serves_idle tr s c i s' o :
  serves tr s → sv_connection s = Some c → sv_connection s' = Some c → accepts (i, o) = false →
  session_input i = None → (∀ d, i ≠ AudioTurn d) → packets o = [] → serves (tr ++ [(i, o)]) s'.
Proof.
  intros Hs Hc Hc' Ha Hi Hd Hp. eapply serves_next; [done|exact Hc|exact Hc'|done|].
  intros post Hrun. by apply connection_run_idle.
Qed.

Lemma serves_tasks tr s c a t i s' o :
  serves tr s → sv_connection s = Some c → sv_connection s' = Some (mkConnection (cn_peer c) (cn_phase c) a t) →
  (∀ post, connection_run c post → ∃ v, cn_phase c = Running v) → (a = cn_audio c ∨ a = None) →
  (t = cn_clock c ∨ t = None ∨
   ∃ target n n', cn_clock c = Some (mkClockTask target n) ∧ t = Some (mkClockTask target n')) →
  accepts (i, o) = false → session_input i = None → (∀ d, i ≠ AudioTurn d) → packets o = [] →
  serves (tr ++ [(i, o)]) s'.
Proof.
  intros Hs Hc Hc' Hv Ha Ht Hacc Hi Hd Hp. eapply serves_next; [done|exact Hc|exact Hc'|done|].
  intros post Hrun. destruct (Hv _ Hrun) as (v & Hv'). apply connection_run_idle; try done.
  by eapply connection_run_tasks.
Qed.

Lemma serves_step tr s i s' o : serves tr s → server_step s i = Some (s', o) → serves (tr ++ [(i, o)]) s'.
Proof.
  intros Hs Hstep.
  destruct i as [peer h| |data now|e|m|now|m|d|d| |from d|d t2 t3 t4| |t1]; cbn [server_step] in Hstep.
  - destruct (sv_connection s) eqn:Ec; [done|]. simplify_eq. unfold accepted, serves.
    destruct (tls && negb h) eqn:Eh; [by rewrite Ec|]. cbn [with_connection sv_connection]. exists tr, h, [].
    split_and!; [done| |apply new_connection_run]. intros ->. by destruct h.
  - destruct (sv_connection s) eqn:Ec; [done|]. simplify_eq. unfold serves. by rewrite Ec.
  - by eapply serves_session.
  - by eapply serves_session.
  - destruct (sv_channel s) as [|first rest]; [done|]. case_bool_decide; [|done].
    eapply serves_session; [|reflexivity|exact Hstep]. exact Hs.
  - by eapply serves_session.
  - destruct (_ <? _)%nat; [|done]. simplify_eq. destruct (sv_connection s) as [c|] eqn:Ec; [by eapply serves_idle|].
    unfold serves. cbn [with_channel sv_connection]. by rewrite Ec.
  - simplify_eq. destruct (sv_connection s) as [c|] eqn:Ec; [by eapply serves_idle|done].
  - by apply serves_audio with s.
  - destruct (sv_connection s) as [c|] eqn:Ec; [|done]. destruct (cn_audio c) eqn:Ea; [|done]. simplify_eq.
    eapply serves_tasks; try done; [|by right|by left]. intros post Hrun. by eapply audio_running.
  - simplify_eq. destruct (sv_connection s) as [c|] eqn:Ec; [by eapply serves_idle|done].
  - unfold clock_turn in Hstep. destruct (sv_connection s) as [c|] eqn:Ec; [|done].
    destruct (sv_clock_socket s) as [|[from first] rest]; [done|]. destruct (cn_clock c) as [t|] eqn:Et; [|done].
    case_bool_decide; [|done]. destruct (clock_sync_recv _ _ _ _ _ _) as [reply clock]. simplify_eq.
    eapply serves_tasks; try done; [|by left|by left|by destruct reply]. intros post Hrun. by eapply clock_running.
  - destruct (sv_connection s) as [c|] eqn:Ec; [|done]. destruct (cn_clock c) eqn:Et; [|done]. simplify_eq.
    eapply serves_tasks; try done; [|by left|by right; left]. intros post Hrun. by eapply clock_running.
  - unfold clock_request_turn in Hstep. destruct (sv_connection s) as [c|] eqn:Ec; [|done].
    destruct (cn_clock c) as [[[target|] n]|] eqn:Et; [|done|done]. simplify_eq.
    destruct (clock_sync_send _ _ _) as [[bytes n'] w] eqn:Esend. simplify_eq.
    eapply serves_tasks; try done; [|by left|right; right; by repeat eexists]. intros post Hrun. by eapply clock_running.
Qed.

Lemma server_reach_serves clock tr s : server_reach clock tr s → serves tr s.
Proof. induction 1 as [|tr s i s' o _ IH Hs]; [done|]. by eapply serves_step. Qed.

(** Whatever the phase, a failed stream ends the session. *)
Lemma stream_failure clock tr s c e :
  server_reach clock tr s → sv_connection s = Some c →
  server_step s (StreamFailed e) = Some (with_connection s None, []).
Proof.
  intros Hr Hc. pose proof (server_reach_serves _ _ _ Hr) as Hs. unfold serves in Hs. rewrite Hc in Hs.
  destruct Hs as (? & ? & post & _ & _ & _ & _ & _ & Hph).
  cbn [server_step]. unfold session_turn, advance. rewrite Hc. by destruct (cn_phase c).
Qed.

Lemma server_run_cons s i ins s1 o :
  server_step s i = Some (s1, o) →
  server_run s (i :: ins) = match server_run s1 ins with Some (s', os) => Some (s', o ++ os) | None => None end.
Proof. intros Hs. cbn [server_run]. by rewrite Hs. Qed.

(** A run continued. *)
Lemma server_run_reach clock tr s ins s' outs :
  server_reach clock tr s → server_run s ins = Some (s', outs) →
  ∃ tr', server_reach clock (tr ++ tr') s' ∧ tr'.*1 = ins ∧ concat tr'.*2 = outs.
Proof.
  revert tr s outs. induction ins as [|i ins IH]; intros tr s outs Hr Hrun; cbn [server_run] in Hrun.
  { simplify_eq. exists []. by rewrite app_nil_r. }
  destruct (server_step s i) as [[s1 o]|] eqn:E; [|done].
  destruct (server_run s1 ins) as [[s2 os]|] eqn:E2; [|done]. simplify_eq.
  destruct (IH _ _ _ (server_reach_step _ _ _ _ _ _ Hr E) E2) as (tr' & Hr' & <- & <-).
  exists ((i, o) :: tr'). by rewrite <- (assoc_L (++)) in Hr'.
Qed.

(** What one turn does to the queues. *)
Lemma server_step_queues s i s' o :
  server_step s i = Some (s', o) →
  sv_channel s ++ app_sent [(i, o)] = app_taken [(i, o)] ++ sv_channel s' ∧
  sv_audio_socket s ++ audio_arrived [(i, o)] = audio_taken [(i, o)] ++ sv_audio_socket s' ∧
  (length (sv_channel s) ≤ capacity → length (sv_channel s') ≤ capacity)%nat.
Proof.
  intros Hs. destruct i; cbn [server_step] in Hs; cbn [app_sent app_taken audio_arrived audio_taken omap list_omap fst];
    unfold session_turn, audio_turn, clock_turn, clock_request_turn, accepted in Hs; repeat case_match; simplify_eq;
    repeat case_bool_decide; simplify_eq/=; rewrite ?app_nil_r; try by split_and!.
  all: split_and!; try done; rewrite ?length_app; cbn [length] in *.
  - lia.
  - match goal with H : (_ <? _)%nat = true |- _ => apply Nat.ltb_lt in H end. lia.
Qed.

Lemma queues_inv clock tr s :
  server_reach clock tr s →
  app_sent tr = app_taken tr ++ sv_channel s ∧ (length (sv_channel s) ≤ capacity)%nat ∧
  audio_arrived tr = audio_taken tr ++ sv_audio_socket s.
Proof.
  induction 1 as [|tr s i s' o _ (IHq & IHc & IHa) Hs]; [cbn; split_and!; [done|lia|done]|].
  destruct (server_step_queues _ _ _ _ Hs) as (Hq & Ha & Hc).
  unfold app_sent, app_taken, audio_arrived, audio_taken in *. rewrite !omap_app, IHq, IHa, <- !(assoc_L (++)), Hq, Ha. auto.
Qed.

Lemma server_step_waiting s c codec i s' o :
  sv_connection s = Some c → cn_phase c = WaitHello codec → cn_audio c = None → cn_clock c = None →
  (match i with Received _ _ | StreamFailed _ => False | _ => True end) → server_step s i = Some (s', o) →
  sv_connection s' = Some c ∧ o = [] ∧ accepts (i, o) = false ∧ sv_channel s' = sv_channel s ++ app_sent [(i, o)].
Proof.
  intros Hc Hp Ha Ht Hi Hs.
  destruct i; cbn [server_step] in Hs; unfold session_turn, audio_turn, clock_turn, clock_request_turn in Hs;
    cbn [with_channel sv_connection sv_channel] in Hs; rewrite ?Hc, ?Hp, ?Ha, ?Ht in Hs; try done;
    repeat case_match; simplify_eq/=; rewrite ?app_nil_r; try done.
Qed.

(** A session whose audio task is gone. *)
Definition deaf (s : Server) : Prop :=
  match sv_connection s with Some c => cn_audio c = None ∧ ∃ v, cn_phase c = Running v | None => True end.

Lemma server_step_deaf s i s' o :
  deaf s → accepts (i, o) = false → server_step s i = Some (s', o) → deaf s' ∧ packets o = [].
Proof.
  intros Hd Ha Hs.
  assert (∀ s i s' o, deaf s → session_turn s i = Some (s', o) → deaf s' ∧ packets o = []) as Hsession.
  { clear. intros s i s' o Hd Ht. unfold session_turn, deaf in *. destruct (sv_connection s) as [c|]; [|done].
    destruct Hd as (Ha & v & Hv). rewrite Hv in Ht. destruct (session_step cfg (Running v) i) as [[p os]|] eqn:E; [|done].
    simplify_eq. split; [|by eapply session_step_quiet]. cbn [with_connection sv_connection]. unfold advance. rewrite Hv.
    destruct (session_step_running _ _ _ _ E) as [(r & ->)|(v' & -> & _)]; [done|]. cbn [cn_audio cn_phase]. eauto. }
  destruct i; cbn [server_step] in Hs; try done; try by eapply Hsession.
  - destruct (sv_channel s) as [|first rest]; [done|]. case_bool_decide; [|done]. eapply (Hsession (with_channel s rest)); done.
  - case_match; by simplify_eq.
  - by simplify_eq.
  - unfold audio_turn, deaf in *. destruct (sv_connection s) as [c|]; [|done]. destruct Hd as (Hn & _). rewrite Hn in Hs.
    by destruct (sv_audio_socket s).
  - unfold deaf in *. destruct (sv_connection s) as [c|]; [|done]. destruct Hd as (Hn & _). by rewrite Hn in Hs.
  - by simplify_eq.
  - unfold clock_turn, deaf in *. destruct (sv_connection s) as [c|]; [|done]. repeat case_match; simplify_eq/=; by eauto.
  - unfold deaf in *. destruct (sv_connection s) as [c|]; [|done]. case_match; simplify_eq/=; by eauto.
  - unfold clock_request_turn, deaf in *. destruct (sv_connection s) as [c|]; [|done]. repeat case_match; simplify_eq/=; by eauto.
Qed.

(** A whole Hello, read while the session waits for one. *)
Definition greeted (h : Hello) : SessionVars :=
  mkSession FrameCodec_new None None None (existsb (String.eqb FEATURE_ENDPOINT_RELEASE) (hello_features h))
    (if negb (hello_clock_port h =? 0) then Some (hello_clock_port h) else None).

Definition greeting (h : Hello) : list Output :=
  [Event (EvConnected (controller_id h) (controller_name h)); Write (hello_ack cfg)].

Definition hello_ok (h : Hello) : Prop :=
  json_faithful (MHello h) ∧ len (to_vec (MHello h)) ≤ MAX_FRAME_SIZE ∧ hello_protocol_version h = PROTOCOL_VERSION.

Lemma hello_read h now :
  hello_ok h →
  session_step cfg session_start (TcpRead (codec_encode (MHello h)) now) = Some (Running (greeted h), greeting h).
Proof.
  intros (Hj & Hl & Hv). cbn [session_step session_start]. unfold wait_hello_read.
  rewrite bool_decide_eq_false_2.
  2:{ unfold codec_encode, encode_framed. intros E%(f_equal length). rewrite length_app, to_be_bytes_length in E. simpl in E. lia. }
  pose proof (decode_next_frame (MHello h) [] Hj Hl) as Hd. rewrite app_nil_r in Hd.
  unfold feed, FrameCodec_new. cbn [buf app]. unfold codec_encode. rewrite Hd, Hv. by destruct h.
Qed.

(** What a session without a pending accept writes of the application's
    messages. *)
Definition passes (h : Hello) (m : Message) : bool :=
  match m with
  | MEndpointRelease _ => existsb (String.eqb FEATURE_ENDPOINT_RELEASE) (hello_features h)
  | _ => true
  end.

Lemma channel_written s peer h q :
  sv_connection s = Some (spawn_tasks peer (greeted h)) → sv_channel s = q →
  server_run s (TakesControl <$> q) = Some (with_channel s [], (SessionOut ∘ Write) <$> filter (λ m, passes h m = true) q).
Proof.
  revert s. induction q as [|m q IH]; intros s Hc Hq.
  { cbn. f_equal. f_equal. destruct s. simpl in *. by subst. }
  rewrite fmap_cons. cbn [server_run server_step]. rewrite Hq, bool_decide_eq_true_2 by done.
  unfold session_turn. cbn [with_channel sv_connection]. rewrite Hc. cbn [spawn_tasks cn_phase session_step].
  assert (on_control (greeted h) m = (greeted h, if passes h m then [Write m] else [])) as -> by by destruct m.
  cbn [advance cn_phase]. rewrite (IH (with_connection _ _)); [|done..].
  rewrite filter_cons. unfold with_channel, with_connection. cbn. rewrite Hc. by destruct (passes h m).
Qed.

End server.

Arguments Connection : clear implicits.
Arguments Server : clear implicits.
Arguments ServerInput : clear implicits.
Arguments ServerOutput : clear implicits.

(** ** Properties *)

Section properties.
Context `{JsonCodec} {IpAddr : Type} (cfg : EndpointConfig) (tls : bool) (capacity : nat) (clock : SharedClock).

Abbreviation reach := (server_reach (IpAddr := IpAddr) cfg tls capacity clock).
Abbreviation run := (server_run (IpAddr := IpAddr) cfg tls capacity).

(** C25 The server runs one session at a time: in any run, the
    turns since the controller now served was accepted are a run of the
    session model and of nothing else, with no other controller accepted in
    between (and, with TLS, after a completed handshake); whatever clock
    exchanges and control messages come in between, the packets the
    application has been handed are those the receive loop, started afresh,
    delivers for the datagrams it took. *)
Theorem server_runs_sessions tr s c :
  reach tr s → sv_connection s = Some c →
  ∃ pre tls_handshake post, tr = pre ++ (Accepted (cn_peer c) tls_handshake, []) :: post ∧
    (tls = true → tls_handshake = true) ∧ Forall (λ t, accepts t = false) post ∧
    session_reach cfg (session_trace post) (cn_phase c) ∧
    (∀ fec, cn_audio c = Some fec → ∀ clock0, ∃ clock1,
       audio_run FecReceiver_new clock0 (audio_taken post) = Ret (delivered post, fec, clock1)).
Proof.
  intros Hr Hc. pose proof (server_reach_serves _ _ _ _ _ _ Hr) as Hs. unfold serves in Hs. rewrite Hc in Hs.
  destruct Hs as (pre & h & post & -> & Hh & Hacc & Hreach & Haudio & _). exists pre, h, post.
  split_and!; try done. intros fec Hf. unfold audio_of in Haudio. by rewrite Hf in Haudio.
Qed.

(** The queues lose and duplicate nothing: what the sessions
    have taken of the application's messages, all sessions together, followed
    by what waits in the channel, is what the application has sent, and the
    channel never exceeds its capacity; the same holds of the datagrams of the
    audio socket, so those that arrive between two sessions go to the next. *)
Theorem queues_in_order tr s :
  reach tr s →
  app_sent tr = app_taken tr ++ sv_channel s ∧ (length (sv_channel s) ≤ capacity)%nat ∧
  audio_arrived tr = audio_taken tr ++ sv_audio_socket s.
Proof.
  apply queues_inv.
Qed.

(** As far as the transport goes, no history keeps the server from a new
    session: while the application takes its events, from every reachable state
    at most one failure of the present stream, an accepted controller and its
    Hello lead to a session of that controller that starts afresh (no format,
    no pending accept, a new receiver), with the handshake answered.  A failed
    stream is not reported: the application hears of the new controller
    without having heard that the old one is gone. *)
Theorem server_recovers tr s peer h now e :
  reach tr s → hello_ok h →
  let hang_up := if sv_connection s is Some _ then [StreamFailed e] else [] in
  run s (hang_up ++ [Accepted peer true; Received (codec_encode (MHello h)) now]) =
    Some (with_connection s (Some (spawn_tasks peer (greeted h))), SessionOut <$> greeting cfg h).
Proof.
  intros Hr Hh hang_up.
  assert (∀ s0 : Server IpAddr, sv_connection s0 = None →
            run s0 [Accepted peer true; Received (codec_encode (MHello h)) now] =
            Some (with_connection s0 (Some (spawn_tasks peer (greeted h))), SessionOut <$> greeting cfg h)) as Hnew.
  { intros s0 Hs0. cbn [server_run server_step]. rewrite Hs0. unfold accepted. rewrite andb_false_r.
    unfold session_turn. cbn [with_connection sv_connection new_connection cn_phase]. by rewrite hello_read. }
  destruct (sv_connection s) as [c|] eqn:Ec; [|by apply Hnew]. unfold hang_up. cbn [app].
  by rewrite (server_run_cons _ _ _ _ _ _ _ _ (stream_failure _ _ _ _ _ _ _ e Hr Ec)), Hnew.
Qed.

(** Messages outlive the controller they were meant for: whatever
    waits in the channel when a new controller is accepted (confirmations,
    statistics and rejections of an earlier session) is written to it right
    after the handshake, releases only if it handles them. *)
Theorem stale_messages_reach_next_controller s peer h now :
  sv_connection s = None → hello_ok h →
  run s (Accepted peer true :: Received (codec_encode (MHello h)) now :: (TakesControl <$> sv_channel s)) =
    Some (with_connection (with_channel s []) (Some (spawn_tasks peer (greeted h))),
          SessionOut <$> greeting cfg h ++ (Write <$> filter (λ m, passes h m = true) (sv_channel s))).
Proof.
  intros Hc Hh. cbn [server_run server_step]. rewrite Hc. unfold accepted. rewrite andb_false_r.
  unfold session_turn at 1. cbn [with_connection sv_connection new_connection cn_phase]. rewrite hello_read by done.
  cbn [advance cn_phase new_connection session_start cn_peer].
  rewrite (channel_written cfg tls capacity _ peer h (sv_channel s)) by done.
  rewrite fmap_app, <- list_fmap_compose. done.
Qed.

(** A silent peer holds the endpoint: while a connected peer sends
    nothing, no other controller is accepted, nothing is sent or delivered,
    and the application can send no more messages than the channel still
    takes.  There is no timeout on the handshake. *)
Theorem silent_peer_holds_endpoint tr s c codec ins s' outs :
  reach tr s → sv_connection s = Some c → cn_phase c = WaitHello codec →
  Forall (λ i, match i with Received _ _ | StreamFailed _ => False | _ => True end) ins →
  run s ins = Some (s', outs) →
  sv_connection s' = Some c ∧ outs = [] ∧ Forall (λ i, accepts (i, []) = false) ins ∧
  (length (sv_channel s) + length (app_sent ((λ i, (i, [])) <$> ins)) ≤ capacity)%nat.
Proof.
  intros Hr Hc Hp Hins Hrun. pose proof (server_reach_serves _ _ _ _ _ _ Hr) as Hs. unfold serves in Hs. rewrite Hc in Hs.
  destruct Hs as (? & ? & post & _ & _ & _ & _ & _ & Hph). rewrite Hp in Hph. destruct Hph as (Ha & Ht & _).
  pose proof (proj1 (proj2 (queues_inv _ _ _ _ _ _ Hr))) as Hcap. clear Hr.
  revert s outs Hc Hrun Hcap. induction Hins as [|i ins Hi Hins IH]; intros s outs Hc Hrun Hcap; cbn [server_run] in Hrun.
  { simplify_eq. split_and!; [done|done|constructor|]. cbn. lia. }
  destruct (server_step _ _ _ s i) as [[s1 o]|] eqn:E; [|done].
  destruct (run s1 ins) as [[s2 os]|] eqn:E2; [|done]. simplify_eq.
  destruct (server_step_waiting _ _ _ _ _ _ _ _ _ Hc Hp Ha Ht Hi E) as (Hc1 & -> & Hacc & Hch).
  pose proof (proj2 (proj2 (server_step_queues _ _ _ _ _ _ _ E)) Hcap) as Hcap1.
  destruct (IH _ _ Hc1 E2 Hcap1) as (H1 & -> & H3 & H4). split_and!; [done|done|by constructor|].
  rewrite Hch, length_app in H4. rewrite fmap_cons. unfold app_sent in *. cbn [omap list_omap fst] in *.
  destruct i; cbn [length] in *; lia.
Qed.

(** A panic of the receiver silences the session: once a datagram
    has made the audio task panic, nothing is handed to the application until
    another controller is accepted, while the session itself goes on. *)
Theorem audio_panic_silences s c v fec d rest :
  sv_connection s = Some c → cn_phase c = Running v → cn_audio c = Some fec →
  sv_audio_socket s = d :: rest → audio_recv fec (sv_clock s) d = Panic →
  ∃ s1 c1, server_step cfg tls capacity s (AudioTurn d) = Some (s1, []) ∧
    sv_connection s1 = Some c1 ∧ cn_phase c1 = Running v ∧
    ∀ ins s2 outs, Forall (λ i, accepts (i, []) = false) ins → run s1 ins = Some (s2, outs) → packets outs = [].
Proof.
  intros Hc Hv Hf Hd Hp. eexists _, _. cbn [server_step]. unfold audio_turn. rewrite Hc, Hd, Hf, bool_decide_eq_true_2, Hp by done.
  split; [reflexivity|]. split; [reflexivity|]. split; [done|].
  match goal with |- ∀ ins s2 outs, _ → server_run _ _ _ ?x _ = _ → _ => assert (deaf x) as Hdeaf end.
  { cbn. eauto. }
  revert Hdeaf. generalize (with_audio s c None (sv_clock s) rest). intros s0 Hdeaf ins. revert s0 Hdeaf.
  induction ins as [|i ins IH]; intros s0 Hdeaf s2 outs Hall Hrun; cbn [server_run] in Hrun; [by simplify_eq|].
  apply Forall_cons in Hall as [Hi Hall].
  destruct (server_step _ _ _ s0 i) as [[s1 o]|] eqn:E; [|done].
  destruct (run s1 ins) as [[s3 os]|] eqn:E2; [|done]. simplify_eq.
  destruct (server_step_deaf cfg tls capacity s0 i s1 o Hdeaf Hi E) as [Hd1 Hp1].
  by rewrite packets_app, Hp1, (IH _ Hd1 _ _ Hall E2).
Qed.

End properties.

(** ** Witnesses *)

Definition demo_run := @server_run demo_json Z demo_cfg false 32.
Definition demo_server_start : Server Z := server_start SharedClock_new.

(** A controller at address 7 connects; the application confirms a stream;
    two datagrams arrive, and the first is received. *)
Definition demo_inputs : list (ServerInput Z) :=
  [Accepted 7 true; Received [0; 0; 0; 1; 1] 3; AppSends (MFormatAccept (mkFormatAccept "s1"))]
  ++ (AudioArrives ∘ datagram_of <$> hostile_packets) ++ (AudioTurn ∘ datagram_of <$> take 1 hostile_packets).

Definition demo_connection (fec : FecReceiver) : Connection Z :=
  mkConnection 7 (Running (@greeted demo_hello)) (Some fec) (Some (mkClockTask (Some (7, 9742)) 0)).

Definition state_after (ins : list (ServerInput Z)) : Server Z :=
  match demo_run demo_server_start ins with Some (s, _) => s | None => demo_server_start end.

Definition demo_server : Server Z := state_after demo_inputs.

Definition demo_fec : FecReceiver :=
  match sv_connection demo_server with
  | Some c => match cn_audio c with Some f => f | None => FecReceiver_new end
  | None => FecReceiver_new
  end.

Lemma demo_server_reach : ∃ tr, @server_reach demo_json Z demo_cfg false 32 SharedClock_new tr demo_server.
Proof.
  destruct (@server_run_reach demo_json Z demo_cfg false 32 SharedClock_new [] demo_server_start demo_inputs demo_server
    (SessionOut <$> @greeting demo_cfg demo_hello)) as (tr & Hr & _); [constructor|vm_compute; reflexivity|].
  by exists tr.
Qed.

Lemma server_runs_sessions_witness :
  ∃ (tr pre : @Trace Z) h post, tr = pre ++ (Accepted 7 h, []) :: post ∧
    @session_reach demo_json demo_cfg (session_trace post) (Running (greeted demo_hello)) ∧
    ∃ clock1, audio_run FecReceiver_new SharedClock_new (audio_taken post) = Ret (delivered post, demo_fec, clock1).
Proof.
  destruct demo_server_reach as (tr & Hr).
  destruct (@server_runs_sessions demo_json Z demo_cfg false 32 SharedClock_new tr demo_server (demo_connection demo_fec) Hr)
    as (pre & h & post & Htr & _ & _ & Hs & Ha); [vm_compute; reflexivity|].
  exists tr, pre, h, post. split; [exact Htr|]. split; [exact Hs|]. exact (Ha demo_fec eq_refl SharedClock_new).
Defined.

Lemma queues_in_order_witness :
  ∃ tr : Trace, app_sent (IpAddr := Z) tr = app_taken tr ++ sv_channel demo_server ∧ sv_channel demo_server = [MFormatAccept (mkFormatAccept "s1")].
Proof.
  destruct demo_server_reach as (tr & Hr). exists tr.
  destruct (@queues_in_order demo_json Z demo_cfg false 32 SharedClock_new tr demo_server Hr) as (Hq & _).
  split; [exact Hq|vm_compute; reflexivity].
Defined.

Lemma demo_hello_ok : @hello_ok demo_json demo_hello.
Proof. split; [split; [reflexivity|]|split; [vm_compute; discriminate|reflexivity]]. repeat constructor; lia. Qed.

Lemma server_recovers_witness :
  demo_run demo_server [StreamFailed (Protocol "reset"); Accepted 8 true; Received [0; 0; 0; 1; 1] 9] =
    Some (with_connection demo_server (Some (spawn_tasks 8 (greeted demo_hello))), SessionOut <$> greeting demo_cfg demo_hello).
Proof.
  destruct demo_server_reach as (tr & Hr).
  exact (@server_recovers demo_json Z demo_cfg false 32 SharedClock_new tr demo_server 8 demo_hello 9 (Protocol "reset") Hr demo_hello_ok).
Defined.

(** The confirmation sent to the first controller is written to the second. *)
Lemma stale_messages_reach_next_controller_witness :
  let s := state_after (demo_inputs ++ [StreamFailed (Protocol "reset")]) in
  demo_run s [Accepted 8 true; Received [0; 0; 0; 1; 1] 9; TakesControl (MFormatAccept (mkFormatAccept "s1"))] =
    Some (with_connection (with_channel s []) (Some (spawn_tasks 8 (greeted demo_hello))),
          SessionOut <$> greeting demo_cfg demo_hello ++ [Write (MFormatAccept (mkFormatAccept "s1"))]).
Proof.
  intros s. pose proof (@stale_messages_reach_next_controller demo_json Z demo_cfg false 32 s 8 demo_hello 9) as Hw.
  assert (sv_channel s = [MFormatAccept (mkFormatAccept "s1")]) as Hch by (vm_compute; reflexivity).
  rewrite Hch in Hw. exact (Hw ltac:(vm_compute; reflexivity) demo_hello_ok).
Defined.

Definition silent_server : Server Z := state_after [Accepted 7 true].

Lemma silent_peer_holds_endpoint_witness :
  ∃ s', demo_run silent_server [AppSends (MFormatAccept (mkFormatAccept "s1")); AudioArrives []] = Some (s', []) ∧
    sv_connection s' = Some (new_connection 7).
Proof.
  destruct (@server_run_reach demo_json Z demo_cfg false 32 SharedClock_new [] demo_server_start [Accepted 7 true] silent_server [])
    as (tr & Hr & _); [constructor|vm_compute; reflexivity|].
  eexists. split; [vm_compute; reflexivity|].
  refine (proj1 (@silent_peer_holds_endpoint demo_json Z demo_cfg false 32 SharedClock_new _ silent_server (new_connection 7)
    FrameCodec_new [AppSends (MFormatAccept (mkFormatAccept "s1")); AudioArrives []] _ [] Hr _ _ _ _));
    [vm_compute; reflexivity|reflexivity|repeat constructor|vm_compute; reflexivity].
Defined.

Lemma audio_panic_silences_witness :
  ∃ s1, @server_step demo_json Z demo_cfg false 32 demo_server (AudioTurn (datagram_of (nth 1 hostile_packets (mkHeader 0 0 PcmS16le 0 0 0 0 0 0 0 0, [])))) = Some (s1, []) ∧
    ∀ ins s2 outs, Forall (λ i, accepts (i, []) = false) ins → demo_run s1 ins = Some (s2, outs) → packets outs = [].
Proof.
  destruct (@audio_panic_silences demo_json Z demo_cfg false 32 demo_server (demo_connection demo_fec) (greeted demo_hello)
    demo_fec (datagram_of (nth 1 hostile_packets (mkHeader 0 0 PcmS16le 0 0 0 0 0 0 0 0, []))) [])
    as (s1 & c1 & H1 & _ & _ & H2); [vm_compute; reflexivity|reflexivity|reflexivity|vm_compute; reflexivity|vm_compute; reflexivity|].
  exists s1. split; [exact H1|exact H2].
Defined.
