(* ===== verification/Manager.v ===== *)
(** * Zone management

    Models [crates/oaat-controller/src/manager.rs], the map of zones and its
    events, and states what the zone operations of [Zone] guarantee. *)

From S2P Require Import Prelude Format Session Wire Message Fec Float Clock EndpointTransport ControllerTransport Zone.
From stdpp Require Import sorting.

Local Open Scope Z_scope.

Inductive ZoneEvent :=
| ZoneCreated (zone_id name : string)
| ZoneDissolved (zone_id : string)
| EndpointJoined (zone_id endpoint_id endpoint_name : string)
| EndpointLeft (zone_id endpoint_id : string)
| EndpointFailed (zone_id endpoint_id error : string).

(** The events sent so far are kept in [zm_events]. *)
Record ZoneManager := mkManager {
  zm_zones : gmap string Zone;
  zm_config : ControllerConfig;
  zm_events : list ZoneEvent
}.

Definition ZoneManager_new (config : ControllerConfig) : ZoneManager := mkManager ∅ config [].

Definition set_zones (m : ZoneManager) (zs : gmap string Zone) (evs : list ZoneEvent) : ZoneManager :=
  mkManager zs (zm_config m) (zm_events m ++ evs).

Definition create_zone (m : ZoneManager) (zone_id name : string) : ZoneManager :=
  set_zones m (<[zone_id := Zone_new zone_id name (zm_config m)]> (zm_zones m)) [ZoneCreated zone_id name].

Definition dissolve_zone (m : ZoneManager) (zone_id : string) : bool * ZoneManager :=
  match zm_zones m !! zone_id with
  | Some _ => (true, set_zones m (delete zone_id (zm_zones m)) [ZoneDissolved zone_id])
  | None => (false, m)
  end.

Definition add_endpoint_to_zone (m : ZoneManager) (zone_id : string) (addr : SocketAddr)
    (dial : result ConnectedEndpoint OaatError) (boot : list (Z * Z * result (list Z) OaatError))
  : result string OaatError * ZoneManager :=
  match zm_zones m !! zone_id with
  | None => (Err (Protocol ("zone not found: " ++ zone_id)), m)
  | Some zone =>
      let '(r, zone) := add_endpoint zone addr dial boot in
      match r with
      | Err e => (Err e, set_zones m (<[zone_id := zone]> (zm_zones m)) [])
      | Ok ep_id =>
          let ep_name := default ""%string (endpoint_name zone ep_id) in
          (Ok ep_id, set_zones m (<[zone_id := zone]> (zm_zones m)) [EndpointJoined zone_id ep_id ep_name])
      end
  end.

Definition remove_endpoint_from_zone (m : ZoneManager) (zone_id endpoint_id : string) : bool * ZoneManager :=
  match zm_zones m !! zone_id with
  | None => (false, m)
  | Some zone =>
      let '(removed, _, zone) := remove_endpoint zone endpoint_id in
      if removed
      then (true, set_zones m (<[zone_id := zone]> (zm_zones m)) [EndpointLeft zone_id endpoint_id])
      else (false, m)
  end.

Definition move_endpoint (m : ZoneManager) (endpoint_id from_zone to_zone : string)
    (dial : SocketAddr → result ConnectedEndpoint OaatError) (boot : list (Z * Z * result (list Z) OaatError))
  : result unit OaatError * ZoneManager :=
  match zm_zones m !! from_zone with
  | None => (Err (Protocol ("zone not found: " ++ from_zone)), m)
  | Some zone =>
      match endpoint_addr zone endpoint_id with
      | None => (Err (Protocol ("endpoint not found: " ++ endpoint_id)), m)
      | Some addr =>
          let '(_, m) := remove_endpoint_from_zone m from_zone endpoint_id in
          let '(r, m) := add_endpoint_to_zone m to_zone addr (dial addr) boot in
          match r with Ok _ => (Ok tt, m) | Err e => (Err e, m) end
      end
  end.

Definition emit_endpoint_failed (m : ZoneManager) (zone_id endpoint_id error : string) : ZoneManager :=
  set_zones m (zm_zones m) [EndpointFailed zone_id endpoint_id error].

Record ZoneSnapshot := mkZoneSnapshot {
  zs_zone_id : string;
  zs_name : string;
  zs_endpoints : list EndpointSnapshot;
  zs_is_streaming : bool;
  zs_volume : Z
}.

Definition snapshot (m : ZoneManager) : list ZoneSnapshot :=
  (λ '(_, z), mkZoneSnapshot (z_id z) (z_name z) (endpoint_snapshots z) (is_streaming z)
                (vm_master (z_volume z))) <$> map_to_list (zm_zones m).

(** ** The endpoints the manager knows *)

Definition member (m : ZoneManager) (zone_id endpoint_id : string) : bool :=
  match zm_zones m !! zone_id with
  | Some z => match z_endpoints z !! endpoint_id with Some _ => true | None => false end
  | None => false
  end.

(** ** Lemmas *)

Lemma send_entry_state e msg : en_state (send_entry e msg).2 = en_state e.
Proof. unfold send_entry. by destruct (send_message _ _). Qed.

Lemma send_entry_sent e msg :
  ep_sent (en_endpoint (send_entry e msg).2) =
    ep_sent (en_endpoint e) ++ (if ep_writable (en_endpoint e) then [msg] else []).
Proof.
  unfold send_entry. pose proof (send_message_sent (en_endpoint e) msg). by destruct (send_message _ _).
Qed.

Lemma send_entry_writable e msg : ep_writable (en_endpoint (send_entry e msg).2) = ep_writable (en_endpoint e).
Proof.
  unfold send_entry. pose proof (send_message_writable (en_endpoint e) msg). by destruct (send_message _ _).
Qed.

Lemma send_each_lookup z msg id :
  z_endpoints (send_each z msg) !! id = (λ e, (send_entry e (msg id)).2) <$> z_endpoints z !! id.
Proof.
  simpl. rewrite map_lookup_imap. by destruct (z_endpoints z !! id).
Qed.

Lemma send_each_members z msg id :
  is_Some (z_endpoints (send_each z msg) !! id) ↔ is_Some (z_endpoints z !! id).
Proof. rewrite send_each_lookup. apply fmap_is_Some. Qed.

Lemma effective_volume_clamp v id :
  effective_volume v id = clamp 0 100 (vm_master v + volume_offset v id).
Proof. unfold effective_volume. apply as_u_id. range. Qed.

Lemma set_offset_volume z id o :
  volume_offset (z_volume (set_offset z id o)) id = o.
Proof. unfold volume_offset. simpl. by rewrite lookup_insert_eq. Qed.

Lemma send_one_volume z id msg : z_volume (send_one z id msg).2 = z_volume z.
Proof. unfold send_one. destruct (_ !! _); [|done]. by destruct (send_message _ _). Qed.

(** The messages an endpoint of the zone has been sent. *)
Definition sent_to (z : Zone) (id : string) : option (list Message) :=
  (λ e, ep_sent (en_endpoint e)) <$> z_endpoints z !! id.

Lemma bootstrap_log ep boot :
  ep_sent (clock_sync_bootstrap ep boot).2 = ep_sent ep ∧
  ep_writable (clock_sync_bootstrap ep boot).2 = ep_writable ep ∧
  ep_info (clock_sync_bootstrap ep boot).2 = ep_info ep.
Proof.
  revert ep. induction boot as [|[[t1 t4] resp] boot IH]; intros ep; [done|]. simpl.
  unfold clock_sync_once. destruct resp as [rb|e]; [|done].
  destruct (clock_decode rb) as [p|e]; [|done]. destruct (IH (with_clock ep
    (clock_update (ep_clock_state ep) t1 (cs_t2 p) (cs_t3 p) t4))) as (-> & -> & ->). done.
Qed.

(** Adding an endpoint that takes writes: it hears its assignment, then the
    new membership; the others only the membership. *)
Lemma add_endpoint_spec z addr ep boot :
  ep_writable ep = true →
  let id := ack_endpoint_id (ep_info ep) in
  ∃ z', add_endpoint z addr (Ok ep) boot = (Ok id, z') ∧
    z_active z' = z_active z ∧ z_volume z' = z_volume z ∧ z_id z' = z_id z ∧
    (∀ id', is_Some (z_endpoints z' !! id') ↔ id' = id ∨ is_Some (z_endpoints z !! id')) ∧
    ∃ e' members, z_endpoints z' !! id = Some e' ∧ en_state e' = EsReady ∧
      ep_writable (en_endpoint e') = true ∧
      ep_sent (en_endpoint e') = ep_sent ep ++ [MZoneAssign (mkZoneAssign (z_id z) id);
                                                MZoneUpdate (mkZoneUpdate (z_id z) members)] ∧
      (∀ id', id' ∈ members ↔ is_Some (z_endpoints z' !! id')).
Proof.
  intros Hw id. unfold add_endpoint.
  destruct (bootstrap_log ep boot) as (Hs & Hwr & Hin).
  destruct (clock_sync_bootstrap ep boot) as [r ep1]. simpl in Hs, Hwr, Hin. rewrite Hin. fold id.
  pose proof (send_message_sent ep1 (MZoneAssign (mkZoneAssign (z_id z) id))) as Hsent.
  pose proof (send_message_writable ep1 (MZoneAssign (mkZoneAssign (z_id z) id))) as Hwrit.
  destruct (send_message ep1 _) as [r2 ep2]. simpl in Hsent, Hwrit. rewrite Hwr, Hw in Hsent, Hwrit.
  eexists. split; [done|]. unfold broadcast_zone_update.
  set (z1 := set_endpoints z (<[id := mkEntry ep2 addr EsReady true]> (z_endpoints z))).
  split_and!; try done.
  - intros id'. rewrite send_each_members. simpl. rewrite lookup_insert_is_Some.
    destruct (decide (id = id')); naive_solver.
  - exists (send_entry (mkEntry ep2 addr EsReady true) (MZoneUpdate (mkZoneUpdate (z_id z1) (endpoint_ids z1)))).2,
      (endpoint_ids z1).
    split_and!.
    + rewrite send_each_lookup. unfold z1 at 1. simpl. by rewrite lookup_insert_eq.
    + by rewrite send_entry_state.
    + by rewrite send_entry_writable.
    + rewrite send_entry_sent. simpl. rewrite Hwrit, Hsent, Hs. by rewrite <- (assoc_L (++)).
    + intros id'. rewrite send_each_members. unfold endpoint_ids. rewrite list_elem_of_fmap. split.
      * intros ([k e] & -> & Hin'). apply elem_of_map_to_list in Hin'. simpl. eauto.
      * intros [e He]. exists (id', e). split; [done|]. by apply elem_of_map_to_list.
Qed.

(** Pruning deletes the keys it lists from the endpoints and the offsets. *)
Lemma prune_fold dead z id :
  let z' := fold_left (λ z id, set_volume (set_endpoints z (delete id (z_endpoints z)))
                                 (remove_offset (z_volume z) id)) dead z in
  z_endpoints z' !! id = (if decide (id ∈ dead) then None else z_endpoints z !! id) ∧
  vm_offsets (z_volume z') !! id = (if decide (id ∈ dead) then None else vm_offsets (z_volume z) !! id).
Proof.
  revert z. induction dead as [|d dead IH]; intros z; cbn [fold_left].
  { by rewrite !decide_False by set_solver. }
  destruct (IH (set_volume (set_endpoints z (delete d (z_endpoints z))) (remove_offset (z_volume z) d)))
    as [-> ->]. cbn [z_endpoints set_volume set_endpoints z_volume remove_offset vm_offsets].
  destruct (decide (id = d)) as [->|Hne].
  - rewrite !lookup_delete_eq. repeat case_decide; set_solver.
  - rewrite !lookup_delete_ne by done. repeat case_decide; set_solver.
Qed.

Lemma prune_dead z id :
  id ∈ (prune_disconnected z).1 ↔ ∃ e, z_endpoints z !! id = Some e ∧ en_state e = EsDisconnected.
Proof.
  unfold prune_disconnected. simpl. rewrite list_elem_of_fmap. split.
  - intros ([k e] & -> & [Hd Hin]%list_elem_of_filter). apply elem_of_map_to_list in Hin. simpl in *.
    unfold is_disconnected in Hd. apply bool_decide_eq_true in Hd. eauto.
  - intros (e & He & Hd). exists (id, e). split; [done|]. apply list_elem_of_filter. split.
    + by apply bool_decide_eq_true_2.
    + by apply elem_of_map_to_list.
Qed.

(** ** Properties *)

(** Per-device volume: setting it makes it the effective volume and tells the
    endpoint; a later master change moves it by the same amount, clamped to
    0..=100, and tells the endpoint the result; no effective volume ever
    leaves 0..=100. *)
Theorem endpoint_volume z id level master' e :
  0 ≤ level ≤ 100 → 0 ≤ vm_master (z_volume z) ≤ 100 → 0 ≤ master' ≤ 100 →
  z_endpoints z !! id = Some e → ep_writable (en_endpoint e) = true →
  let z1 := (set_volume_endpoint z id level).2 in
  let z2 := set_volume_all z1 master' in
  let moved := clamp 0 100 (master' + (level - vm_master (z_volume z))) in
  effective_volume (z_volume z1) id = level ∧ effective_volume (z_volume z2) id = moved ∧
  (∃ e2, z_endpoints z2 !! id = Some e2 ∧
     ep_sent (en_endpoint e2) =
       ep_sent (en_endpoint e) ++ [MVolumeSet (mkVolumeSet level); MVolumeSet (mkVolumeSet moved)]) ∧
  (∀ v id', 0 ≤ effective_volume v id' ≤ 100).
Proof.
  intros Hl Hm Hm' He Hw z1 z2 moved.
  assert (i8_difference level (vm_master (z_volume z)) = level - vm_master (z_volume z)) as Hd.
  { unfold i8_difference. rewrite (as_i_id 8 level), (as_i_id 8 (vm_master (z_volume z))) by range.
    apply as_i_id; range. }
  assert (z_volume z1 = z_volume (set_offset z id (level - vm_master (z_volume z)))) as Hv1.
  { unfold z1, set_volume_endpoint. by rewrite send_one_volume, Hd. }
  assert (effective_volume (z_volume z2) id = moved) as Hmoved.
  { rewrite effective_volume_clamp. unfold z2. simpl. unfold volume_offset. simpl.
    fold (volume_offset (z_volume z1) id). by rewrite Hv1, set_offset_volume. }
  split_and!; [|done| |].
  - rewrite effective_volume_clamp, Hv1, set_offset_volume. simpl. range.
  - unfold z2, set_volume_all. rewrite send_each_lookup.
    change (effective_volume (z_volume (set_volume z1 _)) id) with (effective_volume (z_volume z2) id).
    rewrite Hmoved. unfold z1, set_volume_endpoint, send_one. simpl. rewrite He. simpl.
    unfold send_message. rewrite Hw. simpl. rewrite lookup_insert_eq. eexists. split; [done|].
    unfold send_entry, send_message. simpl. by rewrite <- (assoc_L (++)).
  - intros v id'. rewrite effective_volume_clamp. range.
Qed.

(** Levels above 100 are not refused, and the cast to [i8] then changes their
    sign: at the default master, an endpoint that is told level 230 is
    recorded with an effective volume of zero, while its offset is the
    difference of two casts; for level 156 that difference does not even fit
    an [i8], and the subtraction overflows. *)
Theorem volume_level_overflow z id e :
  z_endpoints z !! id = Some e → ep_writable (en_endpoint e) = true → vm_master (z_volume z) = 100 →
  let z' := (set_volume_endpoint z id 230).2 in
  (∃ e', z_endpoints z' !! id = Some e' ∧
     ep_sent (en_endpoint e') = ep_sent (en_endpoint e) ++ [MVolumeSet (mkVolumeSet 230)]) ∧
  effective_volume (z_volume z') id = 0 ∧
  ¬ in_i 8 (as_i 8 156 - as_i 8 (vm_master (z_volume z))).
Proof.
  intros He Hw Hm. unfold set_volume_endpoint, send_one. simpl. rewrite He. simpl.
  unfold send_message. rewrite Hw, Hm. simpl. split_and!.
  - eexists. rewrite lookup_insert_eq. by split.
  - unfold effective_volume, volume_offset. simpl. rewrite lookup_insert_eq, Hm. done.
  - intros [? Hx]. by vm_compute in Hx.
Qed.

(** Audio goes to every endpoint of the zone that is not disconnected, the
    same datagrams to each, and to no other; control streams and states are
    untouched, and the sequence number advances by one per packet. *)
Theorem audio_to_connected z sid fmt pts off payload fl pkts z1 :
  send_audio_packets z sid fmt pts off payload fl = (pkts, z1) → is_u16 (z_sequence z) →
  let z' := send_audio_all z sid fmt pts off payload fl in
  (∀ id, z_endpoints z' !! id =
     (λ e, if decide (en_state e = EsDisconnected) then e
           else set_endpoint e (add_datagrams (en_endpoint e)
                  ((λ '(h, p), audio_datagram h p) <$> pkts))) <$> z_endpoints z !! id) ∧
  z_sequence z' = wrapping_add 16 (z_sequence z) (len pkts) ∧ (length pkts = 1 ∨ length pkts = 2)%nat.
Proof.
  intros Hp Hs z'. unfold z', send_audio_all. rewrite Hp. simpl.
  assert (z_endpoints z1 = z_endpoints z ∧ z_sequence z1 = wrapping_add 16 (z_sequence z) (len pkts) ∧
          (length pkts = 1 ∨ length pkts = 2)%nat) as (He & Hq & Hl).
  { unfold send_audio_packets in Hp. repeat case_match; simplify_eq/=; split_and!; auto.
    unfold wrapping_add, as_u. rewrite Zplus_mod_idemp_l. rewrite !len_cons, len_nil. f_equal; lia. }
  split_and!; try done. intros id. rewrite lookup_fmap, He. destruct (z_endpoints z !! id) as [e|]; [|done].
  simpl. f_equal. unfold is_disconnected. by destruct (decide _) as [->|Hne]; case_bool_decide.
Qed.

Definition demo_ep (id : string) : ConnectedEndpoint :=
  mkConnected (mkHelloAck 1 id "Kitchen" (mkCapabilities 96000 24 None 2 [PcmS24le] None false false)
                 9741 9742 500 []) [] true (1, 9741) (1, 9742) [] ClockState_new 0 true.

Definition demo_room : Zone :=
  mkZone "z" "Z" (<["a"%string := mkEntry (demo_ep "a") (1, 9740) EsReady true]>
                   {["b"%string := mkEntry (demo_ep "b") (2, 9740) EsDisconnected true]})
    (mkControllerConfig "c" "C" [] 0 false) 65535 0 VolumeMap_new
    (Some (mkActive "s" PcmS24le 96000 2 Stereo 24 None true)) None None.

Lemma audio_to_connected_witness :
  let pkts := [(mkHeader 1 0 PcmS24le 65535 7 1000 0 2 0 0 0, [1; 2])] in
  let z' := send_audio_all demo_room 7 PcmS24le 1000 0 [1; 2] 0 in
  (∀ id, z_endpoints z' !! id =
     (λ e, if decide (en_state e = EsDisconnected) then e
           else set_endpoint e (add_datagrams (en_endpoint e)
                  ((λ '(h, p), audio_datagram h p) <$> pkts))) <$> z_endpoints demo_room !! id) ∧
  z_sequence z' = wrapping_add 16 (z_sequence demo_room) (len pkts) ∧ (length pkts = 1 ∨ length pkts = 2)%nat.
Proof.
  refine (audio_to_connected demo_room 7 PcmS24le 1000 0 [1; 2] 0 _ _ eq_refl _).
  vm_compute. split; [discriminate|reflexivity].
Defined.

(** A late joiner is caught up completely: after its zone assignment and the
    new membership it is sent, in this order, the proposal of the running
    stream, its metadata if any, its own effective volume, and the play
    command when the zone is playing. *)
Theorem late_join_catches_up z addr ep boot s :
  z_active z = Some s → ep_writable ep = true → ep_sent ep = [] →
  let id := ack_endpoint_id (ep_info ep) in
  ∃ z' e members,
    join_active z addr (Ok ep) boot = Ret (Ok id, z') ∧ z_endpoints z' !! id = Some e ∧
    en_state e = (if as_playing s then EsStreaming else EsReady) ∧
    ep_sent (en_endpoint e) =
      [MZoneAssign (mkZoneAssign (z_id z) id); MZoneUpdate (mkZoneUpdate (z_id z) members);
       MFormatPropose (mkFormatPropose (as_stream_id s) (as_format s) (as_sample_rate s) (as_channels s)
                         (as_channel_layout s) (as_bits_per_sample s) None)]
      ++ (match as_metadata s with Some m => [MMetadata (mkMetadata m)] | None => [] end)
      ++ [MVolumeSet (mkVolumeSet (effective_volume (z_volume z) id))]
      ++ (if as_playing s then [MPlay (mkPlay (as_stream_id s))] else []).
Proof.
  intros Ha Hw Hs id.
  destruct (add_endpoint_spec z addr ep boot Hw) as
    (z1 & Hadd & Ha1 & Hv1 & Hid1 & _ & e1 & members & He1 & Hst1 & Hw1 & Hs1 & _).
  unfold join_active. rewrite Hadd, Ha1, Ha. fold id in He1 |- *. rewrite He1.
  unfold propose_format, send_message at 1. rewrite Hw1. rewrite Hs in Hs1.
  destruct (as_metadata s) as [m|], (as_playing s);
    (eexists _, _, members; split; [reflexivity|]; simpl; rewrite lookup_insert_eq;
     split; [reflexivity|]; simpl; rewrite Hs1, ?Hst1, Hv1; done).
Qed.

Lemma late_join_catches_up_witness :
  ∃ z' e members,
    join_active demo_room (3, 9740) (Ok (demo_ep "c")) [] = Ret (Ok "c"%string, z') ∧
    z_endpoints z' !! "c"%string = Some e ∧ en_state e = EsStreaming ∧
    ep_sent (en_endpoint e) =
      [MZoneAssign (mkZoneAssign "z" "c"); MZoneUpdate (mkZoneUpdate "z" members);
       MFormatPropose (mkFormatPropose "s" PcmS24le 96000 2 Stereo 24 None);
       MVolumeSet (mkVolumeSet 100); MPlay (mkPlay "s")].
Proof.
  exact (late_join_catches_up demo_room (3, 9740) (demo_ep "c") []
           (mkActive "s" PcmS24le 96000 2 Stereo 24 None true) eq_refl eq_refl eq_refl).
Defined.

Lemma endpoint_volume_witness :
  let z1 := (set_volume_endpoint demo_room "a" 40).2 in
  let z2 := set_volume_all z1 80 in
  effective_volume (z_volume z1) "a" = 40 ∧ effective_volume (z_volume z2) "a" = 20 ∧
  (∃ e2, z_endpoints z2 !! "a"%string = Some e2 ∧
     ep_sent (en_endpoint e2) = [MVolumeSet (mkVolumeSet 40); MVolumeSet (mkVolumeSet 20)]) ∧
  (∀ v id', 0 ≤ effective_volume v id' ≤ 100).
Proof.
  refine (endpoint_volume demo_room "a" 40 80 _ _ _ _ eq_refl eq_refl); vm_compute; split; discriminate.
Defined.

Lemma volume_level_overflow_witness :
  let z' := (set_volume_endpoint demo_room "a" 230).2 in
  (∃ e', z_endpoints z' !! "a"%string = Some e' ∧
     ep_sent (en_endpoint e') = [] ++ [MVolumeSet (mkVolumeSet 230)]) ∧
  effective_volume (z_volume z') "a" = 0 ∧ ¬ in_i 8 (as_i 8 156 - as_i 8 100).
Proof. exact (volume_level_overflow demo_room "a" _ eq_refl eq_refl eq_refl). Defined.

(** Pruning removes exactly the endpoints marked disconnected, with their
    volume offsets, and reports them; every other endpoint and offset is as
    before, and no disconnected endpoint is left. *)
Theorem prune_removes_disconnected z :
  let '(dead, z') := prune_disconnected z in
  (∀ id, id ∈ dead ↔ ∃ e, z_endpoints z !! id = Some e ∧ en_state e = EsDisconnected) ∧
  (∀ id, id ∈ dead → z_endpoints z' !! id = None ∧ vm_offsets (z_volume z') !! id = None) ∧
  (∀ id, id ∉ dead → z_endpoints z' !! id = z_endpoints z !! id ∧
                     vm_offsets (z_volume z') !! id = vm_offsets (z_volume z) !! id) ∧
  (∀ id e, z_endpoints z' !! id = Some e → en_state e ≠ EsDisconnected).
Proof.
  pose proof (prune_dead z) as Hdead. destruct (prune_disconnected z) as [dead z'] eqn:E. simpl in Hdead.
  assert (∀ id, z_endpoints z' !! id = (if decide (id ∈ dead) then None else z_endpoints z !! id) ∧
    vm_offsets (z_volume z') !! id = (if decide (id ∈ dead) then None else vm_offsets (z_volume z) !! id)) as Hf.
  { intros id. unfold prune_disconnected in E. simplify_eq. apply prune_fold. }
  split_and!; [done| | |].
  - intros id Hid. destruct (Hf id) as [-> ->]. by case_decide.
  - intros id Hid. destruct (Hf id) as [-> ->]. by case_decide.
  - intros id e He Hst. destruct (Hf id) as [Hz _]. rewrite He in Hz.
    case_decide as Hin; [done|]. apply Hin, Hdead. eauto.
Qed.

#[local] Instance snapshot_total : Total snapshot_le.
Proof. intros a b. unfold snapshot_le. destruct (String.leb_total (cs_endpoint_id a) (cs_endpoint_id b)); auto. Qed.

(** The clock evidence of a zone: one entry for each endpoint, what its
    connection measured, in the order of the identifiers whatever the order of
    the map. *)
Theorem clock_snapshots_complete z :
  Sorted snapshot_le (endpoint_clock_snapshots z) ∧ NoDup (cs_endpoint_id <$> endpoint_clock_snapshots z) ∧
  ∀ id m, mkClockSnapshot id m ∈ endpoint_clock_snapshots z ↔
    ∃ e, z_endpoints z !! id = Some e ∧ m = clock_measurement (en_endpoint e).
Proof.
  unfold endpoint_clock_snapshots. set (l := (_ <$> map_to_list (z_endpoints z))).
  assert (merge_sort snapshot_le l ≡ₚ l) as Hp by apply merge_sort_Permutation.
  split; [by apply Sorted_merge_sort, _|]. split.
  - rewrite Hp. unfold l. rewrite <- list_fmap_compose. erewrite list_fmap_ext; [apply NoDup_fst_map_to_list|]. by intros _ [id e] _.
  - intros id m. rewrite Hp. unfold l. rewrite list_elem_of_fmap. split.
    + intros ([id' e] & E & Hin). injection E as -> ->. apply elem_of_map_to_list in Hin. by exists e.
    + intros (e & He & ->). exists (id, e). split; [done|]. by apply elem_of_map_to_list.
Qed.

(** Moving an endpoint to a zone that does not exist reports an error, but
    the endpoint has already left its zone: it is in no zone afterwards. *)
Theorem move_to_missing_zone_loses m ep from to dial boot z e :
  zm_zones m !! from = Some z → z_endpoints z !! ep = Some e → zm_zones m !! to = None →
  let '(r, m') := move_endpoint m ep from to dial boot in
  r = Err (Protocol ("zone not found: " ++ to)) ∧ member m from ep = true ∧
  member m' from ep = false ∧ zm_events m' = zm_events m ++ [EndpointLeft from ep].
Proof.
  intros Hz He Ht. unfold move_endpoint, endpoint_addr. rewrite Hz, He. simpl.
  unfold remove_endpoint_from_zone. rewrite Hz. unfold remove_endpoint. rewrite He.
  destruct (send_message (en_endpoint e) _) as [r ep']. unfold add_endpoint_to_zone. simpl.
  assert (from ≠ to) by congruence.
  rewrite lookup_insert_ne, Ht by done. split_and!; try done.
  - unfold member. by rewrite Hz, He.
  - unfold member. simpl. rewrite lookup_insert_eq. simpl. by rewrite lookup_delete_eq.
Qed.

Definition demo_manager : ZoneManager :=
  mkManager {["z"%string := demo_room]} (mkControllerConfig "c" "C" [] 0 false) [].

Lemma move_to_missing_zone_loses_witness :
  let '(r, m') := move_endpoint demo_manager "a" "z" "nowhere" (λ _, Ok (demo_ep "a")) [] in
  r = Err (Protocol "zone not found: nowhere") ∧ member demo_manager "z" "a" = true ∧
  member m' "z" "a" = false ∧ zm_events m' = [] ++ [EndpointLeft "z" "a"].
Proof.
  exact (move_to_missing_zone_loses demo_manager "a" "z" "nowhere" (λ _, Ok (demo_ep "a")) []
           demo_room (mkEntry (demo_ep "a") (1, 9740) EsReady true) eq_refl eq_refl eq_refl).
Defined.
