(* ===== verification/ZoneReleases.v ===== *)
(** * The releases of a zone

    Models how the releases of the endpoints reach the application that owns a
    zone ([crates/oaat-controller/src/zone.rs]): [add_endpoint] spawns a task
    ([spawn_release_forward]) that takes them from the reader of the connection
    ([Reader], a channel of four) and sends them, tagged with the endpoint's
    identifier, into the zone's channel of sixteen, which the application
    reads.  A run is any sequence of steps of the readers, these tasks, the zone
    and the application.

    Connections are numbered in the order they join: an endpoint that comes
    back is a new connection, and the old one, removed or replaced, goes on
    until its entry is dropped. *)

From S2P Require Import Prelude Format Session Wire Message Codec Float Clock EndpointTransport ControllerTransport Reader Zone Manager.

Local Open Scope Z_scope.

Record ZoneEndpointRelease := mkZoneRelease { zer_endpoint_id : string; zer_release : EndpointRelease }.

Definition ZONE_RELEASE_CAPACITY : nat := 16.
#[local] Arguments ZONE_RELEASE_CAPACITY : simpl never.

(** A connection: its reader and its forwarding task, with the release that
    waits in [zone_tx.send]. *)
Record Link := mkLink {
  lk_endpoint_id : string;
  lk_reader : ReaderState;
  lk_held : option EndpointRelease;
  lk_running : bool
}.

(** [zr_current] gives the connection of each endpoint of the zone, [zr_joined]
    every connection there has been, with the codec it started with; the
    entries of [zr_channel] carry the number of their connection.  None of
    these is in the code, which knows identifiers only. *)
Record ZoneReleases := mkZoneReleases {
  zr_zone : Zone;
  zr_links : gmap nat Link;
  zr_current : gmap string nat;
  zr_joined : list (string * FrameCodec);
  zr_channel : list (nat * ZoneEndpointRelease);
  zr_receiver : bool
}.

Definition zone_releases (z : Zone) : ZoneReleases := mkZoneReleases z ∅ ∅ [] [] true.

Definition set_link (s : ZoneReleases) (c : nat) (l : Link) : ZoneReleases :=
  mkZoneReleases (zr_zone s) (<[c := l]> (zr_links s)) (zr_current s) (zr_joined s) (zr_channel s) (zr_receiver s).

(** What is left of [zr_current] when the zone has changed. *)
Definition keep_current (z : Zone) (current : gmap string nat) : gmap string nat :=
  filter (λ p, is_Some (z_endpoints z !! p.1)) current.

Definition with_zone (s : ZoneReleases) (z : Zone) : ZoneReleases :=
  mkZoneReleases z (zr_links s) (keep_current z (zr_current s)) (zr_joined s) (zr_channel s) (zr_receiver s).

(** [spawn_release_forward], and the reader it takes the channel of. *)
Definition spawn_release_forward (s : ZoneReleases) (z : Zone) (endpoint_id : string) (codec : FrameCodec) : ZoneReleases :=
  let c := length (zr_joined s) in
  mkZoneReleases z (<[c := mkLink endpoint_id (reader_start codec) None true]> (zr_links s))
    (keep_current z (<[endpoint_id := c]> (zr_current s))) (zr_joined s ++ [(endpoint_id, codec)]) (zr_channel s) (zr_receiver s).

Inductive ReleaseOp :=
(** the zone: [add_endpoint], [join_active], [remove_endpoint_and_notify],
    [prune_disconnected]; [codec] is what the handshake left *)
| Adds (addr : SocketAddr) (dial : result ConnectedEndpoint OaatError) (boot : list (Z * Z * result (list Z) OaatError)) (codec : FrameCodec)
| JoinsActive (addr : SocketAddr) (dial : result ConnectedEndpoint OaatError) (boot : list (Z * Z * result (list Z) OaatError)) (codec : FrameCodec)
| Removes (id : string)
| Prunes
(** a connection: its reader reads bytes or an error, its forwarding task
    receives a release, or sends it; its entry, no longer in the zone, is
    dropped *)
| Hears (c : nat) (data : option (list Z))
| Receives (c : nat)
| Sends (c : nat)
| Dropped (c : nat)
(** the application: [try_recv] with a release there; the receiver is dropped *)
| TakesZoneRelease
| Deafens.

Section releases.
Context `{JsonCodec}.

Definition dialled_id (dial : result ConnectedEndpoint OaatError) : option string :=
  match dial with Ok ep => Some (ack_endpoint_id (ep_info ep)) | Err _ => None end.

(** A connection made is forwarded, whatever becomes of it. *)
Definition joined_zone (s : ZoneReleases) (dial : result ConnectedEndpoint OaatError) (z : Zone) (codec : FrameCodec) : ZoneReleases :=
  match dialled_id dial with
  | Some id => spawn_release_forward s z id codec
  | None => with_zone s z
  end.

Definition hear_op (data : option (list Z)) : ReaderOp := match data with Some data => Reads data | None => ReadFails end.

(** One turn of the forwarding task up to its next [await]. *)
Definition receive_release (l : Link) : option Link :=
  match lk_running l, lk_held l, reader_step (lk_reader l) TakesRelease with
  | true, None, Some (r, [TRelease er]) => Some (mkLink (lk_endpoint_id l) r (Some er) true)
  | _, _, _ => None
  end.

Definition send_release (s : ZoneReleases) (c : nat) (l : Link) : option ZoneReleases :=
  match lk_running l, lk_held l with
  | true, Some er =>
      if zr_receiver s then
        if (length (zr_channel s) <? ZONE_RELEASE_CAPACITY)%nat then
          Some (mkZoneReleases (zr_zone s) (<[c := mkLink (lk_endpoint_id l) (lk_reader l) None true]> (zr_links s))
                  (zr_current s) (zr_joined s) (zr_channel s ++ [(c, mkZoneRelease (lk_endpoint_id l) er)]) true)
        else None
      else Some (set_link s c (mkLink (lk_endpoint_id l) (lk_reader l) None false))
  | _, _ => None
  end.

Definition is_current (s : ZoneReleases) (c : nat) (l : Link) : bool :=
  bool_decide (zr_current s !! lk_endpoint_id l = Some c).

Definition release_step (s : ZoneReleases) (op : ReleaseOp) : option (ZoneReleases * list (nat * ZoneEndpointRelease)) :=
  match op with
  | Adds addr dial boot codec => Some (joined_zone s dial (add_endpoint (zr_zone s) addr dial boot).2 codec, [])
  | JoinsActive addr dial boot codec =>
      match join_active (zr_zone s) addr dial boot with
      | Ret (_, z) => Some (joined_zone s dial z codec, [])
      | Panic => None
      end
  | Removes id => Some (with_zone s (remove_endpoint_and_notify (zr_zone s) id).2, [])
  | Prunes => Some (with_zone s (prune_disconnected (zr_zone s)).2, [])
  | Hears c data =>
      match zr_links s !! c with
      | Some l =>
          match reader_step (lk_reader l) (hear_op data) with
          | Some (r, _) => Some (set_link s c (mkLink (lk_endpoint_id l) r (lk_held l) (lk_running l)), [])
          | None => None
          end
      | None => None
      end
  | Receives c =>
      match zr_links s !! c with
      | Some l => (λ l, (set_link s c l, [])) <$> receive_release l
      | None => None
      end
  | Sends c =>
      match zr_links s !! c with
      | Some l => (λ s, (s, [])) <$> send_release s c l
      | None => None
      end
  | Dropped c =>
      match zr_links s !! c with
      | Some l =>
          if is_current s c l then None
          else Some (mkZoneReleases (zr_zone s) (delete c (zr_links s)) (zr_current s) (zr_joined s) (zr_channel s) (zr_receiver s), [])
      | None => None
      end
  | TakesZoneRelease =>
      match zr_receiver s, zr_channel s with
      | true, r :: rest => Some (mkZoneReleases (zr_zone s) (zr_links s) (zr_current s) (zr_joined s) rest true, [r])
      | _, _ => None
      end
  | Deafens => Some (mkZoneReleases (zr_zone s) (zr_links s) (zr_current s) (zr_joined s) [] false, [])
  end.

Fixpoint release_run (s : ZoneReleases) (ops : list ReleaseOp) : option (ZoneReleases * list (nat * ZoneEndpointRelease)) :=
  match ops with
  | [] => Some (s, [])
  | op :: ops =>
      match release_step s op with
      | Some (s, t) => match release_run s ops with Some (s, ts) => Some (s, t ++ ts) | None => None end
      | None => None
      end
  end.

(** ** What a run is observed to do *)

(** The releases of connection [c] in a list, and what its reader has done. *)
Definition from_link (c : nat) (l : list (nat * ZoneEndpointRelease)) : list EndpointRelease :=
  omap (λ p, if decide (p.1 = c) then Some (zer_release p.2) else None) l.

Definition link_op (c : nat) (op : ReleaseOp) : option ReaderOp :=
  match op with
  | Hears c' data => if decide (c' = c) then Some (hear_op data) else None
  | Receives c' => if decide (c' = c) then Some TakesRelease else None
  | _ => None
  end.
Definition link_ops (c : nat) (ops : list ReleaseOp) : list ReaderOp := omap (link_op c) ops.

(** ** Lemmas *)

Lemma reader_run_app s ops1 ops2 :
  reader_run s (ops1 ++ ops2) =
  match reader_run s ops1 with
  | Some (s1, ts1) => match reader_run s1 ops2 with Some (s2, ts2) => Some (s2, ts1 ++ ts2) | None => None end
  | None => None
  end.
Proof.
  revert s. induction ops1 as [|op ops1 IH]; intros s; cbn [app reader_run].
  - by destruct (reader_run s ops2) as [[]|].
  - destruct (reader_step s op) as [[s1 t1]|]; [|done]. rewrite IH. destruct (reader_run s1 ops1) as [[s2 t2]|]; [|done].
    destruct (reader_run s2 ops2) as [[s3 t3]|]; [|done]. by rewrite app_assoc.
Qed.

Lemma reader_run_snoc s ops op s1 ts s2 t :
  reader_run s ops = Some (s1, ts) → reader_step s1 op = Some (s2, t) → reader_run s (ops ++ [op]) = Some (s2, ts ++ t).
Proof. intros E1 E2. rewrite reader_run_app, E1. cbn [reader_run]. by rewrite E2, app_nil_r. Qed.

Lemma releases_taken_app a b : releases_taken (a ++ b) = releases_taken a ++ releases_taken b.
Proof. apply omap_app. Qed.

Lemma from_link_app c a b : from_link c (a ++ b) = from_link c a ++ from_link c b.
Proof. apply omap_app. Qed.

Lemma link_ops_app c a b : link_ops c (a ++ b) = link_ops c a ++ link_ops c b.
Proof. apply omap_app. Qed.
Lemma link_ops_snoc c ops op : link_ops c (ops ++ [op]) = link_ops c ops ++ option_list (link_op c op).
Proof. rewrite link_ops_app. unfold link_ops. cbn. by destruct (link_op c op). Qed.

(** What has been forwarded of connection [c], out of what its reader gave. *)
Record link_inv (s : ZoneReleases) (ops : list ReleaseOp) (taken : list (nat * ZoneEndpointRelease))
    (c : nat) (id : string) (codec : FrameCodec) (rs : ReaderState) (ts : list Taken) (lost : list EndpointRelease) : Prop := {
  lv_run : reader_run (reader_start codec) (link_ops c ops) = Some (rs, ts);
  lv_released : from_link c (taken ++ zr_channel s) ++ lost = releases_taken ts;
  lv_link : ∀ l, zr_links s !! c = Some l →
    lk_endpoint_id l = id ∧ lk_reader l = rs ∧ (zr_receiver s = true → lk_running l = true ∧ lost = option_list (lk_held l))
}.

Record releases_inv (s : ZoneReleases) (ops : list ReleaseOp) (taken : list (nat * ZoneEndpointRelease)) : Prop := {
  ri_links : ∀ c id codec, zr_joined s !! c = Some (id, codec) → ∃ rs ts lost, link_inv s ops taken c id codec rs ts lost;
  ri_others : ∀ c, zr_joined s !! c = None → zr_links s !! c = None ∧ link_ops c ops = [] ∧ from_link c (taken ++ zr_channel s) = [];
  ri_tags : Forall (λ p, ∃ codec, zr_joined s !! p.1 = Some (zer_endpoint_id p.2, codec)) (taken ++ zr_channel s);
  ri_capacity : (length (zr_channel s) ≤ ZONE_RELEASE_CAPACITY)%nat
}.

Lemma releases_inv_start z : releases_inv (zone_releases z) [] [].
Proof. split; cbn; try done. unfold ZONE_RELEASE_CAPACITY; lia. Qed.

(** A step of the zone that connects nobody. *)
Lemma with_zone_inv s ops taken z op :
  releases_inv s ops taken → (∀ c, link_op c op = None) → releases_inv (with_zone s z) (ops ++ [op]) taken.
Proof.
  intros [Hl Ho Ht Hc] Hop. split; cbn; try done.
  - intros c id codec E. destruct (Hl c id codec E) as (rs & ts & lost & [H1 H2 H3]). exists rs, ts, lost.
    split; try done. by rewrite link_ops_snoc, Hop, app_nil_r.
  - intros c E. rewrite link_ops_snoc, Hop, app_nil_r. by apply Ho.
Qed.

Lemma spawn_inv s ops taken z id codec op :
  releases_inv s ops taken → (∀ c, link_op c op = None) → releases_inv (spawn_release_forward s z id codec) (ops ++ [op]) taken.
Proof.
  intros [Hl Ho Ht Hc] Hop. set (n := length (zr_joined s)). split; cbn; fold n.
  - intros c id' codec' E. destruct (decide (c = n)) as [->|Hne].
    + rewrite lookup_app_r, Nat.sub_diag in E by done. cbn in E. simplify_eq.
      destruct (Ho n) as (_ & Hops & Hfrom); [by apply lookup_ge_None_2|].
      exists (reader_start codec'), [], []. split; cbn.
      * by rewrite link_ops_snoc, Hop, app_nil_r, Hops.
      * by rewrite Hfrom.
      * intros l. rewrite lookup_insert_eq. intros [= <-]. done.
    + assert (zr_joined s !! c = Some (id', codec')) as Ec.
      { apply lookup_app_Some in E as [E|[Hle E]]; [done|]. fold n in Hle, E.
        destruct (c - n)%nat as [|k] eqn:Ek; [lia|]. by destruct k. }
      destruct (Hl c id' codec' Ec) as (rs & ts & lost & [H1 H2 H3]). exists rs, ts, lost. split; cbn; try done.
      * by rewrite link_ops_snoc, Hop, app_nil_r.
      * intros l. rewrite lookup_insert_ne by done. apply H3.
  - intros c E. rewrite link_ops_snoc, Hop, app_nil_r. apply lookup_ge_None in E. rewrite length_app in E. cbn in E. fold n in E.
    rewrite lookup_insert_ne by lia. apply Ho, lookup_ge_None_2. unfold n in E. lia.
  - eapply Forall_impl; [exact Ht|]. intros p [codec' E]. exists codec'. by apply lookup_app_l_Some.
  - done.
Qed.

Lemma joined_inv s ops taken dial z codec op :
  releases_inv s ops taken → (∀ c, link_op c op = None) → releases_inv (joined_zone s dial z codec) (ops ++ [op]) taken.
Proof. intros Hi Hop. unfold joined_zone. destruct (dialled_id dial); [by apply spawn_inv|by apply with_zone_inv]. Qed.

(** A step of connection [c0]: its invariant is shown anew, and the others keep
    theirs. *)
Lemma link_step_inv s s' ops taken taken' op c0 id0 codec0 rs' ts' lost' :
  releases_inv s ops taken → zr_joined s' = zr_joined s → zr_joined s !! c0 = Some (id0, codec0) →
  (∀ c, c ≠ c0 → zr_links s' !! c = zr_links s !! c ∧ link_op c op = None ∧
     from_link c (taken' ++ zr_channel s') = from_link c (taken ++ zr_channel s)) →
  zr_receiver s' = zr_receiver s →
  Forall (λ p, ∃ codec, zr_joined s !! p.1 = Some (zer_endpoint_id p.2, codec)) (taken' ++ zr_channel s') →
  (length (zr_channel s') ≤ ZONE_RELEASE_CAPACITY)%nat →
  link_inv s' (ops ++ [op]) taken' c0 id0 codec0 rs' ts' lost' →
  releases_inv s' (ops ++ [op]) taken'.
Proof.
  intros [Hl Ho Ht Hc] Hj Hj0 Hother Hrecv Htags Hcap H0. split; rewrite ?Hj; try done.
  - intros c id codec E. destruct (decide (c = c0)) as [->|Hne]; [rewrite Hj0 in E; simplify_eq; by exists rs', ts', lost'|].
    destruct (Hl c id codec E) as (rs & ts & lost & [H1 H2 H3]). destruct (Hother c Hne) as (E1 & E2 & E3).
    exists rs, ts, lost. split; rewrite ?E1, ?Hrecv, ?E3; try done. by rewrite link_ops_snoc, E2, app_nil_r.
  - intros c E. destruct (decide (c = c0)) as [->|Hne]; [by rewrite Hj0 in E|].
    destruct (Hother c Hne) as (E1 & E2 & E3). rewrite E1, E3, link_ops_snoc, E2, app_nil_r. by apply Ho.
Qed.

Lemma link_known s ops taken c l :
  releases_inv s ops taken → zr_links s !! c = Some l → ∃ id codec, zr_joined s !! c = Some (id, codec).
Proof.
  intros Hi E. destruct (zr_joined s !! c) as [[id codec]|] eqn:Ej; [by eauto|]. destruct (ri_others _ _ _ Hi c Ej) as [E' _]. by rewrite E' in E.
Qed.

Lemma hears_inv s ops taken c data s' t :
  releases_inv s ops taken → release_step s (Hears c data) = Some (s', t) → releases_inv s' (ops ++ [Hears c data]) (taken ++ t).
Proof.
  intros Hi Hs. cbn [release_step] in Hs. destruct (zr_links s !! c) as [l|] eqn:El; [|done].
  destruct (reader_step (lk_reader l) (hear_op data)) as [[r t0]|] eqn:Er; [|done]. simplify_eq. rewrite app_nil_r.
  destruct (link_known _ _ _ _ _ Hi El) as (id & codec & Ej). pose proof Hi as [Hl Ho Ht Hc].
  destruct (Hl c id codec Ej) as (rs & ts & lost & [H1 H2 H3]). destruct (H3 l El) as (Hid & Hr & Hrun).
  assert (t0 = []) as ->.
  { destruct data; cbn in Er; repeat case_match; by simplify_eq. }
  eapply (link_step_inv s _ ops taken taken _ c id codec r ts lost); try done.
  - intros c' Hne. cbn. rewrite lookup_insert_ne, decide_False by done. done.
  - split; cbn; try done.
    + rewrite link_ops_snoc. cbn. rewrite decide_True by done. cbn. rewrite <- (app_nil_r ts). eapply reader_run_snoc; [done|]. by rewrite <- Hr.
    + intros l'. rewrite lookup_insert_eq. intros [= <-]. done.
Qed.

Lemma receives_inv s ops taken c s' t :
  releases_inv s ops taken → release_step s (Receives c) = Some (s', t) → releases_inv s' (ops ++ [Receives c]) (taken ++ t).
Proof.
  intros Hi Hs. cbn [release_step] in Hs. destruct (zr_links s !! c) as [l|] eqn:El; [|done].
  unfold receive_release in Hs. destruct (lk_running l) eqn:Erun, (lk_held l) as [?|] eqn:Eh; try done.
  destruct (reader_step (lk_reader l) TakesRelease) as [[r [|[?|er] [|? ?]]]|] eqn:Er; try done. cbn in Hs. simplify_eq. rewrite app_nil_r.
  destruct (link_known _ _ _ _ _ Hi El) as (id & codec & Ej). pose proof Hi as [Hl Ho Ht Hc].
  destruct (Hl c id codec Ej) as (rs & ts & lost & [H1 H2 H3]). destruct (H3 l El) as (Hid & Hr & Hrun).
  eapply (link_step_inv s _ ops taken taken _ c id codec r (ts ++ [TRelease er]) (lost ++ [er])); try done.
  - intros c' Hne. cbn. rewrite lookup_insert_ne, decide_False by done. done.
  - split; cbn; try done.
    + rewrite link_ops_snoc. cbn. rewrite decide_True by done. cbn. eapply reader_run_snoc; [done|]. by rewrite <- Hr.
    + rewrite releases_taken_app, app_assoc. by rewrite H2.
    + intros l'. rewrite lookup_insert_eq. intros [= <-]. cbn. split_and!; try done. intros Hrecv. split; [done|].
      destruct (Hrun Hrecv) as [_ ->]. by rewrite Eh.
Qed.

Lemma sends_inv s ops taken c s' t :
  releases_inv s ops taken → release_step s (Sends c) = Some (s', t) → releases_inv s' (ops ++ [Sends c]) (taken ++ t).
Proof.
  intros Hi Hs. cbn [release_step] in Hs. destruct (zr_links s !! c) as [l|] eqn:El; [|done].
  unfold send_release in Hs. destruct (lk_running l) eqn:Erun, (lk_held l) as [er|] eqn:Eh; try done.
  destruct (link_known _ _ _ _ _ Hi El) as (id & codec & Ej). pose proof Hi as [Hl Ho Ht Hc].
  destruct (Hl c id codec Ej) as (rs & ts & lost & [H1 H2 H3]). destruct (H3 l El) as (Hid & Hr & Hrun).
  destruct (zr_receiver s) eqn:Erecv.
  - destruct (Nat.ltb_spec (length (zr_channel s)) ZONE_RELEASE_CAPACITY) as [Hlt|]; [|done]. cbn in Hs. simplify_eq. rewrite app_nil_r.
    destruct (Hrun eq_refl) as [_ ->].
    eapply (link_step_inv s _ ops taken taken _ c (lk_endpoint_id l) codec (lk_reader l) ts []); cbn; try done.
    + intros c' Hne. rewrite lookup_insert_ne by done. rewrite app_assoc, from_link_app. unfold from_link at 2. cbn.
      by rewrite decide_False, app_nil_r by done.
    + rewrite app_assoc. apply Forall_app. split; [done|]. constructor; [|done]. by exists codec.
    + rewrite length_app. cbn. lia.
    + split; cbn; [by rewrite link_ops_snoc, app_nil_r| |].
      * rewrite app_assoc, from_link_app. unfold from_link at 2. cbn. rewrite decide_True, app_nil_r by done. cbn. rewrite <- H2, Eh. done.
      * intros l'. rewrite lookup_insert_eq. intros [= <-]. done.
  - cbn in Hs. simplify_eq. rewrite app_nil_r.
    eapply (link_step_inv s _ ops taken taken _ c (lk_endpoint_id l) codec (lk_reader l) ts lost); cbn; try done.
    + intros c' Hne. by rewrite lookup_insert_ne by done.
    + split; cbn; [by rewrite link_ops_snoc, app_nil_r|done|].
      intros l'. rewrite lookup_insert_eq, Erecv. intros [= <-]. done.
Qed.

Lemma dropped_inv s ops taken c s' t :
  releases_inv s ops taken → release_step s (Dropped c) = Some (s', t) → releases_inv s' (ops ++ [Dropped c]) (taken ++ t).
Proof.
  intros Hi Hs. cbn [release_step] in Hs. destruct (zr_links s !! c) as [l|] eqn:El; [|done].
  destruct (is_current s c l); [done|]. simplify_eq. rewrite app_nil_r.
  destruct (link_known _ _ _ _ _ Hi El) as (id & codec & Ej). pose proof Hi as [Hl Ho Ht Hc].
  destruct (Hl c id codec Ej) as (rs & ts & lost & [H1 H2 H3]).
  eapply (link_step_inv s _ ops taken taken _ c id codec rs ts lost); cbn; try done.
  - intros c' Hne. by rewrite lookup_delete_ne by done.
  - split; cbn; [by rewrite link_ops_snoc, app_nil_r|done|]. intros l'. by rewrite lookup_delete_eq.
Qed.

Lemma takes_inv s ops taken s' t :
  releases_inv s ops taken → release_step s TakesZoneRelease = Some (s', t) → releases_inv s' (ops ++ [TakesZoneRelease]) (taken ++ t).
Proof.
  intros [Hl Ho Ht Hc] Hs. cbn [release_step] in Hs. destruct (zr_receiver s) eqn:Er, (zr_channel s) as [|r rest] eqn:Ec; try done. simplify_eq.
  assert ((taken ++ [r]) ++ rest = taken ++ zr_channel s) as E by by rewrite Ec, <- app_assoc.
  split; cbn; rewrite ?E, ?Ec; try done.
  - intros c id codec Ej. destruct (Hl c id codec Ej) as (rs & ts & lost & [H1 H2 H3]). exists rs, ts, lost.
    split; cbn; [by rewrite link_ops_snoc, app_nil_r|by rewrite E|]. intros l El. destruct (H3 l El) as (? & ? & Hrun). split_and!; try done. intros _. by apply Hrun.
  - intros c Ej. rewrite link_ops_snoc, app_nil_r. by apply Ho.
  - cbn in Hc. lia.
Qed.

Lemma deafens_inv s ops taken s' t :
  releases_inv s ops taken → release_step s Deafens = Some (s', t) → releases_inv s' (ops ++ [Deafens]) (taken ++ t).
Proof.
  intros [Hl Ho Ht Hc] Hs. cbn in Hs. simplify_eq. rewrite app_nil_r. apply Forall_app in Ht as [Ht _]. split; cbn; rewrite ?app_nil_r; try done.
  - intros c id codec Ej. destruct (Hl c id codec Ej) as (rs & ts & lost & [H1 H2 H3]).
    exists rs, ts, (from_link c (zr_channel s) ++ lost). split; cbn; [by rewrite link_ops_snoc, app_nil_r| |].
    + by rewrite app_nil_r, app_assoc, <- from_link_app.
    + intros l El. destruct (H3 l El) as (? & ? & _). by split_and!.
  - intros c Ej. destruct (Ho c Ej) as (H1 & H2 & H3). rewrite link_ops_snoc, app_nil_r. split_and!; try done.
    rewrite from_link_app in H3. by apply app_eq_nil in H3 as [H3 _].
  - lia.
Qed.

Lemma release_step_inv s ops taken op s' t :
  releases_inv s ops taken → release_step s op = Some (s', t) → releases_inv s' (ops ++ [op]) (taken ++ t).
Proof.
  intros Hi Hs. destruct op as [addr dial boot codec|addr dial boot codec|id| |c data|c|c|c| |].
  - cbn in Hs. simplify_eq. rewrite app_nil_r. by apply joined_inv.
  - cbn in Hs. destruct (join_active _ _ _ _) as [[r z]|]; [|done]. simplify_eq. rewrite app_nil_r. by apply joined_inv.
  - cbn in Hs. simplify_eq. rewrite app_nil_r. by apply with_zone_inv.
  - cbn in Hs. simplify_eq. rewrite app_nil_r. by apply with_zone_inv.
  - by apply (hears_inv s).
  - by apply (receives_inv s).
  - by apply (sends_inv s).
  - by apply (dropped_inv s).
  - by apply (takes_inv s).
  - by apply (deafens_inv s).
Qed.

Lemma release_run_inv s ops0 taken0 ops s' t :
  releases_inv s ops0 taken0 → release_run s ops = Some (s', t) → releases_inv s' (ops0 ++ ops) (taken0 ++ t).
Proof.
  revert s ops0 taken0 t. induction ops as [|op ops IH]; intros s ops0 taken0 t Hi Hr; cbn [release_run] in Hr; [simplify_eq; by rewrite !app_nil_r|].
  destruct (release_step s op) as [[s1 t1]|] eqn:E; [|done]. destruct (release_run s1 ops) as [[s2 t2]|] eqn:E2; [|done]. simplify_eq.
  pose proof (IH s1 (ops0 ++ [op]) (taken0 ++ t1) t2 (release_step_inv _ _ _ _ _ _ Hi E) E2) as H'. by rewrite <- !app_assoc in H'.
Qed.

Lemma release_run_app s ops1 ops2 :
  release_run s (ops1 ++ ops2) =
  match release_run s ops1 with
  | Some (s1, ts1) => match release_run s1 ops2 with Some (s2, ts2) => Some (s2, ts1 ++ ts2) | None => None end
  | None => None
  end.
Proof.
  revert s. induction ops1 as [|op ops1 IH]; intros s; cbn [app release_run].
  - by destruct (release_run s ops2) as [[]|].
  - destruct (release_step s op) as [[s1 t1]|]; [|done]. rewrite IH. destruct (release_run s1 ops1) as [[s2 t2]|]; [|done].
    destruct (release_run s2 ops2) as [[s3 t3]|]; [|done]. by rewrite app_assoc.
Qed.

(** The application reads on until nothing is there. *)
Definition emptied (s : ZoneReleases) : ZoneReleases :=
  mkZoneReleases (zr_zone s) (zr_links s) (zr_current s) (zr_joined s) [] (zr_receiver s).

Lemma reads_on s :
  zr_receiver s = true → release_run s (replicate (length (zr_channel s)) TakesZoneRelease) = Some (emptied s, zr_channel s).
Proof.
  destruct s as [z links cur joined chan recv]. cbn. intros ->. induction chan as [|r chan IH]; [done|].
  cbn [length replicate release_run release_step zr_receiver zr_channel zr_zone zr_links zr_current zr_joined]. by rewrite IH.
Qed.

(** The turns of one connection that bring a release from its task, or from
    its reader, to the application. *)
Lemma held_passes s c l er :
  zr_receiver s = true → zr_channel s = [] → zr_links s !! c = Some l → lk_running l = true → lk_held l = Some er →
  release_run s [Sends c; TakesZoneRelease] =
  Some (set_link s c (mkLink (lk_endpoint_id l) (lk_reader l) None true), [(c, mkZoneRelease (lk_endpoint_id l) er)]).
Proof.
  destruct s as [z links cur joined chan recv]. cbn [zr_receiver zr_channel zr_links]. intros -> -> El Hr Hh.
  cbn [release_run release_step zr_links]. rewrite El. unfold send_release. by rewrite Hr, Hh.
Qed.

Lemma queued_pass s c l :
  zr_receiver s = true → zr_channel s = [] → zr_links s !! c = Some l → lk_running l = true → lk_held l = None →
  ∃ s', release_run s (concat (replicate (length (rd_releases (lk_reader l))) [Receives c; Sends c; TakesZoneRelease])) =
    Some (s', (λ er, (c, mkZoneRelease (lk_endpoint_id l) er)) <$> rd_releases (lk_reader l)) ∧
  zr_channel s' = [] ∧ zr_zone s' = zr_zone s ∧
  ∃ l', zr_links s' !! c = Some l' ∧ lk_held l' = None ∧ rd_releases (lk_reader l') = [].
Proof.
  destruct l as [id r h run]. cbn [lk_running lk_held lk_reader lk_endpoint_id]. remember (rd_releases r) as q eqn:Eq. symmetry in Eq.
  revert s r Eq. induction q as [|er q IH]; intros s r Eq Hr Hc El -> ->.
  - exists s. cbn. split_and!; try done. by eexists.
  - cbn [length replicate concat]. set (r1 := mkReader (rd_codec r) (rd_waiting r) (rd_responses r) q (rd_alive r)).
    assert (release_run s [Receives c; Sends c; TakesZoneRelease] =
              Some (set_link s c (mkLink id r1 None true), [(c, mkZoneRelease id er)])) as Hturn.
    { assert (release_run s [Receives c] = Some (set_link s c (mkLink id r1 (Some er) true), [])) as H1.
      { cbn [release_run release_step]. rewrite El. unfold receive_release. cbn [lk_running lk_held lk_reader reader_step]. by rewrite Eq. }
      change [Receives c; Sends c; TakesZoneRelease] with ([Receives c] ++ [Sends c; TakesZoneRelease]).
      rewrite release_run_app, H1, (held_passes _ c (mkLink id r1 (Some er) true) er); try done.
      - unfold set_link. cbn. by rewrite insert_insert_eq.
      - cbn. by rewrite lookup_insert_eq. }
    destruct (IH (set_link s c (mkLink id r1 None true)) r1 eq_refl Hr Hc) as (s' & Hrun & Hc' & Hz & Hl'); try done.
    { cbn. by rewrite lookup_insert_eq. }
    exists s'. rewrite release_run_app, Hturn, Hrun. done.
Qed.
End releases.

(** ** Properties *)

Section properties.
Context `{JsonCodec}.

(** C36 A release the application takes from a zone is one an endpoint sent:
    whatever endpoints join, leave, come back and send, however the tasks
    interleave and whenever the application reads, the releases of each
    connection reach the zone's channel in the order its endpoint sent them, none
    twice, all under the identifier it joined with; the channel holds at most
    sixteen.  While the connection lasts and somebody listens, the task loses
    none: what is not yet in the channel it holds, and the rest are with the
    reader. *)
Theorem zone_releases_forwarded z ops s taken c id codec ms cc :
  release_run (zone_releases z) ops = Some (s, taken) → zr_joined s !! c = Some (id, codec) →
  decode_next codec = (Ok None, codec) → decode_all (feed codec (bytes_read (link_ops c ops))) = (ms, Ok cc) →
  from_link c (taken ++ zr_channel s) `sublist_of` omap release_of ms ∧
  Forall (λ p, p.1 = c → zer_endpoint_id p.2 = id) (taken ++ zr_channel s) ∧
  (length (zr_channel s) ≤ ZONE_RELEASE_CAPACITY)%nat ∧
  (∀ l, zr_links s !! c = Some l → zr_receiver s = true →
     ∃ ts, reader_run (reader_start codec) (link_ops c ops) = Some (lk_reader l, ts) ∧
       from_link c (taken ++ zr_channel s) ++ option_list (lk_held l) = releases_taken ts).
Proof.
  intros Hr Hj Hc Hd. destruct (release_run_inv _ _ _ _ _ _ (releases_inv_start z) Hr) as [Hl _ Ht Hcap]. cbn [app] in *.
  destruct (Hl c id codec Hj) as (rs & ts & lost & [H1 H2 H3]). split_and!; [| |done|].
  - destruct (reader_inv_run _ _ _ _ _ _ _ _ _ _ _ _ _ (reader_inv_start _ Hc) H1 Hd) as (handled & rest & [[_ ->] _ _ _ _ Hrel]).
    cbn [app] in Hrel. rewrite <- H2, <- app_assoc in Hrel. rewrite omap_app.
    etrans; [eapply sublist_inserts_r; reflexivity|]. etrans; [exact Hrel|]. by apply sublist_inserts_r.
  - eapply Forall_impl; [exact Ht|]. intros p [codec' E] <-. rewrite Hj in E. by simplify_eq.
  - intros l El Hrecv. destruct (H3 l El) as (_ & -> & Hrun). destruct (Hrun Hrecv) as [_ ->]. by exists ts.
Qed.

(** No release gets stuck behind others: at any point at which somebody
    listens, turns of the task of one connection and reads of the application
    alone bring out everything that is in the channel, with the task, and with
    the reader of that connection, the last two in order under its
    identifier. *)
Theorem releases_get_through s c l :
  zr_receiver s = true → zr_links s !! c = Some l → lk_running l = true →
  ∃ ops s', Forall (λ op, op = Receives c ∨ op = Sends c ∨ op = TakesZoneRelease) ops ∧
    release_run s ops = Some (s', zr_channel s ++
      ((λ er, (c, mkZoneRelease (lk_endpoint_id l) er)) <$> option_list (lk_held l) ++ rd_releases (lk_reader l))) ∧
    zr_channel s' = [] ∧ zr_zone s' = zr_zone s ∧
    ∃ l', zr_links s' !! c = Some l' ∧ lk_held l' = None ∧ rd_releases (lk_reader l') = [].
Proof.
  intros Hrecv El Hrun. pose proof (reads_on s Hrecv) as H1.
  set (l1 := mkLink (lk_endpoint_id l) (lk_reader l) None true).
  assert (∃ ops1 s1, Forall (λ op, op = Receives c ∨ op = Sends c ∨ op = TakesZoneRelease) ops1 ∧
            release_run (emptied s) ops1 = Some (s1, (λ er, (c, mkZoneRelease (lk_endpoint_id l) er)) <$> option_list (lk_held l)) ∧
            zr_receiver s1 = true ∧ zr_channel s1 = [] ∧ zr_zone s1 = zr_zone s ∧ zr_links s1 !! c = Some l1) as (ops1 & s1 & Hops & H2 & Hr1 & Hc1 & Hz1 & El1).
  { destruct (lk_held l) as [er|] eqn:Eh.
    - exists [Sends c; TakesZoneRelease]. eexists. split; [by repeat (apply Forall_cons; split; [auto|])|]. split; [by apply (held_passes (emptied s) c l er)|].
      cbn. rewrite lookup_insert_eq. done.
    - exists [], (emptied s). cbn. split_and!; try done. unfold l1. rewrite El. destruct l; cbn in *; by subst. }
  destruct (queued_pass s1 c l1 Hr1 Hc1 El1 eq_refl eq_refl) as (s2 & H3 & Hc2 & Hz2 & Hl2). cbn [l1 lk_reader lk_endpoint_id] in H3.
  eexists. exists s2. split; [|split; [|split; [exact Hc2|split; [by rewrite Hz2|exact Hl2]]]].
  2: { rewrite release_run_app, H1, release_run_app, H2, H3. by rewrite fmap_app. }
  apply Forall_app. split; [apply Forall_forall; intros op Hin; apply elem_of_replicate in Hin as [-> _]; auto|].
  apply Forall_app. split; [done|]. apply Forall_concat, Forall_forall. intros ops Hin. apply elem_of_replicate in Hin as [-> _]. by repeat (apply Forall_cons; split; [auto|]).
Qed.

End properties.

(** ** Witnesses *)

(** An endpoint gives its output up twice, is removed at the first release and
    comes back; its second release, still in the channel, names it alone, and
    the application that follows it removes the new connection, which has sent
    nothing. *)
Definition returning_endpoint : list ReleaseOp :=
  [Adds (1, 9740) (Ok (demo_ep "a")) [] FrameCodec_new; Hears 0 (Some [0; 0; 0; 1; 4; 0; 0; 0; 1; 4]);
   Receives 0; Sends 0; Receives 0; Sends 0; TakesZoneRelease; Removes "a"; Dropped 0;
   Adds (1, 9740) (Ok (demo_ep "a")) [] FrameCodec_new; TakesZoneRelease; Removes "a"].
Definition demo_zone : Zone := Zone_new "z" "Z" (z_config demo_room).

(** Releases of a connection that is gone act on the one that took its place:
    [ZoneEndpointRelease] does not say which connection it came from. *)
Theorem stale_release_removes_rejoined :
  ∃ s r1 r2, @release_run reply_json (@zone_releases demo_zone) returning_endpoint = Some (s, [(0%nat, r1); (0%nat, r2)]) ∧
    zer_endpoint_id r2 = "a"%string ∧ zr_joined s !! 1%nat = Some ("a"%string, FrameCodec_new) ∧ link_ops 1 returning_endpoint = [] ∧
    z_endpoints (zr_zone s) = ∅ ∧
    ∃ s0, @release_run reply_json (zone_releases demo_zone) (take 10 returning_endpoint) = Some (s0, [(0%nat, r1)]) ∧
      endpoint_ids (zr_zone s0) = ["a"%string] ∧ zr_current s0 !! "a"%string = Some 1%nat.
Proof. do 3 eexists. split; [vm_compute; reflexivity|]. repeat (split; [vm_compute; reflexivity|]). eexists. split_and!; vm_compute; reflexivity. Qed.

Lemma zone_releases_forwarded_witness :
  ∃ s taken, @release_run reply_json (zone_releases demo_zone) returning_endpoint = Some (s, taken) ∧
    from_link 0 (taken ++ zr_channel s) `sublist_of` [mkEndpointRelease "s1" LocalSource; mkEndpointRelease "s1" LocalSource] ∧
    from_link 0 taken ≠ [].
Proof.
  eexists. eexists. split; [vm_compute; reflexivity|]. split; [|vm_compute; discriminate].
  refine (proj1 (@zone_releases_forwarded reply_json demo_zone returning_endpoint _ _ 0 "a" FrameCodec_new
            [MEndpointRelease (mkEndpointRelease "s1" LocalSource); MEndpointRelease (mkEndpointRelease "s1" LocalSource)] FrameCodec_new _ _ _ _));
    vm_compute; reflexivity.
Defined.

Definition half_way : ZoneReleases :=
  match @release_run reply_json (zone_releases demo_zone) (take 5 returning_endpoint) with Some (s, _) => s | None => zone_releases demo_zone end.

Lemma releases_get_through_witness :
  ∃ ops s' l, zr_links half_way !! 0%nat = Some l ∧ lk_held l ≠ None ∧
    @release_run reply_json half_way ops = Some (s', [(0%nat, mkZoneRelease "a" (mkEndpointRelease "s1" LocalSource));
                                                     (0%nat, mkZoneRelease "a" (mkEndpointRelease "s1" LocalSource))]).
Proof.
  destruct (zr_links half_way !! 0%nat) as [l|] eqn:El; [|vm_compute in El; discriminate].
  assert (lk_running l = true ∧ lk_held l = Some (mkEndpointRelease "s1" LocalSource) ∧ lk_endpoint_id l = "a"%string ∧ rd_releases (lk_reader l) = []) as (Hr & Hh & Hi & Hq)
    by (vm_compute in El; injection El as <-; repeat split).
  destruct (@releases_get_through reply_json half_way 0 l eq_refl El Hr) as (ops & s' & _ & Hrun & _).
  exists ops, s', l. split; [reflexivity|]. split; [rewrite Hh; discriminate|]. rewrite Hrun, Hh, Hi, Hq. reflexivity.
Defined.
