(* ===== verification/Samples.v ===== *)
(** * Sample formats

    Models the conversions of [crates/oaat-endpoint/src/alsa_direct.rs]
    between the wire formats and what the ALSA device takes: 24-bit padding,
    DSD packing, software volume. *)

From S2P Require Import Prelude Format Float.

Local Open Scope Z_scope.

(** [data.as_chunks::<n>().0] / [data.chunks_exact(n)]: whole chunks only. *)
Fixpoint chunks_exact_fuel {A} (fuel n : nat) (l : list A) : list (list A) :=
  match fuel with
  | O => []
  | S fuel => if (length l <? n)%nat then [] else take n l :: chunks_exact_fuel fuel n (drop n l)
  end.
Definition chunks_exact {A} (n : nat) (l : list A) : list (list A) := chunks_exact_fuel (length l) n l.

(** [i<8n>::from_le_bytes] and [to_le_bytes]. *)
Definition i_from_le_bytes (l : list Z) : Z := as_i (8 * len l) (from_le_bytes l).
Definition i_to_le_bytes (n : nat) (z : Z) : list Z := to_le_bytes n (as_u (8 * Z.of_nat n) z).

(** ** ALSA formats *)

Definition alsa_format_and_rate (f : AudioFormat) (rate : Z) : option (string * Z) :=
  match f with
  | PcmS16le => Some ("S16_LE"%string, rate)
  | PcmS24le => Some ("S32_LE"%string, rate)
  | PcmS24le4 => Some ("S24_LE"%string, rate)
  | PcmS32le => Some ("S32_LE"%string, rate)
  | PcmF32le => Some ("FLOAT_LE"%string, rate)
  | DsdU8 => Some ("DSD_U32_BE"%string, rate / 32)
  | DsdU16le => Some ("DSD_U32_BE"%string, rate / 16)
  | DsdU32le => Some ("DSD_U32_BE"%string, rate)
  | _ => None
  end.

Definition flac_alsa_format (channels : Z) : string := if channels <=? 2 then "S32_LE" else "S16_LE".

Definition bytes_per_frame (f : AudioFormat) (channels : Z) : Z :=
  let bps := match f with
             | PcmS16le => 2
             | PcmS24le => 3
             | PcmS24le4 | PcmS32le | PcmF32le => 4
             | DsdU8 => 1
             | DsdU16le => 2
             | DsdU32le => 4
             | _ => 2
             end in
  bps * Z.max channels 1.

(** ** Conversions *)

Definition pad_s24_to_s32 (data : list Z) : list Z :=
  concat ((λ c, 0 :: c) <$> chunks_exact 3 data).

(** [u8::reverse_bits]. *)
Definition reverse_bits (b : Z) : Z :=
  foldr Z.lor 0 ((λ i, if Z.testbit b i then Z.shiftl 1 (7 - i) else 0) <$> [0; 1; 2; 3; 4; 5; 6; 7]).

(** One DSD_U32_BE frame: four input bytes of each channel, bit-reversed. *)
Definition pack_dsd_frame (ch : nat) (chunk : list Z) : list Z :=
  concat ((λ c, (λ k, reverse_bits (nth (c + k * ch) chunk 0)) <$> [0; 1; 2; 3]%nat) <$> seq 0 ch).

Definition pack_dsd_u8_to_u32_be (data : list Z) (channels : Z) : list Z :=
  let ch := Z.to_nat (Z.max channels 1) in
  concat (pack_dsd_frame ch <$> chunks_exact (4 * ch) data).

Definition dsd_u32le_to_be (data : list Z) : list Z :=
  concat (reverse <$> chunks_exact 4 data).

(** [as_chunks_mut]: the whole chunks are rewritten, the tail is kept. *)
Definition map_chunks (n : nat) (f : list Z → list Z) (data : list Z) : list Z :=
  concat (f <$> chunks_exact n data) ++ drop (length data / n * n) data.

Definition apply_volume (fmt : AudioFormat) (data : list Z) (vol : f32) : list Z :=
  match fmt with
  | PcmS16le =>
      map_chunks 2 (λ c, i_to_le_bytes 2
        (float_trunc (f32_mul (f32_of_Z (i_from_le_bytes c)) vol) (-32768) 32767)) data
  | PcmF32le =>
      map_chunks 4 (λ c, to_le_bytes 4 (f32_to_bits (f32_mul (f32_from_bits (from_le_bytes c)) vol))) data
  | PcmS32le | PcmS24le4 =>
      map_chunks 4 (λ c, i_to_le_bytes 4
        (float_trunc (f64_mul (f64_of_Z (i_from_le_bytes c)) (f32_to_f64 vol)) (- 2 ^ 31) (2 ^ 31 - 1))) data
  | PcmS24le =>
      map_chunks 3 (λ c, take 3 (i_to_le_bytes 4
        (float_trunc (f64_mul (f64_of_Z (i_from_le_bytes c)) (f32_to_f64 vol)) (- 2 ^ 31) (2 ^ 31 - 1)))) data
  | _ => data
  end.

(** [flac_samples_to_device]. *)
Definition flac_samples_to_device (samples : list f32) (channels : Z) (vol : f32) : list Z :=
  let unity := SFltb (SFabs (f32_sub vol (f32_of_Z 1))) (f32_div (f32_of_Z 1) (f32_of_Z 1000)) in
  let s32 := String.eqb (flac_alsa_format channels) "S32_LE" in
  concat ((λ s,
    let v := f32_to_f64 (if unity then s else f32_mul s vol) in
    if s32 then
      i_to_le_bytes 4 (float_trunc
        (f64_clamp (f64_of_Z (- 2 ^ 31)) (f64_of_Z (2 ^ 31 - 1)) (f64_mul v (f64_of_Z 2147483648)))
        (- 2 ^ 31) (2 ^ 31 - 1))
    else
      i_to_le_bytes 2 (float_trunc
        (f64_clamp (f64_of_Z (-32768)) (f64_of_Z 32767) (f64_mul v (f64_of_Z 32768))) (-32768) 32767))
   <$> samples).

(** ** Lemmas *)

Lemma chunks_fuel_more {A} n fuel (l : list A) :
  (0 < n)%nat → (length l ≤ fuel)%nat → chunks_exact_fuel (S fuel) n l = chunks_exact_fuel fuel n l.
Proof.
  intros Hn. revert l. induction fuel as [|fuel IH]; intros l Hl; cbn [chunks_exact_fuel].
  { destruct (Nat.ltb_spec (length l) n); [done|lia]. }
  destruct (Nat.ltb_spec (length l) n); [done|]. f_equal.
  apply IH. rewrite length_drop. lia.
Qed.

(** The chunks' equations. *)
Lemma chunks_exact_short {A} n (l : list A) : (length l < n)%nat → chunks_exact n l = [].
Proof.
  intros Hl. unfold chunks_exact. destruct (length l) eqn:E; [done|]. simpl.
  by rewrite E, (proj2 (Nat.ltb_lt _ _) Hl).
Qed.

Lemma chunks_exact_app {A} n (c l : list A) :
  (0 < n)%nat → length c = n → chunks_exact n (c ++ l) = c :: chunks_exact n l.
Proof.
  intros Hn Hc. unfold chunks_exact. rewrite length_app, Hc.
  destruct n as [|n]; [lia|]. cbn [Nat.add chunks_exact_fuel]. rewrite length_app, Hc.
  destruct (Nat.ltb_spec (S n + length l) (S n)); [lia|].
  rewrite take_app_length', drop_app_length' by done. f_equal.
  assert (∀ k, chunks_exact_fuel (k + length l) (S n) l = chunks_exact_fuel (length l) (S n) l) as Hk.
  { induction k as [|k IH]; [done|]. simpl Nat.add. rewrite chunks_fuel_more; [done|lia|lia]. }
  apply Hk.
Qed.

(** Induction on a list cut in chunks of [n], with a short tail. *)
Lemma chunks_ind {A} (n : nat) (P : list A → Prop) :
  (0 < n)%nat → (∀ l, (length l < n)%nat → P l) →
  (∀ c l, length c = n → P l → P (c ++ l)) → ∀ l, P l.
Proof.
  intros Hn Hshort Hstep l. remember (length l) as k eqn:Hk. revert l Hk.
  induction (lt_wf k) as [k _ IH]; intros l ->.
  destruct (decide (length l < n)%nat) as [|Hge]; [by apply Hshort|].
  rewrite <- (take_drop n l). apply Hstep; [rewrite length_take; lia|].
  apply (IH (length (drop n l))); [rewrite length_drop; lia|done].
Qed.

Lemma chunks_exact_lengths {A} n (l : list A) :
  (0 < n)%nat → Forall (λ c, length c = n) (chunks_exact n l).
Proof.
  intros Hn. revert l. apply (chunks_ind n); [done|intros l Hl|intros c l Hc IH].
  - by rewrite chunks_exact_short.
  - rewrite chunks_exact_app by done. by constructor.
Qed.

Lemma chunks_exact_concat {A} n (l : list A) :
  (0 < n)%nat → concat (chunks_exact n l) = take (length l / n * n) l.
Proof.
  intros Hn. revert l. apply (chunks_ind n); [done|intros l Hl|intros c l Hc IH].
  - rewrite chunks_exact_short by done. by rewrite Nat.div_small.
  - rewrite chunks_exact_app by done. cbn [concat]. rewrite IH, length_app, Hc.
    replace (n + length l)%nat with (1 * n + length l)%nat by lia.
    rewrite Nat.div_add_l by lia. rewrite Nat.mul_add_distr_r, Nat.mul_1_l.
    rewrite take_app_add' by done. done.
Qed.

(** The chunks as slices of the list. *)
Lemma chunks_exact_seq {A} n (l : list A) :
  (0 < n)%nat → chunks_exact n l = (λ i, take n (drop (i * n)%nat l)) <$> seq 0 (length l / n).
Proof.
  intros Hn. revert l. apply (chunks_ind n); [done|intros l Hl|intros c l Hc IH].
  - by rewrite chunks_exact_short, Nat.div_small.
  - rewrite chunks_exact_app, IH, length_app, Hc by done.
    replace (n + length l)%nat with (1 * n + length l)%nat by lia. rewrite Nat.div_add_l by lia.
    cbn [Nat.add seq fmap list_fmap]. rewrite Nat.mul_0_l, drop_0, take_app_length' by done. f_equal.
    rewrite <- (fmap_S_seq 0), <- list_fmap_compose. apply list_fmap_ext. intros i x _. simpl.
    by rewrite drop_app_add'.
Qed.

(** Chunks of a list that starts with whole chunks. *)
Lemma chunks_exact_whole_app {A} n k (a b : list A) :
  (0 < n)%nat → length a = (k * n)%nat → chunks_exact n (a ++ b) = chunks_exact n a ++ chunks_exact n b.
Proof.
  intros Hn. revert a. induction k as [|k IH]; intros a Ha.
  { destruct a; [|done]. by rewrite (chunks_exact_short n []) by (simpl; lia). }
  assert (∃ c d, a = c ++ d ∧ length c = n ∧ length d = (k * n)%nat) as (c & d & -> & Hc & Hd).
  { exists (take n a), (drop n a). rewrite take_drop, length_take, length_drop. split_and!; [done|lia|lia]. }
  rewrite <- (assoc_L (++)), (chunks_exact_app n c d), (chunks_exact_app n c (d ++ b)) by done.
  simpl. f_equal. by apply IH.
Qed.

(** Rewriting chunk by chunk with a length-preserving function keeps the
    length. *)
Lemma map_chunks_length n f data :
  (0 < n)%nat → (∀ c, length c = n → length (f c) = n) → length (map_chunks n f data) = length data.
Proof.
  intros Hn Hf. unfold map_chunks. revert data.
  apply (chunks_ind n); [done|intros l Hl|intros c l Hc IH].
  - rewrite chunks_exact_short, Nat.div_small by done. done.
  - rewrite chunks_exact_app by done. cbn [fmap list_fmap concat].
    rewrite <- (assoc_L (++)), length_app, Hf by done.
    rewrite !length_app, Hc in *. replace (n + length l)%nat with (1 * n + length l)%nat at 1 by lia.
    rewrite Nat.div_add_l by lia. rewrite Nat.mul_add_distr_r, Nat.mul_1_l.
    rewrite drop_app_add' by done. lia.
Qed.

Lemma reverse_bits_involutive b : is_u8 b → reverse_bits (reverse_bits b) = b ∧ is_u8 (reverse_bits b).
Proof.
  intros Hb.
  assert (forallb (λ n, (reverse_bits (reverse_bits (Z.of_nat n)) =? Z.of_nat n)
                        && (0 <=? reverse_bits (Z.of_nat n)) && (reverse_bits (Z.of_nat n) <? 256)) (seq 0 256) = true)
    as Hall by by vm_compute.
  rewrite forallb_forall in Hall. specialize (Hall (Z.to_nat b)).
  rewrite Z2Nat.id in Hall by range.
  assert (In (Z.to_nat b) (seq 0 256)) as Hin by (apply in_seq; range).
  specialize (Hall Hin). rewrite !andb_true_iff in Hall. destruct Hall as [[H1 H2] H3].
  unfold in_u. lia.
Qed.

(** Mapping over the chunks of a concatenation of chunks. *)
Lemma chunks_exact_concat_map {A B} n k (f : list A → list B) (l : list A) :
  (0 < n)%nat → (0 < k)%nat → (∀ c, length c = n → length (f c) = k) →
  chunks_exact k (concat (f <$> chunks_exact n l)) = f <$> chunks_exact n l.
Proof.
  intros Hn Hk Hf. revert l. apply (chunks_ind n); [done|intros l Hl|intros c l Hc IH].
  - rewrite (chunks_exact_short n l) by done. apply chunks_exact_short. simpl. lia.
  - rewrite chunks_exact_app by done. cbn [fmap list_fmap concat].
    rewrite chunks_exact_app by auto. f_equal. apply IH.
Qed.

Lemma as_i_shift w z : 1 ≤ w → as_i (w + 8) (256 * z) = 256 * as_i w z.
Proof.
  intros Hw. unfold as_i. replace (w + 8 - 1) with ((w - 1) + 8) by lia.
  rewrite !Z.pow_add_r by lia. change (2 ^ 8) with 256.
  replace (256 * z + 2 ^ (w - 1) * 256) with (256 * (z + 2 ^ (w - 1))) by lia.
  rewrite (Z.mul_comm (2 ^ w)). rewrite Z.mul_mod_distr_l by lia. lia.
Qed.

Lemma i_from_le_bytes_pad c :
  length c = 3%nat → i_from_le_bytes (0 :: c) = 256 * i_from_le_bytes c.
Proof.
  intros Hc. unfold i_from_le_bytes. rewrite len_cons. unfold len. rewrite Hc.
  cbn [from_le_bytes]. rewrite Z.add_0_l. apply (as_i_shift 24). lia.
Qed.

(** Bits of a byte in time order: DSF sends the least significant bit first,
    DSD_U32_BE the most significant. *)
Definition lsb_bits (b : Z) : list bool := Z.testbit b <$> [0; 1; 2; 3; 4; 5; 6; 7].
Definition msb_bits (b : Z) : list bool := Z.testbit b <$> [7; 6; 5; 4; 3; 2; 1; 0].

(** The DSD bit stream of channel [c], in time order, on the wire and for the
    device. *)
Definition wire_bits (ch c : nat) (data : list Z) : list bool :=
  concat ((λ f, concat ((λ k, lsb_bits (nth (c + k * ch) f 0)) <$> [0; 1; 2; 3]%nat)) <$> chunks_exact (4 * ch) data).
Definition device_bits (ch c : nat) (data : list Z) : list bool :=
  concat ((λ f, concat ((λ k, msb_bits (nth (4 * c + k) f 0)) <$> [0; 1; 2; 3]%nat)) <$> chunks_exact (4 * ch) data).

Lemma msb_reverse_bits b : is_u8 b → msb_bits (reverse_bits b) = lsb_bits b.
Proof.
  intros Hb.
  assert (forallb (λ n, bool_decide (msb_bits (reverse_bits (Z.of_nat n)) = lsb_bits (Z.of_nat n))) (seq 0 256) = true)
    as Hall by by vm_compute.
  rewrite forallb_forall in Hall. specialize (Hall (Z.to_nat b)).
  rewrite Z2Nat.id in Hall by range.
  apply bool_decide_eq_true in Hall; [done|]. apply in_seq. range.
Qed.

Lemma concat4_nth (f : nat → list Z) n c k :
  (∀ i, length (f i) = 4%nat) → (c < n)%nat → (k < 4)%nat →
  nth (4 * c + k) (concat (f <$> seq 0 n)) 0 = nth k (f c) 0.
Proof.
  intros Hf. revert f c Hf. induction n as [|n IH]; intros f c Hf Hc Hk; [lia|].
  cbn [seq fmap list_fmap concat]. destruct c as [|c].
  - rewrite app_nth1 by (rewrite Hf; lia). f_equal.
  - rewrite app_nth2 by (rewrite Hf; lia). rewrite Hf.
    replace (4 * S c + k - 4)%nat with (4 * c + k)%nat by lia.
    rewrite <- fmap_S_seq, <- list_fmap_compose. rewrite (IH (f ∘ S)); [done|intros; apply Hf|lia|done].
Qed.

Lemma concat4_length (f : nat → list Z) s n :
  (∀ i, length (f i) = 4%nat) → length (concat (f <$> seq s n)) = (4 * n)%nat.
Proof.
  intros Hf. revert s. induction n as [|n IH]; intros s; [done|].
  cbn [seq fmap list_fmap concat]. rewrite length_app, Hf. specialize (IH (S s)). lia.
Qed.

Lemma pack_dsd_frame_length ch f : length (pack_dsd_frame ch f) = (4 * ch)%nat.
Proof. by apply concat4_length. Qed.

Lemma pack_dsd_frame_nth ch f c k :
  (c < ch)%nat → (k < 4)%nat →
  nth (4 * c + k) (pack_dsd_frame ch f) 0 = reverse_bits (nth (c + k * ch) f 0).
Proof.
  intros Hc Hk. unfold pack_dsd_frame. rewrite concat4_nth by done.
  by destruct k as [|[|[|[|k]]]]; try lia.
Qed.

Lemma Forall_nth_default (P : Z → Prop) l i : Forall P l → P 0 → P (nth i l 0).
Proof.
  intros Hl H0. rewrite nth_lookup. destruct (l !! i) as [x|] eqn:E; [|done].
  by eapply Forall_lookup_1.
Qed.

Lemma device_bits_frame ch c f :
  Forall is_u8 f → (c < ch)%nat →
  concat ((λ k, msb_bits (nth (4 * c + k) (pack_dsd_frame ch f) 0)) <$> [0; 1; 2; 3]%nat)
  = concat ((λ k, lsb_bits (nth (c + k * ch) f 0)) <$> [0; 1; 2; 3]%nat).
Proof.
  intros Hf Hc. cbn [fmap list_fmap].
  rewrite !pack_dsd_frame_nth by lia. rewrite !msb_reverse_bits by (apply Forall_nth_default; [done|range]).
  done.
Qed.

Lemma chunks_Forall {A} (P : A → Prop) n (l : list A) :
  (0 < n)%nat → Forall P l → Forall (Forall P) (chunks_exact n l).
Proof.
  intros Hn. revert l.
  apply (chunks_ind n (λ l, Forall P l → Forall (Forall P) (chunks_exact n l)));
    [done|intros l Hl|intros c l Hc IH].
  - by rewrite chunks_exact_short.
  - intros [Hc' Hl']%Forall_app. rewrite chunks_exact_app by done. constructor; auto.
Qed.

(** ** Properties *)

(** A 24-bit stream reaches a 32-bit device bit-exactly: every sample is
    its value times 256, and a trailing partial sample is dropped. *)
Theorem pad_s24_exact data :
  i_from_le_bytes <$> chunks_exact 4 (pad_s24_to_s32 data)
  = (λ c, 256 * i_from_le_bytes c) <$> chunks_exact 3 data.
Proof.
  unfold pad_s24_to_s32. rewrite (chunks_exact_concat_map 3 4) by (simpl; lia).
  rewrite <- list_fmap_compose. apply list_fmap_ext. intros i c Hc. simpl.
  apply i_from_le_bytes_pad. eapply Forall_lookup_1 in Hc; [|by apply (chunks_exact_lengths 3); lia]. done.
Qed.

(** Native DSD reaches the device bit-exactly: packing the byte-interleaved
    stream into big-endian words keeps, for every channel, the sequence of
    DSD bits in time. *)
Theorem pack_dsd_keeps_bits data channels c :
  Forall is_u8 data → (c < Z.to_nat (Z.max channels 1))%nat →
  let ch := Z.to_nat (Z.max channels 1) in
  device_bits ch c (pack_dsd_u8_to_u32_be data channels) = wire_bits ch c data.
Proof.
  intros Hd Hc ch. unfold device_bits, wire_bits, pack_dsd_u8_to_u32_be. fold ch.
  rewrite (chunks_exact_concat_map (4 * ch) (4 * ch)) by (try (intros; apply pack_dsd_frame_length); lia).
  rewrite <- list_fmap_compose. f_equal. apply list_fmap_ext. intros i f Hf. simpl compose.
  apply device_bits_frame; [|done].
  eapply Forall_lookup_1 in Hf; [|by apply (chunks_Forall is_u8 (4 * ch)); [lia|]]. done.
Qed.

Lemma pack_dsd_keeps_bits_witness :
  device_bits 2 1 (pack_dsd_u8_to_u32_be [1; 2; 3; 4; 5; 6; 7; 8; 9] 2) = wire_bits 2 1 [1; 2; 3; 4; 5; 6; 7; 8; 9].
Proof.
  apply (pack_dsd_keeps_bits [1; 2; 3; 4; 5; 6; 7; 8; 9] 2 1).
  - repeat constructor; vm_compute; discriminate || reflexivity.
  - vm_compute. lia.
Defined.

(** Software volume keeps the length of every payload. *)
Lemma apply_volume_length f data vol : length (apply_volume f data vol) = length data.
Proof.
  unfold apply_volume, i_to_le_bytes.
  destruct f; try done; apply map_chunks_length; try lia; intros; rewrite ?length_take, ?to_le_bytes_length; done.
Qed.

(** Swapping the bytes of 32-bit DSD words twice is the identity on whole
    words. *)
Lemma dsd_u32le_to_be_involutive data :
  dsd_u32le_to_be (dsd_u32le_to_be data) = take (length data / 4 * 4) data.
Proof.
  unfold dsd_u32le_to_be. rewrite (chunks_exact_concat_map 4 4); [|lia|lia|intros; by rewrite length_reverse].
  rewrite <- list_fmap_compose, <- chunks_exact_concat by lia. f_equal.
  rewrite <- (list_fmap_id (chunks_exact 4 data)) at 2. apply list_fmap_ext. intros. simpl. apply reverse_involutive.
Qed.
