(* ===== verification/Flac.v ===== *)
(** * The FLAC stream decoder

    Models [crates/oaat-endpoint/src/flac_decoder.rs]: the incremental
    decoder that cuts a byte stream into FLAC frames, and the frame codec it
    hands them to.  The codec is symphonia's: the class [FlacCodec].  The
    field [track_id] of the source is always zero and is left out. *)

From S2P Require Import Prelude Float.

Local Open Scope Z_scope.

(** The codec of a stream, made from its STREAMINFO block; decoding a packet
    gives interleaved samples or an error. *)
Class FlacCodec := {
  codec : Type;
  codec_make : list Z → result codec string;
  codec_decode : codec → list Z → result (list f32) string * codec
}.

(** ** Checksums *)

Definition crc8_bit (crc : Z) : Z :=
  if Z.testbit crc 7 then Z.lxor (as_u 8 (Z.shiftl crc 1)) 0x07 else as_u 8 (Z.shiftl crc 1).
Definition crc8_update (crc b : Z) : Z := Nat.iter 8 crc8_bit (Z.lxor crc b).
Definition crc8 (data : list Z) : Z := fold_left crc8_update data 0.

Definition crc16_bit (crc : Z) : Z :=
  if Z.testbit crc 15 then Z.lxor (as_u 16 (Z.shiftl crc 1)) 0x8005 else as_u 16 (Z.shiftl crc 1).
Definition crc16_update (crc byte : Z) : Z := Nat.iter 8 crc16_bit (Z.lxor crc (as_u 16 (Z.shiftl byte 8))).

(** ** Frame headers *)

Inductive Header := Valid (n : nat) | Incomplete | Invalid.

Definition is_invalid (h : Header) : bool := match h with Invalid => true | _ => false end.

(** The length of the coded number, from its first byte. *)
Definition coded_len (c : Z) : option nat :=
  if c <=? 0x7F then Some 1%nat
  else if (0xC0 <=? c) && (c <=? 0xDF) then Some 2%nat
  else if (0xE0 <=? c) && (c <=? 0xEF) then Some 3%nat
  else if (0xF0 <=? c) && (c <=? 0xF7) then Some 4%nat
  else if (0xF8 <=? c) && (c <=? 0xFB) then Some 5%nat
  else if (0xFC <=? c) && (c <=? 0xFD) then Some 6%nat
  else if c =? 0xFE then Some 7%nat
  else None.

Definition header_extra (block_code rate_code : Z) : nat :=
  (if (block_code =? 6)%Z then 1 else if (block_code =? 7)%Z then 2 else 0) +
  (if (rate_code =? 12)%Z then 1 else if (rate_code =? 13)%Z || (rate_code =? 14)%Z then 2 else 0).

(** A continuation byte of the coded number that is not one. *)
Definition bad_continuation (b : list Z) (coded_len i : nat) : bool :=
  (i <? 4 + coded_len)%nat && negb (Z.land (nth i b 0) 0xC0 =? 0x80).

Definition frame_header (b : list Z) : Header :=
  if bool_decide (b = []) then Incomplete
  else if negb (nth 0 b 0 =? 0xFF) then Invalid
  else if (length b <? 2)%nat then Incomplete
  else if negb (Z.land (nth 1 b 0) 0xFE =? 0xF8) then Invalid
  else if (length b <? 5)%nat then Incomplete
  else
    let block_code := Z.shiftr (nth 2 b 0) 4 in
    let rate_code := Z.land (nth 2 b 0) 0x0F in
    let channels := Z.shiftr (nth 3 b 0) 4 in
    let depth := Z.land (Z.shiftr (nth 3 b 0) 1) 0x07 in
    if (block_code =? 0) || (rate_code =? 0x0F) || (10 <? channels) || (depth =? 3)
       || negb (Z.land (nth 3 b 0) 1 =? 0) then Invalid
    else
      match coded_len (nth 4 b 0) with
      | None => Invalid
      | Some cl =>
          let crc_at := (4 + cl + header_extra block_code rate_code)%nat in
          if existsb (bad_continuation b cl) (seq 5 (crc_at `min` length b - 5)) then Invalid
          else if (length b <=? crc_at)%nat then Incomplete
          else if crc8 (take crc_at b) =? nth crc_at b 0 then Valid (crc_at + 1) else Invalid
      end.

(** ** Frame ends

    [rest] is the buffer from the current position, [k] bytes after the start
    of the frame, [crc] the checksum of the bytes before it. *)
Fixpoint frame_end_loop (rest : list Z) (k header_len : nat) (crc : Z) : option nat :=
  match rest with
  | b1 :: (b2 :: after) as tl =>
      if (header_len <? k)%nat && (crc =? from_be_bytes [b1; b2])
         && (bool_decide (after = []) || negb (is_invalid (frame_header after)))
      then Some (k + 2)%nat
      else frame_end_loop tl (S k) header_len (crc16_update crc b1)
  | _ => None
  end.

(** [frame_end], relative to the start of the frame, where [b] begins. *)
Definition frame_end (b : list Z) (header_len : nat) : option nat := frame_end_loop b 0 header_len 0.

(** ** The stream header *)

Definition block_len (b : list Z) : Z := from_be_bytes [0; nth 1 b 0; nth 2 b 0; nth 3 b 0].

(** The metadata blocks from [b] on, [pos] bytes into the buffer. *)
Fixpoint header_blocks (fuel : nat) (b : list Z) (pos : nat) : option nat :=
  match fuel with
  | O => None
  | S fuel =>
      if (length b <? 4)%nat then None
      else if len b <? 4 + block_len b then None
      else
        let n := (4 + Z.to_nat (block_len b))%nat in
        if negb (Z.land (nth 0 b 0) 0x80 =? 0) then Some (pos + n)%nat
        else header_blocks fuel (drop n b) (pos + n)
  end.

Definition stream_header_len (buf : list Z) : option nat := header_blocks (length buf) (drop 4 buf) 4.

Fixpoint info_block (fuel : nat) (b : list Z) : option (list Z) :=
  match fuel with
  | O => None
  | S fuel =>
      if (length b <? 4)%nat then None
      else if len b <? 4 + block_len b then None
      else if (Z.land (nth 0 b 0) 0x7F =? 0) && (block_len b =? 34) then Some (take 34 (drop 4 b))
      else if negb (Z.land (nth 0 b 0) 0x80 =? 0) then None
      else info_block fuel (drop (4 + Z.to_nat (block_len b)) b)
  end.

Definition stream_info (header : list Z) : option (list Z) := info_block (length header) (drop 4 header).

(** ** The decoder *)

Definition MAX_FRAME_BYTES : Z := 4 * 1024 * 1024.

(** ["fLaC"]. *)
Definition MAGIC : list Z := [102; 76; 97; 67].

(** The first position that may start a frame. *)
Fixpoint find_frame (b : list Z) : option nat :=
  match b with
  | [] => None
  | _ :: tl => if is_invalid (frame_header b) then S <$> find_frame tl else Some 0%nat
  end.

Section decoder.
Context `{FlacCodec}.

Record FlacStreamDecoder := mkFlac {
  fl_buf : list Z;
  fl_initialized : bool;
  fl_decoder : option codec
}.

Definition FlacStreamDecoder_new : FlacStreamDecoder := mkFlac [] false None.

(** The loop of [drain_frames] on the bytes [b] not yet consumed: the samples,
    the bytes left and the codec. *)
Fixpoint drain_loop (fuel : nat) (dec : codec) (b : list Z) : list f32 * list Z * codec :=
  match fuel with
  | O => ([], b, dec)
  | S fuel =>
      match find_frame b with
      | None => ([], [], dec)
      | Some start =>
          let b := drop start b in
          match frame_header b with
          | Valid header_len =>
              match frame_end b header_len with
              | Some e =>
                  match codec_decode dec (take e b) with
                  | (Ok s, dec) =>
                      let '(ss, rest, dec) := drain_loop fuel dec (drop e b) in (s ++ ss, rest, dec)
                  | (Err _, dec) =>
                      if (e =? length b)%nat then ([], b, dec) else drain_loop fuel dec (drop e b)
                  end
              | None => if MAX_FRAME_BYTES <? len b then drain_loop fuel dec (drop 1 b) else ([], b, dec)
              end
          | _ => ([], b, dec)
          end
      end
  end.

(** Every turn consumes at least a byte or ends the loop. *)
Definition drain_frames (d : FlacStreamDecoder) : list f32 * FlacStreamDecoder :=
  match fl_decoder d with
  | None => ([], d)
  | Some dec =>
      let '(ss, rest, dec) := drain_loop (S (length (fl_buf d))) dec (fl_buf d) in
      (ss, mkFlac rest (fl_initialized d) (Some dec))
  end.

Definition try_init (header : list Z) : result codec string :=
  match stream_info header with
  | None => Err "no STREAMINFO block"%string
  | Some info =>
      match codec_make info with
      | Ok dec => Ok dec
      | Err e => Err ("FLAC decoder init: " +:+ e)
      end
  end.

Definition flac_decoder_feed (d : FlacStreamDecoder) (data : list Z) : list f32 * FlacStreamDecoder :=
  let buf := fl_buf d ++ data in
  let keep buf := ([], mkFlac buf (fl_initialized d) (fl_decoder d)) in
  if fl_initialized d then drain_frames (mkFlac buf true (fl_decoder d))
  else if (length buf <? 4)%nat then keep buf
  else if negb (bool_decide (take 4 buf = MAGIC)) then keep []
  else
    match stream_header_len buf with
    | None => keep buf
    | Some header_len =>
        match try_init (take header_len buf) with
        | Ok dec => drain_frames (mkFlac (drop header_len buf) true (Some dec))
        | Err _ => keep []
        end
    end.

Definition flac_decoder_reset (d : FlacStreamDecoder) : FlacStreamDecoder := mkFlac [] false None.

(** Feeding a stream chunk by chunk. *)
Fixpoint flac_run (d : FlacStreamDecoder) (chunks : list (list Z)) : list f32 * FlacStreamDecoder :=
  match chunks with
  | [] => ([], d)
  | data :: chunks =>
      let '(s, d) := flac_decoder_feed d data in
      let '(ss, d) := flac_run d chunks in (s ++ ss, d)
  end.

End decoder.

Lemma nth_lookup_Some' {A} (l : list A) i d : (i < length l)%nat → l !! i = Some (nth i l d).
Proof. intros Hi. apply lookup_lt_is_Some in Hi as [x Hx]. by rewrite (nth_lookup_Some _ _ _ _ Hx). Qed.

(** ** Lemmas: headers

    What is decided on a prefix is not changed by the bytes that follow. *)

Lemma nth_app_lt {A} (d : A) l k i : (i < length l)%nat → nth i (l ++ k) d = nth i l d.
Proof. intros. by apply app_nth1. Qed.

Lemma bad_continuation_app b r cl i :
  (i < length b)%nat → bad_continuation (b ++ r) cl i = bad_continuation b cl i.
Proof. intros. unfold bad_continuation. by rewrite nth_app_lt. Qed.

Lemma existsb_seq_ext (f g : nat → bool) a n :
  (∀ i, (a ≤ i < a + n)%nat → f i = g i) → existsb f (seq a n) = existsb g (seq a n).
Proof.
  revert a. induction n as [|n IH]; intros a Hfg; simpl; [done|].
  rewrite Hfg by lia. f_equal. apply IH. intros. apply Hfg. lia.
Qed.

Lemma frame_header_app b r : frame_header b ≠ Incomplete → frame_header (b ++ r) = frame_header b.
Proof.
  destruct b as [|b0 tl] eqn:Eb; [done|]. rewrite <- Eb. intros Hi.
  assert (0 < length b)%nat by (subst; simpl; lia). clear Eb b0 tl.
  unfold frame_header in *. rewrite length_app.
  assert (bool_decide (b = []) = false) as E1 by (apply bool_decide_eq_false_2; intros ->; simpl in *; lia).
  assert (bool_decide (b ++ r = []) = false) as E2
    by (apply bool_decide_eq_false_2; intros [-> _]%app_nil; simpl in *; lia).
  rewrite E1 in *. rewrite E2. clear E1 E2.
  rewrite (nth_app_lt 0 b r 0) by done. destruct (negb (nth 0 b 0 =? 255)); [done|].
  destruct (Nat.ltb_spec (length b) 2); [done|]. destruct (Nat.ltb_spec (length b + length r) 2); [lia|].
  rewrite (nth_app_lt 0 b r 1) by lia. destruct (negb (Z.land (nth 1 b 0) 254 =? 248)); [done|].
  destruct (Nat.ltb_spec (length b) 5); [done|]. destruct (Nat.ltb_spec (length b + length r) 5); [lia|].
  cbv zeta in *. rewrite (nth_app_lt 0 b r 2), (nth_app_lt 0 b r 3), (nth_app_lt 0 b r 4) by lia.
  destruct (_ || _); [done|]. destruct (coded_len (nth 4 b 0)) as [cl|]; [|done].
  set (crc_at := (4 + cl + _)%nat) in *.
  destruct (existsb (bad_continuation b cl) (seq 5 (crc_at `min` length b - 5))) eqn:Eb.
  - enough (existsb (bad_continuation (b ++ r) cl) (seq 5 (crc_at `min` (length b + length r) - 5)) = true) as -> by done.
    apply existsb_exists in Eb as (i & Hin & Hbad). apply in_seq in Hin.
    apply existsb_exists. exists i. rewrite bad_continuation_app by lia. split; [apply in_seq; lia|done].
  - destruct (Nat.leb_spec (length b) crc_at); [done|]. destruct (Nat.leb_spec (length b + length r) crc_at); [lia|].
    rewrite (existsb_seq_ext _ (bad_continuation b cl)) by (intros; apply bad_continuation_app; lia).
    replace (crc_at `min` (length b + length r))%nat with (crc_at `min` length b)%nat by lia. rewrite Eb.
    by rewrite take_app_le, nth_app_lt by lia.
Qed.

(** A prefix of something that may start a frame may start a frame. *)
Lemma frame_header_prefix b r : frame_header (b ++ r) ≠ Invalid → frame_header b ≠ Invalid.
Proof. intros Hi Hb. rewrite frame_header_app in Hi by by rewrite Hb. done. Qed.

Lemma frame_header_first b : b ≠ [] → nth 0 b 0 ≠ 0xFF → frame_header b = Invalid.
Proof.
  intros Hne Hb. unfold frame_header. rewrite bool_decide_eq_false_2 by done.
  by rewrite (proj2 (Z.eqb_neq _ _) Hb).
Qed.

Lemma is_invalid_false h : is_invalid h = false ↔ h ≠ Invalid.
Proof. by destruct h. Qed.

(** A valid header lies within the buffer. *)
Lemma frame_header_Valid b n : frame_header b = Valid n → (n ≤ length b ∧ b ≠ [])%nat.
Proof.
  unfold frame_header. case_bool_decide; [done|]. repeat (case_match; try done); intros; simplify_eq.
  split; [|done]. match goal with H : (_ <=? _)%nat = false |- _ => apply Nat.leb_gt in H end. lia.
Qed.

Lemma find_frame_here b : b ≠ [] → frame_header b ≠ Invalid → find_frame b = Some 0%nat.
Proof. intros Hne Hb. destruct b; [done|]. cbn [find_frame]. by rewrite (proj2 (is_invalid_false _) Hb). Qed.

(** ** Lemmas: frame ends *)

Definition crc16 (data : list Z) : Z := fold_left crc16_update data 0.

(** The frame that starts with [b] may end [k + 2] bytes after its start. *)
Definition crc_match (b : list Z) (header_len k : nat) : Prop :=
  (header_len < k)%nat ∧ (k + 2 ≤ length b)%nat ∧
  crc16 (take k b) = from_be_bytes [nth k b 0; nth (S k) b 0].
Definition end_at (b : list Z) (header_len k : nat) : Prop :=
  crc_match b header_len k ∧ (k + 2 = length b ∨ frame_header (drop (k + 2) b) ≠ Invalid)%nat.

Lemma crc16_snoc data b : crc16 (data ++ [b]) = crc16_update (crc16 data) b.
Proof. unfold crc16. by rewrite fold_left_app. Qed.

Lemma frame_end_loop_eq b1 b2 after k h crc :
  frame_end_loop (b1 :: b2 :: after) k h crc =
    if (h <? k)%nat && (crc =? from_be_bytes [b1; b2])
       && (bool_decide (after = []) || negb (is_invalid (frame_header after)))
    then Some (k + 2)%nat else frame_end_loop (b2 :: after) (S k) h (crc16_update crc b1).
Proof. done. Qed.

Lemma frame_end_loop_spec b j h :
  (j ≤ length b)%nat → (∀ k, (k < j)%nat → ¬ end_at b h k) →
  match frame_end_loop (drop j b) j h (crc16 (take j b)) with
  | Some e => ∃ k, e = (k + 2)%nat ∧ end_at b h k ∧ ∀ k', (k' < k)%nat → ¬ end_at b h k'
  | None => ∀ k, ¬ end_at b h k
  end.
Proof.
  remember (length b - j)%nat as n eqn:Hn. revert j Hn.
  induction n as [|n IH]; intros j Hn Hj Hno.
  { assert (j = length b) as -> by lia. rewrite drop_all. simpl. intros k [(? & ? & ?) ?]. apply (Hno k); [lia|].
    by split. }
  destruct (drop j b) as [|b1 tl] eqn:Ed; [apply (f_equal length) in Ed; rewrite length_drop in Ed; simpl in Ed; lia|].
  assert (nth j b 0 = b1) as Hb1.
  { rewrite <- (take_drop j b) at 1. rewrite app_nth2 by (rewrite length_take; lia).
    rewrite length_take, Nat.min_l, Nat.sub_diag, Ed by lia. done. }
  assert (drop (S j) b = tl) as Etl by (replace (S j) with (j + 1)%nat by lia; by rewrite <- drop_drop, Ed).
  destruct tl as [|b2 after].
  { assert (length b = S j) as Hl by (apply (f_equal length) in Ed; rewrite length_drop in Ed; simpl in Ed; lia).
    simpl. intros k [(? & ? & ?) ?]. apply (Hno k); [lia|]. by split. }
  assert (nth (S j) b 0 = b2) as Hb2.
  { rewrite <- (take_drop (S j) b) at 1. assert (S (S j) ≤ length b)%nat.
    { apply (f_equal length) in Ed. rewrite length_drop in Ed. simpl in Ed. lia. }
    rewrite app_nth2 by (rewrite length_take; lia). rewrite length_take, Nat.min_l, Nat.sub_diag, Etl by lia. done. }
  assert (drop (j + 2) b = after) as Eaf by (by rewrite <- drop_drop, Ed).
  assert (length b = j + 2 + length after)%nat as Hlen
    by (apply (f_equal length) in Ed; rewrite length_drop in Ed; simpl in Ed; lia).
  rewrite frame_end_loop_eq. destruct (_ && _) eqn:Ec.
  - exists j. split; [done|]. rewrite !andb_true_iff, orb_true_iff, Nat.ltb_lt, Z.eqb_eq in Ec.
    destruct Ec as [[? Hcrc] Haf]. split; [|done]. split; [split_and!; [done|lia|congruence]|].
    rewrite Eaf. destruct Haf as [Haf|Haf]; [apply bool_decide_eq_true in Haf; rewrite Haf in Hlen; simpl in Hlen; left; lia|].
    right. by apply is_invalid_false, negb_true_iff.
  - rewrite <- Etl, <- crc16_snoc. replace (take j b ++ [b1]) with (take (S j) b).
    2:{ apply take_S_r. rewrite <- Hb1. apply nth_lookup_Some'. lia. }
    apply IH; [lia|lia|]. intros k Hk [Hm Hor]. destruct (decide (k = j)) as [->|]; [|apply (Hno k); [lia|by split]].
    destruct Hm as (? & ? & Hcrc). rewrite Hb1, Hb2 in Hcrc. rewrite Eaf in Hor.
    rewrite !andb_false_iff, orb_false_iff in Ec. destruct Ec as [[?%Nat.ltb_ge|?%Z.eqb_neq]|[Hn1 Hn2]]; [lia|done|].
    apply bool_decide_eq_false in Hn1. apply negb_false_iff in Hn2. destruct Hor as [|Hor]; [|by apply is_invalid_false in Hor; congruence].
    apply Hn1. destruct after; [done|simpl in Hlen; lia].
Qed.

Lemma frame_end_spec b h :
  match frame_end b h with
  | Some e => ∃ k, e = (k + 2)%nat ∧ end_at b h k ∧ ∀ k', (k' < k)%nat → ¬ end_at b h k'
  | None => ∀ k, ¬ end_at b h k
  end.
Proof. apply (frame_end_loop_spec b 0 h); [lia|lia]. Qed.

(** A checksum match within [b] does not depend on what follows [b]. *)
Lemma crc_match_app b r h k : (k + 2 ≤ length b)%nat → crc_match (b ++ r) h k ↔ crc_match b h k.
Proof.
  intros Hk. unfold crc_match. rewrite length_app, take_app_le by lia.
  rewrite !nth_app_lt by lia. naive_solver lia.
Qed.

Lemma nth_drop' {A} (l : list A) n d : nth 0 (drop n l) d = nth n l d.
Proof. revert l. induction n as [|n IH]; intros [|x l]; try done. apply IH. Qed.

(** ** Well-formed streams *)

Section stream.
Context `{FlacCodec}.

(** A frame as an encoder writes it, which the codec in state [dec] decodes
    to [s]: a valid header, the checksum of the whole in its last two bytes,
    and no earlier position that could be taken for its end (a checksum match
    followed by the first byte of a sync code), nor a part of it, ending on a
    checksum match, that decodes. *)
Record frame_ok (dec : codec) (f : list Z) (h : nat) (s : list f32) (dec' : codec) : Prop := {
  fo_decode : codec_decode dec f = (Ok s, dec');
  fo_size : len f ≤ MAX_FRAME_BYTES;
  fo_header : frame_header f = Valid h;
  fo_crc : crc_match f h (length f - 2);
  fo_no_sync k : crc_match f h k → (k + 2 < length f)%nat → nth (k + 2) f 0 ≠ 0xFF;
  fo_truncated k : crc_match f h k → (k + 2 < length f)%nat →
    ∃ e, codec_decode dec (take (k + 2) f) = (Err e, dec)
}.

(** Consecutive frames, the codec going from [dec] to [dec']. *)
Inductive frames_ok : codec → list (list Z) → list (list f32) → codec → Prop :=
| frames_nil dec : frames_ok dec [] [] dec
| frames_cons dec f h s dec1 fs ss dec' :
    frame_ok dec f h s dec1 → frames_ok dec1 fs ss dec' → frames_ok dec (f :: fs) (s :: ss) dec'.

(** What may be left of a stream: nothing, or the beginning of a frame. *)
Definition partial (dec : codec) (p : list Z) : Prop :=
  p = [] ∨ ∃ f h s dec' q, frame_ok dec f h s dec' ∧ f = p ++ q ∧ p ≠ [] ∧ q ≠ [].

Lemma frame_nonempty dec f h s dec' : frame_ok dec f h s dec' → f ≠ [].
Proof. intros [_ _ Hh _ _ _]. by apply frame_header_Valid in Hh as [_ ?]. Qed.

Lemma partial_header dec p : partial dec p → p ≠ [] → frame_header p ≠ Invalid.
Proof.
  intros [->|(f & h & s & dec' & q & Hf & -> & _ & _)] Hne; [done|].
  eapply frame_header_prefix. by rewrite (fo_header _ _ _ _ _ Hf).
Qed.

(** The bytes after a frame of the stream are none, or may start a frame. *)
Lemma frames_header dec fs ss dec' p :
  frames_ok dec fs ss dec' → partial dec' p →
  concat fs ++ p = [] ∨ frame_header (concat fs ++ p) ≠ Invalid.
Proof.
  intros Hfs Hp. destruct Hfs as [dec|dec f h s dec1 fs ss dec' Hf _].
  - simpl. destruct (decide (p = [])); [by left|right; by eapply partial_header].
  - right. simpl. rewrite <- (assoc_L (++)), frame_header_app; by rewrite (fo_header _ _ _ _ _ Hf).
Qed.

(** The end of a frame is found, whatever of the stream follows it. *)
Lemma frame_end_whole dec f h s dec' r :
  frame_ok dec f h s dec' → r = [] ∨ frame_header r ≠ Invalid → frame_end (f ++ r) h = Some (length f).
Proof.
  intros Hf Hr. pose proof (fo_crc _ _ _ _ _ Hf) as Hcrc. pose proof Hcrc as (? & ? & _).
  pose proof (frame_end_spec (f ++ r) h) as He.
  assert (end_at (f ++ r) h (length f - 2)) as Hend.
  { split; [by apply crc_match_app; [lia|]|]. replace (length f - 2 + 2)%nat with (length f) by lia.
    rewrite drop_app_length, length_app. destruct Hr as [->|?]; [simpl; left; lia|by right]. }
  destruct (frame_end (f ++ r) h) as [e|]; [|by destruct (He (length f - 2)%nat)].
  destruct He as (k & -> & [Hm Hor] & Hmin). f_equal.
  assert (k ≤ length f - 2)%nat by (destruct (decide (length f - 2 < k)%nat) as [Hlt|]; [by destruct (Hmin _ Hlt)|lia]).
  destruct (decide (k + 2 = length f)%nat) as [|Hne]; [done|]. exfalso.
  rewrite crc_match_app in Hm by lia. pose proof (fo_no_sync _ _ _ _ _ Hf k Hm) as Hs.
  rewrite length_app, drop_app_le in Hor by lia. destruct Hor as [|Hor]; [lia|].
  apply Hor, frame_header_first.
  - intros E%(f_equal length). rewrite length_app, length_drop in E. simpl in E. lia.
  - rewrite nth_app_lt by (rewrite length_drop; lia). rewrite nth_drop'. apply Hs. lia.
Qed.

(** A frame that is not complete is left alone: no end is found, or one at
    the end of the buffer that does not decode. *)
Lemma frame_end_partial dec f h s dec' p q :
  frame_ok dec f h s dec' → f = p ++ q → q ≠ [] → ∀ e, frame_end p h = Some e →
  e = length p ∧ ∃ err, codec_decode dec p = (Err err, dec).
Proof.
  intros Hf -> Hq e He. pose proof (frame_end_spec p h) as Hs. rewrite He in Hs.
  destruct Hs as (k & -> & [Hm Hor] & _).
  assert (crc_match (p ++ q) h k) as Hm' by (destruct Hm as (? & ? & ?); by apply crc_match_app).
  assert (k + 2 < length (p ++ q))%nat as Hlt.
  { destruct Hm as (_ & ? & _). rewrite length_app. destruct q; [done|simpl; lia]. }
  destruct (decide (k + 2 = length p)%nat) as [E|Hne].
  - split; [done|]. destruct (fo_truncated _ _ _ _ _ Hf k Hm' Hlt) as [err Herr]. exists err.
    by rewrite take_app_length' in Herr.
  - exfalso. destruct Hm as (_ & ? & _). destruct Hor as [|Hor]; [done|].
    pose proof (fo_no_sync _ _ _ _ _ Hf k Hm' Hlt) as Hn. apply Hor, frame_header_first.
    + intros E%(f_equal length). rewrite length_drop in E. simpl in E. lia.
    + rewrite nth_drop'. rewrite nth_app_lt in Hn by lia. done.
Qed.

(** ** Lemmas: draining the buffer *)

Lemma drain_partial fuel dec p :
  partial dec p → drain_loop (S fuel) dec p = ([], p, dec).
Proof.
  intros Hp. destruct (decide (p = [])) as [->|Hne]; [done|]. cbn [drain_loop].
  pose proof (partial_header _ _ Hp Hne) as Hh. rewrite find_frame_here, drop_0 by done.
  destruct (frame_header p) as [n| |] eqn:E; [|done|done].
  destruct Hp as [|(f & h & s & dec' & q & Hf & -> & _ & Hq)]; [done|].
  assert (n = h) as ->.
  { pose proof (fo_header _ _ _ _ _ Hf) as Hv. rewrite frame_header_app in Hv by by rewrite E. congruence. }
  destruct (frame_end p h) as [e|] eqn:Ee.
  - destruct (frame_end_partial _ _ _ _ _ p q Hf eq_refl Hq e Ee) as (-> & err & Herr).
    by rewrite take_ge, Herr, Nat.eqb_refl by lia.
  - pose proof (fo_size _ _ _ _ _ Hf) as Hs. rewrite len_app in Hs. pose proof (len_nonneg q).
    by rewrite (proj2 (Z.ltb_ge _ _)) by lia.
Qed.

Lemma drain_frame fuel dec f h s dec' r :
  frame_ok dec f h s dec' → r = [] ∨ frame_header r ≠ Invalid →
  drain_loop (S fuel) dec (f ++ r) =
    let '(ss, rest, dec) := drain_loop fuel dec' r in (s ++ ss, rest, dec).
Proof.
  intros Hf Hr. cbn [drain_loop]. pose proof (frame_nonempty _ _ _ _ _ Hf) as Hne.
  assert (frame_header (f ++ r) = Valid h) as Hh
    by (rewrite frame_header_app; by rewrite (fo_header _ _ _ _ _ Hf)).
  rewrite find_frame_here, drop_0, Hh by (rewrite ?Hh; try done; by intros [-> _]%app_nil).
  rewrite (frame_end_whole _ _ _ _ _ _ Hf Hr). by rewrite take_app_length, drop_app_length, (fo_decode _ _ _ _ _ Hf).
Qed.

Lemma drain_frames_ok fuel dec fs ss dec' p :
  frames_ok dec fs ss dec' → partial dec' p → (length (concat fs ++ p) < fuel)%nat →
  drain_loop fuel dec (concat fs ++ p) = (concat ss, p, dec').
Proof.
  intros Hfs. revert fuel. induction Hfs as [dec|dec f h s dec1 fs ss dec' Hf Hfs IH]; intros fuel Hp Hfuel.
  - destruct fuel; [lia|]. by apply drain_partial.
  - destruct fuel as [|fuel]; [lia|]. cbn [concat]. rewrite <- (assoc_L (++)).
    rewrite (drain_frame _ _ _ _ _ _ _ Hf) by by eapply frames_header.
    rewrite IH; [done|done|]. pose proof (frame_nonempty _ _ _ _ _ Hf) as Hne.
    cbn [concat] in Hfuel. rewrite <- (assoc_L (++)), length_app in Hfuel.
    destruct f; [done|]. simpl in Hfuel. lia.
Qed.

(** Any beginning of a stream of frames is some whole frames and a partial
    one. *)
Lemma frames_cut dec fs ss dec' a b :
  frames_ok dec fs ss dec' → concat fs = a ++ b →
  ∃ fs1 fs2 ss1 ss2 dec1 p, fs = fs1 ++ fs2 ∧ ss = ss1 ++ ss2 ∧ a = concat fs1 ++ p ∧
    frames_ok dec fs1 ss1 dec1 ∧ frames_ok dec1 fs2 ss2 dec' ∧ partial dec1 p ∧ concat fs2 = p ++ b.
Proof.
  intros Hfs. revert a. induction Hfs as [dec|dec f h s dec1 fs ss dec' Hf Hfs IH]; intros a Ha.
  - symmetry in Ha. apply app_nil in Ha as [-> ->].
    exists [], [], [], [], dec, []. split_and!; try done; [constructor|constructor|by left].
  - simpl in Ha. destruct (decide (length f ≤ length a)%nat) as [Hle|Hlt].
    + assert (a = f ++ drop (length f) a) as Ea.
      { rewrite <- (take_drop (length f) a) at 1. f_equal.
        apply (f_equal (take (length f))) in Ha. by rewrite take_app_length, take_app_le in Ha. }
      rewrite Ea, <- (assoc_L (++)) in Ha. apply app_inv_head in Ha.
      destruct (IH _ Ha) as (fs1 & fs2 & ss1 & ss2 & d & p & -> & -> & Hp & H1 & H2 & H3 & H4).
      exists (f :: fs1), fs2, (s :: ss1), ss2, d, p. split_and!; try done; [|by econstructor].
      rewrite Ea, Hp. simpl. by rewrite (assoc_L (++)).
    + exists [], (f :: fs), [], (s :: ss), dec, a. split_and!; try done; [constructor|by econstructor|].
      destruct (decide (a = [])) as [->|Hne]; [by left|]. right.
      assert (f = a ++ drop (length a) f) as Ef.
      { rewrite <- (take_drop (length a) f) at 1. f_equal.
        apply (f_equal (take (length a))) in Ha. rewrite take_app_length, take_app_le in Ha by lia. done. }
      exists f, h, s, dec1, (drop (length a) f). split_and!; try done.
      intros E%(f_equal length). rewrite length_drop in E. simpl in E. lia.
Qed.

Lemma frames_app dec fs ss dec1 fs' ss' dec' :
  frames_ok dec fs ss dec1 → frames_ok dec1 fs' ss' dec' → frames_ok dec (fs ++ fs') (ss ++ ss') dec'.
Proof. induction 1; simpl; [done|]. intros. econstructor; eauto. Qed.

(** The decoder, once the header is read, has decoded [fs1] out of [fs] and
    holds [p]. *)
Definition decoded (dec : codec) (fs : list (list Z)) (ss : list (list f32)) (dec' : codec)
    (fed later : list Z) (out : list f32) (d : FlacStreamDecoder) : Prop :=
  ∃ fs1 fs2 ss1 ss2 dec1, fs = fs1 ++ fs2 ∧ ss = ss1 ++ ss2 ∧ fed = concat fs1 ++ fl_buf d ∧
    out = concat ss1 ∧ d = mkFlac (fl_buf d) true (Some dec1) ∧ partial dec1 (fl_buf d) ∧
    frames_ok dec fs1 ss1 dec1 ∧ frames_ok dec1 fs2 ss2 dec' ∧ concat fs2 = fl_buf d ++ later.

(** One chunk, the header read. *)
Lemma feed_frames dec fs ss dec' p data later :
  partial dec p → frames_ok dec fs ss dec' → concat fs = (p ++ data) ++ later →
  let '(out, d) := flac_decoder_feed (mkFlac p true (Some dec)) data in
  decoded dec fs ss dec' (p ++ data) later out d.
Proof.
  intros Hp Hfs Heq. destruct (frames_cut _ _ _ _ _ _ Hfs Heq)
    as (fs1 & fs2 & ss1 & ss2 & dec1 & p' & -> & -> & Ha & H1 & H2 & H3 & H4).
  unfold flac_decoder_feed, drain_frames. cbn [fl_buf fl_initialized fl_decoder].
  rewrite Ha, (drain_frames_ok _ _ _ _ _ _ H1 H3) by lia.
  exists fs1, fs2, ss1, ss2, dec1. by split_and!.
Qed.

(** A partial frame is not made of whole ones. *)
Lemma partial_whole dec fs ss dec' p :
  partial dec p → frames_ok dec fs ss dec' → concat fs = p → p = [] ∧ ss = [] ∧ dec' = dec.
Proof.
  intros Hp Hfs Heq. destruct Hfs as [dec|dec f h s dec1 fs ss dec' Hf _]; [by subst|]. exfalso.
  pose proof (frame_nonempty _ _ _ _ _ Hf) as Hne. simpl in Heq.
  destruct Hp as [->|(g & h' & s' & d' & q & Hg & Eg & _ & Hq)]; [by apply app_nil in Heq as [-> _]|].
  rewrite <- Heq, <- (assoc_L (++)) in Eg.
  assert (h' = h) as ->.
  { pose proof (fo_header _ _ _ _ _ Hg) as Hv. pose proof (fo_header _ _ _ _ _ Hf) as Hv'.
    rewrite Eg, frame_header_app in Hv by by rewrite Hv'. congruence. }
  pose proof (fo_crc _ _ _ _ _ Hf) as Hcrc. pose proof Hcrc as (? & ? & _).
  assert (crc_match g h (length f - 2)) as Hm by (rewrite Eg; by apply crc_match_app; [lia|]).
  destruct (fo_truncated _ _ _ _ _ Hg _ Hm) as [e He].
  { rewrite Eg, !length_app. destruct q; [done|simpl; lia]. }
  replace (length f - 2 + 2)%nat with (length f) in He by lia.
  rewrite Eg, take_app_length, (fo_decode _ _ _ _ _ Hf) in He. done.
Qed.

(** ** Lemmas: the stream header *)

Lemma header_blocks_app fuel b pos n fuel' r :
  header_blocks fuel b pos = Some n → (fuel ≤ fuel')%nat →
  header_blocks fuel' (b ++ r) pos = Some n ∧ (n ≤ pos + length b)%nat.
Proof.
  revert b pos fuel'. induction fuel as [|fuel IH]; intros b pos fuel' Hb Hf; [done|].
  destruct fuel' as [|fuel']; [lia|]. cbn [header_blocks] in *.
  destruct (Nat.ltb_spec (length b) 4) as [|H4]; [done|].
  rewrite length_app. destruct (Nat.ltb_spec (length b + length r) 4); [lia|].
  assert (block_len (b ++ r) = block_len b) as -> by (unfold block_len; by rewrite !nth_app_lt by lia).
  rewrite nth_app_lt by lia.
  destruct (Z.ltb_spec (len b) (4 + block_len b)) as [|Hl]; [done|].
  rewrite len_app. pose proof (len_nonneg r). rewrite (proj2 (Z.ltb_ge _ _)) by lia.
  unfold len in Hl. destruct (negb _); [simplify_eq; split; [done|lia]|].
  rewrite drop_app_le by lia. destruct (IH _ _ fuel' Hb ltac:(lia)) as [-> Hn]. split; [done|].
  rewrite length_drop in Hn. lia.
Qed.

Lemma stream_header_len_app b r n :
  (4 ≤ length b)%nat → stream_header_len b = Some n → stream_header_len (b ++ r) = Some n ∧ (n ≤ length b)%nat.
Proof.
  intros H4 Hb. unfold stream_header_len in *. rewrite drop_app_le by lia.
  assert (length b ≤ length (b ++ r))%nat as Hf by (rewrite length_app; lia).
  destruct (header_blocks_app _ _ _ _ _ r Hb Hf) as [-> Hn].
  split; [done|]. rewrite length_drop in Hn. lia.
Qed.

(** A complete stream header, from which the codec [dec] is made. *)
Record header_ok (hdr : list Z) (dec : codec) : Prop := {
  ho_magic : take 4 hdr = MAGIC;
  ho_length : stream_header_len hdr = Some (length hdr);
  ho_init : try_init hdr = Ok dec
}.

Lemma header_ok_length hdr dec : header_ok hdr dec → (4 ≤ length hdr)%nat.
Proof. intros [Hm _ _]. apply (f_equal length) in Hm. rewrite length_take in Hm. change (length MAGIC) with 4%nat in Hm. lia. Qed.

(** While the header is not complete, the bytes are kept. *)
Lemma feed_header hdr dec a data q :
  header_ok hdr dec → hdr = (a ++ data) ++ q → q ≠ [] →
  flac_decoder_feed (mkFlac a false None) data = ([], mkFlac (a ++ data) false None).
Proof.
  intros Hh -> Hq. pose proof (header_ok_length _ _ Hh) as H4. unfold flac_decoder_feed. cbn [fl_buf fl_initialized fl_decoder].
  destruct (Nat.ltb_spec (length (a ++ data)) 4) as [|Hl]; [done|].
  pose proof (ho_magic _ _ Hh) as Hm. rewrite take_app_le in Hm by lia. rewrite bool_decide_eq_true_2 by done. simpl negb. cbv iota.
  destruct (stream_header_len (a ++ data)) as [n|] eqn:E; [|done]. exfalso.
  destruct (stream_header_len_app _ q _ Hl E) as [E' Hn]. rewrite (ho_length _ _ Hh) in E'. simplify_eq.
  rewrite (length_app _ q) in Hn. destruct q; [done|simpl in Hn; lia].
Qed.

(** Once it is, the codec is made and the frames that follow are decoded. *)
Lemma feed_header_done hdr dec a data r :
  header_ok hdr dec → a ++ data = hdr ++ r →
  flac_decoder_feed (mkFlac a false None) data = flac_decoder_feed (mkFlac [] true (Some dec)) r.
Proof.
  intros Hh E. pose proof (header_ok_length _ _ Hh) as H4. unfold flac_decoder_feed. cbn [fl_buf fl_initialized fl_decoder].
  rewrite E, length_app. destruct (Nat.ltb_spec (length hdr + length r) 4); [lia|].
  rewrite take_app_le by lia. rewrite bool_decide_eq_true_2 by apply Hh. simpl negb. cbv iota.
  destruct (stream_header_len_app _ r _ H4 (ho_length _ _ Hh)) as [-> _].
  by rewrite take_app_length, drop_app_length, (ho_init _ _ Hh).
Qed.

(** ** Lemmas: whole streams *)

Lemma run_frames chunks dec fs ss dec' p later :
  partial dec p → frames_ok dec fs ss dec' → concat fs = (p ++ concat chunks) ++ later →
  let '(out, d) := flac_run (mkFlac p true (Some dec)) chunks in
  decoded dec fs ss dec' (p ++ concat chunks) later out d.
Proof.
  revert dec fs ss p. induction chunks as [|data chunks IH]; intros dec fs ss p Hp Hfs Heq.
  - simpl in *. rewrite app_nil_r in *. exists [], fs, [], ss, dec. split_and!; try done. constructor.
  - cbn [concat flac_run] in *. rewrite (assoc_L (++)) in *.
    rewrite <- (assoc_L (++) (p ++ data)) in Heq.
    pose proof (feed_frames _ _ _ _ _ _ _ Hp Hfs Heq) as Hfeed.
    destruct (flac_decoder_feed _ data) as [out1 d1]. destruct Hfeed as (fs1 & fs2 & ss1 & ss2 & dec1 &
      -> & -> & Efed & -> & -> & Hp1 & Hfs1 & Hfs2 & Heq2). cbn [fl_buf] in *.
    rewrite (assoc_L (++)) in Heq2. specialize (IH _ _ _ _ Hp1 Hfs2 Heq2).
    destruct (flac_run _ chunks) as [out2 d2]. destruct IH as (fs3 & fs4 & ss3 & ss4 & dec2 &
      -> & -> & Efed2 & -> & -> & Hp2 & Hfs3 & Hfs4 & Heq3). cbn [fl_buf] in *.
    exists (fs1 ++ fs3), fs4, (ss1 ++ ss3), ss4, dec2. cbn [fl_buf]. rewrite <- !(assoc_L (++)), !concat_app.
    split_and!; try done; [|by eapply frames_app].
    rewrite (assoc_L (++)), Efed, <- !(assoc_L (++)), Efed2. done.
Qed.

Lemma run_stream chunks hdr dec fs ss dec' a q later :
  header_ok hdr dec → frames_ok dec fs ss dec' → hdr = a ++ q → q ≠ [] →
  q ++ concat fs = concat chunks ++ later → (length q ≤ length (concat chunks))%nat →
  ∃ fed, concat chunks = q ++ fed ∧
    let '(out, d) := flac_run (mkFlac a false None) chunks in decoded dec fs ss dec' fed later out d.
Proof.
  intros Hh Hfs. revert a q. induction chunks as [|data chunks IH]; intros a q Ehdr Hq Heq Hlen.
  { destruct q; [done|]. simpl in Hlen. lia. }
  cbn [concat] in *. cbn [flac_run]. rewrite <- (assoc_L (++)) in Heq.
  destruct (decide (length data < length q)%nat) as [Hlt|Hge].
  - assert (q = data ++ drop (length data) q) as Eq.
    { rewrite <- (take_drop (length data) q) at 1. f_equal.
      apply (f_equal (take (length data))) in Heq. rewrite take_app_length, take_app_le in Heq by lia. done. }
    rewrite Eq, <- (assoc_L (++)) in Heq. apply app_inv_head in Heq.
    assert (drop (length data) q ≠ []) as Hq'.
    { intros E%(f_equal length). rewrite length_drop in E. simpl in E. lia. }
    rewrite length_app in Hlen.
    assert (hdr = (a ++ data) ++ drop (length data) q) as Ehdr' by (by rewrite Ehdr, <- (assoc_L (++)), <- Eq).
    rewrite (feed_header hdr dec a data (drop (length data) q)) by done.
    destruct (IH (a ++ data) (drop (length data) q)) as (fed & Efed & Hrun); try done; [rewrite length_drop; lia|].
    exists fed. split; [by rewrite Efed, (assoc_L (++)), <- Eq|].
    destruct (flac_run (mkFlac (a ++ data) false None) chunks). done.
  - assert (data = q ++ drop (length q) data) as Ed.
    { rewrite <- (take_drop (length q) data) at 1. f_equal.
      apply (f_equal (take (length q))) in Heq. rewrite take_app_length, take_app_le in Heq by lia. done. }
    set (r := drop (length q) data) in *.
    rewrite Ed, <- (assoc_L (++)) in Heq. apply app_inv_head in Heq.
    rewrite (feed_header_done hdr dec a data r) by (try done; by rewrite Ehdr, <- (assoc_L (++)), <- Ed).
    exists (concat (r :: chunks)). split; [by rewrite Ed at 1; simpl; rewrite <- (assoc_L (++))|].
    change (let '(s, d) := flac_decoder_feed (mkFlac [] true (Some dec)) r in
            let '(ss, d) := flac_run d chunks in (s ++ ss, d))
      with (flac_run (mkFlac [] true (Some dec)) (r :: chunks)).
    apply (run_frames (r :: chunks) dec fs ss dec' [] later); [by left|done|].
    simpl. by rewrite <- (assoc_L (++)).
Qed.

Lemma run_new chunks hdr dec fs ss dec' later :
  header_ok hdr dec → frames_ok dec fs ss dec' → hdr ++ concat fs = concat chunks ++ later →
  (length hdr ≤ length (concat chunks))%nat →
  ∃ fed, concat chunks = hdr ++ fed ∧
    let '(out, d) := flac_run FlacStreamDecoder_new chunks in decoded dec fs ss dec' fed later out d.
Proof.
  intros Hh Hfs Heq Hlen. apply (run_stream _ hdr dec fs ss dec' [] hdr later); try done.
  pose proof (header_ok_length _ _ Hh) as H4. intros ->. simpl in H4. lia.
Qed.

Lemma run_complete chunks hdr dec fs ss dec' :
  header_ok hdr dec → frames_ok dec fs ss dec' → concat chunks = hdr ++ concat fs →
  flac_run FlacStreamDecoder_new chunks = (concat ss, mkFlac [] true (Some dec')).
Proof.
  intros Hh Hfs Heq. destruct (run_new chunks hdr dec fs ss dec' []) as (fed & _ & Hrun); try done.
  { by rewrite app_nil_r. } { rewrite Heq, length_app. lia. }
  destruct (flac_run _ chunks) as [out d]. destruct Hrun as (fs1 & fs2 & ss1 & ss2 & dec1 &
    -> & -> & _ & -> & Ed & Hp & _ & Hfs2 & Heq2). rewrite app_nil_r in Heq2.
  destruct (partial_whole _ _ _ _ _ Hp Hfs2 Heq2) as (Hb & -> & ->). by rewrite app_nil_r, Ed, Hb.
Qed.

(** ** Properties *)

(** C13 A FLAC stream is decoded completely whatever the packets it is cut
    into, in the metadata, in a header or in a checksum: once it is all fed,
    the samples are those of every frame, in order and once, and no byte is
    left in the buffer; at any earlier point after the metadata the samples
    are those of the frames received completely, and the buffer holds the
    rest of what was fed, the beginning of a frame. *)
Theorem flac_stream_decoded chunks hdr dec fs ss dec' later :
  header_ok hdr dec → frames_ok dec fs ss dec' → hdr ++ concat fs = concat chunks ++ later →
  (length hdr ≤ length (concat chunks))%nat →
  ∃ fs1 fs2 ss1 ss2 dec1 p, fs = fs1 ++ fs2 ∧ ss = ss1 ++ ss2 ∧ frames_ok dec fs1 ss1 dec1 ∧
    concat chunks = hdr ++ concat fs1 ++ p ∧ partial dec1 p ∧
    flac_run FlacStreamDecoder_new chunks = (concat ss1, mkFlac p true (Some dec1)) ∧
    (later = [] → fs2 = [] ∧ ss2 = [] ∧ p = []).
Proof.
  intros Hh Hfs Heq Hlen. destruct (run_new _ _ _ _ _ _ _ Hh Hfs Heq Hlen) as (fed & Efed & Hrun).
  destruct (flac_run _ chunks) as [out d]. destruct Hrun as (fs1 & fs2 & ss1 & ss2 & dec1 &
    -> & -> & -> & -> & Ed & Hp & Hfs1 & Hfs2 & Heq2).
  exists fs1, fs2, ss1, ss2, dec1, (fl_buf d). rewrite <- Ed. split_and!; try done.
  intros ->. rewrite app_nil_r in Heq2. destruct (partial_whole _ _ _ _ _ Hp Hfs2 Heq2) as (-> & -> & _).
  split_and!; try done. inversion Hfs2; congruence.
Qed.

End stream.

(** ** Joining in the middle of a stream *)

(** Without a stream header nothing is decoded and nothing is kept: a first
    packet that does not begin a FLAC stream leaves the decoder as new, so
    that a stream that starts with the next packet is decoded completely; a
    reset has the same effect at any time. *)
Theorem flac_resynchronises `{FlacCodec} d junk chunks hdr dec fs ss dec' :
  (4 ≤ length junk)%nat → take 4 junk ≠ MAGIC →
  header_ok hdr dec → frames_ok dec fs ss dec' → concat chunks = hdr ++ concat fs →
  flac_run FlacStreamDecoder_new (junk :: chunks) = (concat ss, mkFlac [] true (Some dec')) ∧
  flac_run (flac_decoder_reset d) chunks = (concat ss, mkFlac [] true (Some dec')).
Proof.
  intros Hl Hj Hh Hfs Heq.
  assert (flac_run FlacStreamDecoder_new chunks = (concat ss, mkFlac [] true (Some dec'))) as Hrun.
  { by apply (run_complete _ hdr dec fs). }
  split; [|done]. cbn [flac_run]. unfold flac_decoder_feed at 1. cbn [fl_buf fl_initialized fl_decoder app FlacStreamDecoder_new].
  destruct (Nat.ltb_spec (length junk) 4); [lia|]. rewrite bool_decide_eq_false_2 by done. simpl negb. cbv iota.
  unfold FlacStreamDecoder_new in Hrun. by rewrite Hrun.
Qed.

(** ** Witnesses

    A codec that decodes packets of nine bytes to one sample, and two frames
    of nine bytes with their checksums. *)

Definition demo_codec : FlacCodec := {|
  codec := nat;
  codec_make _ := Ok 0%nat;
  codec_decode n p := if (length p =? 9)%nat then (Ok [S754_zero false], S n) else (Err "truncated"%string, n)
|}.

Definition demo_header : list Z := MAGIC ++ [0x80; 0; 0; 34] ++ replicate 34 0.
Definition demo_frame1 : list Z := [255; 248; 25; 24; 0; 237; 42; 58; 200].
Definition demo_frame2 : list Z := [255; 248; 25; 24; 1; 234; 85; 169; 221].

Definition demo_chunks : list (list Z) :=
  let s := demo_header ++ demo_frame1 ++ demo_frame2 in [take 3 s; take 42 (drop 3 s); take 2 (drop 45 s); drop 47 s].

Lemma demo_frame_ok n f :
  frame_header f = Valid 6 → length f = 9%nat → crc_match f 6 7 →
  @frame_ok demo_codec n f 6 [S754_zero false] (S n).
Proof.
  intros Hh Hl Hc. split; try done; simpl; rewrite ?Hl; try done.
  - unfold len. by rewrite Hl.
  - intros k (? & _) ?. lia.
  - intros k (? & _) ?. lia.
Qed.

Lemma demo_frames_ok :
  @frames_ok demo_codec 0%nat [demo_frame1; demo_frame2] [[S754_zero false]; [S754_zero false]] 2%nat.
Proof.
  apply (@frames_cons demo_codec _ _ 6%nat _ 1%nat).
  { apply demo_frame_ok; [by vm_compute|done|]. split_and!; [lia|simpl; lia|by vm_compute]. }
  apply (@frames_cons demo_codec _ _ 6%nat _ 2%nat).
  { apply demo_frame_ok; [by vm_compute|done|]. split_and!; [lia|simpl; lia|by vm_compute]. }
  constructor.
Qed.

Lemma flac_stream_decoded_witness :
  ∃ fs1 fs2 ss1 ss2 dec1 p, [demo_frame1; demo_frame2] = fs1 ++ fs2 ∧
    [[S754_zero false]; [S754_zero false]] = ss1 ++ ss2 ∧ @frames_ok demo_codec 0%nat fs1 ss1 dec1 ∧
    concat (take 3 demo_chunks) = demo_header ++ concat fs1 ++ p ∧ @partial demo_codec dec1 p ∧
    @flac_run demo_codec FlacStreamDecoder_new (take 3 demo_chunks) = (concat ss1, mkFlac p true (Some dec1)) ∧
    (drop 47 (demo_header ++ demo_frame1 ++ demo_frame2) = [] → fs2 = [] ∧ ss2 = [] ∧ p = []).
Proof.
  apply (@flac_stream_decoded demo_codec (take 3 demo_chunks) demo_header 0%nat [demo_frame1; demo_frame2]
           [[S754_zero false]; [S754_zero false]] 2%nat).
  - split; by vm_compute.
  - apply demo_frames_ok.
  - by vm_compute.
  - vm_compute. lia.
Defined.

Lemma flac_resynchronises_witness :
  @flac_run demo_codec (@FlacStreamDecoder_new demo_codec) ([1; 2; 3; 4; 5] :: demo_chunks)
  = ([S754_zero false; S754_zero false], @mkFlac demo_codec [] true (Some 2%nat)).
Proof.
  apply (@flac_resynchronises demo_codec (@FlacStreamDecoder_new demo_codec) [1; 2; 3; 4; 5] demo_chunks
           demo_header 0%nat [demo_frame1; demo_frame2] [[S754_zero false]; [S754_zero false]] 2%nat).
  - simpl; lia.
  - discriminate.
  - split; by vm_compute.
  - apply demo_frames_ok.
  - by vm_compute.
Defined.

(** ** The decoder as the outputs use it *)

Class FlacStream := {
  flac_state : Type;
  flac_new : flac_state;
  flac_feed : flac_state → list Z → list f32 * flac_state;
  flac_reset : flac_state → flac_state
}.

(** What an output relies on: [new] is a fresh decoder, and feeding it the
    packets of a stream gives the stream's samples. *)
Class FlacStreamLaws (F : FlacStream) (decodes : list (list Z) → list f32 → Prop) := {
  flac_decodes chunks samples :
    decodes chunks samples →
    ∃ d, fold_left (λ '(ss, d) data, let '(s, d) := flac_feed d data in (ss ++ s, d)) chunks ([], flac_new)
         = (samples, d);
  flac_reset_new d : flac_reset d = flac_new
}.

#[export] Instance flac_decoder_stream `{FlacCodec} : FlacStream := {|
  flac_state := FlacStreamDecoder;
  flac_new := FlacStreamDecoder_new;
  flac_feed := flac_decoder_feed;
  flac_reset := flac_decoder_reset
|}.

(** [chunks] is a well-formed FLAC stream with these samples. *)
Definition flac_stream_of `{FlacCodec} (chunks : list (list Z)) (samples : list f32) : Prop :=
  ∃ hdr dec fs ss dec', header_ok hdr dec ∧ frames_ok dec fs ss dec' ∧
    concat chunks = hdr ++ concat fs ∧ samples = concat ss.

Lemma flac_run_fold `{FlacCodec} chunks ss d :
  fold_left (λ '(ss, d) data, let '(s, d) := flac_decoder_feed d data in (ss ++ s, d)) chunks (ss, d)
  = let '(ss', d') := flac_run d chunks in (ss ++ ss', d').
Proof.
  revert ss d. induction chunks as [|data chunks IH]; intros ss d; simpl; [by rewrite app_nil_r|].
  destruct (flac_decoder_feed d data) as [s d1]. rewrite IH. destruct (flac_run d1 chunks). by rewrite (assoc_L (++)).
Qed.

#[export] Instance flac_decoder_laws `{FlacCodec} : FlacStreamLaws flac_decoder_stream flac_stream_of.
Proof.
  split; [|done]. intros chunks samples (hdr & dec & fs & ss & dec' & Hh & Hfs & Heq & ->).
  eexists. simpl. by rewrite flac_run_fold, (run_complete chunks hdr dec fs ss dec').
Qed.
