(* ===== verification/FlacWhole.v ===== *)
(** * FLAC in one go

    Models [decode_flac_to_f32] of [crates/oaat-endpoint/src/flac_decoder.rs]:
    a whole file through [symphonia]'s demuxer and codec.  The demuxer is an
    argument: the tracks it finds and what [next_packet] answers until it
    fails; the codec is that of [Flac]. *)

From S2P Require Import Prelude Float Flac.

Local Open Scope Z_scope.

Record Track := mkTrack { tr_id : Z; tr_is_flac : bool; tr_params : list Z }.
Record Packet := mkPacket { pk_track_id : Z; pk_data : list Z }.

(** [Probed] is what the probe of a file comes to: its tracks, the packets read
    one after the other, and how the reading ends ([None] is
    [UnexpectedEof]). *)
Record Probed := mkProbed { pb_tracks : list Track; pb_packets : list Packet; pb_end : option string }.
Class FlacDemuxer := probe : list Z → result Probed string.

Section whole.
Context `{FlacCodec} `{FlacDemuxer}.

(** The loop: packets of other tracks and packets that do not decode are
    skipped, and any end of the reading ends it. *)
Fixpoint decode_packets (dec : codec) (track_id : Z) (packets : list Packet) (all_samples : list f32) : list f32 :=
  match packets with
  | [] => all_samples
  | p :: packets =>
      if negb (pk_track_id p =? track_id) then decode_packets dec track_id packets all_samples
      else
        match codec_decode dec (pk_data p) with
        | (Ok samples, dec) => decode_packets dec track_id packets (all_samples ++ samples)
        | (Err _, dec) => decode_packets dec track_id packets all_samples
        end
  end.

Definition decode_flac_to_f32 (flac_data : list Z) : result (list f32) string :=
  match probe flac_data with
  | Err e => Err ("FLAC probe failed: " ++ e)%string
  | Ok probed =>
      match List.find tr_is_flac (pb_tracks probed) with
      | None => Err "no FLAC track found"%string
      | Some track =>
          match codec_make (tr_params track) with
          | Err e => Err ("FLAC decoder init failed: " ++ e)%string
          | Ok dec => Ok (decode_packets dec (tr_id track) (pb_packets probed) [])
          end
      end
  end.

(** ** Lemmas *)

Lemma decode_packets_acc dec id packets acc : decode_packets dec id packets acc = acc ++ decode_packets dec id packets [].
Proof.
  revert dec acc. induction packets as [|p packets IH]; intros dec acc; cbn [decode_packets]; [by rewrite app_nil_r|].
  destruct (negb _); [apply IH|]. destruct (codec_decode dec (pk_data p)) as [[samples|e] dec1]; [|apply IH].
  rewrite IH, (IH _ ([] ++ samples)). cbn [app]. by rewrite app_assoc.
Qed.

(** The packets of one track. *)
Definition on_track (id : Z) (packets : list Packet) : list Packet := List.filter (λ p, pk_track_id p =? id) packets.

Lemma decode_packets_track dec id packets acc : decode_packets dec id packets acc = decode_packets dec id (on_track id packets) acc.
Proof.
  revert dec acc. induction packets as [|p packets IH]; intros dec acc; [done|]. cbn. destruct (pk_track_id p =? id) eqn:E; cbn; [|apply IH].
  rewrite E. cbn. destruct (codec_decode dec (pk_data p)) as [[samples|e] dec1]; apply IH.
Qed.

Lemma decode_packets_frames dec id fs ss dec' :
  frames_ok dec fs ss dec' → decode_packets dec id (mkPacket id <$> fs) [] = concat ss.
Proof.
  induction 1 as [dec|dec f h s dec1 fs ss dec' Hf _ IH]; [done|]. cbn [fmap list_fmap decode_packets pk_track_id pk_data concat].
  rewrite Z.eqb_refl, (fo_decode _ _ _ _ _ Hf). cbn. rewrite decode_packets_acc. by f_equal.
Qed.

(** A damaged packet costs its own samples. *)
Lemma decode_packets_app dec id fs ss dec' e rest p :
  frames_ok dec fs ss dec' → codec_decode dec' p = (Err e, dec') →
  decode_packets dec id ((mkPacket id <$> fs) ++ mkPacket id p :: rest) [] = concat ss ++ decode_packets dec' id rest [].
Proof.
  induction 1 as [dec|dec f h s dec1 fs ss dec' Hf _ IH]; intros Hp; cbn [fmap list_fmap decode_packets pk_track_id pk_data concat app].
  - by rewrite Z.eqb_refl, Hp.
  - rewrite Z.eqb_refl, (fo_decode _ _ _ _ _ Hf). cbn. rewrite decode_packets_acc, IH by done. by rewrite app_assoc.
Qed.

(** ** Properties *)

(** The two decoders agree: a file whose demuxer finds the frames of the
    stream on its FLAC track, whatever other tracks are interleaved and however
    the reading ends, is decoded in one go to the samples that the incremental
    decoder gives for the same bytes cut into any packets. *)
Theorem one_shot_is_incremental hdr dec fs ss dec' chunks probed track :
  header_ok hdr dec → frames_ok dec fs ss dec' → concat chunks = hdr ++ concat fs →
  probe (concat chunks) = Ok probed → List.find tr_is_flac (pb_tracks probed) = Some track →
  codec_make (tr_params track) = Ok dec → on_track (tr_id track) (pb_packets probed) = mkPacket (tr_id track) <$> fs →
  decode_flac_to_f32 (concat chunks) = Ok (concat ss) ∧
  flac_run FlacStreamDecoder_new chunks = (concat ss, mkFlac [] true (Some dec')).
Proof.
  intros Hh Hfs Hc Hp Ht Hm Hon. split.
  - unfold decode_flac_to_f32. rewrite Hp, Ht, Hm, decode_packets_track, Hon. by rewrite (decode_packets_frames _ _ _ _ _ Hfs).
  - exact (proj2 (flac_resynchronises FlacStreamDecoder_new [0; 0; 0; 0] chunks hdr dec fs ss dec' ltac:(cbn; lia) ltac:(discriminate) Hh Hfs Hc)).
Qed.

(** A packet that does not decode costs only its own samples, and no error
    after the first packet is reported: the errors are those of the probe, of a
    file without a FLAC track, and of the codec's start. *)
Theorem one_shot_errors flac_data :
  match decode_flac_to_f32 flac_data with
  | Err e =>
      (∃ e', probe flac_data = Err e' ∧ e = ("FLAC probe failed: " ++ e')%string) ∨
      ∃ probed, probe flac_data = Ok probed ∧
        (Forall (λ t, tr_is_flac t = false) (pb_tracks probed) ∧ e = "no FLAC track found"%string ∨
         ∃ t e', t ∈ pb_tracks probed ∧ codec_make (tr_params t) = Err e' ∧ e = ("FLAC decoder init failed: " ++ e')%string)
  | Ok samples => ∃ probed t dec, probe flac_data = Ok probed ∧ t ∈ pb_tracks probed ∧ tr_is_flac t = true ∧
      codec_make (tr_params t) = Ok dec ∧ samples = decode_packets dec (tr_id t) (on_track (tr_id t) (pb_packets probed)) []
  end.
Proof.
  unfold decode_flac_to_f32. destruct (probe flac_data) as [probed|e] eqn:Ep; [|left; by exists e].
  destruct (List.find tr_is_flac (pb_tracks probed)) as [t|] eqn:Et.
  - apply List.find_some in Et as [Hin Hflac]. apply list_elem_of_In in Hin.
    destruct (codec_make (tr_params t)) as [dec|e] eqn:Em.
    + exists probed, t, dec. split_and!; try done. apply decode_packets_track.
    + right. exists probed. split; [done|]. right. by exists t, e.
  - right. exists probed. split; [done|]. left. split; [|done]. apply Forall_forall. intros t Hin.
    by apply (List.find_none _ _ Et), list_elem_of_In.
Qed.
End whole.

(** ** Witnesses *)

(** A file with a second track interleaved. *)
#[local] Existing Instance demo_codec.
Definition demo_file : list Z := demo_header ++ demo_frame1 ++ demo_frame2.
#[local] Instance demo_demuxer : FlacDemuxer := λ data,
  if bool_decide (data = demo_file)
  then Ok (mkProbed [mkTrack 1 false []; mkTrack 2 true []] [mkPacket 2 demo_frame1; mkPacket 1 [9]; mkPacket 2 demo_frame2] None)
  else Err "unsupported format"%string.

Lemma one_shot_is_incremental_witness :
  @decode_flac_to_f32 demo_codec demo_demuxer (concat demo_chunks) = Ok [S754_zero false; S754_zero false] ∧
  @flac_run demo_codec (@FlacStreamDecoder_new demo_codec) demo_chunks = ([S754_zero false; S754_zero false], @mkFlac demo_codec [] true (Some 2%nat)).
Proof.
  apply (@one_shot_is_incremental demo_codec demo_demuxer demo_header 0%nat [demo_frame1; demo_frame2] [[S754_zero false]; [S754_zero false]] 2%nat demo_chunks
           (mkProbed [mkTrack 1 false []; mkTrack 2 true []] [mkPacket 2 demo_frame1; mkPacket 1 [9]; mkPacket 2 demo_frame2] None)
           (mkTrack 2 true [])).
  - split; by vm_compute.
  - apply demo_frames_ok.
  - by vm_compute.
  - by vm_compute.
  - by vm_compute.
  - by vm_compute.
  - by vm_compute.
Defined.
