(* ===== verification/Alsa.v ===== *)
(** * The ALSA writer thread

    Models the device state machine of
    [crates/oaat-endpoint/src/alsa_direct.rs]: [DeviceSlot], its opening,
    retry backoff, payload writing with underrun recovery, and the loop of
    the writer thread.

    The hardware is a script: the results its next operations will return,
    together with a log of what it accepted.  It has the device calls that
    return.  In a call that never does (a stuck device, which [stop] leaves
    behind after a timeout) the thread stays for good, with what it has played
    so far, and makes no further turn: that is outside the model, and the
    theorems are about turns whose device calls return.  Instants and durations
    are in milliseconds. *)

From S2P Require Import Prelude.

Local Open Scope Z_scope.

Definition RESPAWN_BACKOFF_MIN : Z := 250.
Definition RESPAWN_BACKOFF_MAX : Z := 8000.
Definition RESPAWN_STABLE_RUN : Z := 5000.
Definition IDLE_CLOSE : Z := 10000.

Record DeviceParams := mkParams {
  dp_device : string; dp_format : string; dp_rate : Z; dp_channels : Z }.

Definition frame_bytes (p : DeviceParams) : Z :=
  let sample := if String.eqb (dp_format p) "S16_LE" then 2 else 4 in
  sample * Z.max (dp_channels p) 1.

Inductive DeviceError := Xrun | Suspended | Fatal (e : string).

(** The device: what opening, writing and recovering will return next, and
    what was played, drained or discarded. *)
Record Hardware := mkHardware {
  hw_opens : list (result unit string);
  hw_writes : list (result Z DeviceError);
  hw_recovers : list (result unit DeviceError);
  hw_played : list Z;
  hw_drains : nat;
  hw_discards : nat
}.

Definition hw_open (h : Hardware) : result unit string * Hardware :=
  match hw_opens h with
  | [] => (Err "no such device"%string, h)
  | r :: rs => (r, mkHardware rs (hw_writes h) (hw_recovers h) (hw_played h) (hw_drains h) (hw_discards h))
  end.

(** [PcmDevice::write], when it returns: the frames taken are appended to the
    log.  The code knows that it may never return on a stuck device. *)
Definition hw_write (h : Hardware) (frame : Z) (data : list Z) : result Z DeviceError * Hardware :=
  match hw_writes h with
  | [] => (Err (Fatal "no such device"), h)
  | r :: rs =>
      let played := match r with Ok n => hw_played h ++ take (Z.to_nat (n * frame)) data | Err _ => hw_played h end in
      (r, mkHardware (hw_opens h) rs (hw_recovers h) played (hw_drains h) (hw_discards h))
  end.

(** [PcmDevice::recover], when it returns. *)
Definition hw_recover (h : Hardware) : result unit DeviceError * Hardware :=
  match hw_recovers h with
  | [] => (Err (Fatal "no such device"), h)
  | r :: rs => (r, mkHardware (hw_opens h) (hw_writes h) rs (hw_played h) (hw_drains h) (hw_discards h))
  end.

(** [Shared] and [DeviceSlot]. *)
Record DeviceSlot := mkSlot {
  sl_params : DeviceParams;
  sl_hw : Hardware;
  sl_dev : bool;
  sl_opened_at : option Z;
  sl_retry_at : option Z;
  sl_backoff : Z;
  sl_underruns : Z;
  sl_open : bool
}.

Definition set_hw (s : DeviceSlot) (h : Hardware) : DeviceSlot :=
  mkSlot (sl_params s) h (sl_dev s) (sl_opened_at s) (sl_retry_at s) (sl_backoff s) (sl_underruns s) (sl_open s).

Definition slot_open (s : DeviceSlot) (now : Z) : result unit string * DeviceSlot :=
  let '(r, h) := hw_open (sl_hw s) in
  match r with
  | Err e => (Err e, set_hw s h)
  | Ok _ => (Ok tt, mkSlot (sl_params s) h true (Some now) None (sl_backoff s) (sl_underruns s) true)
  end.

Definition schedule_retry (s : DeviceSlot) (now : Z) : DeviceSlot :=
  let stable := match sl_opened_at s with Some t => RESPAWN_STABLE_RUN <=? now - t | None => false end in
  let backoff := if stable || (sl_backoff s =? 0) then RESPAWN_BACKOFF_MIN
                 else Z.min (sl_backoff s * 2) RESPAWN_BACKOFF_MAX in
  mkSlot (sl_params s) (sl_hw s) (sl_dev s) None (Some (now + backoff)) backoff (sl_underruns s) (sl_open s).

Definition ensure_open (s : DeviceSlot) (now : Z) : bool * DeviceSlot :=
  if sl_dev s then (true, s)
  else if match sl_retry_at s with Some t => now <? t | None => false end then (false, s)
  else
    match slot_open s now with
    | (Ok _, s) => (true, s)
    | (Err _, s) => (false, schedule_retry s now)
    end.

Definition slot_fail (s : DeviceSlot) (now : Z) : DeviceSlot :=
  schedule_retry
    (mkSlot (sl_params s) (sl_hw s) false (sl_opened_at s) (sl_retry_at s) (sl_backoff s) (sl_underruns s) false)
    now.

Definition slot_close (s : DeviceSlot) (drain : bool) : DeviceSlot :=
  if sl_dev s then
    let h := sl_hw s in
    let h := mkHardware (hw_opens h) (hw_writes h) (hw_recovers h) (hw_played h)
               (if drain then S (hw_drains h) else hw_drains h)
               (if drain then hw_discards h else S (hw_discards h)) in
    mkSlot (sl_params s) h false None (sl_retry_at s) (sl_backoff s) (sl_underruns s) false
  else mkSlot (sl_params s) (sl_hw s) (sl_dev s) None (sl_retry_at s) (sl_backoff s) (sl_underruns s) (sl_open s).

(** Only an underrun during active playback is counted. *)
Definition count_underrun (s : DeviceSlot) (e : DeviceError) (active : bool) : DeviceSlot :=
  match e with
  | Xrun =>
      if active then
        mkSlot (sl_params s) (sl_hw s) (sl_dev s) (sl_opened_at s) (sl_retry_at s) (sl_backoff s)
          (sl_underruns s + 1) (sl_open s)
      else s
  | _ => s
  end.

(** The error arm of [write_all]'s loop: whether to go on writing. *)
Definition write_error (s : DeviceSlot) (e : DeviceError) (recoveries : Z) (active : bool) (now : Z)
  : DeviceSlot * bool :=
  match e with
  | Fatal _ => (slot_fail s now, false)
  | _ =>
      if 3 <? recoveries + 1 then (slot_fail s now, false)
      else
        let s := count_underrun s e active in
        let '(r, h) := hw_recover (sl_hw s) in
        let s := set_hw s h in
        match r with
        | Err _ => (slot_fail s now, false)
        | Ok _ => (s, true)
        end
  end.

(** The loop of [write_all]: [data] is what is left to write.  [None] when
    the fuel runs out, which [write_all_spec] excludes. *)
Fixpoint write_loop (fuel : nat) (s : DeviceSlot) (data : list Z) (recoveries : Z) (active : bool) (now : Z)
  : option DeviceSlot :=
  match fuel with
  | O => None
  | S fuel =>
      if bool_decide (data = []) then Some s
      else if negb (sl_dev s) then Some s
      else
        let frame := frame_bytes (sl_params s) in
        let '(r, h) := hw_write (sl_hw s) frame data in
        let s := set_hw s h in
        match r with
        | Ok frames =>
            if frames =? 0 then Some s
            else write_loop fuel s (drop (Z.to_nat (frames * frame)) data) recoveries active now
        | Err e =>
            let '(s, go_on) := write_error s e recoveries active now in
            if go_on then write_loop fuel s data (recoveries + 1) active now else Some s
        end
  end.

(** [DeviceSlot::write_all]: whole frames only. *)
Definition frames_of (p : DeviceParams) (data : list Z) : list Z :=
  take (length data - length data mod Z.to_nat (frame_bytes p)) data.

Definition write_all (s : DeviceSlot) (data : list Z) (active : bool) (now : Z) : option DeviceSlot :=
  let data := frames_of (sl_params s) data in
  write_loop (length data + 5) s data 0 active now.

(** ** The writer thread *)

(** What the thread's queue gives: a payload taken at [now], whose writing
    ends at [after]; ten seconds of silence; the end of the queue.  [stop] is
    the stop flag as the thread reads it. *)
Inductive WriterInput :=
| Payload (data : list Z) (now after pause_gen : Z) (stop : bool)
| IdleTimeout
| QueueClosed (stop : bool).

Record WriterState := mkWriter {
  wr_slot : DeviceSlot;
  wr_last_write : Z;
  wr_pause_gen : Z;
  wr_done : bool
}.

Definition slot_new (p : DeviceParams) (h : Hardware) (underruns : Z) : DeviceSlot :=
  mkSlot p h false None None 0 underruns false.

(** The start of [writer_loop]: the first open, reported to [configure]; the
    thread returns at once when it fails. *)
Definition writer_start (p : DeviceParams) (h : Hardware) (underruns now pause_gen : Z)
  : result unit string * WriterState :=
  let '(first, slot) := slot_open (slot_new p h underruns) now in
  (first, mkWriter slot now pause_gen (negb (is_ok first))).

(** One turn of the loop. *)
Definition writer_step (w : WriterState) (i : WriterInput) : option WriterState :=
  let finish (discard : bool) :=
    mkWriter (slot_close (wr_slot w) (negb discard)) (wr_last_write w) (wr_pause_gen w) true in
  match i with
  | IdleTimeout =>
      Some (if sl_dev (wr_slot w)
            then mkWriter (slot_close (wr_slot w) true) (wr_last_write w) (wr_pause_gen w) (wr_done w)
            else w)
  | QueueClosed stop => Some (finish stop)
  | Payload data now after gen_now stop =>
      if stop then Some (finish true)
      else
        match ensure_open (wr_slot w) now with
        | (false, slot) => Some (mkWriter slot (wr_last_write w) (wr_pause_gen w) (wr_done w))
        | (true, slot) =>
            let active := (gen_now =? wr_pause_gen w) && (now - wr_last_write w <? IDLE_CLOSE) in
            match write_all slot data active after with
            | Some slot => Some (mkWriter slot after gen_now (wr_done w))
            | None => None
            end
        end
  end.

(** The thread, until it returns. *)
Fixpoint writer_run (w : WriterState) (inputs : list WriterInput) : option WriterState :=
  if wr_done w then Some w
  else match inputs with
       | [] => Some w
       | i :: inputs => match writer_step w i with Some w => writer_run w inputs | None => None end
       end.

(** ** Lemmas *)

(** The published flag is the device's state; the backoff is within its
    bounds; an open device has no retry pending. *)
Record slot_inv (s : DeviceSlot) : Prop := {
  si_open : sl_open s = sl_dev s;
  si_backoff : sl_backoff s = 0 ∨ RESPAWN_BACKOFF_MIN ≤ sl_backoff s ≤ RESPAWN_BACKOFF_MAX;
  si_retry : sl_dev s = true → sl_retry_at s = None
}.

Lemma schedule_retry_inv s now :
  slot_inv s → sl_dev s = false → slot_inv (schedule_retry s now) ∧ RESPAWN_BACKOFF_MIN ≤ sl_backoff (schedule_retry s now).
Proof.
  intros [] Hd. unfold schedule_retry, RESPAWN_BACKOFF_MIN, RESPAWN_BACKOFF_MAX in *. split.
  - split; simpl; [done| |congruence].
    destruct (_ || _) eqn:E; [unfold RESPAWN_BACKOFF_MIN, RESPAWN_BACKOFF_MAX; lia|]. apply orb_false_iff in E as [_ E].
    unfold RESPAWN_BACKOFF_MIN, RESPAWN_BACKOFF_MAX. lia.
  - simpl. destruct (_ || _) eqn:E; [lia|]. apply orb_false_iff in E as [_ E]. lia.
Qed.

Lemma slot_fail_inv s now : slot_inv s → slot_inv (slot_fail s now) ∧ sl_dev (slot_fail s now) = false.
Proof. intros []. split; [|done]. apply schedule_retry_inv; [split; simpl; done || congruence|done]. Qed.

Lemma set_hw_inv s h : slot_inv s → slot_inv (set_hw s h).
Proof. intros []. by split. Qed.

Lemma slot_open_inv s now : slot_inv s → slot_inv (slot_open s now).2.
Proof.
  intros []. unfold slot_open. destruct (hw_open (sl_hw s)) as [[[]|e] h]; by split.
Qed.

Lemma slot_open_result s now :
  sl_dev s = false → sl_dev (slot_open s now).2 = is_ok (slot_open s now).1.
Proof. intros. unfold slot_open. by destruct (hw_open (sl_hw s)) as [[[]|e] h]. Qed.

Lemma ensure_open_inv s now : slot_inv s → slot_inv (ensure_open s now).2.
Proof.
  intros Hi. unfold ensure_open. destruct (sl_dev s) eqn:Hd; [done|].
  destruct (match sl_retry_at s with Some t => _ | None => _ end); [done|].
  pose proof (slot_open_inv s now Hi) as Ho. pose proof (slot_open_result s now Hd) as Hr.
  destruct (slot_open s now) as [[[]|e] s1]; [done|]. by apply schedule_retry_inv.
Qed.

Lemma slot_close_inv s d : slot_inv s → slot_inv (slot_close s d) ∧ sl_dev (slot_close s d) = false.
Proof.
  intros []. unfold slot_close. destruct (sl_dev s) eqn:E; simpl; (split; [|done]); split; simpl; try done; congruence.
Qed.

Lemma frame_bytes_pos p : 0 < frame_bytes p.
Proof. unfold frame_bytes. destruct (String.eqb _ _); lia. Qed.

(** Every count a device returns is non-negative ([usize]). *)
Definition counts_ok (h : Hardware) : Prop :=
  Forall (λ r, match r with Ok n => 0 ≤ n | Err _ => True end) (hw_writes h).

Lemma hw_write_spec h frame data r h' :
  hw_write h frame data = (r, h') → counts_ok h →
  counts_ok h' ∧
  match r with
  | Ok n => 0 ≤ n ∧ hw_played h' = hw_played h ++ take (Z.to_nat (n * frame)) data
  | Err _ => hw_played h' = hw_played h
  end.
Proof.
  unfold hw_write, counts_ok. intros Hw Hc. destruct (hw_writes h) as [|r1 rs] eqn:E; simplify_eq.
  - by rewrite E.
  - apply Forall_cons in Hc as [Hn Hc]. simpl. by destruct r.
Qed.

(** What one call of [write_all] may do, [data] being left to write. *)
Record write_result (s : DeviceSlot) (data : list Z) (recoveries : Z) (active : bool) (s' : DeviceSlot) : Prop := {
  wr_inv : slot_inv s';
  wr_counts : counts_ok (sl_hw s');
  wr_played : ∃ k, hw_played (sl_hw s') = hw_played (sl_hw s) ++ take k data;
  wr_params : sl_params s' = sl_params s;
  wr_underruns : sl_underruns s ≤ sl_underruns s' ≤ sl_underruns s + (if active then Z.max 0 (3 - recoveries) else 0)
}.

Lemma count_underrun_inv s e active :
  slot_inv s → slot_inv (count_underrun s e active) ∧ sl_hw (count_underrun s e active) = sl_hw s ∧
  sl_params (count_underrun s e active) = sl_params s ∧
  sl_underruns s ≤ sl_underruns (count_underrun s e active) ≤ sl_underruns s + (if active then 1 else 0).
Proof.
  intros []. unfold count_underrun. destruct e, active; simpl; split_and!; try done; try lia; by split.
Qed.

(** Nothing more is written: the device failed, or was already closed. *)
Lemma write_result_stop s data rc (active : bool) s' :
  slot_inv s' → counts_ok (sl_hw s') → sl_params s' = sl_params s →
  hw_played (sl_hw s') = hw_played (sl_hw s) →
  sl_underruns s ≤ sl_underruns s' ≤ sl_underruns s + (if active then Z.max 0 (3 - rc) else 0) →
  write_result s data rc active s'.
Proof. intros ? ? ? Hp ?. split; try done. exists 0%nat. by rewrite Hp, take_0, app_nil_r. Qed.

(** An error never touches what was played; it closes the device or counts as
    one recovery. *)
Lemma write_error_inv s e rc (active : bool) now s' (go_on : bool) :
  write_error s e rc active now = (s', go_on) → slot_inv s →
  slot_inv s' ∧ hw_writes (sl_hw s') = hw_writes (sl_hw s) ∧ hw_played (sl_hw s') = hw_played (sl_hw s) ∧
  sl_params s' = sl_params s ∧ (go_on = true → rc + 1 ≤ 3) ∧
  sl_underruns s ≤ sl_underruns s' ≤ sl_underruns s + (if active && (rc + 1 <=? 3) then 1 else 0).
Proof.
  intros He Hi.
  assert (0 ≤ if active && (rc + 1 <=? 3) then 1 else 0) by (destruct (active && _); lia).
  assert (slot_fail s now = s' ∧ go_on = false →
    slot_inv s' ∧ hw_writes (sl_hw s') = hw_writes (sl_hw s) ∧ hw_played (sl_hw s') = hw_played (sl_hw s) ∧
    sl_params s' = sl_params s ∧ (go_on = true → rc + 1 ≤ 3) ∧
    sl_underruns s ≤ sl_underruns s' ≤ sl_underruns s + (if active && (rc + 1 <=? 3) then 1 else 0)) as Hfail.
  { intros [<- ->]. destruct (slot_fail_inv s now Hi) as [? _]. split_and!; try done; simpl; lia. }
  unfold write_error in He. destruct e; [| |apply Hfail; by simplify_eq];
    (destruct (Z.ltb_spec 3 (rc + 1)); [apply Hfail; by simplify_eq|]);
    [destruct (count_underrun_inv s Xrun active Hi) as (Hi2 & Hh2 & Hp2 & Hu2); set (s2 := count_underrun s Xrun active) in *
    |destruct (count_underrun_inv s Suspended active Hi) as (Hi2 & Hh2 & Hp2 & Hu2); set (s2 := count_underrun s Suspended active) in *];
    clearbody s2; clear Hfail; unfold hw_recover in He; rewrite (proj2 (Z.leb_le _ _)), andb_true_r by lia;
    (destruct (hw_recovers (sl_hw s2)) as [|[[]|] rs2]; simplify_eq/=; rewrite <- Hh2;
     split_and!; try done; try lia; try (by apply slot_fail_inv, set_hw_inv); by apply set_hw_inv).
Qed.

Lemma write_loop_spec fuel s data recoveries active now :
  slot_inv s → counts_ok (sl_hw s) → 0 ≤ recoveries →
  (length data + (4 - Z.to_nat recoveries) < fuel)%nat →
  ∃ s', write_loop fuel s data recoveries active now = Some s' ∧ write_result s data recoveries active s'.
Proof.
  revert s data recoveries.
  induction fuel as [|fuel IH]; intros s data rc Hi Hc Hr Hf; [lia|]. cbn [write_loop].
  assert (0 ≤ if active then Z.max 0 (3 - rc) else 0) by (destruct active; lia).
  case_bool_decide as Hd; [exists s; split; [done|]; apply write_result_stop; try done; lia|].
  destruct (sl_dev s); simpl; [|exists s; split; [done|]; apply write_result_stop; try done; lia].
  destruct (hw_write (sl_hw s) (frame_bytes (sl_params s)) data) as [r h] eqn:Ew.
  pose proof (hw_write_spec _ _ _ _ _ Ew Hc) as [Hc' Hr'].
  assert (slot_inv (set_hw s h)) as Hi' by by apply set_hw_inv.
  pose proof (frame_bytes_pos (sl_params s)) as Hfr. destruct r as [n|e].
  - destruct Hr' as [Hn Hpl]. destruct (Z.eqb_spec n 0) as [->|Hn0].
    { eexists. split; [done|]. apply write_result_stop; try done; simpl; [|lia]. by rewrite Hpl, app_nil_r. }
    destruct (IH (set_hw s h) (drop (Z.to_nat (n * frame_bytes (sl_params s))) data) rc)
      as (s' & Hs' & [? ? [k Hk] ? ?]); [done|done|done| |].
    { rewrite length_drop. assert (1 ≤ Z.to_nat (n * frame_bytes (sl_params s)))%nat by nia.
      destruct data; [done|]. simpl in *. lia. }
    exists s'. split; [done|]. split; try done. simpl in Hk. rewrite Hpl, <- (assoc_L (++)) in Hk.
    exists (Z.to_nat (n * frame_bytes (sl_params s)) + k)%nat. rewrite Hk. f_equal. apply take_take_drop.
  - destruct (write_error (set_hw s h) e rc active now) as [s2 go_on] eqn:Ee.
    destruct (write_error_inv _ _ _ _ _ _ _ Ee Hi') as (Hi2 & Hw2 & Hp2 & Hpar2 & Hrc & Hu2). simpl in *.
    assert (counts_ok (sl_hw s2)) as Hc2 by (unfold counts_ok; by rewrite Hw2).
    destruct go_on.
    + specialize (Hrc eq_refl). rewrite (proj2 (Z.leb_le _ _) Hrc), andb_true_r in Hu2.
      destruct (IH s2 data (rc + 1)) as (s' & Hs' & [? ? [k Hk] ? ?]); [done|done|lia|lia|].
      exists s'. split; [done|]. split; try done; [|congruence|destruct active; lia].
      exists k. by rewrite Hk, Hp2, Hr'.
    + exists s2. split; [done|]. apply write_result_stop; try done; [by rewrite Hp2|].
      destruct active; [|simpl in Hu2; lia]. simpl in Hu2. destruct (Z.leb_spec (rc + 1) 3); lia.
Qed.

Lemma write_all_spec s data active now :
  slot_inv s → counts_ok (sl_hw s) →
  ∃ s', write_all s data active now = Some s' ∧ write_result s (frames_of (sl_params s) data) 0 active s'.
Proof. intros. apply write_loop_spec; [done|done|done|simpl; lia]. Qed.

(** The state of the writer thread between two turns. *)
Record writer_inv (w : WriterState) : Prop := {
  wi_slot : slot_inv (wr_slot w);
  wi_counts : counts_ok (sl_hw (wr_slot w));
  wi_done : wr_done w = true → sl_dev (wr_slot w) = false
}.

Lemma slot_open_hw s now :
  hw_writes (sl_hw (slot_open s now).2) = hw_writes (sl_hw s) ∧
  hw_played (sl_hw (slot_open s now).2) = hw_played (sl_hw s) ∧
  sl_params (slot_open s now).2 = sl_params s ∧ sl_underruns (slot_open s now).2 = sl_underruns s.
Proof. unfold slot_open, hw_open. destruct (hw_opens (sl_hw s)) as [|[[]|e] os]; done. Qed.

Lemma ensure_open_hw s now :
  hw_writes (sl_hw (ensure_open s now).2) = hw_writes (sl_hw s) ∧
  hw_played (sl_hw (ensure_open s now).2) = hw_played (sl_hw s) ∧
  sl_params (ensure_open s now).2 = sl_params s ∧ sl_underruns (ensure_open s now).2 = sl_underruns s.
Proof.
  unfold ensure_open. destruct (sl_dev s); [done|].
  destruct (match sl_retry_at s with Some t => _ | None => _ end); [done|].
  pose proof (slot_open_hw s now) as H. by destruct (slot_open s now) as [[[]|e] s1].
Qed.

Lemma ensure_open_result s now : slot_inv s → sl_dev (ensure_open s now).2 = (ensure_open s now).1.
Proof.
  intros Hi. unfold ensure_open. destruct (sl_dev s) eqn:Hd; [done|].
  destruct (match sl_retry_at s with Some t => _ | None => _ end); [done|].
  pose proof (slot_open_result s now Hd). by destruct (slot_open s now) as [[[]|e] s1].
Qed.

Lemma slot_close_hw s d :
  hw_writes (sl_hw (slot_close s d)) = hw_writes (sl_hw s) ∧
  hw_played (sl_hw (slot_close s d)) = hw_played (sl_hw s) ∧
  sl_underruns (slot_close s d) = sl_underruns s.
Proof. unfold slot_close. by destruct (sl_dev s). Qed.

(** Closing the device keeps the thread well formed. *)
Lemma writer_close_inv w d t g done :
  writer_inv w →
  writer_inv (mkWriter (slot_close (wr_slot w) d) t g done) ∧
  hw_played (sl_hw (slot_close (wr_slot w) d)) = hw_played (sl_hw (wr_slot w)) ++ [] ∧
  sl_underruns (wr_slot w) ≤ sl_underruns (slot_close (wr_slot w) d).
Proof.
  intros [Hs Hc _]. destruct (slot_close_inv (wr_slot w) d Hs) as [Hi Hcl].
  destruct (slot_close_hw (wr_slot w) d) as (Hw & Hp & Hu).
  rewrite Hp, Hu, app_nil_r. split_and!; [|done|lia]. split; simpl; try done. unfold counts_ok. by rewrite Hw.
Qed.

Definition input_payload (i : WriterInput) : list Z :=
  match i with Payload data _ _ _ _ => data | _ => [] end.

(** One turn: the thread stays well formed, and plays at most a prefix of the
    payload it was given. *)
Lemma writer_step_spec w i :
  writer_inv w → wr_done w = false →
  ∃ w' k, writer_step w i = Some w' ∧ writer_inv w' ∧
    hw_played (sl_hw (wr_slot w')) = hw_played (sl_hw (wr_slot w)) ++ take k (input_payload i) ∧
    sl_underruns (wr_slot w) ≤ sl_underruns (wr_slot w').
Proof.
  intros Hi Hnd. pose proof Hi as [Hs Hc Hd]. destruct i as [data now after gen stop| |stop]; simpl.
  - destruct stop.
    { destruct (writer_close_inv w false (wr_last_write w) (wr_pause_gen w) true Hi) as (? & ? & ?).
      eexists _, 0%nat. by split_and!. }
    pose proof (ensure_open_inv (wr_slot w) now Hs) as Hei.
    pose proof (ensure_open_hw (wr_slot w) now) as (Hw & Hp & Hpar & Hu).
    pose proof (ensure_open_result (wr_slot w) now Hs) as Her.
    destruct (ensure_open (wr_slot w) now) as [[] s1]; simpl in *.
    + destruct (write_all_spec s1 data ((gen =? wr_pause_gen w) && (now - wr_last_write w <? IDLE_CLOSE)) after)
        as (s' & -> & [Hi' Hc' [k Hk] Hp' Hu']); [done|unfold counts_ok; by rewrite Hw|].
      unfold frames_of in Hk. rewrite take_take in Hk.
      eexists _, _. split; [done|]. split_and!; simpl; [split; simpl; done || congruence| |lia].
      by rewrite Hk, Hp.
    + eexists _, 0%nat. split; [done|]. rewrite take_0, app_nil_r. split_and!; simpl; [|done|lia].
      split; simpl; try done. unfold counts_ok. by rewrite Hw.
  - destruct (sl_dev (wr_slot w)).
    + destruct (writer_close_inv w true (wr_last_write w) (wr_pause_gen w) (wr_done w) Hi) as (? & ? & ?).
      eexists _, 0%nat. by split_and!.
    + eexists w, 0%nat. split_and!; try done; by rewrite app_nil_r.
  - destruct (writer_close_inv w (negb stop) (wr_last_write w) (wr_pause_gen w) true Hi) as (? & ? & ?).
    eexists _, 0%nat. by split_and!.
Qed.

(** [out] is made of one prefix of each payload, in order. *)
Definition prefixes (ps : list (list Z)) (out : list Z) : Prop :=
  ∃ ks : list nat, length ks = length ps ∧ out = concat (zip_with take ks ps).

Lemma prefixes_cons p ps k out : prefixes ps out → prefixes (p :: ps) (take k p ++ out).
Proof. intros (ks & Hl & ->). exists (k :: ks). simpl. by rewrite Hl. Qed.

Lemma prefixes_none ps : prefixes ps [].
Proof.
  exists (replicate (length ps) 0%nat). rewrite length_replicate. split; [done|].
  induction ps as [|p ps IH]; [done|]. simpl. done.
Qed.

Lemma writer_run_spec w inputs :
  writer_inv w →
  ∃ w' out, writer_run w inputs = Some w' ∧ writer_inv w' ∧
    hw_played (sl_hw (wr_slot w')) = hw_played (sl_hw (wr_slot w)) ++ out ∧
    prefixes (input_payload <$> inputs) out ∧
    sl_underruns (wr_slot w) ≤ sl_underruns (wr_slot w').
Proof.
  revert w. induction inputs as [|i inputs IH]; intros w Hi; simpl.
  { exists w, []. rewrite app_nil_r. split_and!; try done; [by destruct (wr_done w)|apply (prefixes_none [])]. }
  destruct (wr_done w) eqn:E.
  { exists w, []. rewrite app_nil_r. split_and!; try done. apply (prefixes_none (_ :: _)). }
  destruct (writer_step_spec w i Hi E) as (w1 & k & -> & Hi1 & Hp1 & Hu1).
  destruct (IH w1 Hi1) as (w' & out & -> & Hi' & Hp' & Hpre & Hu').
  exists w', (take k (input_payload i) ++ out). split_and!; try done; [|by apply prefixes_cons|lia].
  by rewrite Hp', Hp1, (assoc_L (++)).
Qed.

Lemma writer_start_inv p h u now gen :
  counts_ok h →
  let '(r, w) := writer_start p h u now gen in
  writer_inv w ∧ hw_played (sl_hw (wr_slot w)) = hw_played h ∧ sl_dev (wr_slot w) = is_ok r ∧
  wr_done w = negb (is_ok r).
Proof.
  intros Hc. unfold writer_start.
  assert (slot_inv (slot_new p h u)) as H0 by (split; simpl; try done; by left).
  pose proof (slot_open_inv _ now H0) as Hi. pose proof (slot_open_hw (slot_new p h u) now) as (Hw & Hp & _).
  pose proof (slot_open_result (slot_new p h u) now eq_refl) as Hr.
  destruct (slot_open (slot_new p h u) now) as [r s]. simpl in *. split_and!; try done.
  split; simpl; [done|unfold counts_ok; by rewrite Hw|]. rewrite Hr. by destruct (is_ok r).
Qed.

(** ** A device that works

    [plays h n]: the device takes at least [n] more bytes one write after the
    other, with at most three underruns or suspensions, all recoverable. *)
Definition oks (rs : list (result Z DeviceError)) : nat := length (List.filter is_ok rs).
Definition errs (rs : list (result Z DeviceError)) : nat := length (List.filter (λ r, negb (is_ok r)) rs).

Record plays (h : Hardware) (n : nat) : Prop := {
  pl_writes : Forall (λ r, match r with Ok k => 0 < k | Err (Fatal _) => False | Err _ => True end) (hw_writes h);
  pl_enough : (n ≤ oks (hw_writes h))%nat;
  pl_errs : (errs (hw_writes h) ≤ 3)%nat;
  pl_recovers : Forall (λ r, r = Ok tt) (hw_recovers h);
  pl_recoverable : (errs (hw_writes h) ≤ length (hw_recovers h))%nat
}.

(** All of [data] was played, the device is still open and can take [m] more
    bytes. *)
Record write_played (s : DeviceSlot) (data : list Z) (m : nat) (s' : DeviceSlot) : Prop := {
  wp_played : hw_played (sl_hw s') = hw_played (sl_hw s) ++ data;
  wp_dev : sl_dev s' = true;
  wp_inv : slot_inv s';
  wp_params : sl_params s' = sl_params s;
  wp_plays : plays (sl_hw s') m;
  wp_drains : hw_drains (sl_hw s') = hw_drains (sl_hw s);
  wp_discards : hw_discards (sl_hw s') = hw_discards (sl_hw s)
}.

(** An underrun of such a device is recovered. *)
Lemma write_error_plays s e rc active now rs :
  sl_dev s = true → slot_inv s → rc + 1 ≤ 3 → match e with Fatal _ => False | _ => True end →
  hw_recovers (sl_hw s) = Ok tt :: rs →
  ∃ s', write_error s e rc active now = (s', true) ∧ sl_dev s' = true ∧ slot_inv s' ∧
    sl_params s' = sl_params s ∧
    sl_hw s' = mkHardware (hw_opens (sl_hw s)) (hw_writes (sl_hw s)) rs (hw_played (sl_hw s))
                 (hw_drains (sl_hw s)) (hw_discards (sl_hw s)).
Proof.
  intros Hd Hi Hrc He Hr. unfold write_error. rewrite (proj2 (Z.ltb_ge 3 (rc + 1))) by lia.
  destruct (count_underrun_inv s e active Hi) as (Hi2 & Hh2 & Hp2 & _).
  assert (sl_dev (count_underrun s e active) = true) as Hd2 by by destruct e, active.
  destruct e; try done; unfold hw_recover; rewrite Hh2, Hr; eexists; split; try done;
    (split_and!; [done|by apply set_hw_inv|done|done]).
Qed.

(** Such a device plays the whole of what [write_all] is given. *)
Lemma write_loop_plays fuel s data rc active now m :
  sl_dev s = true → slot_inv s → 0 ≤ rc → rc + Z.of_nat (errs (hw_writes (sl_hw s))) ≤ 3 →
  plays (sl_hw s) (length data + m) → (length data + (4 - Z.to_nat rc) < fuel)%nat →
  ∃ s', write_loop fuel s data rc active now = Some s' ∧ write_played s data m s'.
Proof.
  revert s data rc. induction fuel as [|fuel IH]; intros s data rc Hdev Hi Hrc He [Hw Hn Hr Hrs Hre] Hf; [lia|].
  cbn [write_loop]. case_bool_decide as Hd.
  { subst data. exists s. split; [done|]. split; try done. by rewrite app_nil_r. }
  assert (0 < length data)%nat by (destruct data; simpl; [done|lia]).
  rewrite Hdev. cbn [negb]. unfold hw_write.
  destruct (hw_writes (sl_hw s)) as [|r rs] eqn:Ew; [cbn in Hn; lia|].
  apply Forall_cons in Hw as [Hr0 Hw]. pose proof (frame_bytes_pos (sl_params s)) as Hfr.
  destruct r as [n|e]; unfold errs, oks in *; cbn in He, Hn, Hr, Hre.
  - destruct (Z.eqb_spec n 0); [lia|].
    assert (1 ≤ Z.to_nat (n * frame_bytes (sl_params s)))%nat by nia.
    set (k := Z.to_nat (n * frame_bytes (sl_params s))) in *.
    match goal with |- context [write_loop fuel ?s1 _ _ _ _] =>
      destruct (IH s1 (drop k data) rc) as (s' & Hs' & [Hp' ? ? ? ? ? ?]);
        [done|by apply set_hw_inv|lia|unfold errs; cbn; lia| |rewrite length_drop; lia|] end.
    { rewrite length_drop. split; unfold oks, errs; cbn in *; done || lia. }
    exists s'. split; [done|]. split; try done. rewrite Hp'. simpl. by rewrite <- (assoc_L (++)), take_drop.
  - destruct (hw_recovers (sl_hw s)) as [|r2 rs2] eqn:Er; [cbn in Hre; lia|].
    apply Forall_cons in Hrs as [-> Hrs].
    match goal with |- context [write_error ?s1 _ _ _ _] =>
      destruct (write_error_plays s1 e rc active now rs2) as (s2 & -> & Hd2 & Hi2 & Hp2 & Hh2);
        [done|by apply set_hw_inv|lia|by destruct e|done|] end.
    destruct (IH s2 data (rc + 1)) as (s' & Hs' & [Hp' ? ? Hpar' ? Hdr' Hdi']);
      [done|done|lia|unfold errs; rewrite Hh2; cbn; lia| |lia|].
    { rewrite Hh2. split; unfold oks, errs; cbn in *; done || lia. }
    exists s'. split; [done|]. rewrite Hh2 in *. simpl in *. split; try done. congruence.
Qed.

Lemma write_all_plays s data active now m :
  sl_dev s = true → slot_inv s → plays (sl_hw s) (length (frames_of (sl_params s) data) + m) →
  ∃ s', write_all s data active now = Some s' ∧ write_played s (frames_of (sl_params s) data) m s'.
Proof. intros Hd Hi Hp. apply write_loop_plays; try done; [|simpl; lia]. destruct Hp. lia. Qed.

(** Playing out a queue: one turn per payload, the stop flag unset. *)
Definition queued (ps : list (list Z * Z * Z * Z)) : list WriterInput :=
  (λ '(data, now, after, gen), Payload data now after gen false) <$> ps.

Lemma writer_run_queued w ps rest m :
  sl_dev (wr_slot w) = true → slot_inv (wr_slot w) → wr_done w = false →
  plays (sl_hw (wr_slot w)) (length (concat ((λ '(data, _, _, _), frames_of (sl_params (wr_slot w)) data) <$> ps)) + m) →
  ∃ w', writer_run w (queued ps ++ rest) = writer_run w' rest ∧ wr_done w' = false ∧
    write_played (wr_slot w) (concat ((λ '(data, _, _, _), frames_of (sl_params (wr_slot w)) data) <$> ps)) m (wr_slot w').
Proof.
  revert w. induction ps as [|[[[data now] after] gen] ps IH]; intros w Hd Hi Hnd Hp.
  { exists w. split_and!; try done. split; try done. by rewrite app_nil_r. }
  cbn [fmap list_fmap concat] in Hp. rewrite length_app, <- Nat.add_assoc in Hp.
  cbn [queued fmap list_fmap app writer_run]. rewrite Hnd. cbn [writer_step].
  unfold ensure_open. rewrite Hd.
  destruct (write_all_plays (wr_slot w) data ((gen =? wr_pause_gen w) && (now - wr_last_write w <? IDLE_CLOSE)) after _ Hd Hi Hp)
    as (s' & -> & [Hp1 Hd1 Hi1 Hpar1 Hpl1 Hdr1 Hdi1]).
  destruct (IH (mkWriter s' after gen (wr_done w))) as (w' & Hrun & Hnd' & [Hp2 Hd2 Hi2 Hpar2 Hpl2 Hdr2 Hdi2]);
    cbn [wr_slot wr_done] in *; try done; [by rewrite Hpar1|].
  rewrite Hpar1 in *. exists w'. split_and!; [done|done|]. split; try done; try congruence.
  rewrite Hp2, Hp1, <- (assoc_L (++)). done.
Qed.

(** ** Properties *)

(** C19 The writer thread never plays anything but the audio it was given, in
    order: whatever the device calls return, what it accepts is one prefix of
    each payload in turn, so nothing is repeated, reordered or invented.  A
    turn whose device calls return ends after finitely many of them (the loop
    of [write_all] and its recoveries do not run on), the published flag is the
    device's state, and once the thread returns the device is closed. *)
Theorem alsa_writer_plays_in_order p h u now gen inputs :
  counts_ok h →
  let '(first, w) := writer_start p h u now gen in
  ∃ w' out, writer_run w inputs = Some w' ∧
    hw_played (sl_hw (wr_slot w')) = hw_played h ++ out ∧ prefixes (input_payload <$> inputs) out ∧
    sl_open (wr_slot w') = sl_dev (wr_slot w') ∧
    (wr_done w' = true → sl_dev (wr_slot w') = false) ∧
    (first ≠ Ok tt → wr_done w' = true ∧ out = []).
Proof.
  intros Hc. pose proof (writer_start_inv p h u now gen Hc) as Hs.
  destruct (writer_start p h u now gen) as [first w]. destruct Hs as (Hi & Hp & Hd & Hdone).
  destruct first as [[]|e]; simpl in *.
  - destruct (writer_run_spec w inputs Hi) as (w' & out & Hrun & [Hsi _ Hcl] & Hpl & Hpre & _).
    exists w', out. rewrite Hpl, Hp. split_and!; try done. by apply Hsi.
  - exists w, []. rewrite app_nil_r. destruct inputs; simpl; rewrite Hdone; destruct Hi as [Hsi _ Hcl];
      (split_and!; try done; [apply prefixes_none|by apply Hsi]).
Qed.

(** A device that loses an underrun, recovers, then disappears. *)
Definition demo_hardware : Hardware :=
  mkHardware [Ok tt; Err "no such device"%string] [Ok 1; Err Xrun; Ok 1; Err (Fatal "gone")] [Ok tt] [] 0 0.

Definition demo_inputs : list WriterInput :=
  [Payload [1; 2; 3; 4; 5; 6; 7; 8; 9] 10 20 0 false; Payload [10; 11; 12; 13] 30 30 0 false;
   Payload [14; 15; 16; 17] 400 400 0 false; QueueClosed false].

Lemma alsa_writer_plays_in_order_witness :
  let '(first, w) := writer_start (mkParams "hw:0" "S16_LE" 48000 2) demo_hardware 0 0 0 in
  ∃ w' out, writer_run w demo_inputs = Some w' ∧
    hw_played (sl_hw (wr_slot w')) = [] ++ out ∧ prefixes (input_payload <$> demo_inputs) out ∧
    sl_open (wr_slot w') = sl_dev (wr_slot w') ∧
    (wr_done w' = true → sl_dev (wr_slot w') = false) ∧
    (first ≠ Ok tt → wr_done w' = true ∧ out = []).
Proof.
  apply (alsa_writer_plays_in_order (mkParams "hw:0" "S16_LE" 48000 2) demo_hardware 0 0 0 demo_inputs).
  repeat constructor; vm_compute; discriminate.
Defined.

Lemma demo_writer :
  let '(_, w) := writer_start (mkParams "hw:0" "S16_LE" 48000 2) demo_hardware 0 0 0 in
  (λ w, (hw_played (sl_hw (wr_slot w)), sl_underruns (wr_slot w), sl_backoff (wr_slot w))) <$> writer_run w demo_inputs
  = Some ([1; 2; 3; 4; 5; 6; 7; 8], 1, 500).
Proof. vm_compute. reflexivity. Qed.

(** Consecutive failed openings, [now i] being the time of the [i]-th. *)
Fixpoint retries (k : nat) (s : DeviceSlot) (now : nat → Z) : DeviceSlot :=
  match k with O => s | S k => schedule_retry (retries k s now) (now k) end.

Lemma schedule_retry_backoff s now :
  sl_opened_at s = None →
  sl_backoff (schedule_retry s now) = if sl_backoff s =? 0 then 250 else Z.min (sl_backoff s * 2) 8000.
Proof. intros Ho. unfold schedule_retry. simpl. by rewrite Ho. Qed.

Lemma retries_state k s now :
  sl_opened_at s = None → sl_dev s = false →
  sl_opened_at (retries k s now) = None ∧ sl_dev (retries k s now) = false.
Proof. intros. induction k as [|k [_ IH]]; done. Qed.

Lemma retries_backoff k s now :
  sl_opened_at s = None → sl_dev s = false → sl_backoff s = 0 →
  sl_backoff (retries (S k) s now) = Z.min (250 * 2 ^ Z.of_nat k) 8000.
Proof.
  intros Ho Hd Hb. induction k as [|k IH].
  - cbn [retries]. by rewrite schedule_retry_backoff, Hb.
  - change (retries (S (S k)) s now) with (schedule_retry (retries (S k) s now) (now (S k))).
    rewrite schedule_retry_backoff by by apply (retries_state (S k)).
    rewrite IH. replace (Z.of_nat (S k)) with (Z.of_nat k + 1) by lia. rewrite Z.pow_add_r by lia.
    pose proof (Z.pow_pos_nonneg 2 (Z.of_nat k)).
    destruct (Z.eqb_spec (Z.min (250 * 2 ^ Z.of_nat k) 8000) 0); lia.
Qed.

(** The delay before reopening a device that keeps failing doubles from a
    quarter of a second up to eight seconds, and stays there; until it has
    passed, payloads are dropped without touching the device. *)
Theorem reopen_backoff s now k t :
  sl_backoff s = 0 → sl_opened_at s = None → sl_dev s = false → (0 < k)%nat →
  let s' := retries k s now in
  sl_backoff s' = Z.min (250 * 2 ^ (Z.of_nat k - 1)) 8000 ∧
  sl_retry_at s' = Some (now (k - 1)%nat + sl_backoff s') ∧
  (t < now (k - 1)%nat + sl_backoff s' → ensure_open s' t = (false, s')).
Proof.
  intros Hb Ho Hd Hk s'. destruct k as [|k]; [lia|]. unfold s'. replace (S k - 1)%nat with k by lia.
  pose proof (retries_backoff k s now Ho Hd Hb) as Hback. split_and!.
  - rewrite Hback. do 3 f_equal. lia.
  - done.
  - intros Ht. unfold ensure_open. destruct (retries_state (S k) s now Ho Hd) as [_ ->].
    replace (sl_retry_at (retries (S k) s now)) with (Some (now k + sl_backoff (retries (S k) s now))) by done.
    by rewrite (proj2 (Z.ltb_lt _ _) Ht).
Qed.

Lemma reopen_backoff_witness :
  let s := slot_new (mkParams "hw:0" "S16_LE" 48000 2) demo_hardware 0 in
  let s' := retries 7 s (λ i, 100 * Z.of_nat i) in
  sl_backoff s' = 8000 ∧ sl_retry_at s' = Some (600 + sl_backoff s') ∧
  (1000 < 600 + sl_backoff s' → ensure_open s' 1000 = (false, s')).
Proof.
  exact (reopen_backoff (slot_new (mkParams "hw:0" "S16_LE" 48000 2) demo_hardware 0)
           (λ i, 100 * Z.of_nat i) 7 1000 eq_refl eq_refl eq_refl ltac:(lia)).
Defined.
