(* ===== verification/AlsaOutput.v ===== *)
(** * The ALSA output

    Models the rest of [crates/oaat-endpoint/src/alsa_direct.rs]: the choice
    and naming of the device, the announcement of native DSD, and the output
    the application drives.  The writer thread behind the queue is [Alsa];
    FLAC decoding is the interface [FlacStream] of [Flac]. *)

From S2P Require Import Prelude Format Text Float Samples Flac Alsa.
From Stdlib Require Import Ascii.

Local Open Scope Z_scope.

(** ** Strings *)

(** [s.split_once(p)] for a string pattern. *)
Fixpoint split_once_str (p s : string) : option (string * string) :=
  match strip_prefix p s with
  | Some rest => Some (EmptyString, rest)
  | None => match s with
            | String a s => prod_map (String a) id <$> split_once_str p s
            | EmptyString => None
            end
  end.

(** [s.contains(char::is_whitespace)]. *)
Definition has_whitespace (s : string) : bool := negb (no_whitespace s).

(** ** Devices *)

Record PlaybackDevice := mkPlaybackDevice {
  pd_card : Z;
  pd_card_id : string;
  pd_card_name : string;
  pd_driver : string;
  pd_device : Z;
  pd_pcm_id : string;
  pd_pcm_name : string
}.

Definition aplay_line (d : PlaybackDevice) : string :=
  ("card " ++ print_uint (pd_card d) ++ ": " ++ pd_card_id d ++ " [" ++ pd_card_name d ++ "], device "
   ++ print_uint (pd_device d) ++ ": " ++ pd_pcm_id d ++ " [" ++ pd_pcm_name d ++ "]")%string.

Definition plughw_name (d : PlaybackDevice) : string :=
  (if String.eqb (pd_card_id d) "" then
     "plughw:" ++ print_uint (pd_card d) ++ "," ++ print_uint (pd_device d)
   else "plughw:CARD=" ++ pd_card_id d ++ ",DEV=" ++ print_uint (pd_device d))%string.

Definition device_text (d : PlaybackDevice) : string :=
  to_lowercase (pd_card_id d ++ " " ++ pd_card_name d ++ " " ++ pd_pcm_id d ++ " " ++ pd_pcm_name d)%string.

Definition is_hdmi (d : PlaybackDevice) : bool := contains (device_text d) "hdmi".
Definition is_usb (d : PlaybackDevice) : bool :=
  String.eqb (pd_driver d) "USB-Audio" || contains (device_text d) "usb".
Definition is_builtin (d : PlaybackDevice) : bool :=
  contains (device_text d) "bcm2835" || contains (device_text d) "headphones" || contains (device_text d) "builtin".

Definition is_dac (d : PlaybackDevice) : bool := contains (device_text d) "dac".

Definition choose_dac (devices : list PlaybackDevice) : option string :=
  let candidates := List.filter (λ d, negb (is_hdmi d)) devices in
  match List.find is_usb candidates with
  | Some d => Some (plughw_name d)
  | None =>
      match List.find is_dac candidates with
      | Some d => Some (plughw_name d)
      | None =>
          let external := List.filter (λ d, negb (is_builtin d)) candidates in
          match external with
          | [] => None
          | first :: _ =>
              if forallb (λ d, pd_card d =? pd_card first) external then Some (plughw_name first) else None
          end
      end
  end.

Definition plughw_from_aplay_line (line : string) : option string :=
  rest ← strip_prefix "card " line;
  '(_, rest) ← split_once_str ": " rest;
  '(card_id, rest) ← split_once_str " [" rest;
  '(_, rest) ← split_once_str "], device " rest;
  '(dev, _) ← split_once ":" rest;
  dev ← parse_uint 32 (trim dev);
  let card_id := trim card_id in
  if String.eqb card_id "" || has_whitespace card_id then None
  else Some ("plughw:CARD=" ++ card_id ++ ",DEV=" ++ print_uint dev)%string.

Definition resolve_device_name (requested : option string) : string :=
  match requested with
  | None => "default"
  | Some name =>
      if starts_with name "hw:" || starts_with name "plughw:" || starts_with name "default"
         || starts_with name "sysdefault:" then name
      else default "default"%string (plughw_from_aplay_line name)
  end.

Definition dsd_hw_device (device : string) : string :=
  if starts_with device "hw:" then device
  else match strip_prefix "sysdefault:CARD=" device with
       | Some rest => "hw:CARD=" +:+ trim (hd rest (split "," rest)) +:+ ",DEV=0"
       | None => match strip_prefix "plughw:" device with
                 | Some rest => "hw:" +:+ rest
                 | None => device
                 end
       end.

(** ** Native DSD *)

Definition DSD_MULTIPLIERS : list Z := [64; 128; 256; 512].
Definition dsd_u32_rate (m : Z) : Z := m * 44100 / 32.

Inductive DsdProbeError := Refused (e : string) | Unavailable (e : string).

(** [take_while(..).last()]. *)
Fixpoint last_accepted (accepted : list Z) (ms : list Z) : option Z :=
  match ms with
  | [] => None
  | m :: ms =>
      if bool_decide (dsd_u32_rate m ∈ accepted)
      then Some (default m (last_accepted accepted ms)) else None
  end.

Definition announced_dsd_max (device_name : option string)
    (probe : string → list Z → result (list Z) DsdProbeError) : option Z :=
  let device := dsd_hw_device (resolve_device_name device_name) in
  if negb (starts_with device "hw:") then None
  else match probe device (dsd_u32_rate <$> DSD_MULTIPLIERS) with
       | Err _ => None
       | Ok accepted => last_accepted accepted DSD_MULTIPLIERS
       end.

(** ** The output *)

(** How [configure] sees the first opening of the device: the thread's
    report, or none within three seconds. *)
Inductive OpenReport := Opened | OpenFailed (e : string) | OpenTimeout.

(** The handle of a writer thread: its stream, the payloads queued for it and
    its stop flag. *)
Record Writer := mkWriterHandle {
  wh_params : DeviceParams;
  wh_queue : list (list Z);
  wh_stop : bool
}.

Section output.
Context `{FlacStream}.

(** Volume is in thousandths.  [ao_closed] is not a field of the code: it
    records the writer threads whose queue was closed, oldest first, which
    end on their own. *)
Record AlsaDirectOutput := mkAlsaOutput {
  ao_writer : option Writer;
  ao_playing : bool;
  ao_volume : Z;
  ao_muted : bool;
  ao_sample_rate : Z;
  ao_channels : Z;
  ao_format : AudioFormat;
  ao_device_name : option string;
  ao_pause_gen : Z;
  ao_flac : option flac_state;
  ao_closed : list Writer
}.

Definition AlsaDirectOutput_new : AlsaDirectOutput :=
  mkAlsaOutput None false 1000 false 0 0 PcmS16le None 0 None [].

(** [w.stop.store(discard); drop(w.tx)]. *)
Definition close_writer (discard : bool) (w : Writer) : Writer :=
  mkWriterHandle (wh_params w) (wh_queue w) discard.

Definition shutdown (o : AlsaDirectOutput) (discard : bool) : AlsaDirectOutput :=
  mkAlsaOutput None false (ao_volume o) (ao_muted o) (ao_sample_rate o) (ao_channels o) (ao_format o)
    (ao_device_name o) (ao_pause_gen o) (flac_reset <$> ao_flac o)
    (ao_closed o ++ option_list (close_writer discard <$> ao_writer o)).

Definition set_writer (o : AlsaDirectOutput) (w : option Writer) : AlsaDirectOutput :=
  mkAlsaOutput w (ao_playing o) (ao_volume o) (ao_muted o) (ao_sample_rate o) (ao_channels o) (ao_format o)
    (ao_device_name o) (ao_pause_gen o) (ao_flac o) (ao_closed o).

(** The device parameters of a stream, or the error for a format ALSA does
    not take. *)
Definition stream_params (fmt : AudioFormat) (rate channels : Z) (device_name : option string)
  : result DeviceParams string :=
  let device := resolve_device_name device_name in
  let device := if is_dsd fmt then dsd_hw_device device else device in
  if bool_decide (fmt = Flac) then Ok (mkParams device (flac_alsa_format channels) rate channels)
  else match alsa_format_and_rate fmt rate with
       | Some (f, r) => Ok (mkParams device f r channels)
       | None => Err ("unsupported format for ALSA direct: " ++ AudioFormat_fmt fmt)%string
       end.

Definition configure_with_device (o : AlsaDirectOutput) (fmt : AudioFormat) (rate channels : Z)
    (device_name : option string) (report : OpenReport) : result unit string * AlsaDirectOutput :=
  let o := shutdown o false in
  let o := mkAlsaOutput None (ao_playing o) (ao_volume o) (ao_muted o) rate channels fmt device_name
             (ao_pause_gen o) (if bool_decide (fmt = Flac) then Some flac_new else None) (ao_closed o) in
  match stream_params fmt rate channels device_name with
  | Err e => (Err e, o)
  | Ok params =>
      let w := mkWriterHandle params [] false in
      match report with
      | Opened => (Ok tt, set_writer o (Some w))
      | OpenFailed e => (Err e, o)
      | OpenTimeout =>
          (Err (dp_device params ++ ": device open did not complete within 3000 ms")%string,
           shutdown (set_writer o (Some w)) true)
      end
  end.

Definition set_playing (o : AlsaDirectOutput) (p : bool) (gen : Z) : AlsaDirectOutput :=
  mkAlsaOutput (ao_writer o) p (ao_volume o) (ao_muted o) (ao_sample_rate o) (ao_channels o) (ao_format o)
    (ao_device_name o) gen (ao_flac o) (ao_closed o).

Definition alsa_play (o : AlsaDirectOutput) : AlsaDirectOutput := set_playing o true (ao_pause_gen o).
Definition alsa_pause (o : AlsaDirectOutput) : AlsaDirectOutput := set_playing o false (ao_pause_gen o + 1).
Definition alsa_stop (o : AlsaDirectOutput) : AlsaDirectOutput := shutdown o false.
Definition alsa_release (o : AlsaDirectOutput) : AlsaDirectOutput := shutdown o true.

(** [flush]: a seek; an error to reopen is only logged. *)
Definition alsa_flush (o : AlsaDirectOutput) (report : OpenReport) : AlsaDirectOutput :=
  let '(_, o') := configure_with_device (shutdown o true) (ao_format o) (ao_sample_rate o) (ao_channels o)
                    (ao_device_name o) report in
  alsa_play o'.

Definition alsa_set_volume (o : AlsaDirectOutput) (level : Z) : AlsaDirectOutput :=
  mkAlsaOutput (ao_writer o) (ao_playing o) (Z.min (level * 1000 / 100) 1000) (ao_muted o) (ao_sample_rate o)
    (ao_channels o) (ao_format o) (ao_device_name o) (ao_pause_gen o) (ao_flac o) (ao_closed o).

Definition alsa_set_mute (o : AlsaDirectOutput) (muted : bool) : AlsaDirectOutput :=
  mkAlsaOutput (ao_writer o) (ao_playing o) (ao_volume o) muted (ao_sample_rate o) (ao_channels o)
    (ao_format o) (ao_device_name o) (ao_pause_gen o) (ao_flac o) (ao_closed o).

(** [volume as f32 / 1000.0], and whether it is unity. *)
Definition volume_f32 (v : Z) : f32 := f32_div (f32_of_Z v) (f32_of_Z 1000).
Definition is_unity (vol : f32) : bool :=
  SFltb (SFabs (f32_sub vol (f32_of_Z 1))) (f32_div (f32_of_Z 1) (f32_of_Z 1000)).

(** The bytes a payload becomes, for the formats other than FLAC. *)
Definition convert (fmt : AudioFormat) (channels : Z) (vol : f32) (data : list Z) : list Z :=
  match fmt with
  | DsdU8 => pack_dsd_u8_to_u32_be data channels
  | DsdU32le => dsd_u32le_to_be data
  | PcmS24le => if is_unity vol then pad_s24_to_s32 data else pad_s24_to_s32 (apply_volume fmt data vol)
  | _ => if is_unity vol then data else apply_volume fmt data vol
  end.

(** [write_audio]: the frames queued. *)
Definition alsa_write_audio (o : AlsaDirectOutput) (data : list Z) : Z * AlsaDirectOutput :=
  if negb (ao_playing o) || ao_muted o then (0, o)
  else match ao_writer o with
       | None => (0, o)
       | Some w =>
           let vol := volume_f32 (ao_volume o) in
           let enqueue bytes frames o :=
             if bool_decide (bytes = []) then (0, o)
             else (frames, set_writer o (Some (mkWriterHandle (wh_params w) (wh_queue w ++ [bytes]) (wh_stop w)))) in
           if bool_decide (ao_format o = Flac) then
             match ao_flac o with
             | None => (0, o)
             | Some dec =>
                 let '(samples, dec) := flac_feed dec data in
                 let o := mkAlsaOutput (ao_writer o) (ao_playing o) (ao_volume o) (ao_muted o)
                            (ao_sample_rate o) (ao_channels o) (ao_format o) (ao_device_name o)
                            (ao_pause_gen o) (Some dec) (ao_closed o) in
                 if bool_decide (samples = []) then (0, o)
                 else enqueue (flac_samples_to_device samples (ao_channels o) vol)
                        (len samples / Z.max (ao_channels o) 1) o
             end
           else enqueue (convert (ao_format o) (ao_channels o) vol data)
                  (len data / bytes_per_frame (ao_format o) (ao_channels o)) o
       end.

End output.

(** ** Lemmas *)

Lemma strip_prefix_other a p b s : Ascii.eqb a b = false → strip_prefix (String a p) (String b s) = None.
Proof. intros Hab. simpl. by rewrite Hab. Qed.

(** The first occurrence of a pattern whose first character does not occur
    before it. *)
Lemma split_once_str_app a p x s :
  char_in a x = false → split_once_str (String a p) (x ++ String a p ++ s) = Some (x, s).
Proof.
  intros Hx. induction x as [|b x IH].
  - change (split_once_str (String a p) (String a p +:+ s) = Some ("", s)).
    destruct (String a p +:+ s) as [|c r] eqn:E; [done|]. cbn [split_once_str]. rewrite <- E.
    by rewrite strip_prefix_app.
  - simpl in Hx. apply orb_false_iff in Hx as [Hb Hx].
    change (split_once_str (String a p) (String b (x +:+ (String a p +:+ s))) = Some (String b x, s)).
    cbn [split_once_str]. rewrite strip_prefix_other by by rewrite Ascii.eqb_sym. by rewrite IH.
Qed.

Lemma no_whitespace_no_space s : no_whitespace s = true → char_in " " s = false.
Proof.
  induction s as [|a s IH]; simpl; [done|]. intros [Ha Hs]%andb_true_iff. rewrite IH by done.
  rewrite orb_false_r. destruct (Ascii.eqb_spec a " ") as [->|]; [done|done].
Qed.

Lemma find_Some_in {A} (f : A → bool) l x : List.find f l = Some x → f x = true ∧ x ∈ l.
Proof. intros [H1 H2]%List.find_some. split; [done|]. by apply list_elem_of_In. Qed.

Lemma forallb_false_exists {A} (f : A → bool) l : forallb f l = false → ∃ x, x ∈ l ∧ f x = false.
Proof.
  induction l as [|x l IH]; simpl; [done|]. destruct (f x) eqn:E; simpl; [|exists x; set_solver].
  intros Hl. destruct (IH Hl) as (y & ? & ?). exists y. set_solver.
Qed.

Lemma in_filter_bool {A} (f : A → bool) (l : list A) x : x ∈ List.filter f l ↔ x ∈ l ∧ f x = true.
Proof. rewrite !list_elem_of_In. apply List.filter_In. Qed.

(** ** Properties *)

(** Automatic choice of the DAC: an HDMI output is never chosen; a USB card
    is preferred to everything else, then a card named after a DAC, then the
    external card when there is only one.  Nothing is chosen exactly when
    there is no USB card, no card named after a DAC, and the external cards
    are none or several. *)
Theorem choose_dac_spec devices :
  let others p := ∀ d, d ∈ devices → is_hdmi d = false → p d = true → False in
  match choose_dac devices with
  | Some name =>
      ∃ d, d ∈ devices ∧ name = plughw_name d ∧ is_hdmi d = false ∧
        (is_usb d = true ∨
         others is_usb ∧ is_dac d = true ∨
         others is_usb ∧ others is_dac ∧ is_builtin d = false ∧
         (∀ d', d' ∈ devices → is_hdmi d' = false → is_builtin d' = false → pd_card d' = pd_card d))
  | None =>
      others is_usb ∧ others is_dac ∧
      (∀ d, d ∈ devices → is_hdmi d = false → is_builtin d = false →
         ∃ d', d' ∈ devices ∧ is_hdmi d' = false ∧ is_builtin d' = false ∧ pd_card d' ≠ pd_card d)
  end.
Proof.
  intros others. unfold choose_dac.
  assert (∀ d, d ∈ List.filter (λ d, negb (is_hdmi d)) devices ↔ d ∈ devices ∧ is_hdmi d = false) as Hc.
  { intros d. by rewrite in_filter_bool, negb_true_iff. }
  assert (∀ p, List.find p (List.filter (λ d, negb (is_hdmi d)) devices) = None → others p) as Hno.
  { intros p Hp d Hin Hh Hd. pose proof (List.find_none _ _ Hp d) as Hn.
    rewrite Hd in Hn. by discriminate Hn; apply list_elem_of_In, Hc. }
  destruct (List.find is_usb _) as [d|] eqn:Eu.
  { apply find_Some_in in Eu as [Hu [Hin Hh]%Hc]. exists d. auto. }
  apply Hno in Eu. destruct (List.find is_dac _) as [d|] eqn:Ed.
  { apply find_Some_in in Ed as [Hd [Hin Hh]%Hc]. exists d. auto 10. }
  apply Hno in Ed.
  assert (∀ d, d ∈ List.filter (λ d, negb (is_builtin d)) (List.filter (λ d, negb (is_hdmi d)) devices)
          ↔ (d ∈ devices ∧ is_hdmi d = false) ∧ is_builtin d = false) as Hx.
  { intros d. by rewrite in_filter_bool, negb_true_iff, Hc. }
  destruct (List.filter _ (List.filter _ _)) as [|d ds].
  { split_and!; try done. intros d ? ? ?. assert (d ∈ []) by (by apply Hx). set_solver. }
  destruct (proj1 (Hx d)) as [[Hin Hh] Hb]; [set_solver|].
  destruct (forallb _ _) eqn:Ef.
  - exists d. split_and!; try done. do 2 right. split_and!; try done. intros d' ? ? ?.
    rewrite forallb_forall in Ef. apply Z.eqb_eq, Ef, list_elem_of_In. by apply Hx.
  - split_and!; try done. intros d' ? ? ?. apply forallb_false_exists in Ef as (d2 & Hin2 & Hd2).
    apply Z.eqb_neq in Hd2. apply Hx in Hin2 as [[? ?] ?].
    destruct (decide (pd_card d' = pd_card d)); [exists d2|exists d]; split_and!; congruence || done.
Qed.

Example choose_dac_demo :
  choose_dac [mkPlaybackDevice 0 "vc4hdmi0" "vc4-hdmi-0" "vc4-hdmi" 0 "MAI PCM" "hifi";
              mkPlaybackDevice 1 "Headphones" "bcm2835 Headphones" "bcm2835_headpho" 0 "bcm2835" "Headphones";
              mkPlaybackDevice 2 "Hugo2" "Chord Hugo2" "USB-Audio" 0 "USB Audio" "USB Audio"]
  = Some "plughw:CARD=Hugo2,DEV=0"%string.
Proof. vm_compute. reflexivity. Qed.

(** Native DSD is announced only for a raw [hw:] device, up to the highest
    multiplier such that the device accepts it and every lower one; nothing
    is announced exactly when the name gives no raw device, the device cannot
    be probed or refuses, or it does not take DSD64. *)
Theorem announced_dsd_max_spec device_name probe :
  let device := dsd_hw_device (resolve_device_name device_name) in
  let probed := probe device (dsd_u32_rate <$> DSD_MULTIPLIERS) in
  match announced_dsd_max device_name probe with
  | Some m =>
      ∃ accepted, starts_with device "hw:" = true ∧ probed = Ok accepted ∧ m ∈ DSD_MULTIPLIERS ∧
        (∀ m', m' ∈ DSD_MULTIPLIERS → m' ≤ m → dsd_u32_rate m' ∈ accepted) ∧
        (m < 512 → dsd_u32_rate (m * 2) ∉ accepted)
  | None =>
      starts_with device "hw:" = false ∨ (∃ e, probed = Err e) ∨
      (∃ accepted, probed = Ok accepted ∧ dsd_u32_rate 64 ∉ accepted)
  end.
Proof.
  intros device probed. unfold announced_dsd_max. fold device. destruct (starts_with _ "hw:"); [|by left].
  simpl negb. cbv iota. fold probed. destruct probed as [accepted|e]; [|by eauto].
  destruct (last_accepted accepted DSD_MULTIPLIERS) as [m|] eqn:Hl.
  - exists accepted. split_and!; [done|done|..];
      unfold DSD_MULTIPLIERS in *; cbn [last_accepted] in Hl;
      repeat (case_bool_decide; simplify_eq/=; try done); try set_solver;
      intros m' Hm'; rewrite !elem_of_cons, elem_of_nil in Hm'; destruct_or! Hm'; subst; intros; done || lia.
  - do 2 right. exists accepted. split; [done|]. cbn [last_accepted DSD_MULTIPLIERS] in Hl.
    by case_bool_decide.
Qed.

(** A device picked from the list of [aplay -l] lines opens the card it
    names: the line of a device resolves to that device's own ALSA name. *)
Theorem aplay_line_resolves d :
  0 ≤ pd_card d < 2 ^ 31 → is_u32 (pd_device d) → pd_card_id d ≠ ""%string →
  no_whitespace (pd_card_id d) = true → char_in "]" (pd_card_name d) = false →
  resolve_device_name (Some (aplay_line d)) = plughw_name d.
Proof.
  intros Hcard Hdev Hne Hws Hname. unfold resolve_device_name.
  replace (starts_with (aplay_line d) "hw:") with false by done.
  replace (starts_with (aplay_line d) "plughw:") with false by done.
  replace (starts_with (aplay_line d) "default") with false by done.
  replace (starts_with (aplay_line d) "sysdefault:") with false by done. simpl orb. cbv iota.
  unfold plughw_from_aplay_line, aplay_line. rewrite strip_prefix_app. cbn [mbind option_bind].
  rewrite (split_once_str_app ":" " ") by by apply print_uint_no_char. cbn [mbind option_bind].
  rewrite (split_once_str_app " " "[") by by apply no_whitespace_no_space. cbn [mbind option_bind].
  rewrite (split_once_str_app "]" ", device ") by done. cbn [mbind option_bind].
  change (": " +:+ ?x)%string with (String ":" (" " +:+ x)).
  rewrite split_once_app by by apply print_uint_no_char. cbn [mbind option_bind].
  rewrite trim_id by done. rewrite trim_id by apply print_uint_no_whitespace.
  rewrite parse_print_uint by (done || lia). cbn [mbind option_bind]. unfold has_whitespace, plughw_name. rewrite Hws.
  destruct (String.eqb_spec (pd_card_id d) "") as [E|_]; done.
Qed.

Lemma aplay_line_resolves_witness :
  resolve_device_name (Some "card 2: Hugo2 [Chord Hugo2], device 0: USB Audio [USB Audio]"%string)
  = "plughw:CARD=Hugo2,DEV=0"%string.
Proof.
  apply (aplay_line_resolves (mkPlaybackDevice 2 "Hugo2" "Chord Hugo2" "USB-Audio" 0 "USB Audio" "USB Audio"));
    vm_compute; try split; discriminate || reflexivity.
Defined.

(** The output is silent unless it is configured, playing and not muted; a
    failed configuration leaves it without a writer and not playing.  When it
    does play, a PCM or DSD payload is queued for the writer as one chunk, its
    conversion, unless that is empty. *)
Theorem alsa_output_queues `{FlacStream} o data :
  (∀ fmt rate ch dev e r o', configure_with_device o fmt rate ch dev r = (Err e, o') →
     ao_writer o' = None ∧ ao_playing o' = false ∧ alsa_write_audio (alsa_play o') data = (0, alsa_play o')) ∧
  (ao_writer o = None ∨ ao_playing o = false ∨ ao_muted o = true → alsa_write_audio o data = (0, o)) ∧
  (∀ w, ao_writer o = Some w → ao_playing o = true → ao_muted o = false → ao_format o ≠ Flac →
     let bytes := convert (ao_format o) (ao_channels o) (volume_f32 (ao_volume o)) data in
     bytes ≠ [] →
     alsa_write_audio o data =
       (len data / bytes_per_frame (ao_format o) (ao_channels o),
        set_writer o (Some (mkWriterHandle (wh_params w) (wh_queue w ++ [bytes]) (wh_stop w))))).
Proof.
  split_and!.
  - intros fmt rate ch dev e r o' Hc. unfold configure_with_device in Hc.
    destruct (stream_params _ _ _ _); [destruct r|]; simplify_eq;
      (split_and!; [done|done|unfold alsa_write_audio; simpl; by destruct (ao_muted o)]).
  - unfold alsa_write_audio. intros [Hw|[Hp|Hm]].
    + rewrite Hw. by destruct (_ || _).
    + by rewrite Hp.
    + by rewrite Hm, orb_true_r.
  - intros w Hw Hp Hm Hf bytes Hb. unfold alsa_write_audio. rewrite Hp, Hm, Hw. simpl.
    rewrite bool_decide_eq_false_2 by done. fold bytes. by rewrite bool_decide_eq_false_2 by done.
Qed.

(** What a writer thread gets once its queue is closed: the payloads left,
    taken and written at the times of [ts], then the end of the queue. *)
Definition closing_inputs (w : Writer) (ts : list (Z * Z * Z)) : list WriterInput :=
  zip_with (λ data '(now, after, gen), Payload data now after gen (wh_stop w)) (wh_queue w) ts
    ++ [QueueClosed (wh_stop w)].

Lemma closing_inputs_queued w ts :
  wh_stop w = false → length ts = length (wh_queue w) →
  closing_inputs w ts =
    queued (zip_with (λ data '(now, after, gen), (data, now, after, gen)) (wh_queue w) ts) ++ [QueueClosed false].
Proof.
  intros Hs. unfold closing_inputs, queued. rewrite Hs. generalize (wh_queue w). intros q. clear Hs. revert ts.
  induction q as [|d q IH]; intros [|[[n a] g] ts]; intros Hl; simplify_eq/=; try done.
  f_equal. by apply IH.
Qed.

Lemma closing_frames p q (ts : list (Z * Z * Z)) :
  length ts = length q →
  (λ '(data, _, _, _), frames_of p data) <$> zip_with (λ data '(now, after, gen), (data, now, after, gen)) q ts
  = frames_of p <$> q.
Proof.
  revert ts. induction q as [|d q IH]; intros [|[[n a] g] ts] Hl; simplify_eq/=; [done|]. f_equal. by apply IH.
Qed.

(** C18 Stop and release: [stop] lets the writer thread play every whole frame
    still queued, in order, before the device is drained and closed, even if
    the device underruns on the way (at most three times); [release] gives up
    the device at once and discards the queue. *)
Theorem stop_plays_out_release_discards `{FlacStream} o w ws ts :
  ao_writer o = Some w →
  wr_done ws = false → sl_dev (wr_slot ws) = true → slot_inv (wr_slot ws) →
  sl_params (wr_slot ws) = wh_params w → length ts = length (wh_queue w) →
  plays (sl_hw (wr_slot ws)) (length (concat (frames_of (wh_params w) <$> wh_queue w))) →
  (∃ w1 ws1, ao_closed (alsa_stop o) = ao_closed o ++ [w1] ∧ ao_writer (alsa_stop o) = None ∧
     writer_run ws (closing_inputs w1 ts) = Some ws1 ∧
     wr_done ws1 = true ∧ sl_dev (wr_slot ws1) = false ∧
     hw_played (sl_hw (wr_slot ws1)) =
       hw_played (sl_hw (wr_slot ws)) ++ concat (frames_of (wh_params w) <$> wh_queue w) ∧
     hw_drains (sl_hw (wr_slot ws1)) = S (hw_drains (sl_hw (wr_slot ws)))) ∧
  (∃ w2 ws2, ao_closed (alsa_release o) = ao_closed o ++ [w2] ∧ ao_writer (alsa_release o) = None ∧
     writer_run ws (closing_inputs w2 ts) = Some ws2 ∧
     wr_done ws2 = true ∧ sl_dev (wr_slot ws2) = false ∧
     hw_played (sl_hw (wr_slot ws2)) = hw_played (sl_hw (wr_slot ws)) ∧
     hw_discards (sl_hw (wr_slot ws2)) = S (hw_discards (sl_hw (wr_slot ws)))).
Proof.
  intros Hw Hnd Hd Hi Hpar Hts Hp. unfold alsa_stop, alsa_release, shutdown. rewrite Hw. cbn [ao_closed ao_writer]. split.
  - exists (close_writer false w). rewrite closing_inputs_queued by done.
    destruct (writer_run_queued ws (zip_with (λ data '(now, after, gen), (data, now, after, gen)) (wh_queue w) ts)
                [QueueClosed false] 0) as (ws' & Hrun & Hnd' & [Hpl Hdev ? ? ? Hdr ?]); try done.
    { rewrite Nat.add_0_r, Hpar, closing_frames by done. done. }
    rewrite closing_frames, Hpar in Hpl by done.
    cbn [close_writer wh_queue]. rewrite Hrun. simpl. rewrite Hnd'.
    eexists. split_and!; try done; simpl; unfold slot_close; rewrite Hdev; simpl; try done. by rewrite Hdr.
  - exists (close_writer true w). unfold closing_inputs. cbn [close_writer wh_queue wh_stop].
    assert (∃ i rest, zip_with (λ data '(now, after, gen), Payload data now after gen true) (wh_queue w) ts
              ++ [QueueClosed true] = i :: rest ∧
            writer_step ws i = Some (mkWriter (slot_close (wr_slot ws) false) (wr_last_write ws) (wr_pause_gen ws) true))
      as (i & rest & -> & Hstep).
    { destruct (wh_queue w), ts as [|[[n a] g] ts]; simplify_eq/=; eauto. }
    simpl. rewrite Hnd, Hstep. destruct rest; simpl; eexists; split_and!; try done; simpl; unfold slot_close; by rewrite Hd.
Qed.

(** ** FLAC streams *)

Section flac_output.
Context `{F : FlacStream} `{L : !FlacStreamLaws F decodes}.

(** A playing FLAC output: its decoder's state and what its queue holds. *)
Record flac_playing (o : AlsaDirectOutput) (params : DeviceParams) (ch vol : Z) (d : flac_state) (q : list Z) : Prop := {
  pl_writer : ∃ w, ao_writer o = Some w ∧ wh_params w = params ∧ concat (wh_queue w) = q;
  pl_playing : ao_playing o = true;
  pl_muted : ao_muted o = false;
  pl_format : ao_format o = Flac;
  pl_channels : ao_channels o = ch;
  pl_volume : ao_volume o = vol;
  pl_flac : ao_flac o = Some d
}.

Lemma flac_samples_app a b ch vol :
  flac_samples_to_device (a ++ b) ch vol = flac_samples_to_device a ch vol ++ flac_samples_to_device b ch vol.
Proof. unfold flac_samples_to_device. by rewrite fmap_app, concat_app. Qed.

Lemma write_flac o params ch vol d q data s d' :
  flac_playing o params ch vol d q → flac_feed d data = (s, d') →
  flac_playing (alsa_write_audio o data).2 params ch vol d' (q ++ flac_samples_to_device s ch (volume_f32 vol)).
Proof.
  intros [(w & Hw & Hp & Hq) Hpl Hm Hf Hc Hv Hd] Hs. unfold alsa_write_audio. rewrite Hpl, Hm, Hw, Hf, Hd, Hs. simpl.
  subst ch vol.
  case_bool_decide as Es; [subst s; split; try done; simpl; exists w; by rewrite app_nil_r|].
  case_bool_decide as Eb; simpl.
  - split; try done. exists w. by rewrite Eb, app_nil_r.
  - split; try done. eexists. split; [done|]. simpl. rewrite concat_app, Hq. simpl. by rewrite app_nil_r.
Qed.

Lemma write_flac_all payloads o params ch vol d q ss d' acc :
  flac_playing o params ch vol d q →
  fold_left (λ '(ss, d) data, let '(s, d) := flac_feed d data in (ss ++ s, d)) payloads (acc, d) = (acc ++ ss, d') →
  flac_playing (fold_left (λ o data, (alsa_write_audio o data).2) payloads o) params ch vol d'
    (q ++ flac_samples_to_device ss ch (volume_f32 vol)).
Proof.
  revert o d q ss acc. induction payloads as [|data payloads IH]; intros o d q ss acc Ho Hs; simpl in *.
  { simplify_eq. assert (ss = []) as -> by (by apply (app_inv_head acc); rewrite app_nil_r). by rewrite app_nil_r. }
  destruct (flac_feed d data) as [s d1] eqn:E.
  assert (∃ ss', ss = s ++ ss') as [ss' ->].
  { enough (∃ ss', acc ++ ss = (acc ++ s) ++ ss') as [ss' Es] by (exists ss'; by simplify_list_eq).
    revert Hs. generalize (acc ++ s), (acc ++ ss). clear. revert d1.
    induction payloads as [|x xs IH]; intros d1 a b Hs; simpl in *; [simplify_eq; exists []; by rewrite app_nil_r|].
    destruct (flac_feed d1 x) as [s2 d2]. destruct (IH _ _ _ Hs) as [ss' ->]. exists (s2 ++ ss').
    by rewrite (assoc_L (++)). }
  rewrite (assoc_L (++)) in Hs. rewrite flac_samples_app, (assoc_L (++)).
  by apply (IH _ d1 _ _ (acc ++ s)); [by eapply write_flac|].
Qed.

(** A FLAC stream reaches the device complete: once the output is
    configured and plays, writing the packets of a stream queues for the
    writer thread exactly the device samples of the whole stream, in order,
    however the stream is cut into packets. *)
Theorem alsa_plays_flac o rate ch dev payloads samples o1 :
  decodes payloads samples → ao_muted o = false →
  configure_with_device o Flac rate ch dev Opened = (Ok tt, o1) →
  let o2 := fold_left (λ o data, (alsa_write_audio o data).2) payloads (alsa_play o1) in
  ∃ w, ao_writer o2 = Some w ∧
    wh_params w = mkParams (resolve_device_name dev) (flac_alsa_format ch) rate ch ∧
    concat (wh_queue w) = flac_samples_to_device samples ch (volume_f32 (ao_volume o)).
Proof.
  intros Hd Hm Hc o2. destruct (flac_decodes payloads samples Hd) as [d Hfold].
  destruct (write_flac_all payloads (alsa_play o1) (mkParams (resolve_device_name dev) (flac_alsa_format ch) rate ch)
              ch (ao_volume o) flac_new [] samples d []) as [(w & ? & ? & ?) _ _ _ _ _ _].
  - unfold configure_with_device in Hc. simpl in Hc. simplify_eq. split; try done. simpl. by eexists.
  - done.
  - exists w. by split_and!.
Qed.

End flac_output.

(** ** Witnesses *)

Lemma alsa_plays_flac_witness :
  let _ := demo_codec in
  let o1 := (configure_with_device AlsaDirectOutput_new Flac 48000 2 None Opened).2 in
  let o2 := fold_left (λ o data, (alsa_write_audio o data).2) demo_chunks (alsa_play o1) in
  ∃ w, ao_writer o2 = Some w ∧
    wh_params w = mkParams "default" "S32_LE" 48000 2 ∧
    concat (wh_queue w) = [0; 0; 0; 0; 0; 0; 0; 0].
Proof.
  refine (@alsa_plays_flac (@flac_decoder_stream demo_codec) _ (@flac_decoder_laws demo_codec)
           (@AlsaDirectOutput_new (@flac_decoder_stream demo_codec)) 48000 2 None demo_chunks
           [S754_zero false; S754_zero false] _ _ eq_refl eq_refl).
  exists demo_header, 0%nat, [demo_frame1; demo_frame2], [[S754_zero false]; [S754_zero false]], 2%nat.
  split_and!; [split; by vm_compute|apply demo_frames_ok|by vm_compute|done].
Defined.

(** A decoder that never produces a sample, to instantiate the interface. *)
#[local] Instance silent_flac : FlacStream :=
  {| flac_state := unit; flac_new := tt; flac_feed := λ s _, ([], s); flac_reset := λ s, s |}.

Definition demo_stream : DeviceParams := mkParams "hw:0" "S16_LE" 48000 2.
Definition demo_queue : Writer := mkWriterHandle demo_stream [[1; 2; 3; 4; 5]; [6; 7; 8; 9]] false.
Definition demo_output : AlsaDirectOutput :=
  mkAlsaOutput (Some demo_queue) true 1000 false 48000 2 PcmS16le None 0 None [].
Definition demo_thread : WriterState :=
  (writer_start demo_stream
     (mkHardware [Ok tt] (Ok 1 :: Err Xrun :: replicate 8 (Ok 1)) [Ok tt] [] 0 0) 0 0 0).2.

Lemma stop_plays_out_release_discards_witness :
  (∃ w1 ws1, ao_closed (alsa_stop demo_output) = [] ++ [w1] ∧ ao_writer (alsa_stop demo_output) = None ∧
     writer_run demo_thread (closing_inputs w1 [(1, 2, 0); (3, 4, 0)]) = Some ws1 ∧
     wr_done ws1 = true ∧ sl_dev (wr_slot ws1) = false ∧
     hw_played (sl_hw (wr_slot ws1)) = [] ++ [1; 2; 3; 4; 6; 7; 8; 9] ∧
     hw_drains (sl_hw (wr_slot ws1)) = 1%nat) ∧
  (∃ w2 ws2, ao_closed (alsa_release demo_output) = [] ++ [w2] ∧ ao_writer (alsa_release demo_output) = None ∧
     writer_run demo_thread (closing_inputs w2 [(1, 2, 0); (3, 4, 0)]) = Some ws2 ∧
     wr_done ws2 = true ∧ sl_dev (wr_slot ws2) = false ∧
     hw_played (sl_hw (wr_slot ws2)) = [] ∧ hw_discards (sl_hw (wr_slot ws2)) = 1%nat).
Proof.
  apply (stop_plays_out_release_discards demo_output demo_queue demo_thread [(1, 2, 0); (3, 4, 0)]);
    try reflexivity.
  - split; simpl; [done|by left|done].
  - split; simpl; repeat constructor; vm_compute; lia || discriminate.
Defined.

Lemma alsa_output_queues_witness :
  alsa_write_audio demo_output [1; 2; 3; 4] =
    (1, set_writer demo_output (Some (mkWriterHandle demo_stream (wh_queue demo_queue ++ [[1; 2; 3; 4]]) false))).
Proof.
  apply (proj2 (proj2 (alsa_output_queues demo_output [1; 2; 3; 4])) demo_queue); vm_compute; done.
Defined.
