(* ===== verification/DeviceList.v ===== *)
(** * Listing devices

    Models [endpoint --list-devices] on Linux ([crates/oaat-cli/src/main.rs]):
    the line of every ALSA playback device ([AlsaDirectOutput::list_devices])
    and the names it offers for [--audio-device].  The devices of the cards are
    the argument. *)

From S2P Require Import Prelude Format Text Float Samples Flac Alsa AlsaOutput.
From Stdlib Require Import Ascii.

Local Open Scope Z_scope.

Definition list_devices (devices : list PlaybackDevice) : list string := aplay_line <$> devices.

(** [split_whitespace().next()]. *)
Definition first_word (s : string) : option string :=
  match take_chars (λ a, negb (is_whitespace a)) (trim_start s) with EmptyString => None | w => Some w end.

(** [strip_prefix(a).or_else(|| strip_prefix(b)).is_some()]. *)
Definition is_card (s : string) : bool := starts_with s "card " || starts_with s "carte ".

(** The name offered for one line of the list. *)
Definition usable_name (line : string) : option string :=
  match split ":" line with
  | [] => None
  | first :: parts =>
      if is_card first then
        second ← head parts;
        short_name ← first_word second;
        Some ("  sysdefault:CARD=" ++ short_name)%string
      else None
  end.

(** What is printed, line by line. *)
Definition print_devices (devices : list PlaybackDevice) : list string :=
  let lines := list_devices devices in
  ["Available audio output devices (ALSA):"; ""]%string
  ++ ((λ d, "  " ++ d)%string <$> lines)
  ++ (if bool_decide (lines = []) then ["  (no devices found — check `aplay -l`)"%string] else [])
  ++ [""; "Usable names for --audio-device:"]%string
  ++ omap usable_name lines.

(** ** Lemmas *)

Lemma take_chars_word a b :
  no_whitespace a = true → take_chars (λ c, negb (is_whitespace c)) (a ++ String " " b) = a.
Proof.
  induction a as [|x a IH]; intros Ha; [done|]. cbn in Ha. apply andb_true_iff in Ha as [Hx Ha].
  change (String x a +:+ ?r)%string with (String x (a +:+ r)). cbn [take_chars]. by rewrite Hx, IH.
Qed.

Lemma first_word_spec a b :
  a ≠ ""%string → no_whitespace a = true → first_word (" " ++ a ++ String " " b) = Some a.
Proof.
  intros Hne Ha. unfold first_word.
  assert (trim_start (" " ++ a ++ String " " b) = (a ++ String " " b)%string) as ->.
  { destruct a as [|x a]; [done|]. simpl in Ha. apply andb_true_iff in Ha as [Hx _]. simpl. apply negb_true_iff in Hx. by rewrite Hx. }
  rewrite take_chars_word by done. by destruct a.
Qed.

(** A device whose card identifier is one word without a colon. *)
Definition named_card (d : PlaybackDevice) : Prop :=
  pd_card_id d ≠ ""%string ∧ no_whitespace (pd_card_id d) = true ∧ char_in ":" (pd_card_id d) = false.

Lemma usable_name_spec d :
  named_card d → usable_name (aplay_line d) = Some ("  sysdefault:CARD=" ++ pd_card_id d)%string.
Proof.
  intros (Hne & Hws & Hcol). unfold usable_name, aplay_line. set (rest := ("], device " +:+ _)%string).
  change ("card " +:+ ?x +:+ ": " +:+ ?y)%string with ("card " +:+ (x +:+ String ":" (" " +:+ y)))%string.
  assert (∀ x y, ("card " +:+ (x +:+ String ":" y) = ("card " +:+ x) +:+ String ":" y)%string) as Hassoc by done.
  rewrite Hassoc, split_app by (rewrite char_in_app; by rewrite (print_uint_no_char ":" (pd_card d))).
  unfold is_card, starts_with. rewrite strip_prefix_app. cbn [orb].
  change (" " +:+ pd_card_id d +:+ " [" +:+ pd_card_name d +:+ rest)%string
    with (" " +:+ pd_card_id d +:+ String " " ("[" +:+ pd_card_name d +:+ rest))%string.
  assert (∃ b more, split ":" (" " +:+ pd_card_id d +:+ String " " ("[" +:+ pd_card_name d +:+ rest)) =
            (" " +:+ pd_card_id d +:+ String " " b)%string :: more) as (b & more & ->).
  { generalize ("[" +:+ pd_card_name d +:+ rest)%string as r. intros r.
    assert (∃ b more, split ":" r = b :: more) as (b & more & Er).
    { destruct r as [|x r]; [by exists ""%string, []|]. cbn. case_match; [by eexists _, _|]. destruct (split ":" r); by eexists _, _. }
    exists b, more. assert (∀ a, char_in ":" a = false → split ":" (a +:+ r) = (a +:+ b)%string :: more) as Hpre.
    { induction a as [|x a IH]; intros Ha; [done|]. cbn in Ha. apply orb_false_iff in Ha as [Hx Ha].
      change (String x a +:+ ?r)%string with (String x (a +:+ r)). cbn [split]. by rewrite Hx, IH. }
    assert (∀ a c d, (a +:+ String c d = (a +:+ String c "") +:+ d)%string) as Hsnoc.
    { clear. intros a c d. induction a as [|x a IH]; [done|]. exact (f_equal (String x) IH). }
    change (" " +:+ ?a)%string with (String " " a). rewrite (Hsnoc _ " "%char r), (Hsnoc _ " "%char b).
    change (String " " (?a +:+ ?r))%string with ((String " " a) +:+ r)%string. apply Hpre. cbn. by rewrite char_in_app, Hcol. }
  cbn [head mbind option_bind]. rewrite first_word_spec by done. done.
Qed.

(** ** Properties *)

(** The names offered are those of the cards: one for every device, naming
    its card, which the output takes as it is; for DSD every one of them opens
    device 0 of its card, whatever device it was offered for. *)
Theorem offered_names devices :
  Forall named_card devices →
  omap usable_name (list_devices devices) = (λ d, "  sysdefault:CARD=" ++ pd_card_id d)%string <$> devices ∧
  ∀ d, d ∈ devices → char_in "," (pd_card_id d) = false →
    let name := ("sysdefault:CARD=" ++ pd_card_id d)%string in
    resolve_device_name (Some name) = name ∧ dsd_hw_device name = ("hw:CARD=" ++ pd_card_id d ++ ",DEV=0")%string.
Proof.
  intros Hall. split.
  - unfold list_devices. induction Hall as [|d devices Hd Hall IH]; [done|]. cbn [fmap list_fmap omap list_omap].
    by rewrite (usable_name_spec d Hd), IH.
  - intros d Hin Hcomma. split; [done|]. pose proof (proj1 (Forall_forall _ _) Hall d Hin) as (_ & Hws & _).
    unfold dsd_hw_device. replace (starts_with _ "hw:") with false by done. rewrite strip_prefix_app, split_nosep by done. cbn [hd].
    by rewrite trim_id.
Qed.

(** A card with two devices is offered twice under one name. *)
Example two_devices_one_name :
  let d n := mkPlaybackDevice 1 "DAC" "USB DAC" "USB-Audio" n "USB Audio" "USB Audio" in
  print_devices [d 0; d 1] =
    ["Available audio output devices (ALSA):"; ""; "  card 1: DAC [USB DAC], device 0: USB Audio [USB Audio]";
     "  card 1: DAC [USB DAC], device 1: USB Audio [USB Audio]"; ""; "Usable names for --audio-device:";
     "  sysdefault:CARD=DAC"; "  sysdefault:CARD=DAC"]%string.
Proof. reflexivity. Qed.

Lemma offered_names_witness :
  Forall named_card [mkPlaybackDevice 1 "DAC" "USB DAC" "USB-Audio" 1 "USB Audio" "USB Audio"] ∧
  dsd_hw_device "sysdefault:CARD=DAC" = "hw:CARD=DAC,DEV=0"%string.
Proof.
  assert (Forall named_card [mkPlaybackDevice 1 "DAC" "USB DAC" "USB-Audio" 1 "USB Audio" "USB Audio"]) as H
    by (constructor; [split; [discriminate|split; reflexivity]|constructor]).
  split; [exact H|].
  exact (proj2 (proj2 (offered_names _ H) _ (list_elem_of_here _ _) eq_refl)).
Defined.
