(* ===== verification/AlsaPcm.v ===== *)
(** * The ALSA device

    Models the real device behind the writer thread of [Alsa], in
    [crates/oaat-endpoint/src/alsa_direct.rs]: [AlsaPcm] (the retries of a
    write, the recovery from an underrun or a suspend), [open_alsa_device], and
    the probe of the native DSD rates.  The calls into libasound are the class
    [Asound]: one PCM, what each call answers and the PCM after it. *)

From S2P Require Import Prelude Format Text Samples Alsa AlsaOutput.

Local Open Scope Z_scope.

(** [alsa::Error]: the error number, with either sign, and its text. *)
Record AlsaError := mkAlsaError { ae_errno : Z; ae_text : string }.

Inductive PcmFormat := S16LE | S24LE | S32LE | FloatLE | DSDU32BE.

#[export] Instance PcmFormat_eq_dec : EqDecision PcmFormat.
Proof. solve_decision. Defined.

(** The requests made of the hardware and software parameters. *)
Inductive PcmRequest :=
| SetAccess
| SetFormat (f : PcmFormat)
| SetChannels (n : Z)
| SetRate (rate : Z)
| SetPeriodTimeNear (us : Z)
| SetBufferTimeNear (us : Z)
| ApplyHwParams
| SetStartThreshold (frames : Z)
| SetAvailMin (frames : Z)
| ApplySwParams.

Class Asound := {
  pcm : Type;
  (** [PCM::new]; the second argument is [nonblock]. *)
  pcm_open : string → bool → result pcm AlsaError;
  (** [HwParams::any] and [sw_params_current]. *)
  pcm_hw_any : pcm → result pcm AlsaError;
  pcm_sw_current : pcm → result pcm AlsaError;
  pcm_request : pcm → PcmRequest → result pcm AlsaError;
  (** [hw_params_current] with its rate, buffer size and period size. *)
  pcm_hw_current : pcm → result (Z * Z * Z) AlsaError;
  pcm_test_rate : pcm → Z → bool;
  pcm_writei : pcm → list Z → result Z AlsaError * pcm;
  pcm_resume : pcm → result unit AlsaError * pcm;
  pcm_prepare : pcm → result unit AlsaError * pcm
}.

Definition EPIPE : Z := 32.
Definition ESTRPIPE : Z := 86.
Definition EAGAIN : Z := 11.
Definition EINTR : Z := 4.
Definition ALSA_PERIOD_TIME_US : Z := 125000.
Definition ALSA_BUFFER_TIME_US : Z := 2000000.

Definition alsa_errno (e : AlsaError) : Z := Z.abs (ae_errno e).

Section pcm.
Context `{Asound}.

(** The loop of [AlsaPcm::write]: [retries] more interruptions are retried. *)
Fixpoint write_retry (retries : nat) (p : pcm) (data : list Z) : result Z DeviceError * pcm :=
  match pcm_writei p data with
  | (Ok n, p) => (Ok n, p)
  | (Err e, p) =>
      let fatal := (Err (Fatal (ae_text e)), p) in
      if alsa_errno e =? EPIPE then (Err Xrun, p)
      else if alsa_errno e =? ESTRPIPE then (Err Suspended, p)
      else if (alsa_errno e =? EAGAIN) || (alsa_errno e =? EINTR) then
        match retries with S retries => write_retry retries p data | O => fatal end
      else fatal
  end.

Definition pcm_write (p : pcm) (data : list Z) : result Z DeviceError * pcm := write_retry 100 p data.

Definition prepare (p : pcm) : result unit DeviceError * pcm :=
  match pcm_prepare p with
  | (Ok u, p) => (Ok u, p)
  | (Err e, p) => (Err (Fatal (ae_text e)), p)
  end.

(** [for _ in 0..50 { .. }], then [prepare]. *)
Fixpoint resume_retry (tries : nat) (p : pcm) : result unit DeviceError * pcm :=
  match tries with
  | O => prepare p
  | S tries =>
      match pcm_resume p with
      | (Ok u, p) => (Ok u, p)
      | (Err e, p) => if alsa_errno e =? EAGAIN then resume_retry tries p else prepare p
      end
  end.

Definition pcm_recover (p : pcm) (e : DeviceError) : result unit DeviceError * pcm :=
  match e with Suspended => resume_retry 50 p | _ => prepare p end.

Definition alsa_format (name : string) : option PcmFormat :=
  if String.eqb name "S16_LE" then Some S16LE
  else if String.eqb name "S24_LE" then Some S24LE
  else if String.eqb name "S32_LE" then Some S32LE
  else if String.eqb name "FLOAT_LE" then Some FloatLE
  else if String.eqb name "DSD_U32_BE" then Some DSDU32BE
  else None.

(** A library call with its error named. *)
Definition named {A} (device what : string) (r : result A AlsaError) : result A string :=
  match r with Ok a => Ok a | Err e => Err (device ++ ": " ++ what ++ ": " ++ ae_text e)%string end.

Fixpoint requests (device : string) (p : pcm) (rs : list (string * PcmRequest)) : result pcm string :=
  match rs with
  | [] => Ok p
  | (what, r) :: rs => (let? p := named device what (pcm_request p r) in requests device p rs)%oaat
  end.

Definition hw_requests (d : DeviceParams) (fmt : PcmFormat) : list (string * PcmRequest) :=
  [ ("access", SetAccess); (dp_format d, SetFormat fmt); ("channels", SetChannels (dp_channels d));
    ("rate", SetRate (dp_rate d)); ("period time", SetPeriodTimeNear ALSA_PERIOD_TIME_US);
    ("buffer time", SetBufferTimeNear ALSA_BUFFER_TIME_US); ("apply hw params", ApplyHwParams) ]%string.

Definition sw_requests (buffer period : Z) : list (string * PcmRequest) :=
  [ ("start threshold", SetStartThreshold (Z.max buffer 1)); ("avail min", SetAvailMin (Z.max period 1));
    ("apply sw params", ApplySwParams) ]%string.

(** The rate granted is only compared for a warning. *)
Definition open_alsa_device (d : DeviceParams) : result pcm string :=
  (let? fmt := ok_or (alsa_format (dp_format d)) ("unknown ALSA format " ++ dp_format d)%string in
   let? p := named (dp_device d) "open" (pcm_open (dp_device d) false) in
   let? p := named (dp_device d) "hw params" (pcm_hw_any p) in
   let? p := requests (dp_device d) p (hw_requests d fmt) in
   let? (_, buffer, period) := named (dp_device d) "hw params" (pcm_hw_current p) in
   let? p := named (dp_device d) "sw params" (pcm_sw_current p) in
   requests (dp_device d) p (sw_requests buffer period))%oaat.

Definition probe_error {A} (wrap : string → DsdProbeError) (r : result A string) : result A DsdProbeError :=
  match r with Ok a => Ok a | Err e => Err (wrap e) end.

Definition dsd_requests : list (string * PcmRequest) :=
  [ ("access", SetAccess); ("DSD_U32_BE", SetFormat DSDU32BE); ("channels", SetChannels 2) ]%string.

Definition probe_dsd_rates (device : string) (rates : list Z) : result (list Z) DsdProbeError :=
  (let? p := probe_error Unavailable (named device "open" (pcm_open device true)) in
   let? p := probe_error Unavailable (named device "hw params" (pcm_hw_any p)) in
   let? p := probe_error Refused (requests device p dsd_requests) in
   Ok (filter (λ r, pcm_test_rate p r = true) rates))%oaat.

Definition dsd_max_multiplier (device_name : option string) : option Z :=
  announced_dsd_max device_name probe_dsd_rates.

(** ** Specification *)

Definition interruption (e : AlsaError) : bool := (alsa_errno e =? EAGAIN) || (alsa_errno e =? EINTR).

Definition device_error (e : AlsaError) : DeviceError :=
  if alsa_errno e =? EPIPE then Xrun else if alsa_errno e =? ESTRPIPE then Suspended else Fatal (ae_text e).

(** The PCM after [k] calls. *)
Definition after_writes (p : pcm) (data : list Z) (k : nat) : pcm := Nat.iter k (λ p, (pcm_writei p data).2) p.
Definition after_resumes (p : pcm) (k : nat) : pcm := Nat.iter k (λ p, (pcm_resume p).2) p.

(** The bytes of a sample in libasound's buffers. *)
Definition sample_bytes (f : PcmFormat) : Z := match f with S16LE => 2 | _ => 4 end.

(** What is left of the opening of [d] once the device has taken access,
    format, channels and rate: the sizes of its buffers. *)
Definition tune (d : DeviceParams) (fmt : PcmFormat) (p : pcm) : result pcm string :=
  (let? p := requests (dp_device d) p (drop 4 (hw_requests d fmt)) in
   let? (_, buffer, period) := named (dp_device d) "hw params" (pcm_hw_current p) in
   let? p := named (dp_device d) "sw params" (pcm_sw_current p) in
   requests (dp_device d) p (sw_requests buffer period))%oaat.

(** ** Lemmas *)

Lemma interruption_device_error e : interruption e = true → device_error e = Fatal (ae_text e).
Proof.
  unfold interruption, device_error. intros [->%Z.eqb_eq| ->%Z.eqb_eq]%orb_true_iff; done.
Qed.

Lemma write_retry_answers n p data :
  ∃ k, (k ≤ n)%nat ∧
    (∀ j, (j < k)%nat → ∃ e, (pcm_writei (after_writes p data j) data).1 = Err e ∧ interruption e = true) ∧
    (write_retry n p data).2 = after_writes p data (S k) ∧
    match (pcm_writei (after_writes p data k) data).1 with
    | Ok frames => (write_retry n p data).1 = Ok frames
    | Err e => (write_retry n p data).1 = Err (device_error e) ∧ (interruption e = true → k = n)
    end.
Proof.
  revert p. induction n as [|n IH]; intros p; cbn [write_retry]; destruct (pcm_writei p data) as [[frames|e] p1] eqn:Ew.
  - exists O. cbn. rewrite Ew. split_and!; try done; lia.
  - exists O. unfold after_writes. cbn [Nat.iter nat_rect]. rewrite Ew. cbn [fst snd]. unfold device_error.
    split; [lia|]. split; [intros; lia|].
    destruct (alsa_errno e =? EPIPE); [done|]. destruct (alsa_errno e =? ESTRPIPE); [done|]. by destruct (_ || _).
  - exists O. cbn. rewrite Ew. split_and!; try done; lia.
  - destruct (interruption e) eqn:Ei.
    + destruct (IH p1) as (k & Hk & Hj & H2 & H1).
      assert (∀ j, after_writes p data (S j) = after_writes p1 data j) as Hshift.
      { intros j. unfold after_writes. rewrite Nat.iter_succ_r. by rewrite Ew. }
      pose proof (interruption_device_error _ Ei) as Hfatal. unfold device_error in Hfatal.
      destruct (alsa_errno e =? EPIPE); [done|]. destruct (alsa_errno e =? ESTRPIPE); [done|].
      unfold interruption in Ei. rewrite Ei. exists (S k). rewrite !Hshift. split; [lia|]. split; [|split; [done|]].
      * intros [|j] Hlt; [|rewrite Hshift; apply Hj; lia]. exists e. cbn. by rewrite Ew.
      * destruct (pcm_writei (after_writes p1 data k) data) as [[frames|e'] p2]; cbn in *; [done|].
        destruct H1 as [H1 Hn]. split; [done|]. intros Hi. by rewrite (Hn Hi).
    + exists O. unfold after_writes. cbn [Nat.iter nat_rect]. rewrite Ew. cbn [fst snd]. unfold device_error.
      rewrite Ei. unfold interruption in Ei. rewrite Ei. split; [lia|]. split; [intros; lia|].
      destruct (alsa_errno e =? EPIPE); [done|]. by destruct (alsa_errno e =? ESTRPIPE).
Qed.

Lemma resume_retry_answers n p :
  ∃ k, (k ≤ n)%nat ∧
    (∀ j, (j < k)%nat → ∃ e, (pcm_resume (after_resumes p j)).1 = Err e ∧ alsa_errno e = EAGAIN) ∧
    (((k < n)%nat ∧ (pcm_resume (after_resumes p k)).1 = Ok tt ∧ resume_retry n p = (Ok tt, after_resumes p (S k))) ∨
     (k = n ∧ resume_retry n p = prepare (after_resumes p n)) ∨
     ((k < n)%nat ∧ ∃ e, (pcm_resume (after_resumes p k)).1 = Err e ∧ alsa_errno e ≠ EAGAIN ∧
        resume_retry n p = prepare (after_resumes p (S k)))).
Proof.
  revert p. induction n as [|n IH]; intros p; cbn [resume_retry].
  { exists O. split; [done|]. split; [intros; lia|]. right; left. done. }
  destruct (pcm_resume p) as [[[]|e] p1] eqn:Er.
  - exists O. split; [lia|]. split; [intros; lia|]. left. cbn. rewrite Er. split_and!; [lia|done|done].
  - assert (∀ j, after_resumes p (S j) = after_resumes p1 j) as Hshift.
    { intros j. unfold after_resumes. rewrite Nat.iter_succ_r. by rewrite Er. }
    destruct (Z.eqb_spec (alsa_errno e) EAGAIN) as [Ea|Ea].
    + destruct (IH p1) as (k & Hk & Hj & Hcase). exists (S k). rewrite !Hshift. split; [lia|]. split.
      * intros [|j] Hlt; [|rewrite Hshift; apply Hj; lia]. exists e. cbn. by rewrite Er.
      * destruct Hcase as [(? & ? & ->)|[(-> & ->)|(? & e' & ? & ? & ->)]]; [left|right; left|right; right].
        -- split_and!; [lia|done|done].
        -- done.
        -- split; [lia|]. by exists e'.
    + exists O. split; [lia|]. split; [intros; lia|]. right; right. split; [lia|]. exists e. cbn. by rewrite Er.
Qed.

Lemma probe_dsd_rates_Ok device rates accepted :
  probe_dsd_rates device rates = Ok accepted →
  ∃ p0 p1 p, pcm_open device true = Ok p0 ∧ pcm_hw_any p0 = Ok p1 ∧ requests device p1 dsd_requests = Ok p ∧
    accepted = filter (λ r, pcm_test_rate p r = true) rates.
Proof.
  unfold probe_dsd_rates. intros Hp.
  destruct (pcm_open device true) as [p0|] eqn:E0; [|done]. cbn [named probe_error result_bind] in Hp.
  destruct (pcm_hw_any p0) as [p1|] eqn:E1; [|done]. cbn [named probe_error result_bind] in Hp.
  destruct (requests device p1 dsd_requests) as [p|] eqn:E2; [|done]. cbn [probe_error result_bind] in Hp.
  simplify_eq. by exists p0, p1, p.
Qed.

Lemma requests_app device p rs rs' :
  requests device p (rs ++ rs') = (let? p := requests device p rs in requests device p rs')%oaat.
Proof.
  revert p. induction rs as [|[what r] rs IH]; intros p; [done|]. cbn [requests app].
  destruct (named device what (pcm_request p r)); [apply IH|done].
Qed.

(** Opening a stereo device in the DSD format: the requests of the probe, then
    the rate, then the buffers. *)
Lemma open_dsd_device d p0 p1 p p' :
  alsa_format (dp_format d) = Some DSDU32BE → dp_format d = "DSD_U32_BE"%string → dp_channels d = 2 →
  pcm_open (dp_device d) false = Ok p0 → pcm_hw_any p0 = Ok p1 → requests (dp_device d) p1 dsd_requests = Ok p →
  pcm_request p (SetRate (dp_rate d)) = Ok p' →
  open_alsa_device d = tune d DSDU32BE p'.
Proof.
  intros Hfmt Hname Hch H0 H1 H2 Hr. unfold open_alsa_device. rewrite Hfmt. cbn [ok_or result_bind]. rewrite H0.
  cbn [named result_bind]. rewrite H1. cbn [named result_bind].
  assert (hw_requests d DSDU32BE = (dsd_requests ++ [("rate"%string, SetRate (dp_rate d))]) ++ drop 4 (hw_requests d DSDU32BE)) as ->.
  { unfold hw_requests, dsd_requests. by rewrite Hname, Hch. }
  rewrite !requests_app, H2. cbn [result_bind requests]. rewrite Hr. done.
Qed.

End pcm.

(** ** Properties *)

(** A write to the device ends: after at most a hundred
    interrupted calls, and then one more, it answers with what that last call
    answered: the frames taken, an underrun, a suspend, or a fatal error with
    the text of libasound; an interruption is reported only after a hundred
    others.  Nothing is written twice. *)
Theorem pcm_write_ends `{Asound} p data :
  ∃ k, (k ≤ 100)%nat ∧
    (∀ j, (j < k)%nat → ∃ e, (pcm_writei (after_writes p data j) data).1 = Err e ∧ interruption e = true) ∧
    (pcm_write p data).2 = after_writes p data (S k) ∧
    match (pcm_writei (after_writes p data k) data).1 with
    | Ok frames => (pcm_write p data).1 = Ok frames
    | Err e => (pcm_write p data).1 = Err (device_error e) ∧ (interruption e = true → k = 100%nat)
    end.
Proof. apply write_retry_answers. Qed.

(** A suspended device is resumed or prepared: the driver is asked
    to resume while it is busy, at most fifty times; as soon as it has resumed
    the device is used again, otherwise it is prepared, and the outcome is
    that of the preparation. *)
Theorem suspend_recovers `{Asound} p :
  ∃ k, (k ≤ 50)%nat ∧
    (∀ j, (j < k)%nat → ∃ e, (pcm_resume (after_resumes p j)).1 = Err e ∧ alsa_errno e = EAGAIN) ∧
    (((k < 50)%nat ∧ (pcm_resume (after_resumes p k)).1 = Ok tt ∧ pcm_recover p Suspended = (Ok tt, after_resumes p (S k))) ∨
     (k = 50%nat ∧ pcm_recover p Suspended = prepare (after_resumes p 50)) ∨
     ((k < 50)%nat ∧ ∃ e, (pcm_resume (after_resumes p k)).1 = Err e ∧ alsa_errno e ≠ EAGAIN ∧
        pcm_recover p Suspended = prepare (after_resumes p (S k)))).
Proof. apply resume_retry_answers. Qed.

(** Whatever the output is configured for, the device knows the
    format: no configured stream fails as an unknown format, the bytes of a
    frame that the writer thread counts are those of the device, and a native
    DSD stream, and only that, is opened in the DSD format. *)
Theorem configured_format_known fmt rate channels device_name d :
  stream_params fmt rate channels device_name = Ok d →
  ∃ f, alsa_format (dp_format d) = Some f ∧ frame_bytes d = sample_bytes f * Z.max (dp_channels d) 1 ∧
    (is_dsd fmt = true ↔ f = DSDU32BE).
Proof.
  unfold stream_params. case_bool_decide as Hf.
  - intros [= <-]. subst fmt. cbn [dp_format dp_channels]. unfold frame_bytes, flac_alsa_format. cbn [dp_format dp_channels].
    destruct (channels <=? 2); eexists; (split; [reflexivity|]); done.
  - destruct fmt; cbn; intros Hd; simplify_eq/=; eexists; (split; [reflexivity|]); done.
Qed.

(** C31 What is announced for DSD is what will be opened: for every multiple of
    44.1 kHz up to the announced one, the parameters of a stereo stream at that
    multiple, DSD_U8 with its bit rate or DSD_U32 with its word rate, name the
    raw device that was probed, in the format it was probed with, at a rate the
    device said it takes. If the device can be opened again as it was for the
    probe, and takes the rates it says it takes, then opening it for such a
    stream can fail only at the sizes of its buffers. *)
Theorem announced_dsd_opens `{Asound} device_name m :
  dsd_max_multiplier device_name = Some m →
  let device := dsd_hw_device (resolve_device_name device_name) in
  ∃ p0 p1 p, pcm_open device true = Ok p0 ∧ pcm_hw_any p0 = Ok p1 ∧ requests device p1 dsd_requests = Ok p ∧
    ∀ m' fmt rate, m' ∈ DSD_MULTIPLIERS → m' ≤ m →
      (fmt = DsdU8 ∧ rate = 44100 * m') ∨ (fmt = DsdU32le ∧ rate = 44100 * m' / 32) →
      ∃ d, stream_params fmt rate 2 device_name = Ok d ∧ dp_device d = device ∧ starts_with device "hw:" = true ∧
        alsa_format (dp_format d) = Some DSDU32BE ∧ dp_channels d = 2 ∧ dp_rate d = 44100 * m' / 32 ∧
        pcm_test_rate p (dp_rate d) = true ∧
        (pcm_open device false = pcm_open device true →
         (∀ q r, pcm_test_rate q r = true → ∃ q', pcm_request q (SetRate r) = Ok q') →
         ∃ p', pcm_request p (SetRate (dp_rate d)) = Ok p' ∧ open_alsa_device d = tune d DSDU32BE p').
Proof.
  intros Hm device. pose proof (announced_dsd_max_spec device_name probe_dsd_rates) as Hspec. cbn zeta in Hspec.
  unfold dsd_max_multiplier in Hm. rewrite Hm in Hspec. fold device in Hspec.
  destruct Hspec as (accepted & Hhw & Hprobe & _ & Hacc & _).
  destruct (probe_dsd_rates_Ok _ _ _ Hprobe) as (p0 & p1 & p & H0 & H1 & H2 & ->). exists p0, p1, p.
  split; [done|]. split; [done|]. split; [done|]. intros m' fmt rate Hm' Hle Hfmt.
  pose proof (Hacc m' Hm' Hle) as Hin. apply list_elem_of_filter in Hin as [Htest _].
  unfold dsd_u32_rate in Htest. rewrite (Z.mul_comm m') in Htest.
  exists (mkParams device "DSD_U32_BE" (44100 * m' / 32) 2). cbn [dp_device dp_format dp_channels dp_rate].
  split; [destruct Hfmt as [[-> ->]|[-> ->]]; reflexivity|]. split_and!; try done.
  intros Hopen Hrates. destruct (Hrates _ _ Htest) as [p' Hp']. exists p'. split; [exact Hp'|].
  eapply open_dsd_device; try done. by rewrite <- H0.
Qed.

(** ** Witnesses *)

(** A device that takes DSD up to 128 times 44.1 kHz. *)
Definition demo_asound : Asound := {|
  pcm := unit;
  pcm_open _ _ := Ok tt;
  pcm_hw_any _ := Ok tt;
  pcm_sw_current _ := Ok tt;
  pcm_request _ _ := Ok tt;
  pcm_hw_current _ := Ok (44100, 88200, 5512);
  pcm_test_rate _ rate := rate <=? 176400;
  pcm_writei _ data := (Ok 1, tt);
  pcm_resume _ := (Ok tt, tt);
  pcm_prepare _ := (Ok tt, tt)
|}.

Lemma configured_format_known_witness :
  ∃ f, alsa_format "S32_LE" = Some f ∧ frame_bytes (mkParams (resolve_device_name None) "S32_LE" 96000 2) = sample_bytes f * 2.
Proof.
  destruct (configured_format_known PcmS24le 96000 2 None (mkParams (resolve_device_name None) "S32_LE" 96000 2))
    as (f & H1 & H2 & _); [reflexivity|]. exists f. split; [exact H1|exact H2].
Defined.

Lemma announced_dsd_opens_witness :
  ∃ d, stream_params DsdU8 5644800 2 (Some "hw:CARD=DAC,DEV=0"%string) = Ok d ∧ dp_rate d = 176400 ∧
    @open_alsa_device demo_asound d = @tune demo_asound d DSDU32BE tt.
Proof.
  destruct (@announced_dsd_opens demo_asound (Some "hw:CARD=DAC,DEV=0"%string) 128) as (p0 & p1 & p & _ & _ & _ & Hd);
    [vm_compute; reflexivity|].
  destruct (Hd 128 DsdU8 5644800) as (d & Hs & _ & _ & _ & _ & Hr & _ & Ho);
    [unfold DSD_MULTIPLIERS; set_solver|lia|by left|].
  exists d. split; [exact Hs|]. split; [exact Hr|].
  destruct Ho as ([] & _ & Ho); [reflexivity|by exists tt|exact Ho].
Defined.
