(* ===== verification/AudioOutput.v ===== *)
(** * The portable output

    Models [crates/oaat-endpoint/src/audio_output.rs]: the output over cpal,
    a ring of bytes in the negotiated format, filled by [write_audio], which
    also applies the drift correction, and emptied by the device's callback.

    The sound host is an argument: its devices, their sample types, and
    whether opening a stream succeeds.  The ring (of the crate ringbuf) is a
    list of bytes with a capacity. *)

From S2P Require Import Prelude Format Text Float Samples Flac.
From Stdlib Require Import Ascii.

Local Open Scope Z_scope.

Definition ring_buffer_frames (sample_rate : Z) : Z := Z.max sample_rate 48000.

(** ** Device names *)

Definition BUILTIN_DEVICE_KEYWORDS : list string :=
  ["built-in"; "speakers"; "realtek"; "internal"; "hdmi"; "displayport"; "macbook"]%string.
Definition USB_DAC_KEYWORDS : list string := ["usb"; "dac"]%string.

Definition is_usb_dac (name : string) : bool :=
  let lower := to_lowercase name in
  if existsb (contains lower) USB_DAC_KEYWORDS then true
  else if existsb (contains lower) BUILTIN_DEVICE_KEYWORDS then false
  else true.

Definition auto_detect_usb_dac (devices : list string) : option string := List.find is_usb_dac devices.

(** ** Sample layouts *)

Inductive RingFormat := S16 | S24 | S24In32 | S32 | F32.

#[export] Instance RingFormat_eq_dec : EqDecision RingFormat.
Proof. solve_decision. Defined.

Definition ring_bytes_per_sample (r : RingFormat) : nat :=
  match r with S16 => 2 | S24 => 3 | S24In32 | S32 | F32 => 4 end.

Definition ring_format_of (f : AudioFormat) : RingFormat :=
  match f with
  | PcmS16le => S16
  | PcmS24le => S24
  | PcmS24le4 => S24In32
  | PcmS32le => S32
  | _ => F32
  end.

(** [f32::clamp] to two finite bounds. *)
Definition f32_clamp (lo hi x : f32) : f32 := f64_clamp lo hi x.

(** [i32::from_le_bytes([b[0], b[1], b[2], sign])]. *)
Definition sign_extend24 (b : list Z) : Z :=
  let sign := if negb (Z.land (nth 2 b 0) 0x80 =? 0) then 0xFF else 0 in
  i_from_le_bytes [nth 0 b 0; nth 1 b 0; nth 2 b 0; sign].

Definition le4 (b : list Z) : list Z := [nth 0 b 0; nth 1 b 0; nth 2 b 0; nth 3 b 0].
Definition le2 (b : list Z) : list Z := [nth 0 b 0; nth 1 b 0].

Definition to_i32 (r : RingFormat) (b : list Z) : Z :=
  match r with
  | S16 => as_i 32 (Z.shiftl (i_from_le_bytes (le2 b)) 16)
  | S24 => as_i 32 (Z.shiftl (sign_extend24 b) 8)
  | S24In32 => as_i 32 (Z.shiftl (i_from_le_bytes (le4 b)) 8)
  | S32 => i_from_le_bytes (le4 b)
  | F32 =>
      let f := f32_clamp (f32_of_Z (-1)) (f32_of_Z 1) (f32_from_bits (from_le_bytes (le4 b))) in
      float_trunc
        (f64_clamp (f64_of_Z (- 2 ^ 31)) (f64_of_Z (2 ^ 31 - 1)) (f64_mul (f32_to_f64 f) (f64_of_Z 2147483648)))
        (- 2 ^ 31) (2 ^ 31 - 1)
  end.

Definition to_f32 (r : RingFormat) (b : list Z) : f32 :=
  match r with
  | S16 => f32_div (f32_of_Z (i_from_le_bytes (le2 b))) (f32_of_Z 32768)
  | S24 => f32_div (f32_of_Z (sign_extend24 b)) (f32_of_Z 8388608)
  | S24In32 => f32_div (f32_of_Z (i_from_le_bytes (le4 b))) (f32_of_Z 8388608)
  | S32 => f32_div (f32_of_Z (i_from_le_bytes (le4 b))) (f32_of_Z 2147483648)
  | F32 => f32_from_bits (from_le_bytes (le4 b))
  end.

(** ** Output streams *)

Record DeviceSampleSupport := mkSupport { sup_f32 : bool; sup_i16 : bool; sup_i32 : bool }.

Inductive OutKind := I16Out | I32Out | F32Out.

Definition out_kind (r : RingFormat) (s : DeviceSampleSupport) : OutKind :=
  match r with
  | S16 => if sup_i16 s then I16Out else if sup_i32 s then I32Out else if sup_f32 s then F32Out else I16Out
  | S24 | S24In32 | S32 => if sup_i32 s then I32Out else if sup_f32 s then F32Out else I16Out
  | F32 => if sup_f32 s then F32Out else if sup_i32 s then I32Out else I16Out
  end.

(** What the device is given: a sample of its stream's type. *)
Inductive OutSample := OutI16 (z : Z) | OutI32 (z : Z) | OutF32 (x : f32).

Definition out_silence (k : OutKind) : OutSample :=
  match k with I16Out => OutI16 0 | I32Out => OutI32 0 | F32Out => OutF32 (S754_zero false) end.

(** The three conversion closures of [configure_with_device]. *)
Definition out_convert (k : OutKind) (r : RingFormat) (vol : Z) (b : list Z) : OutSample :=
  match k with
  | I16Out =>
      let s := i_from_le_bytes (le2 b) in
      OutI16 (if vol =? 1000 then s else as_i 16 (Z.quot (s * vol) 1000))
  | I32Out =>
      let s := to_i32 r b in
      OutI32 (if vol =? 1000 then s else as_i 32 (Z.quot (s * vol) 1000))
  | F32Out =>
      let s := to_f32 r b in
      OutF32 (if vol =? 1000 then s else f32_mul s (f32_div (f32_of_Z vol) (f32_of_Z 1000)))
  end.

(** ** Underruns *)

Record UnderrunDetector := mkDetector { ud_primed : bool; ud_starving : bool }.

Definition UnderrunDetector_default : UnderrunDetector := mkDetector false false.

Definition observe (d : UnderrunDetector) (got wanted : nat) (counter : Z) : UnderrunDetector * Z :=
  let '(starving, counter) :=
    if (0 <? got)%nat && ud_starving d then (false, counter + 1) else (ud_starving d, counter) in
  if (wanted <=? got)%nat then (mkDetector true starving, counter)
  else if ud_primed d then (mkDetector (ud_primed d) true, counter)
  else (mkDetector (ud_primed d) starving, counter).

(** ** DSD *)

Definition dsd_rate_multiplier (f : AudioFormat) : Z :=
  match f with DsdU8 => 64 | DsdU16le => 128 | DsdU32le => 256 | _ => 64 end.

(** [u8::count_ones]. *)
Definition count_ones (b : Z) : Z := len (List.filter (Z.testbit b) [0; 1; 2; 3; 4; 5; 6; 7]).

Definition dsd_to_f32 (data : list Z) (rate_multiplier : Z) : list f32 :=
  let n := Z.to_nat (rate_multiplier / 8) in
  if (n =? 0)%nat then []
  else (λ block,
          let total_bits := len block * 8 in
          let ones := foldr Z.add 0 (count_ones <$> block) in
          f32_sub (f32_div (f32_mul (f32_of_Z 2) (f32_of_Z ones)) (f32_of_Z total_bits)) (f32_of_Z 1))
       <$> chunks_exact n data.

(** ** The sound host *)

Inductive SampleFormat := SfF32 | SfI16 | SfI32 | SfOther.

#[export] Instance SampleFormat_eq_dec : EqDecision SampleFormat.
Proof. solve_decision. Defined.

(** A device: its name and supported configurations, each of which may fail
    to be read. *)
Record CpalDevice := mkCpalDevice { cd_name : option string; cd_configs : option (list SampleFormat) }.

Record Host := mkHost {
  host_devices : result (list CpalDevice) string;
  host_default : option CpalDevice
}.

Definition probe_support (d : CpalDevice) : DeviceSampleSupport :=
  let cfgs := default [] (cd_configs d) in
  mkSupport (bool_decide (SfF32 ∈ cfgs)) (bool_decide (SfI16 ∈ cfgs)) (bool_decide (SfI32 ∈ cfgs)).

Section output.
Context `{FlacStream}.

(** [decode_flac_to_f32], empty on an error: only used on a FLAC stream
    without a decoder, which [configure] does not leave. *)
Variable decode_flac_to_f32 : list Z → list f32.

(** [co_stream] is the open stream, as its sample type and its callback's
    underrun detector; [co_ring] the ring shared with it. *)
Record CpalOutput := mkCpal {
  co_stream : option (OutKind * UnderrunDetector);
  co_ring : option (list Z);
  co_ring_size : Z;
  co_playing : bool;
  co_volume : Z;
  co_muted : bool;
  co_sample_rate : Z;
  co_channels : Z;
  co_format : AudioFormat;
  co_ring_format : RingFormat;
  co_device_name : option string;
  co_samples_played : Z;
  co_correction : Z;
  co_net_adjust : Z;
  co_bit_perfect : bool;
  co_underruns : Z;
  co_cached_device : option (option string * CpalDevice * DeviceSampleSupport);
  co_flac : option flac_state
}.

Definition CpalOutput_new : CpalOutput :=
  mkCpal None None 0 false 1000 false 0 0 PcmS16le S16 None 0 0 0 false 0 None None.

Definition set_cached (o : CpalOutput) (c : option (option string * CpalDevice * DeviceSampleSupport)) : CpalOutput :=
  mkCpal (co_stream o) (co_ring o) (co_ring_size o) (co_playing o) (co_volume o) (co_muted o)
    (co_sample_rate o) (co_channels o) (co_format o) (co_ring_format o) (co_device_name o)
    (co_samples_played o) (co_correction o) (co_net_adjust o) (co_bit_perfect o) (co_underruns o)
    c (co_flac o).

(** [resolve_device] without the cache: the first device whose name contains
    the one asked for, or the default. *)
Definition find_device (host : Host) (device_name : option string) : result CpalDevice string :=
  let fallback := match host_default host with Some d => Ok d | None => Err "no audio output device found"%string end in
  match device_name with
  | None => fallback
  | Some name =>
      match host_devices host with
      | Err e => Err e
      | Ok ds =>
          match List.find (λ d, match cd_name d with
                                | Some n => contains (to_lowercase n) (to_lowercase name)
                                | None => false
                                end) ds with
          | Some d => Ok d
          | None => fallback
          end
      end
  end.

Definition resolve_device (o : CpalOutput) (host : Host) (device_name : option string)
  : result (CpalDevice * DeviceSampleSupport) string * CpalOutput :=
  let miss :=
    match find_device host device_name with
    | Err e => (Err e, o)
    | Ok d => (Ok (d, probe_support d), set_cached o (Some (device_name, d, probe_support d)))
    end in
  match co_cached_device o with
  | Some (key, d, support) => if bool_decide (key = device_name) then (Ok (d, support), o) else miss
  | None => miss
  end.

Definition prewarm (o : CpalOutput) (host : Host) (device_name : option string) : CpalOutput :=
  (resolve_device o host device_name).2.

Definition cpal_stop (o : CpalOutput) : CpalOutput :=
  mkCpal None None (co_ring_size o) false (co_volume o) (co_muted o)
    (co_sample_rate o) (co_channels o) (co_format o) (co_ring_format o) (co_device_name o)
    (co_samples_played o) (co_correction o) (co_net_adjust o) (co_bit_perfect o) (co_underruns o)
    (co_cached_device o) (co_flac o).

(** [configure_with_device]; [build] is what opening the stream returns. *)
Definition cpal_configure (o : CpalOutput) (host : Host) (fmt : AudioFormat) (rate channels : Z)
    (device_name : option string) (build : result unit string) : result unit string * CpalOutput :=
  let o := cpal_stop o in
  let rf := ring_format_of fmt in
  let flac := if bool_decide (fmt = Flac) then Some flac_new else None in
  let o := mkCpal None None (co_ring_size o) false (co_volume o) (co_muted o) rate channels fmt rf
             (co_device_name o) (co_samples_played o) (co_correction o) (co_net_adjust o)
             (co_bit_perfect o) (co_underruns o) (co_cached_device o) flac in
  match resolve_device o host device_name with
  | (Err e, o) => (Err e, o)
  | (Ok (device, support), o) =>
      let kind := out_kind rf support in
      let ring_size := ring_buffer_frames rate * channels * Z.of_nat (ring_bytes_per_sample rf) in
      let integer_out := match kind with F32Out => bool_decide (rf = F32) | _ => true end in
      let opened stream ring :=
        mkCpal stream ring ring_size false (co_volume o) (co_muted o) rate channels fmt rf
          (Some (default ""%string (cd_name device))) 0 0 0 integer_out 0 (co_cached_device o) flac in
      match build with
      | Err e => (Err e, opened None None)
      | Ok _ => (Ok tt, opened (Some (kind, UnderrunDetector_default)) (Some []))
      end
  end.

Definition set_co_playing (o : CpalOutput) (p : bool) : CpalOutput :=
  mkCpal (co_stream o) (co_ring o) (co_ring_size o) p (co_volume o) (co_muted o)
    (co_sample_rate o) (co_channels o) (co_format o) (co_ring_format o) (co_device_name o)
    (co_samples_played o) (co_correction o) (co_net_adjust o) (co_bit_perfect o) (co_underruns o)
    (co_cached_device o) (co_flac o).

Definition cpal_play (o : CpalOutput) : CpalOutput :=
  match co_stream o with Some _ => set_co_playing o true | None => o end.
Definition cpal_pause (o : CpalOutput) : CpalOutput := set_co_playing o false.
Definition cpal_release (o : CpalOutput) : CpalOutput := cpal_stop o.

(** [flush]: reconfigures without a device name. *)
Definition cpal_flush (o : CpalOutput) (host : Host) (build : result unit string) : CpalOutput :=
  cpal_play (cpal_configure (cpal_stop o) host (co_format o) (co_sample_rate o) (co_channels o) None build).2.

Definition cpal_set_volume (o : CpalOutput) (level : Z) : CpalOutput :=
  mkCpal (co_stream o) (co_ring o) (co_ring_size o) (co_playing o) (Z.min (level * 1000 / 100) 1000) (co_muted o)
    (co_sample_rate o) (co_channels o) (co_format o) (co_ring_format o) (co_device_name o)
    (co_samples_played o) (co_correction o) (co_net_adjust o) (co_bit_perfect o) (co_underruns o)
    (co_cached_device o) (co_flac o).

Definition cpal_set_mute (o : CpalOutput) (muted : bool) : CpalOutput :=
  mkCpal (co_stream o) (co_ring o) (co_ring_size o) (co_playing o) (co_volume o) muted
    (co_sample_rate o) (co_channels o) (co_format o) (co_ring_format o) (co_device_name o)
    (co_samples_played o) (co_correction o) (co_net_adjust o) (co_bit_perfect o) (co_underruns o)
    (co_cached_device o) (co_flac o).

Definition set_correction (o : CpalOutput) (frames : Z) : CpalOutput :=
  mkCpal (co_stream o) (co_ring o) (co_ring_size o) (co_playing o) (co_volume o) (co_muted o)
    (co_sample_rate o) (co_channels o) (co_format o) (co_ring_format o) (co_device_name o)
    (co_samples_played o) frames (co_net_adjust o) (co_bit_perfect o) (co_underruns o)
    (co_cached_device o) (co_flac o).

(** ** The callback

    The device asks for [n] samples. *)
Definition cpal_callback (o : CpalOutput) (n : nat) : list OutSample * CpalOutput :=
  match co_stream o, co_ring o with
  | Some (kind, det), Some ring =>
      if negb (co_playing o) || co_muted o then (replicate n (out_silence kind), o)
      else
        let bps := ring_bytes_per_sample (co_ring_format o) in
        let got := ((n * bps) `min` length ring)%nat in
        let samples := (got / bps)%nat in
        let scratch := take got ring in
        let '(det, underruns) := observe det samples n (co_underruns o) in
        let output := (λ i, if (i <? samples)%nat
                            then out_convert kind (co_ring_format o) (co_volume o) (take bps (drop (i * bps)%nat scratch))
                            else out_silence kind) <$> seq 0 n in
        (output,
         mkCpal (Some (kind, det)) (Some (drop got ring)) (co_ring_size o) (co_playing o) (co_volume o) (co_muted o)
           (co_sample_rate o) (co_channels o) (co_format o) (co_ring_format o) (co_device_name o)
           (co_samples_played o + Z.of_nat samples) (co_correction o) (co_net_adjust o) (co_bit_perfect o)
           underruns (co_cached_device o) (co_flac o))
  | _, _ => ([], o)
  end.

(** ** Writing *)

Definition MAX_CORRECTION_FRAMES_PER_WRITE : Z := 2.
Definition JUMP_THRESHOLD_FRAMES : Z := 1200.

Definition f32_bytes (samples : list f32) : list Z := concat ((λ s, to_le_bytes 4 (f32_to_bits s)) <$> samples).

(** The payload as ring bytes, [None] when there is nothing to write. *)
Definition ring_payload (o : CpalOutput) (data : list Z) : option (list Z) * CpalOutput :=
  let some_samples samples o := (if bool_decide (samples = []) then None else Some (f32_bytes samples), o) in
  match co_format o with
  | Flac =>
      match co_flac o with
      | Some d =>
          let '(samples, d) := flac_feed d data in
          some_samples samples
            (mkCpal (co_stream o) (co_ring o) (co_ring_size o) (co_playing o) (co_volume o) (co_muted o)
               (co_sample_rate o) (co_channels o) (co_format o) (co_ring_format o) (co_device_name o)
               (co_samples_played o) (co_correction o) (co_net_adjust o) (co_bit_perfect o) (co_underruns o)
               (co_cached_device o) (Some d))
      | None => some_samples (decode_flac_to_f32 data) o
      end
  | DsdU8 | DsdU16le | DsdU32le => some_samples (dsd_to_f32 data (dsd_rate_multiplier (co_format o))) o
  | _ => (Some data, o)
  end.

Definition co_frame_bytes (o : CpalOutput) : nat :=
  (Z.to_nat (Z.max (co_channels o) 1) * ring_bytes_per_sample (co_ring_format o))%nat.

(** The drift correction on a payload of [frames_in] frames: the bytes left to
    push ([None] when the whole payload is dropped) and the frames adjusted,
    dropped counting positively. *)
Definition correct (pending : Z) (frame_bytes : nat) (bytes : list Z) : option (list Z) * Z :=
  let frames_in := Z.of_nat (length bytes / frame_bytes) in
  if (JUMP_THRESHOLD_FRAMES <? pending) && (0 <? frames_in) then
    let drop_frames := Z.min pending frames_in in
    if drop_frames =? frames_in then (None, drop_frames)
    else (Some (drop (Z.to_nat drop_frames * frame_bytes)%nat bytes), drop_frames)
  else if (0 <? pending) && (1 <? frames_in) then
    let drop_frames := Z.min (Z.min pending MAX_CORRECTION_FRAMES_PER_WRITE) (frames_in - 1) in
    if 0 <? drop_frames then (Some (drop (Z.to_nat drop_frames * frame_bytes)%nat bytes), drop_frames)
    else (Some bytes, 0)
  else if (pending <? 0) && (frame_bytes <=? length bytes)%nat then
    let dup_frames := Z.min (- pending) MAX_CORRECTION_FRAMES_PER_WRITE in
    (Some (concat (replicate (Z.to_nat dup_frames) (take frame_bytes bytes)) ++ bytes), - dup_frames)
  else (Some bytes, 0).

Definition cpal_write_audio (o : CpalOutput) (data : list Z) : nat * CpalOutput :=
  match co_ring o with
  | None => (0%nat, o)
  | Some ring =>
      match ring_payload o data with
      | (None, o) => (0%nat, o)
      | (Some bytes, o) =>
          let fb := co_frame_bytes o in
          let '(bytes, adj) := correct (co_correction o) fb bytes in
          let finish ring :=
            mkCpal (co_stream o) (Some ring) (co_ring_size o) (co_playing o) (co_volume o) (co_muted o)
              (co_sample_rate o) (co_channels o) (co_format o) (co_ring_format o) (co_device_name o)
              (co_samples_played o) (co_correction o - adj) (co_net_adjust o + adj) (co_bit_perfect o)
              (co_underruns o) (co_cached_device o) (co_flac o) in
          match bytes with
          | None => (0%nat, finish ring)
          | Some bytes =>
              let available := (Z.to_nat (co_ring_size o) - length ring)%nat in
              let frames_to_push := ((available / fb) `min` (length bytes / fb))%nat in
              (frames_to_push, finish (ring ++ take (frames_to_push * fb)%nat bytes))
          end
      end
  end.

Definition buffer_level (o : CpalOutput) : Z :=
  match co_ring o with Some r => Z.of_nat (length r / co_frame_bytes o) | None => 0 end.

Definition frames_played (o : CpalOutput) : option Z :=
  if co_channels o =? 0 then None else Some (co_samples_played o / co_channels o).

Definition content_position (o : CpalOutput) : option Z :=
  (λ played, Z.max (played + co_net_adjust o) 0) <$> frames_played o.

End output.

(** ** Lemmas: the drift correction *)

Lemma length_div_drop {A} fb n (l : list A) :
  (0 < fb)%nat → (n ≤ length l / fb)%nat → (length (drop (n * fb) l) / fb = length l / fb - n)%nat.
Proof.
  intros Hfb Hn. rewrite length_drop.
  pose proof (Nat.div_mod (length l) fb ltac:(lia)) as E. pose proof (Nat.mod_upper_bound (length l) fb ltac:(lia)).
  symmetry. apply (Nat.div_unique _ _ _ (length l mod fb)); [done|]. nia.
Qed.

Lemma length_concat_replicate {A} k (x : list A) : length (concat (replicate k x)) = (k * length x)%nat.
Proof. induction k as [|k IH]; simpl; [done|]. by rewrite length_app, IH. Qed.

(** A payload with [adj] frames dropped from its beginning, or its first frame
    repeated [- adj] times before it. *)
Definition adjusted (fb : nat) (adj : Z) (bytes : list Z) : list Z :=
  if 0 <=? adj then drop (Z.to_nat adj * fb)%nat bytes
  else concat (replicate (Z.to_nat (- adj)) (take fb bytes)) ++ bytes.

Lemma adjusted_0 fb bytes : adjusted fb 0 bytes = bytes.
Proof. done. Qed.

(** What [correct] does to a payload of [n] frames: it removes [adj] frames
    (adds them when negative), never past the correction asked for nor the
    payload; a packet of two frames or more is always adjusted. *)
Lemma correct_spec pending fb bytes out adj :
  (0 < fb)%nat → correct pending fb bytes = (out, adj) →
  let n := Z.of_nat (length bytes / fb) in
  Z.of_nat (match out with Some b => length b / fb | None => 0 end)%nat = n - adj ∧
  (0 ≤ adj ≤ pending ∨ pending ≤ adj ≤ 0) ∧ -2 ≤ adj ≤ n ∧ (pending ≤ JUMP_THRESHOLD_FRAMES → adj ≤ 2) ∧
  (pending ≠ 0 → 2 ≤ n → adj ≠ 0) ∧ (pending = 0 → out = Some bytes ∧ adj = 0) ∧
  (∀ b, out = Some b → b = adjusted fb adj bytes).
Proof.
  intros Hfb Hc n. unfold correct, MAX_CORRECTION_FRAMES_PER_WRITE, JUMP_THRESHOLD_FRAMES in *. fold n in Hc.
  assert (0 ≤ n) by lia.
  destruct ((1200 <? pending) && (0 <? n)) eqn:E1.
  { apply andb_true_iff in E1 as [?%Z.ltb_lt ?%Z.ltb_lt].
    destruct (Z.eqb_spec (Z.min pending n) n) as [E|Hne]; simplify_eq; [split_and!; done || lia|].
    rewrite length_div_drop by lia. split_and!; try lia.
    intros b [= <-]. unfold adjusted. by rewrite (proj2 (Z.leb_le _ _)) by lia. }
  destruct ((0 <? pending) && (1 <? n)) eqn:E2.
  { apply andb_true_iff in E2 as [?%Z.ltb_lt ?%Z.ltb_lt].
    destruct (Z.ltb_spec 0 (Z.min (Z.min pending 2) (n - 1))); simplify_eq; [|lia].
    rewrite length_div_drop by lia. apply andb_false_iff in E1 as [?%Z.ltb_ge|?%Z.ltb_ge]; split_and!; try lia;
      intros b [= <-]; unfold adjusted; by rewrite (proj2 (Z.leb_le _ _)) by lia. }
  destruct ((pending <? 0) && (fb <=? length bytes)%nat) eqn:E3; simplify_eq.
  { apply andb_true_iff in E3 as [?%Z.ltb_lt ?%Nat.leb_le].
    rewrite length_app, length_concat_replicate, length_take, Nat.min_l by done.
    rewrite Nat.div_add_l by lia. split_and!; try lia.
    intros b [= <-]. unfold adjusted. by rewrite (proj2 (Z.leb_gt _ _)), Z.opp_involutive by lia. }
  split_and!; try done; try lia; [|by intros b [= <-]]. intros Hp H2. exfalso.
  assert (1 ≤ length bytes / fb)%nat by lia.
  assert (fb ≤ length bytes)%nat.
  { pose proof (Nat.Div0.mul_div_le (length bytes) fb). nia. }
  rewrite !andb_false_iff, ?Z.ltb_ge, ?Nat.leb_gt in *. lia.
Qed.

Section output_lemmas.
Context `{FlacStream} (dec : list Z → list f32).

Abbreviation write_audio := (cpal_write_audio dec).

Lemma ring_payload_same o data b o' :
  ring_payload dec o data = (b, o') →
  co_ring o' = co_ring o ∧ co_stream o' = co_stream o ∧ co_ring_size o' = co_ring_size o ∧
  co_playing o' = co_playing o ∧ co_volume o' = co_volume o ∧ co_muted o' = co_muted o ∧
  co_channels o' = co_channels o ∧ co_ring_format o' = co_ring_format o ∧
  co_samples_played o' = co_samples_played o ∧ co_correction o' = co_correction o ∧
  co_net_adjust o' = co_net_adjust o ∧ co_format o' = co_format o.
Proof.
  unfold ring_payload. intros Hr. destruct (co_format o) eqn:Ef; simplify_eq; try done.
  destruct (co_flac o) as [d|]; [|by simplify_eq]. destruct (flac_feed d data). by simplify_eq.
Qed.

(** The frames of a payload, as ring frames. *)
Definition payload_frames (o : CpalOutput) (data : list Z) : Z :=
  match (ring_payload dec o data).1 with Some b => Z.of_nat (length b / co_frame_bytes o) | None => 0 end.

(** The bytes of a payload, and the frames of it a write has for the ring once
    the correction is applied. *)
Definition payload_bytes (o : CpalOutput) (data : list Z) : list Z := default [] (ring_payload dec o data).1.

Definition frames_offered (o : CpalOutput) (data : list Z) : Z :=
  match (ring_payload dec o data).1 with
  | Some b =>
      match (correct (co_correction o) (co_frame_bytes o) b).1 with
      | Some b => Z.of_nat (length b / co_frame_bytes o)
      | None => 0
      end
  | None => 0
  end.

(** A running output: its ring holds whole frames, and its position is a
    whole number of frames. *)
Record cpal_running (o : CpalOutput) (ring : list Z) : Prop := {
  cr_ring : co_ring o = Some ring;
  cr_stream : is_Some (co_stream o);
  cr_channels : 0 < co_channels o;
  cr_whole : (length ring mod co_frame_bytes o = 0)%nat;
  cr_played : co_samples_played o mod co_channels o = 0
}.

Lemma co_frame_bytes_pos o : (0 < co_frame_bytes o)%nat.
Proof. unfold co_frame_bytes. assert (0 < Z.to_nat (Z.max (co_channels o) 1))%nat by lia. destruct (co_ring_format o); simpl; lia. Qed.

Lemma mod_0_mul n fb : (0 < fb)%nat → (n mod fb = 0)%nat → ∃ k, n = (k * fb)%nat.
Proof. intros Hfb Hm. exists (n / fb)%nat. pose proof (Nat.div_mod n fb ltac:(lia)). lia. Qed.

(** One write: the correction applied moves from pending to applied, the ring
    gains the frames returned, from the front of the adjusted payload, and all
    that is offered when there is room. *)
Lemma write_spec o ring data n o' :
  cpal_running o ring → write_audio o data = (n, o') →
  ∃ adj bytes, cpal_running o' (ring ++ bytes) ∧
    length bytes = (n * co_frame_bytes o)%nat ∧
    co_correction o' = co_correction o - adj ∧ co_net_adjust o' = co_net_adjust o + adj ∧
    (0 ≤ adj ≤ co_correction o ∨ co_correction o ≤ adj ≤ 0) ∧
    (co_correction o ≠ 0 → 2 ≤ payload_frames o data → adj ≠ 0) ∧
    frames_offered o data = payload_frames o data - adj ∧ Z.of_nat n ≤ frames_offered o data ∧
    (Z.of_nat (length ring) + (payload_frames o data + 2) * Z.of_nat (co_frame_bytes o) ≤ co_ring_size o →
       Z.of_nat n = frames_offered o data) ∧
    (co_correction o ≤ JUMP_THRESHOLD_FRAMES → -2 ≤ adj ≤ 2) ∧
    bytes = take (n * co_frame_bytes o) (adjusted (co_frame_bytes o) adj (payload_bytes o data)) ∧
    co_samples_played o' = co_samples_played o ∧ co_channels o' = co_channels o ∧
    co_ring_format o' = co_ring_format o ∧ co_ring_size o' = co_ring_size o ∧ co_format o' = co_format o.
Proof.
  intros [Hring Hst Hch Hw Hp] Hwr. unfold cpal_write_audio in Hwr. rewrite Hring in Hwr.
  unfold frames_offered, payload_frames, payload_bytes. destruct (ring_payload dec o data) as [b o1] eqn:Er.
  destruct (ring_payload_same _ _ _ _ Er) as (Hr1 & Hs1 & Hz1 & Hpl1 & Hv1 & Hm1 & Hc1 & Hf1 & Hsp1 & Hco1 & Hn1 & Hfm1).
  assert (co_frame_bytes o1 = co_frame_bytes o) as Hfb by (unfold co_frame_bytes; by rewrite Hc1, Hf1).
  pose proof (co_frame_bytes_pos o) as Hpos. destruct b as [bytes|].
  - rewrite Hfb in Hwr. rewrite Hco1 in Hwr. simpl.
    destruct (correct (co_correction o) (co_frame_bytes o) bytes) as [out adj] eqn:Ec.
    destruct (correct_spec _ _ _ _ _ Hpos Ec) as (Hout & Hadj & Hlo & Hfine & Hne & _ & Hshape). simpl.
    destruct out as [bs|]; simplify_eq/=.
    + set (m := ((Z.to_nat (co_ring_size o1) - length ring) / co_frame_bytes o)%nat) in *.
      exists adj, (take ((m `min` (length bs / co_frame_bytes o)) * co_frame_bytes o)%nat bs).
      assert ((m `min` (length bs / co_frame_bytes o)) * co_frame_bytes o ≤ length bs)%nat as Hle.
      { pose proof (Nat.Div0.mul_div_le (length bs) (co_frame_bytes o)). nia. }
      split_and!; try done; try congruence; try lia.
      * split; simpl; [done|by rewrite Hs1|by rewrite Hc1| |by rewrite Hsp1, Hc1].
        unfold co_frame_bytes. simpl. rewrite Hc1, Hf1. fold (co_frame_bytes o).
        rewrite length_app, length_take, Nat.min_l by lia.
        rewrite Nat.Div0.mod_add. done.
      * rewrite length_take. lia.
      * intros Hroom. rewrite Nat.min_r; [lia|]. apply Nat.div_le_lower_bound; [lia|].
        pose proof (Nat.Div0.mul_div_le (length bs) (co_frame_bytes o)). nia.
      * by rewrite (Hshape bs eq_refl).
    + exists adj, []. rewrite app_nil_r. split_and!; try done; try congruence; try lia.
      split; simpl; [done|by rewrite Hs1|by rewrite Hc1| |by rewrite Hsp1, Hc1].
      unfold co_frame_bytes. simpl. by rewrite Hc1, Hf1.
  - simplify_eq/=. exists 0, []. rewrite app_nil_r. split_and!; try done; try congruence; try lia.
    split; congruence.
Qed.

Lemma bps_pos o : (0 < ring_bytes_per_sample (co_ring_format o))%nat.
Proof. destruct (co_ring_format o); simpl; lia. Qed.

Lemma co_frame_bytes_channels o :
  0 < co_channels o → co_frame_bytes o = (Z.to_nat (co_channels o) * ring_bytes_per_sample (co_ring_format o))%nat.
Proof. intros. unfold co_frame_bytes. by rewrite Z.max_l by lia. Qed.

(** One callback of whole frames: it takes whole frames from the front of the
    ring, and counts them as played. *)
Lemma callback_spec o ring frames out o' :
  cpal_running o ring → cpal_callback o (frames * Z.to_nat (co_channels o)) = (out, o') →
  ∃ k rest, cpal_running o' rest ∧ ring = take (k * co_frame_bytes o) ring ++ rest ∧
    (k ≤ length ring / co_frame_bytes o)%nat ∧
    co_samples_played o' = co_samples_played o + Z.of_nat k * co_channels o ∧
    co_correction o' = co_correction o ∧ co_net_adjust o' = co_net_adjust o ∧
    co_channels o' = co_channels o ∧ co_ring_format o' = co_ring_format o ∧ co_ring_size o' = co_ring_size o ∧
    co_format o' = co_format o.
Proof.
  intros [Hring Hst Hch Hw Hp] Hcb. unfold cpal_callback in Hcb. rewrite Hring in Hcb.
  destruct Hst as [[kind det] Hst]. rewrite Hst in Hcb.
  destruct (negb (co_playing o) || co_muted o).
  { simplify_eq. exists 0%nat, ring. split_and!; try done; simpl; lia. }
  set (bps := ring_bytes_per_sample (co_ring_format o)) in *.
  set (ch := Z.to_nat (co_channels o)) in *. pose proof (bps_pos o) as Hbps. fold bps in Hbps.
  assert (0 < ch)%nat as Hch' by lia.
  assert (co_frame_bytes o = ch * bps)%nat as Hfb by by apply co_frame_bytes_channels.
  destruct (mod_0_mul _ _ (co_frame_bytes_pos o) Hw) as [q Hq].
  set (k := (frames `min` q)%nat).
  assert ((frames * ch * bps) `min` length ring = k * ch * bps)%nat as Hgot.
  { rewrite Hq, Hfb. unfold k. nia. }
  rewrite Hgot in Hcb. assert ((k * ch * bps) / bps = k * ch)%nat as Hs by (rewrite Nat.div_mul; lia).
  rewrite Hs in Hcb. destruct (observe det (k * ch) (frames * ch) (co_underruns o)) as [det' u'].
  simplify_eq. exists k, (drop (k * ch * bps) ring). simpl.
  assert (k * ch * bps = k * co_frame_bytes o)%nat as -> by (rewrite Hfb; lia).
  assert (k ≤ q)%nat by (unfold k; lia).
  split_and!; try done.
  - split; simpl; [done|by eexists|done| |].
    + change (co_frame_bytes _) with (co_frame_bytes o). rewrite length_drop, Hq, <- Nat.mul_sub_distr_r.
      apply Nat.Div0.mod_mul.
    + rewrite Nat2Z.inj_mul. unfold ch. rewrite Z2Nat.id by lia. by rewrite Z.mod_add by lia.
  - by rewrite take_drop.
  - rewrite Hq, Nat.div_mul by (pose proof (co_frame_bytes_pos o); lia). done.
  - rewrite Nat2Z.inj_mul. unfold ch. rewrite Z2Nat.id by lia. done.
Qed.

(** ** Runs

    What the application and the device do to a running output. *)
Inductive CpalOp :=
| OpWrite (data : list Z)
| OpCallback (frames : nat)
| OpCorrect (frames : Z)
| OpPlay
| OpPause
| OpMute (muted : bool)
| OpVolume (level : Z).

Definition cpal_op (o : CpalOutput) (op : CpalOp) : CpalOutput :=
  match op with
  | OpWrite data => (write_audio o data).2
  | OpCallback frames => (cpal_callback o (frames * Z.to_nat (co_channels o))).2
  | OpCorrect frames => set_correction o frames
  | OpPlay => cpal_play o
  | OpPause => cpal_pause o
  | OpMute muted => cpal_set_mute o muted
  | OpVolume level => cpal_set_volume o level
  end.

(** The frames written in a run. *)
Fixpoint frames_written (o : CpalOutput) (ops : list CpalOp) : Z :=
  match ops with
  | [] => 0
  | op :: ops =>
      (match op with OpWrite data => payload_frames o data | _ => 0 end) + frames_written (cpal_op o op) ops
  end.

(** The frames, after the correction, that a full ring refused: [write_audio]
    returns fewer than it had, and the rest is lost. *)
Fixpoint frames_refused (o : CpalOutput) (ops : list CpalOp) : Z :=
  match ops with
  | [] => 0
  | op :: ops =>
      (match op with
       | OpWrite data => frames_offered o data - Z.of_nat (write_audio o data).1
       | _ => 0
       end) + frames_refused (cpal_op o op) ops
  end.

(** Each payload has room in the ring, two duplicated frames included. *)
Fixpoint has_room (o : CpalOutput) (ops : list CpalOp) : Prop :=
  match ops with
  | [] => True
  | op :: ops =>
      match op with
      | OpWrite data =>
          match co_ring o with
          | Some ring => Z.of_nat (length ring) + (payload_frames o data + 2) * Z.of_nat (co_frame_bytes o) ≤ co_ring_size o
          | None => False
          end
      | _ => True
      end ∧ has_room (cpal_op o op) ops
  end.

(** The position on the stream of the next frame to leave the ring. *)
Definition stream_position (o : CpalOutput) (ring : list Z) : Z :=
  co_samples_played o / co_channels o + co_net_adjust o + Z.of_nat (length ring / co_frame_bytes o).

Lemma run_position ops o ring :
  cpal_running o ring →
  0 ≤ frames_refused o ops ∧ (has_room o ops → frames_refused o ops = 0) ∧
  ∃ ring', cpal_running (fold_left cpal_op ops o) ring' ∧
    stream_position (fold_left cpal_op ops o) ring' =
      stream_position o ring + frames_written o ops - frames_refused o ops.
Proof.
  revert o ring. induction ops as [|op ops IH]; intros o ring Hrun; simpl in *.
  { split_and!; [done|done|]. exists ring. split; [done|lia]. }
  assert (∃ ring1, cpal_running (cpal_op o op) ring1 ∧
            stream_position (cpal_op o op) ring1 =
              stream_position o ring + match op with OpWrite data => payload_frames o data | _ => 0 end
              - match op with OpWrite data => frames_offered o data - Z.of_nat (write_audio o data).1 | _ => 0 end)
    as (ring1 & Hrun1 & Hpos1).
  { pose proof (co_frame_bytes_pos o) as Hfb. destruct op; simpl.
    - destruct (write_audio o data) as [n o1] eqn:E.
      destruct (write_spec _ _ _ _ _ Hrun E) as
        (adj & bytes & Hrun1 & Hlen & _ & Hnet & _ & _ & Hoff & _ & _ & _ & _ & Hsp & Hch & Hrf & _).
      exists (ring ++ bytes). split; [done|]. unfold stream_position. simpl. rewrite Hsp, Hch, Hnet, Hoff.
      replace (co_frame_bytes o1) with (co_frame_bytes o) by (unfold co_frame_bytes; by rewrite Hch, Hrf).
      rewrite length_app, Hlen, Nat.div_add by lia. lia.
    - destruct (cpal_callback o _) as [out o1] eqn:E.
      destruct (callback_spec _ _ _ _ _ Hrun E) as (k & rest & Hrun1 & Hring & Hk & Hsp & _ & Hnet & Hch & Hrf & _).
      exists rest. split; [done|]. unfold stream_position. simpl. rewrite Hsp, Hnet, Hch.
      replace (co_frame_bytes o1) with (co_frame_bytes o) by (unfold co_frame_bytes; by rewrite Hch, Hrf).
      pose proof (cr_channels _ _ Hrun). rewrite Z.div_add by lia.
      apply (f_equal length) in Hring. rewrite length_app, length_take in Hring.
      assert (k * co_frame_bytes o ≤ length ring)%nat
        by (pose proof (Nat.Div0.mul_div_le (length ring) (co_frame_bytes o)); nia).
      rewrite Nat.min_l in Hring by done. rewrite Hring, Nat.add_comm, Nat.div_add by lia. lia.
    - exists ring. destruct Hrun. split; [by split|]. by rewrite Z.add_0_r, Z.sub_0_r.
    - exists ring. destruct Hrun as [? [s Hs] ? ? ?]. unfold cpal_play. rewrite Hs. split; [split; try done; by eexists|].
      by rewrite Z.add_0_r, Z.sub_0_r.
    - exists ring. destruct Hrun. split; [by split|]. by rewrite Z.add_0_r, Z.sub_0_r.
    - exists ring. destruct Hrun. split; [by split|]. by rewrite Z.add_0_r, Z.sub_0_r.
    - exists ring. destruct Hrun. split; [by split|]. by rewrite Z.add_0_r, Z.sub_0_r. }
  destruct (IH _ _ Hrun1) as (Hnn & Hfull & ring' & Hrun' & Hpos').
  assert (∀ data, op = OpWrite data → Z.of_nat (write_audio o data).1 ≤ frames_offered o data) as Hle.
  { intros data ->. destruct (write_audio o data) as [n o1] eqn:E.
    by destruct (write_spec _ _ _ _ _ Hrun E) as (adj & bytes & _ & _ & _ & _ & _ & _ & _ & ? & _). }
  split_and!.
  - destruct op; try lia. specialize (Hle data eq_refl). lia.
  - intros [Hop Hroom]. rewrite (Hfull Hroom). destruct op; try lia. rewrite (cr_ring _ _ Hrun) in Hop.
    destruct (write_audio o data) as [n o1] eqn:E.
    destruct (write_spec _ _ _ _ _ Hrun E) as (adj & bytes & _ & _ & _ & _ & _ & _ & _ & _ & Hn & _).
    specialize (Hn Hop). simpl. lia.
  - exists ring'. split; [done|]. destruct op; lia.
Qed.

End output_lemmas.

(** ** Lemmas: what the device is given *)

Section fifo.
Context `{FlacStream} (dec : list Z → list f32).

(** A callback's output: the samples taken from the front of the ring,
    converted, then silence. *)
Lemma callback_output o ring kind det n k :
  co_ring o = Some ring → co_stream o = Some (kind, det) → co_playing o = true → co_muted o = false →
  let bps := ring_bytes_per_sample (co_ring_format o) in
  length ring = (k * bps)%nat →
  let s := (n `min` k)%nat in
  ∃ o', cpal_callback o n =
      ((out_convert kind (co_ring_format o) (co_volume o) <$> chunks_exact bps (take (s * bps) ring))
         ++ replicate (n - s) (out_silence kind), o') ∧
    co_ring o' = Some (drop (s * bps) ring) ∧ co_samples_played o' = co_samples_played o + Z.of_nat s ∧
    (∃ det', co_stream o' = Some (kind, det')) ∧ co_playing o' = true ∧ co_muted o' = false ∧
    co_volume o' = co_volume o ∧ co_ring_format o' = co_ring_format o ∧ co_format o' = co_format o ∧
    co_correction o' = co_correction o ∧ co_channels o' = co_channels o.
Proof.
  intros Hr Hs Hp Hm bps Hk s. unfold cpal_callback. rewrite Hs, Hr, Hp, Hm. simpl orb. cbv iota. fold bps.
  pose proof (bps_pos o) as Hb. fold bps in Hb.
  assert ((n * bps) `min` length ring = s * bps)%nat as -> by (unfold s; nia).
  rewrite Nat.div_mul by lia. destruct (observe det s n (co_underruns o)) as [det' u].
  eexists. split; [f_equal|by split_and!; eauto].
  rewrite chunks_exact_seq by done. rewrite length_take, Nat.min_l, Nat.div_mul by (unfold s; nia).
  rewrite <- list_fmap_compose. assert (s ≤ n)%nat by (unfold s; lia).
  replace n with (s + (n - s))%nat at 1 by lia. rewrite seq_app, fmap_app. f_equal.
  - apply list_fmap_ext. intros i x Hx. apply lookup_seq in Hx as [-> Hi]. simpl.
    by rewrite (proj2 (Nat.ltb_lt _ _)).
  - apply list_eq. intros i. rewrite list_lookup_fmap. destruct (decide (i < n - s)%nat) as [Hi|Hi].
    + rewrite lookup_seq_lt, lookup_replicate_2 by lia. simpl. by rewrite (proj2 (Nat.ltb_ge _ _)) by lia.
    + rewrite lookup_seq_ge by lia. symmetry. by apply lookup_replicate_None; lia.
Qed.

(** What the callbacks of a run play (silence apart), what its writes were
    given, and the frames they accepted. *)
Fixpoint audible (o : CpalOutput) (ops : list CpalOp) : list OutSample :=
  match ops with
  | [] => []
  | op :: ops =>
      let o' := cpal_op dec o op in
      match op with
      | OpCallback frames =>
          take (Z.to_nat (co_samples_played o' - co_samples_played o))
            (cpal_callback o (frames * Z.to_nat (co_channels o))).1
      | _ => []
      end ++ audible o' ops
  end.

Fixpoint accepted (o : CpalOutput) (ops : list CpalOp) : list Z :=
  match ops with
  | [] => []
  | op :: ops =>
      match op with
      | OpWrite data => take ((cpal_write_audio dec o data).1 * co_frame_bytes o) data
      | _ => []
      end ++ accepted (cpal_op dec o op) ops
  end.

Definition payloads (ops : list CpalOp) : list (list Z) :=
  omap (λ op, match op with OpWrite data => Some data | _ => None end) ops.

Definition whole_frames (fb : nat) (data : list Z) : list Z := take (length data / fb * fb)%nat data.

(** Neither the volume nor the correction changes. *)
Definition keeps_level (op : CpalOp) : bool :=
  match op with OpVolume _ | OpCorrect _ => false | _ => true end.

(** An output of PCM at a constant volume, with no correction pending. *)
Record cpal_steady (o : CpalOutput) (kind : OutKind) (rf : RingFormat) (vol : Z) (fb : nat) (ring : list Z) : Prop := {
  cs_ring : co_ring o = Some ring;
  cs_kind : ∃ det, co_stream o = Some (kind, det);
  cs_volume : co_volume o = vol;
  cs_rf : co_ring_format o = rf;
  cs_frame : co_frame_bytes o = fb;
  cs_pcm : is_pcm (co_format o) = true;
  cs_correction : co_correction o = 0;
  cs_whole : ∃ k, length ring = (k * ring_bytes_per_sample rf)%nat
}.

Lemma ring_payload_pcm o data : is_pcm (co_format o) = true → ring_payload dec o data = (Some data, o).
Proof. unfold ring_payload. by destruct (co_format o). Qed.

Lemma write_steady o kind rf vol fb ring data :
  cpal_steady o kind rf vol fb ring →
  let n := (cpal_write_audio dec o data).1 in
  cpal_steady (cpal_write_audio dec o data).2 kind rf vol fb (ring ++ take (n * fb) data) ∧
  (∃ k, length (take (n * fb) data) = (k * ring_bytes_per_sample rf)%nat) ∧
  (Z.of_nat (length ring) + (payload_frames dec o data + 2) * Z.of_nat fb ≤ co_ring_size o →
     take (n * fb) data = whole_frames fb data).
Proof.
  intros [Hr Hk Hv Hrf Hfb' Hpcm Hc [k Hw]] n.
  pose proof (co_frame_bytes_pos o) as Hfb. rewrite Hfb' in Hfb.
  assert (∃ m, fb = (m * ring_bytes_per_sample rf)%nat) as [m Hm']
    by (rewrite <- Hfb'; unfold co_frame_bytes; rewrite Hrf; eauto).
  assert (cpal_write_audio dec o data =
    (n, mkCpal (co_stream o) (Some (ring ++ take (n * fb) data)) (co_ring_size o) (co_playing o)
          (co_volume o) (co_muted o) (co_sample_rate o) (co_channels o) (co_format o) (co_ring_format o)
          (co_device_name o) (co_samples_played o) (co_correction o - 0) (co_net_adjust o + 0) (co_bit_perfect o)
          (co_underruns o) (co_cached_device o) (co_flac o)) ∧
    n = (((Z.to_nat (co_ring_size o) - length ring) / fb) `min` (length data / fb))%nat) as [Hwr Hn].
  { unfold n, cpal_write_audio. rewrite Hr, ring_payload_pcm, Hc, Hfb' by done. done. }
  pose proof (Nat.Div0.mul_div_le (length data) fb) as Hdiv.
  assert (length (take (n * fb) data) = n * fb)%nat as Hlen by (rewrite length_take; nia).
  split_and!.
  - rewrite Hwr. simpl. split; simpl; [done|done|done|done|exact Hfb'|done|lia|].
    exists (k + n * m)%nat. rewrite length_app, Hlen, Hw, Hm'. lia.
  - exists (n * m)%nat. rewrite Hlen, Hm'. lia.
  - intros Hroom. unfold whole_frames. do 2 f_equal. rewrite Hn. apply Nat.min_r, Nat.div_le_lower_bound; [lia|].
    unfold payload_frames in Hroom. rewrite ring_payload_pcm, Hfb' in Hroom by done. simpl in Hroom. nia.
Qed.

(** What leaves a steady output is what was in it, then what it accepted; what
    it accepted is all the whole frames when there was room for them. *)
Lemma steady_fifo ops o kind rf vol fb ring :
  cpal_steady o kind rf vol fb ring → forallb keeps_level ops = true →
  let conv l := out_convert kind rf vol <$> chunks_exact (ring_bytes_per_sample rf) l in
  (∃ ring', cpal_steady (fold_left (cpal_op dec) ops o) kind rf vol fb ring' ∧
    audible o ops ++ conv ring' = conv ring ++ conv (accepted o ops)) ∧
  (has_room dec o ops → accepted o ops = concat (whole_frames fb <$> payloads ops)).
Proof.
  intros Hst Hops conv. assert (0 < ring_bytes_per_sample rf)%nat as Hb by (destruct rf; simpl; lia).
  revert o ring Hst Hops. induction ops as [|op ops IH]; intros o ring Hst Hops.
  { split; [|done]. exists ring. simpl. split; [done|]. unfold conv. rewrite (chunks_exact_short _ []) by (simpl; lia).
    by rewrite app_nil_r. }
  simpl in Hops. apply andb_true_iff in Hops as [Hop Hops].
  assert (∀ o', cpal_op dec o op = o' → cpal_steady o' kind rf vol fb ring →
    match op with OpWrite _ | OpCallback _ => False | _ => True end →
    (∃ ring', cpal_steady (fold_left (cpal_op dec) (op :: ops) o) kind rf vol fb ring' ∧
      audible o (op :: ops) ++ conv ring' = conv ring ++ conv (accepted o (op :: ops))) ∧
    (has_room dec o (op :: ops) → accepted o (op :: ops) = concat (whole_frames fb <$> payloads (op :: ops)))) as Hquiet.
  { intros o' <- Hst1 Hq. destruct (IH _ ring Hst1 Hops) as [(ring' & Hst' & Heq) Hall].
    destruct op; try done; (split; [by exists ring'|]); intros [_ Hroom]; exact (Hall Hroom). }
  destruct op as [data|frames| | | |m|]; try done;
    try (apply (Hquiet _ eq_refl); [|done]; destruct Hst as [? [d Hk] ? ? ? ? ? ?]; simpl; unfold cpal_play;
         rewrite ?Hk; split; simpl; by eauto).
  - clear Hquiet. cbn [audible accepted fold_left cpal_op].
    destruct (write_steady o kind rf vol fb ring data Hst) as (Hst1 & [j Hj] & Hwhole).
    set (n := (cpal_write_audio dec o data).1) in *. rewrite (cs_frame _ _ _ _ _ _ Hst).
    destruct (IH _ _ Hst1 Hops) as [(ring' & Hst' & Heq) Hall]. split.
    + exists ring'. split; [done|].
      cbn [app]. rewrite Heq. unfold conv. destruct (cs_whole _ _ _ _ _ _ Hst) as [k Hk].
      rewrite (chunks_exact_whole_app _ k ring), (chunks_exact_whole_app _ j _ (accepted _ _)) by done.
      by rewrite !fmap_app, (assoc_L (++)).
    + intros [Hop' Hroom]. rewrite (cs_ring _ _ _ _ _ _ Hst), (cs_frame _ _ _ _ _ _ Hst) in Hop'.
      rewrite (Hwhole Hop'), (Hall Hroom). done.
  - clear Hquiet. cbn [audible accepted fold_left cpal_op].
    assert (∃ s o', (s * ring_bytes_per_sample rf ≤ length ring)%nat ∧
      (cpal_callback o (frames * Z.to_nat (co_channels o))).2 = o' ∧
      cpal_steady o' kind rf vol fb (drop (s * ring_bytes_per_sample rf) ring) ∧
      take (Z.to_nat (co_samples_played o' - co_samples_played o))
        (cpal_callback o (frames * Z.to_nat (co_channels o))).1 = conv (take (s * ring_bytes_per_sample rf) ring))
      as (s & o' & Hs & Ho' & Hst1 & Hout).
    { destruct Hst as [Hr [det Hk] Hv Hrf Hfb Hpcm Hc [k Hw]].
      destruct (negb (co_playing o) || co_muted o) eqn:Epm.
      - exists 0%nat, o. unfold cpal_callback. rewrite Hk, Hr, Epm. simpl.
        split_and!; [lia|done|split; eauto|]. rewrite Z.sub_diag.
        unfold conv. by rewrite (chunks_exact_short _ (take _ ring)) by (simpl; lia).
      - apply orb_false_iff in Epm as [Hp%negb_false_iff Hm].
        pose proof (callback_output o ring kind det (frames * Z.to_nat (co_channels o)) k Hr Hk Hp Hm) as Hcb.
        rewrite Hrf in Hcb. specialize (Hcb Hw).
        destruct Hcb as (o' & Hcb & Hr' & Hsp & Hk' & Hp' & Hm' & Hv' & Hrf' & Hfm' & Hc' & Hch').
        rewrite Hcb. cbn [fst snd]. set (s := (_ `min` k)%nat) in *. exists s, o'.
        assert (s * ring_bytes_per_sample rf ≤ length ring)%nat by (rewrite Hw; unfold s; nia).
        split_and!; [done|done| |].
        + split; try done; try congruence.
          * by rewrite <- Hfb; unfold co_frame_bytes; rewrite Hch', Hrf', Hrf.
          * exists (k - s)%nat. rewrite length_drop, Hw. nia.
        + rewrite Hsp. replace (Z.to_nat _) with s by lia. rewrite take_app_length', Hv; [done|].
          rewrite length_fmap, chunks_exact_seq, length_fmap, length_seq, length_take, Nat.min_l, Nat.div_mul by (done || lia).
          done. }
    rewrite Ho'. destruct (IH _ _ Hst1 Hops) as [(ring' & Hst' & Heq) Hall]. split; [|intros [_ Hroom]; cbn [cpal_op] in Hroom; rewrite Ho' in Hroom; exact (Hall Hroom)].
    exists ring'. split; [done|]. rewrite Hout, <- (assoc_L (++)), Heq. cbn [app]. rewrite (assoc_L (++)). f_equal.
    unfold conv. rewrite <- fmap_app. f_equal.
    rewrite <- (chunks_exact_whole_app _ s) by (done || (rewrite length_take; lia)). by rewrite take_drop.
Qed.

End fifo.

(** ** Lemmas: exact conversions *)

Lemma land_128 b : is_u8 b → (Z.land b 128 =? 0) = (b <? 128).
Proof.
  intros Hb.
  assert (forallb (λ n, Bool.eqb (Z.land (Z.of_nat n) 128 =? 0) (Z.of_nat n <? 128)) (seq 0 256) = true)
    as Hall by by vm_compute.
  rewrite forallb_forall in Hall. specialize (Hall (Z.to_nat b) ltac:(apply in_seq; range)).
  rewrite Z2Nat.id in Hall by range. by apply Bool.eqb_prop.
Qed.

Lemma sign_extend24_exact b :
  length b = 3%nat → Forall is_u8 b → sign_extend24 b = i_from_le_bytes b.
Proof.
  intros Hl Hb. destruct b as [|b0 [|b1 [|b2 [|]]]]; try done.
  rewrite !Forall_cons in Hb. destruct Hb as (H0 & H1 & H2 & _).
  unfold sign_extend24, i_from_le_bytes. simpl nth. rewrite land_128 by done.
  unfold len. cbn [length from_le_bytes]. unfold as_i. change (8 * Z.of_nat 4) with 32. change (8 * Z.of_nat 3) with 24.
  unfold in_u in *. destruct (Z.ltb_spec b2 128); simpl negb; cbv iota.
  - rewrite !Z.mod_small by lia. lia.
  - symmetry. rewrite <- (Z.mod_unique _ _ 1 (b0 + 256 * (b1 + 256 * (b2 + 256 * 0)) + 2 ^ (24 - 1) - 2 ^ 24)) by lia.
    rewrite <- (Z.mod_unique _ _ 1 (b0 + 256 * (b1 + 256 * (b2 + 256 * (255 + 256 * 0))) + 2 ^ (32 - 1) - 2 ^ 32)) by lia.
    lia.
Qed.

(** The sample a wire sample [b] of an integer format should be for the
    device: its value, left-justified in the device's width. The value of a
    24-bit sample in four bytes is in the low three. *)
Definition sample_bytes (rf : RingFormat) (b : list Z) : list Z :=
  match rf with S24In32 => take 3 b | _ => b end.

Definition exact_sample (rf : RingFormat) (kind : OutKind) (b : list Z) : OutSample :=
  match kind with
  | I16Out => OutI16 (i_from_le_bytes (sample_bytes rf b))
  | _ => OutI32 (i_from_le_bytes (sample_bytes rf b) * 2 ^ (32 - 8 * len (sample_bytes rf b)))
  end.

(** The integer layouts that a device stream takes as they are. *)
Definition exact_path (rf : RingFormat) (kind : OutKind) : bool :=
  match rf, kind with
  | S16, I16Out | S16, I32Out | S24, I32Out | S24In32, I32Out | S32, I32Out => true
  | _, _ => false
  end.

Lemma i_from_le_bytes_range b : Forall is_u8 b → b ≠ [] → in_i (8 * len b) (i_from_le_bytes b).
Proof. intros _ Hne. apply as_i_range. destruct b; [done|]. rewrite len_cons. pose proof (len_nonneg b). lia. Qed.

Lemma as_i_period w z k : 0 < w → as_i w (z + k * 2 ^ w) = as_i w z.
Proof.
  intros Hw. unfold as_i. replace (z + k * 2 ^ w + 2 ^ (w - 1)) with (z + 2 ^ (w - 1) + k * 2 ^ w) by lia.
  rewrite Z.mod_add; [done|]. pose proof (Z.pow_pos_nonneg 2 w ltac:(lia) ltac:(lia)). lia.
Qed.

(** [as_i] adds a multiple of the modulus. *)
Lemma as_i_congr w z : 0 < w → ∃ k, as_i w z = z + k * 2 ^ w.
Proof.
  intros Hw. exists (- ((z + 2 ^ (w - 1)) / 2 ^ w)). unfold as_i.
  rewrite Z.mod_eq by (pose proof (Z.pow_pos_nonneg 2 w ltac:(lia) ltac:(lia)); lia). lia.
Qed.

(** A four-byte sample shifted left by eight bits keeps its low three bytes. *)
Lemma shift_s24in32 b :
  length b = 4%nat → Forall is_u8 b →
  as_i 32 (Z.shiftl (i_from_le_bytes b) 8) = i_from_le_bytes (take 3 b) * 2 ^ 8.
Proof.
  intros Hl Hb. assert (Forall is_u8 (take 3 b)) as Hb3 by by apply Forall_take.
  destruct b as [|b0 [|b1 [|b2 [|b3 [|]]]]]; try done. simpl take in *.
  pose proof (i_from_le_bytes_range [b0; b1; b2] Hb3 ltac:(done)) as Hr. unfold len in Hr. cbn [length] in Hr.
  rewrite Z.shiftl_mul_pow2 by lia. unfold i_from_le_bytes, len in *. cbn [length from_le_bytes] in *.
  change (8 * Z.of_nat 4) with 32. change (8 * Z.of_nat 3) with 24 in *.
  destruct (as_i_congr 32 (b0 + 256 * (b1 + 256 * (b2 + 256 * (b3 + 256 * 0)))) ltac:(lia)) as [k ->].
  destruct (as_i_congr 24 (b0 + 256 * (b1 + 256 * (b2 + 256 * 0))) ltac:(lia)) as [j Hj]. rewrite Hj in *.
  set (y := b0 + 256 * (b1 + 256 * (b2 + 256 * 0))) in *.
  replace ((b0 + 256 * (b1 + 256 * (b2 + 256 * (b3 + 256 * 0))) + k * 2 ^ 32) * 2 ^ 8)
    with ((y + j * 2 ^ 24) * 2 ^ 8 + (b3 - j + k * 2 ^ 8) * 2 ^ 32) by (unfold y; lia).
  rewrite as_i_period by lia. apply as_i_id; [lia|]. unfold in_i in *. simpl in Hr |- *. lia.
Qed.

Lemma out_convert_exact rf kind b :
  exact_path rf kind = true → length b = ring_bytes_per_sample rf → Forall is_u8 b →
  out_convert kind rf 1000 b = exact_sample rf kind b.
Proof.
  intros Hx Hl Hb. assert (b ≠ []) as Hne by (intros ->; by destruct rf).
  pose proof (i_from_le_bytes_range b Hb Hne) as Hr.
  assert (len b = Z.of_nat (ring_bytes_per_sample rf)) as Hlen by (unfold len; by rewrite Hl). rewrite Hlen in Hr.
  unfold exact_sample, out_convert. destruct rf, kind; try done; simpl Z.eqb; cbv iota; cbn [sample_bytes];
    rewrite ?Hlen.
  - by destruct b as [|? [|? [|]]].
  - unfold to_i32. assert (le2 b = b) as -> by (by destruct b as [|? [|? [|]]]).
    f_equal. rewrite Z.shiftl_mul_pow2 by lia. change (32 - 8 * Z.of_nat _) with 16.
    apply as_i_id; [lia|]. unfold in_i in *. simpl in Hr. lia.
  - f_equal. unfold to_i32. rewrite sign_extend24_exact by done. rewrite Z.shiftl_mul_pow2 by lia.
    change (32 - 8 * Z.of_nat _) with 8. apply as_i_id; [lia|]. unfold in_i in *. simpl in Hr. lia.
  - f_equal. unfold to_i32. assert (le4 b = b) as -> by (by destruct b as [|? [|? [|? [|? [|]]]]]).
    rewrite shift_s24in32 by done. unfold len. by rewrite length_take, Hl.
  - assert (le4 b = b) as Hle by (by destruct b as [|? [|? [|? [|? [|]]]]]).
    unfold to_i32. rewrite Hle. f_equal. change (32 - 8 * Z.of_nat _) with 0. lia.
Qed.

Lemma fmap_chunks_exact kind rf l :
  exact_path rf kind = true → Forall is_u8 l →
  out_convert kind rf 1000 <$> chunks_exact (ring_bytes_per_sample rf) l
  = exact_sample rf kind <$> chunks_exact (ring_bytes_per_sample rf) l.
Proof.
  intros Hx Hl. assert (0 < ring_bytes_per_sample rf)%nat as Hb by (destruct rf; simpl; lia).
  apply list_fmap_ext. intros i c Hc. apply list_elem_of_lookup_2 in Hc.
  pose proof (chunks_exact_lengths (ring_bytes_per_sample rf) l Hb) as Hls. rewrite Forall_forall in Hls.
  apply out_convert_exact; [done|by apply Hls|].
  pose proof (chunks_Forall is_u8 (ring_bytes_per_sample rf) l Hb Hl) as Hall. rewrite Forall_forall in Hall. by apply Hall.
Qed.

Section correction.
Context `{FlacStream} (dec : list Z → list f32).

Definition is_write (op : CpalOp) : bool := match op with OpWrite _ => true | _ => false end.

(** A run without a new correction: pending and applied correction add up,
    and each write of two frames or more brings the pending one closer to
    zero. *)
Lemma run_correction ops o ring fb :
  cpal_running o ring → is_pcm (co_format o) = true → co_frame_bytes o = fb →
  Forall (λ op, match op with
                | OpWrite data => (2 * fb ≤ length data)%nat
                | OpCorrect _ => False
                | _ => True
                end) ops →
  let o' := fold_left (cpal_op dec) ops o in
  co_correction o' + co_net_adjust o' = co_correction o + co_net_adjust o ∧
  Z.abs (co_correction o') ≤ Z.max 0 (Z.abs (co_correction o) - len (List.filter is_write ops)).
Proof.
  intros Hrun Hpcm Hfb Hops. revert o ring Hrun Hpcm Hfb.
  induction Hops as [|op ops Hop _ IH]; intros o ring Hrun Hpcm Hfb; simpl; [unfold len; simpl; lia|].
  assert (∃ ring1, cpal_running (cpal_op dec o op) ring1 ∧ co_format (cpal_op dec o op) = co_format o ∧
    co_frame_bytes (cpal_op dec o op) = fb ∧
    co_correction (cpal_op dec o op) + co_net_adjust (cpal_op dec o op) = co_correction o + co_net_adjust o ∧
    Z.abs (co_correction (cpal_op dec o op)) ≤ Z.max 0 (Z.abs (co_correction o) - if is_write op then 1 else 0))
    as (ring1 & Hrun1 & Hf1 & Hfb1 & Hsum1 & Habs1).
  { destruct op as [data|frames| | | | |]; try done; simpl.
    - destruct (cpal_write_audio dec o data) as [n o1] eqn:E.
      destruct (write_spec _ _ _ _ _ _ Hrun E) as
        (adj & bytes & Hrun1 & _ & Hc & Hn & Hadj & Hne & _ & _ & _ & _ & _ & _ & Hch & Hrf & _ & Hf).
      assert (co_frame_bytes o1 = fb) as Hfb1 by (rewrite <- Hfb; unfold co_frame_bytes; by rewrite Hch, Hrf).
      exists (ring ++ bytes). simpl. split_and!; [done|done|done|lia|].
      assert (2 ≤ payload_frames dec o data) as H2.
      { unfold payload_frames. rewrite ring_payload_pcm by done. simpl. rewrite Hfb.
        pose proof (co_frame_bytes_pos o). assert (2 ≤ length data / fb)%nat by (apply Nat.div_le_lower_bound; lia). lia. }
      simpl. destruct (decide (co_correction o = 0)); [lia|]. specialize (Hne ltac:(done) H2). lia.
    - destruct (cpal_callback o _) as [out o1] eqn:E.
      destruct (callback_spec _ _ _ _ _ Hrun E) as (k & rest & Hrun1 & _ & _ & _ & Hc & Hn & Hch & Hrf & _ & Hf).
      assert (co_frame_bytes o1 = fb) as Hfb1 by (rewrite <- Hfb; unfold co_frame_bytes; by rewrite Hch, Hrf).
      exists rest. simpl. split_and!; [done|done|done|lia|lia].
    - exists ring. pose proof Hrun as [? [s Hs] ? ? ?]. unfold cpal_play. rewrite Hs.
      split_and!; [split; try done; by eexists|done|done|done|simpl; lia].
    - exists ring. destruct Hrun. split_and!; [by split|done|done|done|simpl; lia].
    - exists ring. destruct Hrun. split_and!; [by split|done|done|done|simpl; lia].
    - exists ring. destruct Hrun. split_and!; [by split|done|done|done|simpl; lia]. }
  destruct (IH _ ring1 Hrun1 ltac:(congruence) Hfb1) as [Hsum Habs]. split; [lia|].
  revert Habs1. destruct (is_write op); rewrite ?len_cons; pose proof (len_nonneg (List.filter is_write ops)); lia.
Qed.

End correction.

(** ** Properties *)

Section properties.
Context `{FlacStream} (dec : list Z → list f32).

Lemma configure_fresh o host fmt rate ch name o1 :
  cpal_configure o host fmt rate ch name (Ok tt) = (Ok tt, o1) → 0 < ch →
  ∃ d support o', resolve_device o' host name = (Ok (d, support), set_cached o' (co_cached_device o1)) ∧
    co_cached_device o' = co_cached_device o ∧
    cpal_running o1 [] ∧ co_stream o1 = Some (out_kind (ring_format_of fmt) support, UnderrunDetector_default) ∧
    co_volume o1 = co_volume o ∧ co_muted o1 = co_muted o ∧ co_format o1 = fmt ∧
    co_ring_format o1 = ring_format_of fmt ∧ co_channels o1 = ch ∧
    co_samples_played o1 = 0 ∧ co_net_adjust o1 = 0 ∧ co_correction o1 = 0.
Proof.
  intros Hc Hch. unfold cpal_configure in Hc.
  match type of Hc with context [resolve_device ?x _ _] => set (o' := x) in * end.
  destruct (resolve_device o' host name) as [[[d support]|e] o2] eqn:Er; [|done].
  simplify_eq/=. exists d, support, o'.
  assert (∃ c, o2 = set_cached o' c) as [c ->].
  { unfold resolve_device in Er. repeat case_match; simplify_eq; eauto. }
  split_and!; try done. split; try done. apply Nat.Div0.mod_0_l.
Qed.

Lemma accepted_u8 o ops : Forall (Forall is_u8) (payloads ops) → Forall is_u8 (accepted dec o ops).
Proof.
  revert o. induction ops as [|op ops IH]; intros o Hu8; simpl; [done|]. apply Forall_app.
  destruct op; simpl in Hu8; (split; [|apply IH; try exact Hu8]); try done.
  - apply Forall_cons in Hu8 as [Hd _]. by apply Forall_take.
  - by apply Forall_cons in Hu8 as [_ ?].
Qed.

(** C12 The portable output is bit-exact: on a device stream of a matching
    integer type, at full volume and with no drift correction, through any
    writes, callbacks, starts, pauses and mutes, the samples the device is
    given (silence apart) are exactly those the writes accepted, in order,
    once, left-justified in the device's width (a 24-bit sample in four bytes
    by its low three); the ones still missing are those in the ring. Accepted
    are whole frames from the front of each payload: all of them when the ring
    has room, while what a full ring refuses, and a partial frame, is lost. *)
Theorem cpal_bit_perfect o host fmt rate ch name o1 kind det ops :
  cpal_configure o host fmt rate ch name (Ok tt) = (Ok tt, o1) → 0 < ch →
  is_pcm fmt = true → co_volume o = 1000 →
  co_stream o1 = Some (kind, det) → exact_path (ring_format_of fmt) kind = true →
  forallb keeps_level ops = true → Forall (Forall is_u8) (payloads ops) →
  let bps := ring_bytes_per_sample (ring_format_of fmt) in
  (∃ ring', co_ring (fold_left (cpal_op dec) ops o1) = Some ring' ∧
    audible dec o1 ops =
      take (length (accepted dec o1 ops) / bps - length ring' / bps)
        (exact_sample (ring_format_of fmt) kind <$> chunks_exact bps (accepted dec o1 ops))) ∧
  (has_room dec o1 ops → accepted dec o1 ops = concat (whole_frames (Z.to_nat ch * bps) <$> payloads ops)).
Proof.
  intros Hc Hch Hpcm Hvol Hst Hx Hops Hu8 bps.
  destruct (configure_fresh _ _ _ _ _ _ _ Hc Hch) as (d & s & o' & _ & _ & Hrun & Hst' & Hv & Hm & Hf & Hrf & Hch' & _ & _ & Hco).
  assert (cpal_steady o1 kind (ring_format_of fmt) 1000 (Z.to_nat ch * bps) []) as Hs.
  { split; [apply Hrun|by eexists|congruence|done| |congruence|done|by exists 0%nat].
    by rewrite co_frame_bytes_channels, Hch', Hrf by lia. }
  destruct (steady_fifo dec ops _ _ _ _ _ _ Hs Hops) as [(ring' & Hs' & Heq) Hall]. split; [|exact Hall].
  exists ring'. split; [apply Hs'|].
  assert (0 < bps)%nat as Hb by (unfold bps; destruct (ring_format_of fmt); simpl; lia).
  fold bps in Heq. rewrite (chunks_exact_short bps []) in Heq by (simpl; lia). simpl in Heq.
  pose proof (accepted_u8 o1 ops Hu8) as Hacc.
  assert (length (audible dec o1 ops) + length ring' / bps = length (accepted dec o1 ops) / bps)%nat as Hlen.
  { apply (f_equal length) in Heq. rewrite length_app, !length_fmap, !chunks_exact_seq, !length_fmap, !length_seq in Heq by done. done. }
  rewrite <- (fmap_chunks_exact kind (ring_format_of fmt)) by done. fold bps. rewrite <- Heq.
  by rewrite take_app_length' by lia.
Qed.

(** C20 The position the drift servo works with: at any point of any run
    (writes, callbacks, corrections, pauses, mutes, in any order), the content
    position is the number of frames written so far, less those still in the
    ring and those a full ring refused, whatever frames the correction dropped
    or duplicated. It is the position on the stream exactly as long as the ring
    has refused nothing, as when every payload found room; the frames a full
    ring refuses are lost and nothing counts them. *)
Theorem cpal_content_position o host fmt rate ch name o1 ops :
  cpal_configure o host fmt rate ch name (Ok tt) = (Ok tt, o1) → 0 < ch →
  let o' := fold_left (cpal_op dec) ops o1 in
  content_position o' =
    Some (Z.max (frames_written dec o1 ops - frames_refused dec o1 ops - buffer_level o') 0) ∧
  0 ≤ frames_refused dec o1 ops ∧ (has_room dec o1 ops → frames_refused dec o1 ops = 0).
Proof.
  intros Hc Hch o'.
  destruct (configure_fresh _ _ _ _ _ _ _ Hc Hch) as (d & s & oo & _ & _ & Hrun & _ & _ & _ & _ & _ & Hch' & Hsp & Hnet & _).
  destruct (run_position dec ops o1 [] Hrun) as (Hnn & Hfull & ring' & Hrun' & Hpos). fold o' in Hrun', Hpos.
  split; [|by split]. unfold content_position, frames_played, buffer_level. rewrite (cr_ring _ _ Hrun').
  pose proof (cr_channels _ _ Hrun'). destruct (Z.eqb_spec (co_channels o') 0); [lia|]. simpl. do 2 f_equal.
  unfold stream_position in Hpos. rewrite Hsp, Hnet, Z.div_0_l, Nat.Div0.div_0_l in Hpos by lia. lia.
Qed.

(** C21 A drift correction of a PCM stream is applied exactly and only once:
    whatever the device consumes meanwhile, after at most as many writes (of
    two frames or more) as frames to correct, the correction has been applied
    completely and none is left pending. Each write applies a part of it: that
    many frames are missing from the beginning of what the payload adds to the
    ring, or its first frame is repeated that many times before it, and the
    counters record it. No write overshoots the correction, and unless
    playback is more than 1200 frames late, none moves it by more than two
    frames. *)
Theorem drift_correction_applied o ring ops :
  cpal_running o ring → is_pcm (co_format o) = true →
  Forall (λ op, match op with
                | OpWrite data => (2 * co_frame_bytes o ≤ length data)%nat
                | OpCorrect _ => False
                | _ => True
                end) ops →
  Z.abs (co_correction o) ≤ len (List.filter is_write ops) →
  let o' := fold_left (cpal_op dec) ops o in
  co_correction o' = 0 ∧ co_net_adjust o' = co_net_adjust o + co_correction o ∧
  ∀ data, let fb := co_frame_bytes o in
    let '(n, o1) := cpal_write_audio dec o data in
    ∃ adj, co_correction o1 = co_correction o - adj ∧ co_net_adjust o1 = co_net_adjust o + adj ∧
      co_ring o1 = Some (ring ++ take (n * fb) (adjusted fb adj data)) ∧
      (Z.of_nat (length ring) + (Z.of_nat (length data / fb) + 2) * Z.of_nat fb ≤ co_ring_size o →
         Z.of_nat n = Z.of_nat (length data / fb) - adj) ∧
      (0 ≤ adj ≤ co_correction o ∨ co_correction o ≤ adj ≤ 0) ∧
      (co_correction o ≠ 0 → (2 * fb ≤ length data)%nat → adj ≠ 0) ∧
      (co_correction o ≤ JUMP_THRESHOLD_FRAMES → -2 ≤ adj ≤ 2).
Proof.
  intros Hrun Hpcm Hops Hn o'.
  destruct (run_correction dec ops o ring (co_frame_bytes o) Hrun Hpcm eq_refl Hops) as [Hsum Habs].
  fold o' in Hsum, Habs. split_and!; [lia|lia|]. intros data fb.
  destruct (cpal_write_audio dec o data) as [n o2] eqn:E.
  destruct (write_spec _ _ _ _ _ _ Hrun E) as
    (adj & bytes & Hrun2 & _ & Hc & Hna & Hadj & Hne & Hoff & _ & Hroom & Hfine & Hb & _).
  pose proof (co_frame_bytes_pos o). unfold payload_frames, payload_bytes in *.
  rewrite ring_payload_pcm in * by done. cbn [fst snd default from_option id] in *.
  exists adj. split_and!; try done.
  - rewrite (cr_ring _ _ Hrun2), Hb. done.
  - intros Hr. specialize (Hroom Hr). subst fb. lia.
  - intros Hc0 H2. subst fb. apply Hne; [done|]. assert (2 ≤ length data / co_frame_bytes o)%nat by (apply Nat.div_le_lower_bound; lia). lia.
Qed.

End properties.

(** ** Underruns *)

Definition observe_all (s : UnderrunDetector * Z) (cs : list (nat * nat)) : UnderrunDetector * Z :=
  fold_left (λ '(d, n) '(got, wanted), observe d got wanted n) cs s.

Definition underruns_of (cs : list (nat * nat)) : Z := (observe_all (UnderrunDetector_default, 0) cs).2.

(** A callback that got all the samples it wanted. *)
Definition is_full (c : nat * nat) : bool := (c.2 <=? c.1)%nat.

Lemma observe_primed cs s :
  (ud_starving s.1 = true → ud_primed s.1 = true) →
  ud_primed (observe_all s cs).1 = ud_primed s.1 || existsb is_full cs ∧
  (ud_starving (observe_all s cs).1 = true → ud_primed (observe_all s cs).1 = true).
Proof.
  revert s. induction cs as [|[got wanted] cs IH]; intros [d n] Hs; simpl in *; [by rewrite orb_false_r|].
  assert (ud_primed (observe d got wanted n).1 = ud_primed d || is_full (got, wanted) ∧
    (ud_starving (observe d got wanted n).1 = true → ud_primed (observe d got wanted n).1 = true)) as [H1 H2].
  { unfold observe, is_full. simpl. destruct d as [p st]. simpl in *.
    destruct ((0 <? got)%nat && st), (wanted <=? got)%nat, p; simpl; try done; auto; destruct st; auto. }
  destruct (IH (observe d got wanted n) H2) as [H3 H4]. rewrite H1, <- orb_assoc in H3. by split.
Qed.

(** Callbacks that get nothing count nothing; once primed, they starve. *)
Lemma observe_gap gap s :
  Forall (λ c : nat * nat, c.1 = 0 ∧ 0 < c.2)%nat gap → gap ≠ [] →
  (ud_starving s.1 = true → ud_primed s.1 = true) →
  observe_all s gap = (mkDetector (ud_primed s.1) (ud_primed s.1), s.2).
Proof.
  intros Hg. revert s. induction Hg as [|[got wanted] gap [Hgot Hw] Hg IH]; intros [[p st] n] Hne Hs; [done|].
  change (observe_all (mkDetector p st, n) ((got, wanted) :: gap))
    with (observe_all (observe (mkDetector p st) got wanted n) gap).
  assert (observe (mkDetector p st) got wanted n = (mkDetector p p, n)) as ->.
  { simpl in *. subst got. unfold observe. simpl. rewrite (proj2 (Nat.leb_gt wanted 0)) by lia.
    destruct p; [done|]. destruct st; [|done]. by specialize (Hs eq_refl). }
  destruct (decide (gap = [])) as [->|Hne']; [done|]. by apply (IH (mkDetector p p, n)).
Qed.

(** Underruns are counted as events: a gap of any number of empty callbacks
    counts for nothing by itself (the end of a stream is not an underrun) and
    for exactly one when audio comes back, provided the stream had once been
    running (so starting before the first data is not one either). *)
Theorem underruns_counted cs gap got wanted :
  Forall (λ c : nat * nat, c.1 = 0 ∧ 0 < c.2)%nat gap → gap ≠ [] → (0 < got)%nat →
  underruns_of (cs ++ gap) = underruns_of cs ∧
  underruns_of (cs ++ gap ++ [(got, wanted)]) = underruns_of cs + (if existsb is_full cs then 1 else 0).
Proof.
  intros Hg Hne Hgot. unfold underruns_of, observe_all. rewrite !fold_left_app.
  fold (observe_all (UnderrunDetector_default, 0) cs).
  destruct (observe_primed cs (UnderrunDetector_default, 0)) as [Hp Hs]; [done|].
  set (s := observe_all _ cs) in *. fold (observe_all s gap). rewrite (observe_gap gap s Hg Hne Hs).
  split; [done|]. simpl. rewrite Hp. unfold observe. simpl.
  rewrite (proj2 (Nat.ltb_lt 0 got) Hgot). simpl. destruct (existsb is_full cs); simpl;
    destruct (wanted <=? got)%nat; simpl; lia.
Qed.

Lemma underruns_counted_witness :
  underruns_of ([(512, 512); (100, 512); (512, 512)] ++ [(0, 512); (0, 512)])%nat = 1 ∧
  underruns_of ([(512, 512); (100, 512); (512, 512)] ++ [(0, 512); (0, 512)] ++ [(512, 512)])%nat = 1 + 1.
Proof.
  apply (underruns_counted [(512, 512); (100, 512); (512, 512)] [(0, 512); (0, 512)] 512 512)%nat;
    [repeat constructor; simpl; lia|discriminate|lia].
Defined.

(** ** Where the code does not do what it means to *)

(** A device that only offers 16-bit samples garbles every format but
    16-bit PCM, while the output reports a bit-perfect path: only the low two
    bytes of a 24-bit sample are played, so that a sample [x] with a small
    amplitude comes out as [x] instead of [x / 256], and a louder one wraps
    around. *)
Theorem i16_only_device_garbles `{FlacStream} o rate ch device b :
  let host := mkHost (Ok [device]) (Some device) in
  cd_configs device = Some [SfI16] → length b = 3%nat → Forall is_u8 b →
  let '(r, o1) := cpal_configure (set_cached o None) host PcmS24le rate ch None (Ok tt) in
  r = Ok tt ∧ co_stream o1 = Some (I16Out, UnderrunDetector_default) ∧ co_bit_perfect o1 = true ∧
  out_convert I16Out (co_ring_format o1) 1000 b = OutI16 (as_i 16 (i_from_le_bytes b)).
Proof.
  intros host Hc Hl Hb. unfold cpal_configure, resolve_device, find_device, probe_support. simpl. rewrite Hc. simpl.
  split_and!; try done. destruct b as [|b0 [|b1 [|b2 [|]]]]; try done. f_equal.
  unfold le2, i_from_le_bytes, len. cbn [length nth from_le_bytes]. unfold as_i.
  change (8 * Z.of_nat 2) with 16. change (8 * Z.of_nat 3) with 24. f_equal.
  set (x := b0 + 256 * (b1 + 256 * 0)).
  replace (b0 + 256 * (b1 + 256 * (b2 + 256 * 0))) with (x + b2 * 2 ^ 16) by (unfold x; lia).
  rewrite (Z.mod_eq (x + b2 * 2 ^ 16 + 2 ^ (24 - 1)) (2 ^ 24)) by lia.
  set (q := (x + b2 * 2 ^ 16 + 2 ^ (24 - 1)) / 2 ^ 24).
  replace (x + b2 * 2 ^ 16 + 2 ^ (24 - 1) - 2 ^ 24 * q - 2 ^ (24 - 1) + 2 ^ (16 - 1))
    with (x + 2 ^ (16 - 1) + (b2 - 2 ^ 8 * q) * 2 ^ 16) by lia.
  by rewrite Z.mod_add by lia.
Qed.

(** A flush (a seek) of the portable output forgets the device it was
    configured for, and plays on the default one. *)
Theorem cpal_flush_changes_device `{FlacStream} o host name chosen support d :
  co_cached_device o = Some (Some name, chosen, support) → host_default host = Some d →
  let o' := cpal_flush o host (Ok tt) in
  co_device_name o' = Some (default ""%string (cd_name d)) ∧ co_playing o' = true ∧
  co_cached_device o' = Some (None, d, probe_support d).
Proof.
  intros Hc Hd. unfold cpal_flush, cpal_configure, resolve_device, find_device. simpl. rewrite Hc, Hd.
  rewrite bool_decide_eq_false_2 by done. done.
Qed.

(** The DSD fallback mixes the channels: the stream interleaves one byte of
    each channel, but eight consecutive bytes are averaged into one sample;
    a stereo stream with full positive left and full negative right comes out
    as silence on both. *)
Theorem dsd_fallback_mixes_channels n :
  dsd_to_f32 (concat (replicate (4 * n) [0xFF; 0x00])) (dsd_rate_multiplier DsdU8)
  = replicate n (S754_zero false).
Proof.
  unfold dsd_to_f32, dsd_rate_multiplier. change (Z.to_nat (64 / 8)) with 8%nat. simpl Nat.eqb. cbv iota.
  induction n as [|n IH]; [done|].
  replace (4 * S n)%nat with (4 + 4 * n)%nat by lia. rewrite replicate_add, concat_app.
  rewrite chunks_exact_app by (done || lia). cbn [fmap list_fmap replicate]. apply (f_equal2 cons); [by vm_compute|apply IH].
Qed.

(** ** Witnesses *)

Definition demo_dac : CpalDevice := mkCpalDevice (Some "Chord Hugo2 USB Audio"%string) (Some [SfF32; SfI32]).
Definition demo_builtin : CpalDevice := mkCpalDevice (Some "Built-in Output"%string) (Some [SfI16]).
Definition demo_host : Host := mkHost (Ok [demo_builtin; demo_dac]) (Some demo_builtin).

#[local] Instance silent_flac : FlacStream :=
  {| flac_state := unit; flac_new := tt; flac_feed := λ s _, ([], s); flac_reset := λ s, s |}.

Definition demo_cpal : CpalOutput :=
  (cpal_configure CpalOutput_new demo_host PcmS24le 48000 2 (Some "hugo2"%string) (Ok tt)).2.

Definition demo_ops : list CpalOp :=
  [OpWrite [1; 2; 3; 4; 5; 6; 255; 255; 255; 0; 0; 128]; OpCallback 1; OpCallback 2; OpWrite [1; 1; 1; 2; 2; 2]].

Lemma cpal_bit_perfect_witness :
  (∃ ring', co_ring (fold_left (cpal_op (λ _, [])) (OpPlay :: demo_ops) demo_cpal) = Some ring' ∧
    audible (λ _, []) demo_cpal (OpPlay :: demo_ops) =
      take (length (accepted (λ _, []) demo_cpal (OpPlay :: demo_ops)) / 3 - length ring' / 3)
        (exact_sample S24 I32Out <$> chunks_exact 3 (accepted (λ _, []) demo_cpal (OpPlay :: demo_ops)))) ∧
  accepted (λ _, []) demo_cpal (OpPlay :: demo_ops) = concat (whole_frames 6 <$> payloads demo_ops).
Proof.
  destruct (cpal_bit_perfect (λ _, []) CpalOutput_new demo_host PcmS24le 48000 2 (Some "hugo2"%string) demo_cpal
              I32Out UnderrunDetector_default (OpPlay :: demo_ops)) as [Hout Hall];
    [by vm_compute|by vm_compute|by vm_compute|by vm_compute|by vm_compute|by vm_compute|by vm_compute| |].
  - repeat constructor; vm_compute; intuition discriminate.
  - split; [exact Hout|]. apply Hall. clear Hout Hall. vm_compute. intuition discriminate.
Defined.

Lemma demo_audible :
  audible (λ _, []) demo_cpal (OpPlay :: demo_ops) =
    [OutI32 (0x030201 * 256); OutI32 (0x060504 * 256); OutI32 (-256); OutI32 (- 2 ^ 31)].
Proof. vm_compute. reflexivity. Qed.

Lemma cpal_content_position_witness :
  let ops := OpCorrect 3 :: OpPlay :: demo_ops in
  let o' := fold_left (cpal_op (λ _, [])) ops demo_cpal in
  content_position o' =
    Some (Z.max (frames_written (λ _, []) demo_cpal ops - frames_refused (λ _, []) demo_cpal ops - buffer_level o') 0) ∧
  frames_refused (λ _, []) demo_cpal ops = 0.
Proof.
  intros ops o'.
  destruct (cpal_content_position (λ _, []) CpalOutput_new demo_host PcmS24le 48000 2 (Some "hugo2"%string) demo_cpal
              ops) as (Hpos & _ & Hfull); [by vm_compute|by vm_compute|].
  split; [exact Hpos|]. apply Hfull. vm_compute. intuition discriminate.
Defined.

(** A ring of four frames that is written while the output is muted: the
    position stays behind by the frames refused. *)
Lemma demo_refused :
  let o := mkCpal (Some (I32Out, UnderrunDetector_default)) (Some []) 8 true 1000 true 48000 1 PcmS16le S16 None 0 0 0
             true 0 None None in
  let ops := [OpWrite [1; 0; 2; 0; 3; 0]; OpWrite [4; 0; 5; 0; 6; 0]; OpMute false; OpCallback 4] in
  frames_written (λ _, []) o ops = 6 ∧ frames_refused (λ _, []) o ops = 2 ∧
  content_position (fold_left (cpal_op (λ _, [])) ops o) = Some 4.
Proof. vm_compute. split_and!; reflexivity. Qed.

(** Two frames to repeat: both are repeated by the next write. *)
Lemma drift_correction_applied_witness :
  let o := set_correction (cpal_play demo_cpal) (-2) in
  let ops := [OpWrite [1; 2; 3; 4; 5; 6; 7; 8; 9; 10; 11; 12]; OpCallback 1; OpWrite [1; 2; 3; 4; 5; 6; 7; 8; 9; 10; 11; 12]] in
  let o' := fold_left (cpal_op (λ _, [])) ops o in
  co_correction o' = 0 ∧ co_net_adjust o' = -2 ∧
  let '(n, o1) := cpal_write_audio (λ _, []) o [1; 2; 3; 4; 5; 6; 7; 8; 9; 10; 11; 12] in
  ∃ adj, co_correction o1 = -2 - adj ∧
    co_ring o1 = Some (take (n * 6) (adjusted 6 adj [1; 2; 3; 4; 5; 6; 7; 8; 9; 10; 11; 12])).
Proof.
  destruct (drift_correction_applied (λ _, []) (set_correction (cpal_play demo_cpal) (-2)) []
              [OpWrite [1; 2; 3; 4; 5; 6; 7; 8; 9; 10; 11; 12]; OpCallback 1;
               OpWrite [1; 2; 3; 4; 5; 6; 7; 8; 9; 10; 11; 12]]) as (Hc & Hn & Hw).
  - split; try by vm_compute. by eexists.
  - by vm_compute.
  - repeat constructor; vm_compute; lia.
  - vm_compute. discriminate.
  - split; [exact Hc|]. split; [exact Hn|]. specialize (Hw [1; 2; 3; 4; 5; 6; 7; 8; 9; 10; 11; 12]).
    cbv zeta in Hw. destruct (cpal_write_audio _ _ _) as [n o1]. destruct Hw as (adj & H1 & _ & H2 & _).
    exists adj. split; [exact H1|exact H2].
Defined.

Lemma i16_only_device_garbles_witness :
  out_convert I16Out S24 1000 [0; 1; 0] = OutI16 256.
Proof.
  pose proof (i16_only_device_garbles CpalOutput_new 48000 2 demo_builtin [0; 1; 0] eq_refl eq_refl) as Hg.
  simpl in Hg. apply Hg. repeat constructor; vm_compute; discriminate.
Defined.

Lemma cpal_flush_changes_device_witness :
  let o' := cpal_flush (cpal_play demo_cpal) demo_host (Ok tt) in
  co_device_name o' = Some "Built-in Output"%string ∧ co_playing o' = true ∧
  co_cached_device o' = Some (None, demo_builtin, probe_support demo_builtin).
Proof.
  exact (cpal_flush_changes_device (cpal_play demo_cpal) demo_host "hugo2" demo_dac (probe_support demo_dac)
           demo_builtin eq_refl eq_refl).
Defined.
