(* ===== verification/App.v ===== *)
(** * The endpoint program

    Models the event loop of [run_endpoint] in
    [crates/oaat-cli/src/main.rs]: the application that drives an audio
    output from the events of the endpoint transport, starts playback on the
    stream's timestamps, corrects drift, reports health, and runs the hooks.

    One turn of its [tokio::select!] is [app_step].  The audio output is the
    interface [AudioBackend], which both outputs implement; what time, clock
    and devices are at a turn is its argument [World].  Logging is left
    out; the status page and the counters are in [Bridge]. *)

From S2P Require Import Prelude Format Session Wire Message Codec Capability Float Clock Sync Negotiate EndpointTransport Flac Alsa AlsaOutput AudioOutput.

Local Open Scope Z_scope.

(** ** The audio output, as the program uses it

    [device] is what the sound system answers at a turn. *)
Class AudioBackend := {
  audio : Type;
  device : Type;
  au_configure : audio → AudioFormat → Z → Z → option string → device → result unit string * audio;
  au_play : audio → audio;
  au_pause : audio → audio;
  au_stop : audio → audio;
  au_release : audio → audio;
  au_flush : audio → device → audio;
  au_is_playing : audio → bool;
  au_device_open : audio → device → bool;
  au_set_volume : audio → Z → audio;
  au_set_mute : audio → bool → audio;
  au_write : audio → list Z → audio;
  au_buffer_level : audio → Z;
  au_frames_played : audio → option Z;
  au_content_position : audio → option Z;
  au_bit_perfect : audio → bool;
  au_underruns : audio → device → Z;
  au_set_correction : audio → Z → audio;
  au_thread : audio → device → audio
}.

(** The ALSA output: the report of the first open, whether the writer thread
    has the device open, and its underruns. *)
#[export] Instance alsa_backend `{FlacStream} : AudioBackend := {|
  audio := AlsaDirectOutput;
  device := OpenReport * bool * Z;
  au_configure o f r c n d := configure_with_device o f r c n d.1.1;
  au_play := alsa_play;
  au_pause := alsa_pause;
  au_stop := alsa_stop;
  au_release := alsa_release;
  au_flush o d := alsa_flush o d.1.1;
  au_is_playing := ao_playing;
  au_device_open o d := d.1.2;
  au_set_volume := alsa_set_volume;
  au_set_mute := alsa_set_mute;
  au_write o data := (alsa_write_audio o data).2;
  au_buffer_level _ := 0;
  au_frames_played _ := None;
  au_content_position _ := None;
  au_bit_perfect _ := true;
  au_underruns o d := d.2;
  au_set_correction o _ := o;
  au_thread o _ := o
|}.

(** The portable output: the sound host, what opening a stream returns, and
    the samples the callback is asked for between turns. *)
Definition cpal_backend `{FlacStream} (decode_flac_to_f32 : list Z → list f32) : AudioBackend := {|
  audio := CpalOutput;
  device := Host * result unit string * nat;
  au_configure o f r c n d := cpal_configure o d.1.1 f r c n d.1.2;
  au_play := cpal_play;
  au_pause := cpal_pause;
  au_stop := cpal_stop;
  au_release := cpal_release;
  au_flush o d := cpal_flush o d.1.1 d.1.2;
  au_is_playing := co_playing;
  au_device_open o _ := bool_decide (is_Some (co_stream o));
  au_set_volume := cpal_set_volume;
  au_set_mute := cpal_set_mute;
  au_write o data := (cpal_write_audio decode_flac_to_f32 o data).2;
  au_buffer_level := buffer_level;
  au_frames_played := frames_played;
  au_content_position := content_position;
  au_bit_perfect := co_bit_perfect;
  au_underruns o _ := co_underruns o;
  au_set_correction := set_correction;
  au_thread o d := (cpal_callback o d.2).2
|}.

(** ** State, inputs and outputs *)

Section app.
Context `{AudioBackend}.

Record App := mkApp {
  app_audio : audio;
  app_device_name : option string;
  app_armed : bool;
  app_started : bool;
  app_start_deadline : option Z;
  app_tracker : option PtsTracker;
  app_controller_domain : bool;
  app_sample_rate : Z;
  app_last_drift : Z;
  app_stream_id : string;
  app_servo_ticks : Z;
  app_output_in_use : bool;
  app_idle_ticks : Z;
  app_released : bool;
  app_last_format : option FormatPropose;
  app_connected : bool
}.

Definition app_new (a : audio) (device_name : option string) : App :=
  mkApp a device_name false false None None false 0 0 "" 0 false 0 false None false.

(** What a turn reads: [now_ns], its earlier reading for the periodic report,
    [Instant::now] (all in nanoseconds), the shared clock estimate and the
    sound devices. *)
Record World := mkWorld {
  w_now : Z;
  w_now_report : Z;
  w_instant : Z;
  w_clock : SharedClock;
  w_device : device
}.

(** The arms of the select loop of [run_endpoint] that handle an input.
    [AudioThread] is the sound device at work between two turns.  The two
    signal arms are not here: they end the loop, and what the program does then
    is [Launch.on_signal]. *)
Inductive AppInput :=
| AudioThread
| StartTimer
| ServoTick
| TransportEvent (e : EndpointEvent)
| ReleaseRequest
| DeviceSwitch (name : string).

(** What a turn sends: control messages to the transport, hooks, and commands
    to the hardware mixer when it controls the volume. *)
Inductive AppOutput :=
| Ctrl (m : Message)
| Hook (event : string)
| MixerVolume (level : Z)
| MixerMute (muted : bool).

(** ** Updates *)

Definition set_audio (s : App) (a : audio) : App :=
  mkApp a (app_device_name s) (app_armed s) (app_started s) (app_start_deadline s) (app_tracker s)
    (app_controller_domain s) (app_sample_rate s) (app_last_drift s) (app_stream_id s) (app_servo_ticks s)
    (app_output_in_use s) (app_idle_ticks s) (app_released s) (app_last_format s) (app_connected s).

Definition set_schedule (s : App) (armed started : bool) (deadline : option Z) (t : option PtsTracker)
    (controller_domain : bool) (last_drift : Z) : App :=
  mkApp (app_audio s) (app_device_name s) armed started deadline t controller_domain (app_sample_rate s)
    last_drift (app_stream_id s) (app_servo_ticks s) (app_output_in_use s) (app_idle_ticks s) (app_released s)
    (app_last_format s) (app_connected s).

Definition set_use (s : App) (in_use : bool) (idle : Z) : App :=
  mkApp (app_audio s) (app_device_name s) (app_armed s) (app_started s) (app_start_deadline s) (app_tracker s)
    (app_controller_domain s) (app_sample_rate s) (app_last_drift s) (app_stream_id s) (app_servo_ticks s)
    in_use idle (app_released s) (app_last_format s) (app_connected s).

Definition set_released (s : App) (released : bool) : App :=
  mkApp (app_audio s) (app_device_name s) (app_armed s) (app_started s) (app_start_deadline s) (app_tracker s)
    (app_controller_domain s) (app_sample_rate s) (app_last_drift s) (app_stream_id s) (app_servo_ticks s)
    (app_output_in_use s) (app_idle_ticks s) released (app_last_format s) (app_connected s).

Definition set_connected (s : App) (connected : bool) : App :=
  mkApp (app_audio s) (app_device_name s) (app_armed s) (app_started s) (app_start_deadline s) (app_tracker s)
    (app_controller_domain s) (app_sample_rate s) (app_last_drift s) (app_stream_id s) (app_servo_ticks s)
    (app_output_in_use s) (app_idle_ticks s) (app_released s) (app_last_format s) connected.

(** [armed = false; started = false; start_deadline = None; tracker = None;
    last_drift = 0]. *)
Definition reset_schedule (s : App) : App := set_schedule s false false None None (app_controller_domain s) 0.

(** [if output_in_use { output_in_use = false; hooks.fire("stop"); }] *)
Definition end_use (s : App) : App * list AppOutput :=
  if app_output_in_use s then (set_use s false (app_idle_ticks s), [Hook "stop"]) else (s, []).

(** ** The drift servo *)

Definition tracker_now (s : App) (w : World) (now : Z) : Z :=
  if app_controller_domain s then shared_local_to_controller (w_clock w) now else now.

(** The periodic report. *)
Definition stream_stats (s : App) (w : World) : list AppOutput :=
  if app_started s && (app_servo_ticks s mod 5 =? 0) && negb (String.eqb (app_stream_id s) "") then
    let '(lost, recovered) := link_stats (w_clock w) in
    let drift_us :=
      match app_tracker s, au_content_position (app_audio s) with
      | Some t, Some frames =>
          Z.quot (as_i 64 (drift_frames t (tracker_now s w (w_now_report w)) frames * 1000000))
            (Z.max (app_sample_rate s) 1)
      | _, _ => 0
      end in
    [Ctrl (MStreamStats (mkStreamStats (app_stream_id s) (au_buffer_level (app_audio s)) drift_us
             (as_i 64 (as_i 64 (default 0 (au_content_position (app_audio s)))
                       - as_i 64 (default 0 (au_frames_played (app_audio s)))))
             lost recovered (au_bit_perfect (app_audio s)) (au_underruns (app_audio s) (w_device w))))]
  else [].

(** The correction part of a servo tick. *)
Definition servo_correct (s : App) (w : World) : App :=
  match app_started s, app_tracker s, au_content_position (app_audio s) with
  | true, Some t, Some frames =>
      let rate := app_sample_rate s in
      let drift := drift_frames t (tracker_now s w (w_now w)) frames in
      let deadband := Z.max (rate / 2000) 4 in
      let progress := as_i 64 (app_last_drift s - drift) in
      let stalled := (rate / 2 <? drift) && negb (app_last_drift s =? 0) && (progress <? rate / 10) in
      if stalled then
        let shift_ns := as_u 64 (as_u 64 drift * 1000000000) / Z.max rate 1 in
        let s := set_schedule s (app_armed s) (app_started s) (app_start_deadline s)
                   (Some (mkTracker (wrapping_add 64 (start_ns t) shift_ns) rate)) (app_controller_domain s) 0 in
        set_audio s (au_set_correction (app_audio s) 0)
      else
        let correction := if deadband <? as_i 64 (Z.abs drift) then clamp (- rate) rate drift else 0 in
        let s := set_schedule s (app_armed s) (app_started s) (app_start_deadline s) (app_tracker s)
                   (app_controller_domain s) drift in
        set_audio s (au_set_correction (app_audio s) correction)
  | _, _, _ => s
  end.

Definition servo_tick (s : App) (w : World) : App * list AppOutput :=
  let s := mkApp (app_audio s) (app_device_name s) (app_armed s) (app_started s) (app_start_deadline s)
             (app_tracker s) (app_controller_domain s) (app_sample_rate s) (app_last_drift s) (app_stream_id s)
             (app_servo_ticks s + 1) (app_output_in_use s) (app_idle_ticks s) (app_released s)
             (app_last_format s) (app_connected s) in
  let '(s, hooks) :=
    if app_output_in_use s && negb (au_is_playing (app_audio s)) && negb (au_device_open (app_audio s) (w_device w)) then
      if 2 <=? app_idle_ticks s + 1 then (set_use s false 0, [Hook "stop"])
      else (set_use s (app_output_in_use s) (app_idle_ticks s + 1), [])
    else (set_use s (app_output_in_use s) 0, []) in
  (servo_correct s w, hooks ++ stream_stats s w).

(** ** Transport events *)

Definition on_format_proposed (s : App) (fp : FormatPropose) (w : World) : App * list AppOutput :=
  let s := mkApp (app_audio s) (app_device_name s) false false None None (app_controller_domain s)
             (fp_sample_rate fp) 0 (fp_stream_id fp) (app_servo_ticks s) (app_output_in_use s)
             (app_idle_ticks s) false (Some fp) (app_connected s) in
  let '(r, a) := au_configure (app_audio s) (fp_format fp) (fp_sample_rate fp) (fp_channels fp)
                   (app_device_name s) (w_device w) in
  (set_audio s a,
   [Ctrl (match r with
          | Ok _ => MFormatAccept (mkFormatAccept (fp_stream_id fp))
          | Err e => MFormatReject (mkFormatReject (fp_stream_id fp) ("audio device configuration failed: " ++ e)%string)
          end)]).

(** The deferred start, on the first packet after a play: scheduled on the
    timestamp of the ring's first frame, or at once. *)
Definition deferred_start (s : App) (pts buffered_before : Z) (w : World) : App :=
  let rate := app_sample_rate s in
  let clock := w_clock w in
  let head_pts := u64_saturating_sub pts (as_u 64 (buffered_before * 1000000000) / Z.max rate 1) in
  let lead := u64_saturating_sub (shared_controller_to_local clock head_pts) (w_now w) in
  if sc_bootstrapped clock && (0 <? lead) && (lead <? 5000000000) then
    set_schedule s false (app_started s) (Some (w_instant w + lead)) (Some (mkTracker head_pts rate)) true
      (app_last_drift s)
  else
    let pts_age := u64_saturating_sub (shared_local_to_controller clock (w_now w)) head_pts in
    let '(t, domain) :=
      if sc_bootstrapped clock && (pts_age <? 30000000000) then (mkTracker head_pts rate, true)
      else (mkTracker (w_now w) rate, false) in
    let s := set_schedule s false true (app_start_deadline s) (Some t) domain (app_last_drift s) in
    set_audio s (au_play (app_audio s)).

Definition on_audio_packet (s : App) (header : AudioPacketHeader) (payload : list Z) (w : World) : App :=
  let buffered_before := au_buffer_level (app_audio s) in
  let s := if negb (bool_decide (payload = [])) && negb (app_released s)
           then set_audio s (au_write (app_audio s) payload) else s in
  if app_armed s && negb (app_started s) then deferred_start s (pts_ns header) buffered_before w else s.

Definition on_play (s : App) (w : World) : App * list AppOutput :=
  let s :=
    if app_released s then
      let s := set_released s false in
      match app_last_format s with
      | Some fp => set_audio s (au_configure (app_audio s) (fp_format fp) (fp_sample_rate fp) (fp_channels fp)
                                  (app_device_name s) (w_device w)).2
      | None => s
      end
    else s in
  let '(s, hooks) := if app_output_in_use s then (s, []) else (set_use s true (app_idle_ticks s), [Hook "start"]) in
  let s :=
    if app_started s then set_audio s (au_play (app_audio s))
    else if bool_decide (is_Some (au_frames_played (app_audio s))) then
      set_schedule s true (app_started s) (app_start_deadline s) (app_tracker s) (app_controller_domain s)
        (app_last_drift s)
    else
      set_audio (set_schedule s (app_armed s) true (app_start_deadline s) (app_tracker s)
                   (app_controller_domain s) (app_last_drift s)) (au_play (app_audio s)) in
  (s, hooks).

(** [tracker = None; audio.set_correction(0)]. *)
Definition drop_tracker (s : App) : App :=
  let s := set_schedule s (app_armed s) (app_started s) (app_start_deadline s) None (app_controller_domain s)
             (app_last_drift s) in
  set_audio s (au_set_correction (app_audio s) 0).

Definition on_playback (s : App) (cmd : PlaybackCommand) (w : World) : App * list AppOutput :=
  match cmd with
  | CmdPlay _ => on_play s w
  | CmdPause _ => (drop_tracker (set_audio s (au_pause (app_audio s))), [])
  | CmdStop _ => end_use (reset_schedule (set_audio s (au_stop (app_audio s))))
  | CmdSeek _ _ => (drop_tracker (set_audio s (au_flush (app_audio s) (w_device w))), [])
  end.

(** [NextTrackReformat]: stereo is assumed. *)
Definition on_reformat (s : App) (fmt : AudioFormat) (rate : Z) (w : World) : App * list AppOutput :=
  if app_released s then (s, [])
  else (set_audio s (au_configure (app_audio s) fmt rate 2 (app_device_name s) (w_device w)).2, []).

Definition on_volume (hardware_volume : bool) (s : App) (cmd : VolumeCommand) : App * list AppOutput :=
  match cmd with
  | VolSet level =>
      if hardware_volume then (s, [MixerVolume level]) else (set_audio s (au_set_volume (app_audio s) level), [])
  | VolGet => (s, [])
  | VolMute muted =>
      if hardware_volume then (s, [MixerMute muted]) else (set_audio s (au_set_mute (app_audio s) muted), [])
  end.

Definition on_disconnected (s : App) : App * list AppOutput :=
  end_use (set_released (set_connected (set_audio s (au_stop (app_audio s))) false) false).

Definition on_event (hardware_volume : bool) (s : App) (e : EndpointEvent) (w : World) : App * list AppOutput :=
  match e with
  | EvConnected _ _ => (set_connected s true, [])
  | EvFormatProposed fp => on_format_proposed s fp w
  | EvAudioPacket h p => (on_audio_packet s h p w, [])
  | EvPlayback cmd => on_playback s cmd w
  | EvNextTrackReformat _ fmt rate => on_reformat s fmt rate w
  | EvVolume cmd => on_volume hardware_volume s cmd
  | EvDisconnected => on_disconnected s
  | _ => (s, [])
  end.

(** The release arm: the output is given up, and a connected controller told. *)
Definition on_release_request (s : App) : App * list AppOutput :=
  let s := reset_schedule (set_released (set_audio s (au_release (app_audio s))) true) in
  let msgs := if app_connected s
              then [Ctrl (MEndpointRelease (mkEndpointRelease (app_stream_id s) LocalSource))] else [] in
  let '(s, hooks) := end_use s in (s, msgs ++ hooks).

(** The device named is used from the next configuration on. *)
Definition on_device_switch (s : App) (name : string) : App :=
  mkApp (app_audio s) (Some name) (app_armed s) (app_started s) (app_start_deadline s) (app_tracker s)
    (app_controller_domain s) (app_sample_rate s) (app_last_drift s) (app_stream_id s) (app_servo_ticks s)
    (app_output_in_use s) (app_idle_ticks s) (app_released s) (app_last_format s) (app_connected s).

(** ** One turn *)

Definition app_step (hardware_volume : bool) (s : App) (i : AppInput) (w : World) : App * list AppOutput :=
  match i with
  | AudioThread => (set_audio s (au_thread (app_audio s) (w_device w)), [])
  | StartTimer =>
      match app_start_deadline s with
      | None => (s, [])
      | Some start_at =>
          if w_instant w <? start_at then (s, []) else
          let s := set_schedule s (app_armed s) true None (app_tracker s) (app_controller_domain s) (app_last_drift s) in
          (set_audio s (au_play (app_audio s)), [])
      end
  | ServoTick => servo_tick s w
  | TransportEvent e => on_event hardware_volume s e w
  | ReleaseRequest => on_release_request s
  | DeviceSwitch name => (on_device_switch s name, [])
  end.

Fixpoint app_run (hardware_volume : bool) (s : App) (ins : list (AppInput * World)) : App * list AppOutput :=
  match ins with
  | [] => (s, [])
  | (i, w) :: ins =>
      let '(s, o) := app_step hardware_volume s i w in
      let '(s, os) := app_run hardware_volume s ins in (s, o ++ os)
  end.

End app.

(** ** With the transport

    [defer_format_accept] is set by the program, so each message of the
    controller makes the transport queue events, and the program's control
    messages come back to it.  [node_message] is one message handled to the
    end, with no other input in between. *)
Definition events (outs : list Output) : list EndpointEvent :=
  omap (λ o, match o with Event e => Some e | Write _ => None end) outs.

Definition controls `{AudioBackend} (outs : list AppOutput) : list Message :=
  omap (λ o, match o with Ctrl m => Some m | _ => None end) outs.

(** What the channel from the program to the transport holds. *)
Definition CTRL_CHANNEL_CAPACITY : nat := 32.

Fixpoint on_controls (s : SessionVars) (msgs : list Message) : SessionVars * list Output :=
  match msgs with
  | [] => (s, [])
  | m :: msgs =>
      let '(s, o) := on_control s m in
      let '(s, os) := on_controls s msgs in (s, o ++ os)
  end.

Definition node_message `{AudioBackend} (cfg : EndpointConfig) (hardware_volume : bool)
    (s : SessionVars) (a : App) (msg : Message) (now : Z) (w : World)
    : SessionVars * App * list Message :=
  let '(s, outs) := on_message cfg s msg now in
  let '(a, aouts) := app_run hardware_volume a ((λ e, (TransportEvent e, w)) <$> events outs) in
  let '(s, outs') := on_controls s (controls aouts) in
  (s, a, written outs ++ written outs').

(** ** The hooks *)

Definition hooks_of (outs : list AppOutput) : list string :=
  omap (λ o, match o with Hook e => Some e | _ => None end) outs.

(** Whether "start" and "stop" alternate from [in_use], and where they end. *)
Fixpoint hook_run (in_use : bool) (hs : list string) : option bool :=
  match hs with
  | [] => Some in_use
  | h :: hs =>
      if in_use then if String.eqb h "stop" then hook_run false hs else None
      else if String.eqb h "start" then hook_run true hs else None
  end.

Lemma hook_run_app b hs hs' b' :
  hook_run b hs = Some b' → hook_run b (hs ++ hs') = hook_run b' hs'.
Proof.
  revert b. induction hs as [|h hs IH]; intros b; simpl; [by intros [= ->]|].
  repeat case_match; try done; apply IH.
Qed.

Section laws.
Context `{AudioBackend}.

Definition keeps_hooks (s : App) (r : App * list AppOutput) : Prop :=
  hook_run (app_output_in_use s) (hooks_of r.2) = Some (app_output_in_use r.1).

Lemma keeps_hooks_silent s s' outs :
  app_output_in_use s' = app_output_in_use s → hooks_of outs = [] → keeps_hooks s (s', outs).
Proof. unfold keeps_hooks. simpl. by intros -> ->. Qed.

Lemma keeps_hooks_end_use s s' : app_output_in_use s' = app_output_in_use s → keeps_hooks s (end_use s').
Proof. unfold keeps_hooks, end_use. intros <-. by destruct (app_output_in_use s') eqn:E; simpl; rewrite ?E. Qed.

Lemma servo_correct_in_use s w : app_output_in_use (servo_correct s w) = app_output_in_use s.
Proof. unfold servo_correct. by repeat case_match. Qed.

Lemma stream_stats_hooks s w : hooks_of (stream_stats s w) = [].
Proof. unfold stream_stats. repeat case_match; done. Qed.

Lemma keeps_hooks_servo s w : keeps_hooks s (servo_tick s w).
Proof.
  unfold keeps_hooks, servo_tick. simpl. destruct (app_output_in_use s); simpl.
  - destruct (_ && _); [destruct (2 <=? _)|]; simpl; rewrite servo_correct_in_use, ?stream_stats_hooks; done.
  - rewrite servo_correct_in_use, stream_stats_hooks. done.
Qed.

Lemma deferred_start_in_use s pts b w : app_output_in_use (deferred_start s pts b w) = app_output_in_use s.
Proof. unfold deferred_start. by repeat case_match. Qed.

Lemma on_audio_packet_in_use s h p w : app_output_in_use (on_audio_packet s h p w) = app_output_in_use s.
Proof. unfold on_audio_packet. repeat case_match; rewrite ?deferred_start_in_use; done. Qed.

Lemma keeps_hooks_play s w : keeps_hooks s (on_play s w).
Proof.
  unfold keeps_hooks, on_play.
  set (s0 := if app_released s then _ else s).
  assert (app_output_in_use s0 = app_output_in_use s) as <- by (unfold s0; by repeat case_match).
  destruct (app_output_in_use s0) eqn:E; simpl; repeat case_match; simpl; by rewrite ?E.
Qed.

Lemma keeps_hooks_event hv s e w : keeps_hooks s (on_event hv s e w).
Proof.
  destruct e; simpl; try by apply keeps_hooks_silent.
  - unfold on_format_proposed. case_match. by apply keeps_hooks_silent.
  - apply keeps_hooks_silent; [apply on_audio_packet_in_use|done].
  - destruct cmd; simpl; [apply keeps_hooks_play|by apply keeps_hooks_silent|by apply keeps_hooks_end_use|
                          by apply keeps_hooks_silent].
  - destruct cmd, hv; by apply keeps_hooks_silent.
  - unfold on_reformat. case_match; by apply keeps_hooks_silent.
  - by apply keeps_hooks_end_use.
Qed.

Lemma keeps_hooks_release s m : (∀ e, m ≠ Hook e) →
  keeps_hooks s (let s := reset_schedule (set_released (set_audio s (au_release (app_audio s))) true) in
                 let msgs := if app_connected s then [m] else [] in
                 let '(s, hooks) := end_use s in (s, msgs ++ hooks)).
Proof.
  intros Hm. unfold keeps_hooks, end_use. simpl. destruct m; [|by destruct (Hm event)|..];
    by destruct (app_output_in_use s) eqn:E, (app_connected s); simpl; rewrite ?E.
Qed.

Lemma keeps_hooks_step hv s i w : keeps_hooks s (app_step hv s i w).
Proof.
  destruct i; simpl; try by apply keeps_hooks_silent.
  - repeat case_match; by apply keeps_hooks_silent.
  - apply keeps_hooks_servo.
  - apply keeps_hooks_event.
  - by apply keeps_hooks_release.
Qed.

Lemma keeps_hooks_run hv s ins : keeps_hooks s (app_run hv s ins).
Proof.
  unfold keeps_hooks. revert s. induction ins as [|[i w] ins IH]; intros s; simpl; [done|].
  pose proof (keeps_hooks_step hv s i w) as Hstep. unfold keeps_hooks in Hstep.
  destruct (app_step hv s i w) as [s' o]. specialize (IH s'). destruct (app_run hv s' ins) as [s'' os].
  simpl in *. unfold hooks_of in *. rewrite omap_app. by erewrite hook_run_app.
Qed.

End laws.

(** ** What the program relies on to give up the device

    [off] holds of an output with no device and nothing to play: releasing
    gives it, and no call but an open takes it away. *)
Class AudioBackendLaws (B : AudioBackend) := {
  off : audio → Prop;
  off_release a : off (au_release a);
  off_pause a : off a → off (au_pause a);
  off_stop a : off a → off (au_stop a);
  off_set_volume a v : off a → off (au_set_volume a v);
  off_set_mute a m : off a → off (au_set_mute a m);
  off_write a data : off a → off (au_write a data);
  off_set_correction a n : off a → off (au_set_correction a n);
  off_thread a d : off a → off (au_thread a d)
}.

Lemma alsa_off_shutdown `{FlacStream} (o : AlsaDirectOutput) d :
  ao_writer (shutdown o d) = None ∧ ao_playing (shutdown o d) = false.
Proof. done. Qed.

Lemma alsa_off_write `{FlacStream} (o : AlsaDirectOutput) data :
  ao_playing o = false → (alsa_write_audio o data).2 = o.
Proof. unfold alsa_write_audio. by intros ->. Qed.

#[export] Instance alsa_backend_laws `{FlacStream} : AudioBackendLaws alsa_backend.
Proof.
  refine {| off := (λ o, ao_writer o = None ∧ ao_playing o = false : Prop) : @audio alsa_backend → Prop |};
    simpl; intros; try done; try apply alsa_off_shutdown.
  - naive_solver.
  - rewrite alsa_off_write; naive_solver.
Defined.

#[export] Instance cpal_backend_laws `{FlacStream} decode : AudioBackendLaws (cpal_backend decode).
Proof.
  refine {| off := (λ o, co_stream o = None ∧ co_ring o = None ∧ co_playing o = false : Prop)
                     : @audio (cpal_backend decode) → Prop |};
    simpl; intros; try done; try naive_solver.
  - unfold cpal_write_audio. destruct_and!. by case_match.
  - unfold cpal_callback. destruct_and!. by case_match.
Defined.

(** The inputs that a released output must ignore: all but a new negotiation,
    a play, a seek and the end of the session. *)
Definition leaves_released (i : AppInput) : bool :=
  match i with
  | TransportEvent (EvFormatProposed _ | EvPlayback (CmdPlay _ | CmdSeek _ _) | EvDisconnected) => false
  | _ => true
  end.

Section released.
Context {B : AudioBackend} {L : AudioBackendLaws B}.

Record idle (s : App) : Prop := {
  idle_off : off (app_audio s);
  idle_released : app_released s = true;
  idle_armed : app_armed s = false;
  idle_started : app_started s = false;
  idle_deadline : app_start_deadline s = None
}.

Lemma idle_servo s w : idle s → idle (servo_tick s w).1.
Proof.
  intros [???? ?]. unfold servo_tick. simpl.
  destruct (_ && _); [destruct (2 <=? _)|]; unfold servo_correct; simpl;
    replace (app_started s) with false; by constructor.
Qed.

Lemma idle_end_use s : idle s → idle (end_use s).1.
Proof. intros [????]. unfold end_use. by case_match; constructor. Qed.

Lemma idle_step hv s i w : idle s → leaves_released i = true → idle (app_step hv s i w).1.
Proof.
  intros Hs Hi. destruct i; simpl.
  - destruct Hs. constructor; simpl; auto using off_thread.
  - destruct Hs as [???? Hd]. by rewrite Hd.
  - by apply idle_servo.
  - destruct Hs as [Ho Hr Ha Hst Hd]. destruct e; simpl in *; try done; try by constructor.
    + unfold on_audio_packet. rewrite Hr, andb_false_r. rewrite Ha. by constructor.
    + destruct cmd; try done; simpl.
      * constructor; simpl; auto using off_pause, off_set_correction.
      * apply idle_end_use. constructor; simpl; auto using off_stop.
    + destruct cmd, hv; simpl; constructor; simpl; auto using off_set_volume, off_set_mute.
    + unfold on_reformat. rewrite Hr. by constructor.
  - destruct Hs as [Ho Hr Ha Hst Hd]. unfold on_release_request, end_use. simpl.
    destruct (app_output_in_use s); simpl; constructor; simpl; auto using off_release.
  - destruct Hs. by constructor.
Qed.

Lemma idle_run hv ins s : idle s → Forall (λ iw, leaves_released iw.1 = true) ins → idle (app_run hv s ins).1.
Proof.
  revert s. induction ins as [|[i w] ins IH]; intros s Hs Hf; simpl; [done|].
  apply Forall_cons in Hf as [Hi Hf]. pose proof (idle_step hv s i w Hs Hi) as Hs'.
  destruct (app_step hv s i w) as [s' o]. specialize (IH s' Hs' Hf). by destruct (app_run hv s' ins).
Qed.

Lemma idle_release hv s w : idle (app_step hv s ReleaseRequest w).1.
Proof. simpl. unfold on_release_request, end_use. simpl. destruct (app_output_in_use s); simpl; constructor; simpl; auto using off_release. Qed.

End released.

(** ** Drift and rebasing *)

(** Moving the start of a tracker by the time its drift takes to play leaves
    at most one frame of drift. *)
Lemma rebase_drift t rate now frames :
  let drift := drift_frames t now frames in
  let shift := as_u 64 (as_u 64 drift * 1000000000) / Z.max rate 1 in
  is_u64 (start_ns t) → is_u64 now → sample_rate t = rate → 0 < rate ≤ 1000000000 →
  now * rate < 2 ^ 62 * 1000000000 → 0 ≤ frames < 2 ^ 62 →
  0 < drift → drift * 1000000000 < 2 ^ 64 →
  0 ≤ drift_frames (mkTracker (wrapping_add 64 (start_ns t) shift) rate) now frames ≤ 1.
Proof.
  intros drift shift Hs Hn <- Hr Hb Hf Hd Hd64.
  set (rate := sample_rate t) in *.
  destruct (drift_frames_spec t now frames) as (ex & Hex & Hex0 & Hbefore & Hafter); try (unfold rate in *; range).
  fold drift in Hex. assert (start_ns t < now) as Hlt by (destruct (Z.le_gt_cases now (start_ns t)); [specialize (Hbefore ltac:(done))|]; lia).
  specialize (Hafter ltac:(lia)). fold rate in Hafter.
  assert (shift = drift * 1000000000 / rate) as Eshift.
  { unfold shift. rewrite (as_u_id 64 drift), as_u_id, Z.max_l by range. done. }
  pose proof (Z.div_mod (drift * 1000000000) rate ltac:(lia)) as Hdm.
  pose proof (Z.mod_pos_bound (drift * 1000000000) rate ltac:(lia)) as Hmod.
  rewrite <- Eshift in Hdm.
  assert (0 ≤ shift) by (rewrite Eshift; apply Z.div_pos; lia).
  assert (start_ns t + shift ≤ now) by nia.
  unfold wrapping_add. rewrite as_u_id by range.
  destruct (drift_frames_spec (mkTracker (start_ns t + shift) rate) now frames)
    as (ex' & -> & _ & _ & Hafter'); simpl; try range.
  specialize (Hafter' ltac:(simpl; lia)). simpl in Hafter'. nia.
Qed.

(** ** The servo *)

Lemma servo_correct_in_tick `{AudioBackend} s w :
  app_audio (servo_tick s w).1 = app_audio (servo_correct s w) ∧
  app_tracker (servo_tick s w).1 = app_tracker (servo_correct s w) ∧
  app_last_drift (servo_tick s w).1 = app_last_drift (servo_correct s w).
Proof.
  unfold servo_tick. simpl. destruct (_ && _); [destruct (2 <=? _)|]; simpl;
    unfold servo_correct, tracker_now, set_use, set_schedule, set_audio; cbn;
    (destruct (app_started s); [|by repeat split]);
    (destruct (app_tracker s) as [t|] eqn:Et; [|cbn; rewrite ?Et; by repeat split]);
    (destruct (au_content_position (app_audio s)) as [f|]; [|cbn; rewrite ?Et; by repeat split]);
    (case_match; by repeat split).
Qed.

Lemma clamp_towards rate d : 0 < rate →
  Z.abs (clamp (- rate) rate d) = Z.min (Z.abs d) rate ∧ (d ≠ 0 → 0 < clamp (- rate) rate d * d).
Proof. unfold clamp. nia. Qed.

(** Catching up is given up: more than half a second late, and the drift has
    gained less than a tenth of a second since the last tick. *)
Definition stalled (rate last drift : Z) : Prop :=
  rate / 2 < drift ∧ last ≠ 0 ∧ as_i 64 (last - drift) < rate / 10.

(** ** The periodic report *)

Lemma div_succ n : 0 ≤ n → (n + 1) / 5 = n / 5 + (if (n + 1) mod 5 =? 0 then 1 else 0).
Proof. intros. destruct (_ =? 0) eqn:E; Z.div_mod_to_equations; lia. Qed.

Lemma servo_tick_reports `{AudioBackend} s w :
  app_started s = true → app_stream_id s ≠ ""%string →
  length (controls (servo_tick s w).2) = (if (app_servo_ticks s + 1) mod 5 =? 0 then 1%nat else 0%nat) ∧
  app_started (servo_tick s w).1 = true ∧ app_stream_id (servo_tick s w).1 = app_stream_id s ∧
  app_servo_ticks (servo_tick s w).1 = app_servo_ticks s + 1.
Proof.
  intros Hs Hid. apply String.eqb_neq in Hid. unfold servo_tick. simpl.
  destruct (_ && _); [destruct (2 <=? _)|]; simpl; unfold stream_stats; simpl; rewrite ?Hs, ?Hid, ?andb_true_r; simpl;
    split; try (by destruct (_ =? 0)); unfold servo_correct; simpl; rewrite ?Hs; by repeat case_match.
Qed.

Lemma servo_ticks_report `{AudioBackend} hv ws s :
  app_started s = true → app_stream_id s ≠ ""%string → 0 ≤ app_servo_ticks s →
  Z.of_nat (length (controls (app_run hv s ((λ w, (ServoTick, w)) <$> ws)).2)) =
  (app_servo_ticks s + len ws) / 5 - app_servo_ticks s / 5.
Proof.
  revert s. induction ws as [|w ws IH]; intros s Hs Hid Hn; simpl; [rewrite Z.add_0_r; lia|].
  destruct (servo_tick_reports s w Hs Hid) as (Hlen & Hs' & Hid' & Hn').
  destruct (servo_tick s w) as [s' o]. simpl in *.
  rewrite <- Hid' in Hid. specialize (IH s' Hs' Hid ltac:(lia)).
  destruct (app_run hv s' _) as [s'' os]. simpl in *.
  unfold controls in *. rewrite omap_app, length_app, Nat2Z.inj_add, Hlen, IH, Hn'.
  pose proof (div_succ (app_servo_ticks s) Hn).
  replace (app_servo_ticks s + len (w :: ws)) with (app_servo_ticks s + 1 + len ws) by (unfold len; simpl; lia).
  destruct (_ =? 0); lia.
Qed.

(** ** The scheduled start *)

Lemma scheduled_start_fires `{AudioBackend} hv s h p w :
  let head := u64_saturating_sub (pts_ns h)
                (as_u 64 (au_buffer_level (app_audio s) * 1000000000) / Z.max (app_sample_rate s) 1) in
  let offset := sc_offset_ns (w_clock w) in
  let deadline := w_instant w + (head - offset - w_now w) in
  app_armed s = true → app_started s = false → sc_bootstrapped (w_clock w) = true →
  is_u64 head → head < 2 ^ 63 → is_i64 offset → head - offset < 2 ^ 63 → 0 ≤ w_now w →
  0 < head - offset - w_now w < 5000000000 →
  let s1 := (app_step hv s (TransportEvent (EvAudioPacket h p)) w).1 in
  app_started s1 = false ∧ app_start_deadline s1 = Some deadline ∧
  (∀ w', w_instant w' < deadline → app_step hv s1 StartTimer w' = (s1, [])) ∧
  (∀ w', deadline ≤ w_instant w' →
     let s2 := (app_step hv s1 StartTimer w').1 in app_started s2 = true ∧ app_audio s2 = au_play (app_audio s1)).
Proof.
  intros head offset deadline Ha Hst Hb Hh Hh63 Ho Hl63 Hn Hlead. simpl. unfold on_audio_packet.
  set (s0 := if _ && _ then set_audio s _ else s).
  assert (app_armed s0 = true ∧ app_started s0 = false ∧ app_sample_rate s0 = app_sample_rate s) as (Ha0 & Hs0 & Hr0)
    by (unfold s0; by case_match).
  rewrite Ha0, Hs0. simpl. unfold deferred_start. rewrite Hr0. fold head. rewrite Hb.
  unfold shared_controller_to_local. fold offset.
  rewrite to_local_exact by (done || lia).
  replace (u64_saturating_sub (head - offset) (w_now w)) with (head - offset - w_now w)
    by (unfold u64_saturating_sub; lia).
  destruct (0 <? _) eqn:E1; [|lia]. destruct (_ <? 5000000000) eqn:E2; [|lia]. simpl. fold deadline.
  split; [done|]. split; [done|]. split.
  - intros w' Hw. by rewrite (proj2 (Z.ltb_lt _ _) Hw).
  - intros w' Hw. by rewrite (proj2 (Z.ltb_ge _ _) Hw).
Qed.

(** ** A proposal, handled to the end *)

Lemma node_proposal `{AudioBackend} cfg hv s a fp now w :
  cfg_defer_format_accept cfg = true → pending_accept s = None →
  let response := negotiate_format (cfg_capabilities cfg) fp in
  let answer :=
    match (au_configure (app_audio a) (fp_format fp) (fp_sample_rate fp) (fp_channels fp)
             (app_device_name a) (w_device w)).1 with
    | Ok _ => MFormatAccept (mkFormatAccept (fp_stream_id fp))
    | Err e => MFormatReject (mkFormatReject (fp_stream_id fp)
                                ("audio device configuration failed: " ++ e)%string)
    end in
  ∃ s' a', pending_accept s' = None ∧
  node_message cfg hv s a (MFormatPropose fp) now w =
    (s', a', match response with MFormatAccept _ => [answer] | _ => [response; answer] end).
Proof.
  intros Hdefer Hp response answer. unfold node_message. simpl on_message. unfold on_format_propose.
  fold response. rewrite Hdefer. simpl.
  destruct response eqn:Er; simpl; unfold on_format_proposed; simpl;
    (destruct (au_configure _ _ _ _ _ _) as [[?|e] a'] eqn:Ec; simpl in answer; subst answer;
     unfold on_control; simpl; rewrite ?Hp, ?String.eqb_refl; eexists _, _; (split; [|reflexivity]); done).
Qed.

(** ** Properties *)

(** Whatever the controller, the user and the sound device do, the hooks run
    alternate between "start" and "stop", beginning with "start", and at any
    time the last one run says whether the program counts the output in use. *)
Theorem hooks_alternate `{AudioBackend} hv a dev ins :
  hook_run false (hooks_of (app_run hv (app_new a dev) ins).2) =
  Some (app_output_in_use (app_run hv (app_new a dev) ins).1).
Proof. apply (keeps_hooks_run hv (app_new a dev)). Qed.

(** C22 Transport and program one after the other: a format proposal that
    arrives with deferred accepts and no negotiation pending, and is handled to
    the end before anything else. An acceptable proposal gets one answer, an
    accept exactly when the audio device could be configured for it. A proposal
    the endpoint rejects or counters gets that answer and then a second one,
    the answer of the device (an accept when it could be configured, else a
    rejection), because the program configures the device for it all the same
    and what it says is passed on. *)
Theorem proposal_answers `{AudioBackend} cfg hv s a fp now w :
  cfg_defer_format_accept cfg = true → pending_accept s = None →
  let response := negotiate_format (cfg_capabilities cfg) fp in
  let answer :=
    match (au_configure (app_audio a) (fp_format fp) (fp_sample_rate fp) (fp_channels fp)
             (app_device_name a) (w_device w)).1 with
    | Ok _ => MFormatAccept (mkFormatAccept (fp_stream_id fp))
    | Err e => MFormatReject (mkFormatReject (fp_stream_id fp)
                                ("audio device configuration failed: " ++ e)%string)
    end in
  let '(s', _, frames) := node_message cfg hv s a (MFormatPropose fp) now w in
  pending_accept s' = None ∧
  frames = match response with MFormatAccept _ => [answer] | _ => [response; answer] end.
Proof.
  intros Hdefer Hp response answer. destruct (node_proposal cfg hv s a fp now w Hdefer Hp) as (s' & a' & Hp' & E).
  rewrite E. by split.
Qed.

(** A start scheduled on timestamps happens on time: with a bootstrapped
    clock and the first buffered frame due within five seconds, the packet
    after a play does not start the output but sets a timer; the timer does
    nothing before its instant, and when it fires the output starts with the
    controller's clock at the timestamp of that first frame, plus what the
    timer is late.  The timestamp is the same for all endpoints of a zone. *)
Theorem scheduled_start `{AudioBackend} hv s h p w :
  let head := u64_saturating_sub (pts_ns h)
                (as_u 64 (au_buffer_level (app_audio s) * 1000000000) / Z.max (app_sample_rate s) 1) in
  let offset := sc_offset_ns (w_clock w) in
  app_armed s = true → app_started s = false → sc_bootstrapped (w_clock w) = true →
  is_u64 head → head < 2 ^ 63 → is_i64 offset → head - offset < 2 ^ 63 → 0 ≤ w_now w →
  0 < head - offset - w_now w < 5000000000 →
  let s1 := (app_step hv s (TransportEvent (EvAudioPacket h p)) w).1 in
  app_started s1 = false ∧
  ∃ deadline, app_start_deadline s1 = Some deadline ∧
    (∀ w', w_instant w' < deadline → app_step hv s1 StartTimer w' = (s1, [])) ∧
    (∀ w', deadline ≤ w_instant w' → sc_offset_ns (w_clock w') = offset →
       w_now w' - w_now w = w_instant w' - w_instant w →
       w_now w' < 2 ^ 63 → w_now w' + offset < 2 ^ 63 →
       let s2 := (app_step hv s1 StartTimer w').1 in
       app_started s2 = true ∧ app_audio s2 = au_play (app_audio s1) ∧
       shared_local_to_controller (w_clock w') (w_now w') = head + (w_instant w' - deadline)).
Proof.
  intros head offset Ha Hst Hb Hh Hh63 Ho Hl63 Hn Hlead s1.
  destruct (scheduled_start_fires hv s h p w Ha Hst Hb Hh Hh63 Ho Hl63 Hn Hlead) as (Hns & Hd & Hearly & Hfire).
  split; [exact Hns|]. eexists. split; [exact Hd|]. split; [exact Hearly|]. intros w' Hw Hoff Hrate Hn63 Hc63.
  destruct (Hfire w' Hw) as [H1 H2]. split; [exact H1|]. split; [exact H2|].
  unfold shared_local_to_controller. rewrite Hoff. fold head offset in Hw. rewrite to_controller_exact; try range; try done; lia.
Qed.

(** C28 The servo steers, and never over-corrects. Each tick during playback
    that finds the drift outside the dead band (half a millisecond, four frames
    at least) asks for a correction of exactly that drift, in its direction,
    cut to one second of audio; inside the dead band it asks for none. Only
    when catching up has stalled (more than half a second late, and hardly
    better than at the last tick) it moves the timeline instead: it asks for no
    correction, and the drift from then on is at most one frame. *)
Theorem servo_steers `{AudioBackend} s w t frames :
  let rate := app_sample_rate s in
  let now := tracker_now s w (w_now w) in
  let drift := drift_frames t now frames in
  let s' := (servo_tick s w).1 in
  app_started s = true → app_tracker s = Some t → au_content_position (app_audio s) = Some frames →
  sample_rate t = rate → 0 < rate ≤ 1000000000 → is_u64 (start_ns t) → is_u64 now →
  now * rate < 2 ^ 62 * 1000000000 → 0 ≤ frames < 2 ^ 62 → drift * 1000000000 < 2 ^ 64 →
  ∃ c t', app_audio s' = au_set_correction (app_audio s) c ∧ app_tracker s' = Some t' ∧
    (¬ stalled rate (app_last_drift s) drift →
       t' = t ∧ app_last_drift s' = drift ∧
       (Z.abs drift ≤ Z.max (rate / 2000) 4 → c = 0) ∧
       (Z.max (rate / 2000) 4 < Z.abs drift → Z.abs c = Z.min (Z.abs drift) rate ∧ 0 < c * drift)) ∧
    (stalled rate (app_last_drift s) drift →
       c = 0 ∧ app_last_drift s' = 0 ∧ 0 ≤ drift_frames t' now frames ≤ 1).
Proof.
  intros rate now drift s' Hst Ht Hf Hrate Hr Hs Hn Hb Hfr Hd.
  destruct (servo_correct_in_tick s w) as (Ha & Htr & Hl). unfold s'. rewrite Ha, Htr, Hl. clear s' Ha Htr Hl.
  assert (is_i64 drift) as Hd64 by (apply as_i_range; lia).
  assert (Z.abs drift < 2 ^ 63) as Habs.
  { destruct (drift_frames_spec t now frames) as (ex & Hex & ? & _ & _); subst rate; range. }
  unfold servo_correct, stalled. rewrite Hst, Ht, Hf. fold rate now drift.
  rewrite (as_i_id 64 (Z.abs drift)) by range.
  destruct (_ && _ && _) eqn:Estall; simpl.
  - apply andb_prop in Estall as [[Hhalf Hlast]%andb_prop Hprog].
    apply Z.ltb_lt in Hhalf. apply Z.ltb_lt in Hprog. apply negb_true_iff, Z.eqb_neq in Hlast.
    pose proof (Z.div_pos rate 2 ltac:(lia) ltac:(lia)).
    exists 0. eexists. split_and!; [done|done|intros []; by split_and!|intros _].
    split_and!; try done; apply rebase_drift; (done || lia).
  - pose proof (clamp_towards rate drift ltac:(lia)) as [Hc Hcd].
    eexists. exists t. split_and!; [done|done| |].
    + intros _. split_and!; [done|done|intros; by rewrite (proj2 (Z.ltb_ge _ _)) by done|].
      intros Hdead. rewrite (proj2 (Z.ltb_lt _ _)) by done. split; [done|]. apply Hcd. lia.
    + intros (?&?&?). exfalso. apply andb_false_iff in Estall as [[E|E]%andb_false_iff|E].
      * apply Z.ltb_ge in E. lia.
      * by apply negb_false_iff, Z.eqb_eq in E.
      * apply Z.ltb_ge in E. lia.
Qed.

(** C32 Once the output is given up, the device stays closed: no packet,
    reformat, timer, servo tick, volume change, pause, stop, second release or
    device switch opens it or plays anything, until the controller negotiates
    again, sends play or seek, or leaves. *)
Theorem release_keeps_device_closed {B : AudioBackend} {L : AudioBackendLaws B} hv s w ins :
  Forall (λ iw, leaves_released iw.1 = true) ins →
  let s' := (app_run hv (app_step hv s ReleaseRequest w).1 ins).1 in
  off (app_audio s') ∧ app_released s' = true ∧ app_started s' = false.
Proof.
  intros Hins. pose proof (idle_run hv ins _ (idle_release hv s w) Hins) as [????]. done.
Qed.

(** A seek that reaches an endpoint which gave up its device takes the
    device back: the ALSA output is opened and set playing again, while the
    program still counts itself as released, keeps the output marked unused
    and ignores the audio. *)
Theorem seek_reopens_released `{FlacStream} hv (s : App) w w' id pos params :
  stream_params (ao_format (app_audio s)) (ao_sample_rate (app_audio s)) (ao_channels (app_audio s))
    (ao_device_name (app_audio s)) = Ok params →
  (w_device w').1.1 = Opened →
  let s1 := (app_step hv s ReleaseRequest w).1 in
  let '(s2, outs) := app_step hv s1 (TransportEvent (EvPlayback (CmdSeek id pos))) w' in
  off (app_audio s1) ∧
  ao_writer (app_audio s2) = Some (mkWriterHandle params [] false) ∧ ao_playing (app_audio s2) = true ∧
  app_released s2 = true ∧ app_output_in_use s2 = false ∧ outs = [] ∧
  ∀ h p w'', on_audio_packet s2 h p w'' = s2.
Proof.
  intros Hp Hd s1.
  assert (ao_format (app_audio s1) = ao_format (app_audio s) ∧ ao_sample_rate (app_audio s1) = ao_sample_rate (app_audio s) ∧
    ao_channels (app_audio s1) = ao_channels (app_audio s) ∧ ao_device_name (app_audio s1) = ao_device_name (app_audio s) ∧
    app_output_in_use s1 = false) as (Ef & Er & Ec & En & Eu).
  { unfold s1. simpl. unfold on_release_request, end_use. simpl. destruct (app_output_in_use s) eqn:E; simpl; by rewrite ?E. }
  destruct (idle_release hv s w) as [Hoff Hrel Harm Hst Hdl]. fold s1 in Hoff, Hrel, Harm, Hst, Hdl.
  simpl. unfold alsa_flush, configure_with_device. simpl. rewrite Ef, Er, Ec, En, Hp, Hd. simpl.
  split; [exact Hoff|]. split_and!; try done. intros h p w''. unfold on_audio_packet. simpl. rewrite Hrel, andb_false_r. simpl. by rewrite Harm.
Qed.

(** The program does not stop its periodic report when the controller
    leaves during playback: it goes on queueing one message every five ticks,
    so that after 165 ticks it has sent more than the control channel holds,
    which nothing reads until a controller comes back. *)
Theorem stats_after_disconnect `{AudioBackend} hv s w ws :
  app_started s = true → app_stream_id s ≠ ""%string → 0 ≤ app_servo_ticks s →
  let outs := (app_run hv s ((TransportEvent EvDisconnected, w) :: ((λ w, (ServoTick, w)) <$> ws))).2 in
  Z.of_nat (length (controls outs)) = (app_servo_ticks s + len ws) / 5 - app_servo_ticks s / 5 ∧
  (165 ≤ length ws → CTRL_CHANNEL_CAPACITY < length (controls outs))%nat.
Proof.
  intros Hs Hid Hn. cbn [app_run]. cbn [app_step on_event]. unfold on_disconnected.
  set (s1 := end_use _).
  assert (app_started s1.1 = true ∧ app_stream_id s1.1 = app_stream_id s ∧
          app_servo_ticks s1.1 = app_servo_ticks s ∧ controls s1.2 = []) as (Hs1 & Hid1 & Hn1 & Hc1)
    by (unfold s1, end_use; simpl; by case_match).
  pose proof (servo_ticks_report hv ws s1.1) as Hrep. rewrite Hid1, Hn1 in Hrep. specialize (Hrep Hs1 Hid Hn).
  destruct s1 as [s1' o1]. simpl in *. destruct (app_run hv s1' _) as [s2 os]. simpl in *.
  unfold controls in *. rewrite omap_app, Hc1. simpl. split; [done|].
  intros Hlen. unfold CTRL_CHANNEL_CAPACITY. unfold len in Hrep. Z.div_mod_to_equations. lia.
Qed.

(** ** Witnesses *)

#[local] Instance no_flac : FlacStream :=
  {| flac_state := unit; flac_new := tt; flac_feed := λ s _, ([], s); flac_reset := λ s, s |}.

Definition pi_world : World :=
  mkWorld 1700000000000000000 1700000000000000000 0 SharedClock_new (Opened, true, 0).
Definition pi_app : App := app_new AlsaDirectOutput_new None.
Definition pi_playing : App :=
  (app_run false pi_app
     [(TransportEvent (EvFormatProposed demo_proposal), pi_world);
      (TransportEvent (EvPlayback (CmdPlay "s1")), pi_world)]).1.
Definition pi_session : SessionVars := mkSession (mkCodec []) None None None true (Some 9742).

(** A FLAC stream, which the endpoint did not announce: rejected, and then
    accepted. *)
Definition flac_offer : FormatPropose := mkFormatPropose "s2" Flac 96000 2 Stereo 24 None.

Lemma proposal_answers_witness :
  (node_message demo_cfg false pi_session pi_app (MFormatPropose flac_offer) 7 pi_world).2 =
    [negotiate_format demo_caps flac_offer; MFormatAccept (mkFormatAccept "s2")] ∧
  (∃ reason, negotiate_format demo_caps flac_offer = MFormatReject (mkFormatReject "s2" reason)).
Proof.
  pose proof (proposal_answers demo_cfg false pi_session pi_app flac_offer 7 pi_world eq_refl eq_refl) as Hw.
  vm_compute in Hw. split; [exact (proj2 Hw)|]. eexists. vm_compute. reflexivity.
Defined.

Lemma release_keeps_device_closed_witness :
  let s' := (app_run false (app_step false pi_playing ReleaseRequest pi_world).1
               [(TransportEvent (EvNextTrackReformat "s3" PcmS16le 44100), pi_world);
                (TransportEvent (EvPlayback (CmdStop "s1")), pi_world); (ServoTick, pi_world)]).1 in
  off (app_audio s') ∧ app_released s' = true ∧ app_started s' = false.
Proof.
  apply (release_keeps_device_closed false pi_playing pi_world). repeat constructor.
Defined.

Lemma seek_reopens_released_witness :
  let s2 := (app_step false (app_step false pi_playing ReleaseRequest pi_world).1
               (TransportEvent (EvPlayback (CmdSeek "s1" 1000))) pi_world).1 in
  ao_playing (app_audio pi_playing) = true ∧ ao_playing (app_audio s2) = true ∧ app_released s2 = true.
Proof.
  pose proof (seek_reopens_released false pi_playing pi_world pi_world "s1" 1000 _ eq_refl eq_refl) as Hw.
  split; [reflexivity|]. split; apply Hw.
Defined.

Lemma stats_after_disconnect_witness :
  let outs := (app_run false pi_playing
                 ((TransportEvent EvDisconnected, pi_world) ::
                  ((λ w, (ServoTick, w)) <$> replicate 165 pi_world))).2 in
  (CTRL_CHANNEL_CAPACITY < length (controls outs))%nat.
Proof.
  apply (stats_after_disconnect false pi_playing pi_world (replicate 165 pi_world)); vm_compute;
    try done; try lia; discriminate.
Defined.

(** A portable endpoint whose clock is 5 ms behind the controller's. *)
Definition mac_clock : SharedClock := mkShared ClockState_new 5000000 200000 true 0 0.
Definition mac_world (now instant : Z) : World (H := cpal_backend (λ _, [])) :=
  mkWorld (H := cpal_backend (λ _, [])) now now instant mac_clock (demo_host, Ok tt, 0%nat).
Definition mac_armed : App (H := cpal_backend (λ _, [])) :=
  (app_run (H := cpal_backend (λ _, [])) false (app_new (H := cpal_backend (λ _, [])) CpalOutput_new None)
     [(TransportEvent (EvFormatProposed demo_proposal), mac_world 1700000000000000000 0);
      (TransportEvent (EvPlayback (CmdPlay "s1")), mac_world 1700000000000000000 0)]).1.

Definition first_packet : AudioPacketHeader :=
  mkHeader 1 0 PcmS24le 0 1 1700000001000000000 0 6 0 0 0.

Lemma scheduled_start_witness :
  let s1 := (app_step (H := cpal_backend (λ _, [])) false mac_armed
               (TransportEvent (EvAudioPacket first_packet [1; 2; 3; 4; 5; 6])) (mac_world 1700000000500000000 7)).1 in
  let w' := mac_world 1700000000995000000 495000007 in
  app_start_deadline (H := cpal_backend (λ _, [])) s1 = Some 495000007 ∧
  shared_local_to_controller (w_clock (H := cpal_backend (λ _, [])) w')
    (w_now (H := cpal_backend (λ _, [])) w') = 1700000001000000000.
Proof.
  destruct (scheduled_start (H := cpal_backend (λ _, [])) false mac_armed first_packet [1; 2; 3; 4; 5; 6]
              (mac_world 1700000000500000000 7)) as (_ & d & Hd & _ & Hfire);
    [vm_compute; try split; reflexivity || discriminate..|].
  assert (d = 495000007) as -> by (vm_compute in Hd; congruence).
  split; [exact Hd|]. apply (Hfire (mac_world 1700000000995000000 495000007)); vm_compute; reflexivity || discriminate.
Defined.

(** Playing for one second, nothing consumed, and no progress since the last
    tick: the timeline is moved. *)
Definition mac_stalled : App (H := cpal_backend (λ _, [])) :=
  mkApp (H := cpal_backend (λ _, [])) demo_cpal None false true None (Some (mkTracker 1700000000000000000 48000))
    true 48000 48000 "s1" 4 true 0 false None true.

Lemma servo_steers_witness :
  let w := mac_world 1700000000995000000 0 in
  ∃ t', app_tracker (H := cpal_backend (λ _, [])) (servo_tick (H := cpal_backend (λ _, [])) mac_stalled w).1 = Some t' ∧
    0 ≤ drift_frames t' 1700000001000000000 0 ≤ 1.
Proof.
  destruct (servo_steers (H := cpal_backend (λ _, [])) mac_stalled (mac_world 1700000000995000000 0)
              (mkTracker 1700000000000000000 48000) 0) as (c & t' & _ & Ht & _ & Hstall);
    [vm_compute; try split; reflexivity || discriminate..|].
  exists t'. split; [exact Ht|]. apply Hstall. vm_compute. split_and!; (reflexivity || discriminate).
Defined.
