(* ===== verification/InStep.v ===== *)
(** * Rooms in step

    What the clock exchange is for: over links as fast one way as the other
    the estimate of [Clock] is exact, however long the exchanges take and
    whichever of them are rejected, and endpoints that schedule the same
    timestamp ([App]) start at the same instant of the controller's clock. *)

From S2P Require Import Prelude Float FloatExact FloatBound Wire Format Message Clock Sync EndpointTransport Flac Alsa AlsaOutput AudioOutput App.

Local Open Scope Z_scope.

(** ** The estimate *)

(** An exchange over a link with the same delay both ways, with a controller
    clock ahead by [offset]. *)
Definition symmetric (offset : Z) (x : exchange) : Prop :=
  let '(t1, t2, t3, t4) := x in ∃ delay, t2 = t1 + delay + offset ∧ t4 = t3 - offset + delay.

(** Offsets below six days. *)
Definition moderate (offset : Z) : Prop := Z.abs offset < 2 ^ 49.

(** The float the estimator should hold. *)
Definition exactly (offset : Z) : f64 := f64_of_Z offset.

Lemma exactly_denotes offset : moderate offset → denotes (exactly offset) offset 0.
Proof. intros H. apply of_Z_denotes. unfold moderate in H. lia. Qed.

Lemma exchange_offset_exact offset x :
  moderate offset → symmetric offset x → let '(t1, t2, t3, t4) := x in exchange_offset t1 t2 t3 t4 = exactly offset.
Proof.
  destruct x as [[[t1 t2] t3] t4]. intros Hm (d & -> & ->). unfold moderate in Hm.
  apply (denotes_unique _ _ offset 0); [|by apply exactly_denotes]. unfold exchange_offset.
  replace (t1 + d + offset - t1 + (t3 - (t3 - offset + d))) with (2 * offset) by lia.
  apply (denotes_scale _ _ 1 _ (2 * offset) (-1)); [lia| |lia|lia].
  apply (half_denotes _ _ 0); [apply of_Z_denotes; lia|lia|lia].
Qed.

(** A mean of two equal values, weighted [7/8] and [1/8] or by halves. *)
Lemma mean_exact a k n x offset :
  moderate offset → denotes x offset 0 → denotes a 1 (- k) → denotes (f64_sub f64_one a) n (- k) → 0 < n → n + 1 = 2 ^ k → 0 ≤ k ≤ 3 →
  f64_add (f64_mul x (f64_sub f64_one a)) (f64_mul x a) = x.
Proof.
  unfold moderate. intros Hm Hx Ha Hb Hn Hk Hk3. apply (denotes_unique _ _ offset 0); [|done].
  assert (n ≤ 7) as Hn7 by (assert (2 ^ k ≤ 2 ^ 3) by (apply Z.pow_le_mono_r; lia); lia).
  apply (denotes_scale _ _ k _ (offset * n + offset * 1) (- k)); [lia| |rewrite <- Hk; lia|lia].
  apply add_denotes; [apply (mul_denotes x _ offset n 0 (- k))|apply (mul_denotes x a offset 1 0 (- k))|]; try done; unfold within; nia.
Qed.

Lemma mean_bootstrap x offset : moderate offset → denotes x offset 0 → f64_add (f64_mul x (f64_sub f64_one f64_half)) (f64_mul x f64_half) = x.
Proof. intros Hm Hx. by apply (mean_exact _ 1 1 _ offset); [| |vm_compute..|lia]. Qed.
Lemma mean_steady x offset : moderate offset → denotes x offset 0 → f64_add (f64_mul x (f64_sub f64_one f64_eighth)) (f64_mul x f64_eighth) = x.
Proof. intros Hm Hx. by apply (mean_exact _ 3 7 _ offset); [| |vm_compute..|lia]. Qed.

Definition zero : f64 := S754_zero false.

Lemma denotes_zero x e : denotes x 0 e → x = zero.
Proof. intros Hx. by apply (denotes_unique x zero 0 e). Qed.

(** The estimator holds exactly the offset, and sees no jitter. *)
Record settled_on (offset : Z) (s : ClockState) : Prop := {
  so_alpha : alpha s = f64_eighth;
  so_bootstrap : bootstrap_count s = 10;
  so_estimate : clk_samples s = 0 ∨ clk_offset s = exactly offset ∧ jitter_mean s = exactly offset;
  so_variance : jitter_var s = zero
}.

Lemma settled_update offset s x :
  moderate offset → symmetric offset x → settled_on offset s →
  let '(t1, t2, t3, t4) := x in
  settled_on offset (clock_update s t1 t2 t3 t4) ∧ clk_offset (clock_update s t1 t2 t3 t4) = exactly offset.
Proof.
  intros Hm Hx [Ha Hb He Hv]. pose proof (exchange_offset_exact offset x Hm Hx) as Ho. pose proof (exactly_denotes offset Hm) as Hd.
  assert (f64_sub (exactly offset) (exactly offset) = zero) as Hdiff.
  { pose proof (sub_denotes _ _ offset offset 0 Hd Hd) as Hz. rewrite Z.sub_diag in Hz. apply (denotes_zero _ 0), Hz. done. }
  assert (f64_add (exactly offset) zero = exactly offset) as Hplus.
  { apply (denotes_unique _ _ offset 0); [|done].
    pose proof (add_denotes (exactly offset) zero offset 0 0 Hd (conj eq_refl eq_refl)) as Hz. rewrite Z.add_0_r in Hz. apply Hz.
    unfold within, moderate in *. lia. }
  destruct x as [[[t1 t2] t3] t4]. unfold clock_update. rewrite Ho.
  destruct (clk_is_bootstrapped s && is_rtt_outlier s _) eqn:Eout.
  - split; [by split|]. apply andb_prop in Eout as [Eb _]. unfold clk_is_bootstrapped in Eb. rewrite Hb in Eb.
    cbn [clk_offset]. destruct He as [He|[He _]]; [by rewrite He in Eb|done].
  - assert (∀ y, y = exactly offset → f64_add y (f64_mul (alpha s) (f64_sub (exactly offset) y)) = exactly offset ∧
      f64_mul (f64_sub f64_one (alpha s)) (f64_add (jitter_var s) (f64_mul (f64_sub (exactly offset) y)
        (f64_mul (alpha s) (f64_sub (exactly offset) y)))) = zero) as Hjit.
    { intros y ->. rewrite Hdiff, Ha, Hv. change (f64_mul f64_eighth zero) with zero. split; [done|reflexivity]. }
    destruct (Z.eqb_spec (clk_samples s) 0) as [Hz|Hz].
    + destruct (Hjit (exactly offset) eq_refl) as [Hj1 Hj2]. split; [split; cbn; [done|done|by right|done]|done].
    + destruct He as [|[He1 He2]]; [done|]. destruct (Hjit _ He2) as [Hj1 Hj2].
      assert (f64_add (f64_mul (clk_offset s) (f64_sub f64_one (if clk_samples s <? bootstrap_count s then f64_half else alpha s)))
                (f64_mul (exactly offset) (if clk_samples s <? bootstrap_count s then f64_half else alpha s)) = exactly offset) as Hmean.
      { rewrite He1. destruct (clk_samples s <? bootstrap_count s); [by apply (mean_bootstrap _ offset)|]. rewrite Ha. by apply (mean_steady _ offset). }
      split; [|done]. split; cbn; [done|done| |by rewrite He2 in *]. right. split; [done|by rewrite He2 in *].
Qed.

Lemma settled_run offset xs :
  moderate offset → Forall (symmetric offset) xs →
  settled_on offset (clock_run ClockState_new xs) ∧ (xs ≠ [] → clk_offset (clock_run ClockState_new xs) = exactly offset).
Proof.
  intros Hm. induction xs as [|[[[t1 t2] t3] t4] xs IH] using rev_ind; intros Hxs.
  { split; [|done]. split; [done|done|by left|done]. }
  apply Forall_app in Hxs as [Hxs Hx]. apply Forall_cons in Hx as [Hx _]. destruct (IH Hxs) as [Hs _].
  unfold clock_run. rewrite fold_left_app. cbn [fold_left]. fold (clock_run ClockState_new xs).
  destruct (settled_update offset _ (t1, t2, t3, t4) Hm Hx Hs) as [H1 H2]. by split.
Qed.

(** ** Over links that are not symmetric *)

(** An exchange whose two delays differ by at most [2 * a]. *)
Definition skewed (offset a : Z) (x : exchange) : Prop :=
  let '(t1, t2, t3, t4) := x in
  ∃ there back, t2 = t1 + there + offset ∧ t4 = t3 - offset + back ∧ Z.abs (there - back) ≤ 2 * a.

(** An exchange whose way there takes exactly [2 * a] longer. *)
Definition skewed_by (offset a : Z) (x : exchange) : Prop :=
  let '(t1, t2, t3, t4) := x in ∃ back, t2 = t1 + (back + 2 * a) + offset ∧ t4 = t3 - offset + back.

(** No timestamp tells it from a symmetric one with another offset. *)
Lemma skewed_by_symmetric offset a x : skewed_by offset a x → symmetric (offset + a) x.
Proof. destruct x as [[[t1 t2] t3] t4]. intros (d & -> & ->). exists (d + a). lia. Qed.

(** Offsets and delays that together stay below six days. *)
Definition moderately (offset a : Z) : Prop := Z.abs offset + a < 2 ^ 49 ∧ 0 ≤ a.

Lemma symmetric_skewed offset x : symmetric offset x → skewed offset 0 x.
Proof. destruct x as [[[t1 t2] t3] t4]. intros (d & -> & ->). exists d, d. lia. Qed.

Lemma exchange_offset_between offset a t1 t2 t3 t4 :
  moderately offset a → skewed offset a (t1, t2, t3, t4) → between (offset - a) (offset + a) (exchange_offset t1 t2 t3 t4).
Proof.
  intros [Hm Ha] (d & d' & -> & -> & Hd). unfold exchange_offset.
  replace (t1 + d + offset - t1 + (t3 - (t3 - offset + d'))) with (2 * offset + (d - d')) by lia.
  assert (Z.abs (2 * offset + (d - d')) < 2 ^ 53) as Hb by lia. assert (2 * (offset - a) ≤ 2 * offset + (d - d') ≤ 2 * (offset + a)) as Hn2 by lia.
  pose proof (half_denotes _ _ 0 (of_Z_denotes _ Hb) ltac:(done) Hb) as Hh.
  by apply (half_between _ (2 * offset + (d - d'))).
Qed.

(** The estimator stays between two integers once it has a sample. *)
Record settled_between (lo hi : Z) (s : ClockState) : Prop := {
  sb_alpha : alpha s = f64_eighth;
  sb_bootstrap : bootstrap_count s = 10;
  sb_estimate : clk_samples s = 0 ∨ between lo hi (clk_offset s)
}.

Lemma between_update offset a s t1 t2 t3 t4 :
  moderately offset a → skewed offset a (t1, t2, t3, t4) → settled_between (offset - a) (offset + a) s →
  let s' := clock_update s t1 t2 t3 t4 in
  settled_between (offset - a) (offset + a) s' ∧ between (offset - a) (offset + a) (clk_offset s').
Proof.
  intros Hm Hx [Ha Hb He]. pose proof (exchange_offset_between _ _ _ _ _ _ Hm Hx) as Ho. destruct Hm as [Hm Ha0].
  unfold clock_update. destruct (clk_is_bootstrapped s && is_rtt_outlier s _) eqn:Eout.
  - split; [by split|]. apply andb_prop in Eout as [Eb _]. unfold clk_is_bootstrapped in Eb. rewrite Hb in Eb.
    destruct He as [He|He]; [by rewrite He in Eb|done].
  - assert (∀ y, between (offset - a) (offset + a) y → let w := if clk_samples s <? bootstrap_count s then f64_half else alpha s in
      between (offset - a) (offset + a) (f64_add (f64_mul y (f64_sub f64_one w)) (f64_mul (exchange_offset t1 t2 t3 t4) w))) as Hmean.
    { intros y Hy. cbn zeta. rewrite Ha. destruct (clk_samples s <? bootstrap_count s).
      - apply (mean_between _ _ 1 1); [lia|lia|done|done|vm_compute..|lia]; done.
      - apply (mean_between _ _ 7 3); [lia|lia|done|done|vm_compute..|lia]; done. }
    destruct (Z.eqb_spec (clk_samples s) 0) as [Hz|Hz]; [split; [split; cbn; [done|done|by right]|done]|].
    destruct He as [|He]; [done|]. specialize (Hmean _ He). split; [split; cbn; [done|done|by right]|done].
Qed.

Lemma between_run offset a xs :
  moderately offset a → Forall (skewed offset a) xs →
  settled_between (offset - a) (offset + a) (clock_run ClockState_new xs) ∧
  (xs ≠ [] → between (offset - a) (offset + a) (clk_offset (clock_run ClockState_new xs))).
Proof.
  intros Hm. induction xs as [|[[[t1 t2] t3] t4] xs IH] using rev_ind; intros Hxs.
  { split; [|done]. split; [done|done|by left]. }
  apply Forall_app in Hxs as [Hxs Hx]. apply Forall_cons in Hx as [Hx _]. destruct (IH Hxs) as [Hs _].
  unfold clock_run. rewrite fold_left_app. cbn [fold_left]. fold (clock_run ClockState_new xs).
  destruct (between_update _ _ _ _ _ _ _ Hm Hx Hs) as [H1 H2]. by split.
Qed.

Lemma estimate_between offset a xs :
  moderately offset a → Forall (skewed offset a) xs → xs ≠ [] →
  Z.abs (clk_offset_ns (clock_run ClockState_new xs) - offset) ≤ a.
Proof.
  intros Hm Hxs Hne. destruct (between_run offset a xs Hm Hxs) as [_ Hb]. destruct Hm as [Hm Ha].
  pose proof (round_as_i64_between _ _ _ (Hb Hne)) as Hr. unfold clk_offset_ns.
  assert (offset - a ≤ f64_round_as_i64 (clk_offset (clock_run ClockState_new xs)) ≤ offset + a); [apply Hr; range|lia].
Qed.

Lemma estimate_exact offset xs :
  moderate offset → Forall (symmetric offset) xs → xs ≠ [] → clk_offset_ns (clock_run ClockState_new xs) = offset.
Proof.
  intros Hm Hxs Hne. assert (Z.abs (clk_offset_ns (clock_run ClockState_new xs) - offset) ≤ 0); [|lia].
  apply estimate_between; [by split; [unfold moderate in Hm; lia|]| |done]. eapply Forall_impl; [exact Hxs|]. apply symmetric_skewed.
Qed.

(** What the session's clock loop has published after the exchanges. *)
Definition shared_run (xs : list exchange) : SharedClock :=
  fold_left (λ c '(t1, t2, t3, t4), shared_update c t1 t2 t3 t4) xs SharedClock_new.

Lemma shared_run_state xs : sc_state (shared_run xs) = clock_run ClockState_new xs ∧ published (shared_run xs).
Proof.
  induction xs as [|[[[t1 t2] t3] t4] xs [IH _]] using rev_ind; [split; [done|apply published_new]|].
  unfold shared_run, clock_run in *. rewrite !fold_left_app. cbn [fold_left]. split; [|done].
  unfold shared_update at 1. cbn [sc_state]. f_equal. exact IH.
Qed.

(** C4 The clock estimate is as good as the link allows: over a link whose two
    delays differ by at most [2 a] in each exchange, the offset is within [a] of
    the controller's lead after the first exchange and ever after, however many
    exchanges there are, whichever the outlier filter rejects and whatever the
    binary64 arithmetic rounds; and so are converted instants.  The bound is
    reached: a way there that always takes [2 a] longer is taken for a lead. *)
Theorem estimate_within_asymmetry offset a xs :
  moderately offset a → Forall (skewed offset a) xs → xs ≠ [] →
  let s := clock_run ClockState_new xs in
  Z.abs (clk_offset_ns s - offset) ≤ a ∧
  (∀ local, a ≤ local < 2 ^ 62 → a ≤ local + offset < 2 ^ 62 →
     Z.abs (clk_local_to_controller s local - (local + offset)) ≤ a ∧
     Z.abs (clk_controller_to_local s (local + offset) - local) ≤ a) ∧
  (Forall (skewed_by offset a) xs → clk_offset_ns s = offset + a).
Proof.
  intros Hm Hxs Hne s. pose proof (estimate_between offset a xs Hm Hxs Hne) as Ho. fold s in Ho. split; [done|].
  split; [|intros Hby; apply estimate_exact; [unfold moderately, moderate in *; lia|eapply Forall_impl; [exact Hby|apply skewed_by_symmetric]|done]].
  intros local Hl Hc. destruct Hm as [Hm Ha]. unfold clk_local_to_controller, clk_controller_to_local.
  pose proof (clk_offset_range s). rewrite to_controller_exact, to_local_exact by (done || range). lia.
Qed.

(** The clock estimate is exact where it can be: over a link as fast one
    way as the other, with delays that vary from exchange to exchange as they
    like, the offset is the controller's lead to the nanosecond after the
    first exchange and ever after, whichever exchanges the outlier filter
    rejects; no jitter is seen, so a bootstrapped endpoint polls at the longest
    interval; and instants are converted exactly. *)
Theorem symmetric_link_exact offset xs :
  moderate offset → Forall (symmetric offset) xs → xs ≠ [] →
  let s := clock_run ClockState_new xs in
  clk_offset_ns s = offset ∧ jitter_ns s = f64_of_Z 0 ∧
  (10 ≤ clk_samples s → clk_suggested_interval_ms s = 5000) ∧
  (∀ local, 0 ≤ local < 2 ^ 63 → 0 ≤ local + offset < 2 ^ 63 →
     clk_local_to_controller s local = local + offset ∧ clk_controller_to_local s (local + offset) = local).
Proof.
  intros Hm Hxs Hne s. pose proof (estimate_exact offset xs Hm Hxs Hne) as Ho. fold s in Ho.
  destruct (settled_run offset xs Hm Hxs) as [[_ Hb _ Hv] _]. fold s in Hb, Hv.
  assert (jitter_ns s = f64_of_Z 0) as Hj by (unfold jitter_ns; rewrite Hv; by destruct (clk_samples s <? 2)).
  split; [done|]. split; [done|]. split.
  - intros H10. unfold clk_suggested_interval_ms. rewrite Hb, (proj2 (Z.ltb_ge _ _)) by lia. rewrite Hj. reflexivity.
  - intros local Hl Hc. unfold clk_local_to_controller, clk_controller_to_local. rewrite Ho.
    assert (is_i64 offset) by (unfold moderate in Hm; range).
    rewrite to_controller_exact, to_local_exact by (done || range). lia.
Qed.

(** ** The start *)

(** The clock an endpoint reads after the exchanges; the link statistics in it
    are the audio task's. *)
Definition synchronized (xs : list exchange) (c : SharedClock) : Prop := ∃ lost recovered, c = set_link_stats (shared_run xs) lost recovered.

Lemma synchronized_offset offset a xs c :
  moderately offset a → Forall (skewed offset a) xs → xs ≠ [] → synchronized xs c → Z.abs (sc_offset_ns c - offset) ≤ a.
Proof.
  intros Hm Hxs Hne (l & r & ->). cbn. destruct (shared_run_state xs) as [Hs (Ho & _ & _)]. rewrite Ho, Hs. by apply estimate_between.
Qed.

Lemma synchronized_bootstrapped xs c : synchronized xs c → 10 ≤ len xs < 2 ^ 32 → sc_bootstrapped c = true.
Proof.
  intros (l & r & ->) Hl. cbn. destruct (shared_run_state xs) as [Hs (_ & _ & Hb)]. rewrite Hb, Hs.
  destruct (clock_run_inv xs ltac:(lia)) as [_ Hb10 Hc H0 Hr Hboot _]. unfold clk_is_bootstrapped. rewrite Hb10. apply Z.leb_le. lia.
Qed.

Section start.
Context `{B : AudioBackend} (hardware_volume : bool).

(** An endpoint whose clock lies [offset] behind the controller's and whose
    link is skewed by at most [2 * a], armed, when a packet [h] arrives and the
    first buffered frame is due at [head], within five seconds; [2 ^ 62]
    nanoseconds are the year 2116. *)
Record due (offset a head : Z) (xs : list exchange) (s : App) (h : AudioPacketHeader) (w : World) : Prop := {
  du_moderate : moderately offset a;
  du_links : Forall (skewed offset a) xs;
  du_bootstrap : 10 ≤ len xs < 2 ^ 32;
  du_clock : synchronized xs (w_clock w);
  du_armed : app_armed s = true ∧ app_started s = false;
  du_head : head = u64_saturating_sub (pts_ns h)
              (as_u 64 (au_buffer_level (app_audio s) * 1000000000) / Z.max (app_sample_rate s) 1);
  du_range : 0 ≤ head < 2 ^ 62 ∧ 0 ≤ w_now w;
  du_ahead : a < head - offset - w_now w < 5000000000 - a
}.

(** The controller's clock, as the endpoint's own clock and the true offset
    give it. *)
Definition controller_time (offset : Z) (w : World) : Z := w_now w + offset.

(** How late the timer fires in [w'], the endpoint's two clocks having run
    evenly since [w]. *)
Definition fired (deadline lateness : Z) (w w' : World) : Prop :=
  0 ≤ lateness ∧ w_instant w' = deadline + lateness ∧ w_now w' - w_now w = w_instant w' - w_instant w.

Lemma start_on_time offset a head xs s h p w :
  due offset a head xs s h w →
  let s1 := (app_step hardware_volume s (TransportEvent (EvAudioPacket h p)) w).1 in
  app_started s1 = false ∧ ∃ deadline, app_start_deadline s1 = Some deadline ∧
    ∀ lateness w', fired deadline lateness w w' →
      app_started (app_step hardware_volume s1 StartTimer w').1 = true ∧
      Z.abs (controller_time offset w' - (head + lateness)) ≤ a.
Proof.
  intros [Hm Hlinks Hboot Hclock [Ha Hst] Hhead [Hu Hn] Hlead] s1.
  assert (xs ≠ []) as Hne by (intros ->; unfold len in Hboot; cbn in Hboot; lia).
  pose proof (synchronized_offset _ _ _ _ Hm Hlinks Hne Hclock) as Ho. pose proof (synchronized_bootstrapped _ _ Hclock Hboot) as Hb.
  unfold moderately in Hm.
  destruct (scheduled_start_fires hardware_volume s h p w) as (Hns & Hd & _ & Hfire); rewrite <- ?Hhead; try done; try range.
  rewrite <- Hhead in Hd. split; [exact Hns|]. eexists. split; [exact Hd|]. intros lateness w' (Hlate & Hinst & Heven).
  split; [apply Hfire; rewrite <- Hhead; lia|]. unfold controller_time. lia.
Qed.
End start.

(** C3 What multi-room is for: two endpoints, each with its own clock and over
    its own link, that hold the same first frame in their buffers when a packet
    starts the schedule, do not start at once, and when their timers fire each
    starts at the instant of the controller's clock that is the frame's
    timestamp, to within half the asymmetry of its own link and what its timer
    is late: so over symmetric links all rooms start together.  Whatever
    outputs they have, however long the exchanges take, and whenever each got
    its packets. *)
Theorem endpoints_start_together (B1 B2 : AudioBackend) hv1 hv2 offset1 offset2 a1 a2 head xs1 xs2 s1 s2 h1 h2 p1 p2 w1 w2 :
  due (B := B1) offset1 a1 head xs1 s1 h1 w1 → due (B := B2) offset2 a2 head xs2 s2 h2 w2 →
  let r1 := (app_step hv1 s1 (TransportEvent (EvAudioPacket h1 p1)) w1).1 in
  let r2 := (app_step hv2 s2 (TransportEvent (EvAudioPacket h2 p2)) w2).1 in
  app_started r1 = false ∧ app_started r2 = false ∧
  ∃ d1 d2, app_start_deadline r1 = Some d1 ∧ app_start_deadline r2 = Some d2 ∧
    ∀ late1 late2 w1' w2', fired d1 late1 w1 w1' → fired d2 late2 w2 w2' →
      app_started (app_step hv1 r1 StartTimer w1').1 = true ∧ app_started (app_step hv2 r2 StartTimer w2').1 = true ∧
      Z.abs (controller_time offset1 w1' - (head + late1)) ≤ a1 ∧
      Z.abs (controller_time offset2 w2' - (head + late2)) ≤ a2 ∧
      Z.abs (controller_time offset1 w1' - controller_time offset2 w2') ≤ a1 + a2 + Z.abs (late1 - late2).
Proof.
  intros Hd1 Hd2 r1 r2.
  destruct (start_on_time hv1 _ _ _ _ _ _ p1 _ Hd1) as (Hn1 & d1 & Hdl1 & Hf1).
  destruct (start_on_time hv2 _ _ _ _ _ _ p2 _ Hd2) as (Hn2 & d2 & Hdl2 & Hf2).
  split; [exact Hn1|]. split; [exact Hn2|]. exists d1, d2. split; [exact Hdl1|]. split; [exact Hdl2|].
  intros late1 late2 w1' w2' F1 F2. destruct (Hf1 _ _ F1) as [Hs1 Hc1]. destruct (Hf2 _ _ F2) as [Hs2 Hc2].
  split; [exact Hs1|]. split; [exact Hs2|]. split; [done|]. split; [done|]. lia.
Qed.

(** ** Witnesses *)

(** Twelve exchanges over a link whose delays both vary. *)
Definition exchange_at (offset t1 there back : Z) : exchange :=
  (t1, t1 + there + offset, t1 + there + offset + 1000, t1 + there + 1000 + back).
Definition exchanges (offset : Z) (slower : Z → Z) : list exchange :=
  (λ i, exchange_at offset (1700000000000000000 + 100000000 * i) (200000 + 70000 * i + slower i) (200000 + 70000 * i)) <$> seqZ 0 12.
Definition even (i : Z) : Z := 0.
Definition uneven (i : Z) : Z := (i * 7919) mod 1000 * 1000 - 500000.

Lemma exchanges_skewed offset slower a : (∀ i, Z.abs (slower i) ≤ 2 * a) → Forall (skewed offset a) (exchanges offset slower).
Proof.
  intros Ha. apply Forall_fmap, Forall_true. intros i. exists (200000 + 70000 * i + slower i), (200000 + 70000 * i).
  specialize (Ha i). unfold exchange_at. split_and!; lia.
Qed.
Lemma exchanges_symmetric offset : Forall (symmetric offset) (exchanges offset even).
Proof. apply Forall_fmap, Forall_true. intros i. exists (200000 + 70000 * i). unfold exchange_at, even. split; lia. Qed.
Lemma uneven_bound i : Z.abs (uneven i) ≤ 2 * 250000.
Proof. unfold uneven. pose proof (Z.mod_pos_bound (i * 7919) 1000 ltac:(done)). lia. Qed.

Lemma symmetric_link_exact_witness :
  let s := clock_run ClockState_new (exchanges 5000000 even) in
  clk_offset_ns s = 5000000 ∧ clk_suggested_interval_ms s = 5000.
Proof.
  destruct (symmetric_link_exact 5000000 (exchanges 5000000 even)) as (Ho & _ & Hi & _);
    [by vm_compute|apply exchanges_symmetric|done|].
  split; [exact Ho|]. apply Hi. vm_compute. discriminate.
Defined.

Lemma estimate_within_asymmetry_witness :
  let s := clock_run ClockState_new (exchanges 5000000 uneven) in
  clk_offset_ns s ≠ 5000000 ∧ Z.abs (clk_offset_ns s - 5000000) ≤ 250000.
Proof.
  destruct (estimate_within_asymmetry 5000000 250000 (exchanges 5000000 uneven)) as (Ho & _);
    [by vm_compute|apply exchanges_skewed, uneven_bound|done|].
  split; [vm_compute; discriminate|exact Ho].
Defined.

(** Two portable endpoints, one 5 ms behind the controller over an uneven link
    and one 3 ms ahead of it; both get the stream's first packet. *)
#[local] Instance plain_flac : FlacStream :=
  {| flac_state := unit; flac_new := tt; flac_feed := λ s _, ([], s); flac_reset := λ s, s |}.
#[local] Instance room_backend : AudioBackend := cpal_backend (λ _, []).

Definition room_world (offset : Z) (slower : Z → Z) (now instant : Z) : World :=
  mkWorld now now instant (shared_run (exchanges offset slower)) (demo_host, Ok tt, 0%nat).
Definition room_app (w : World) : App :=
  (app_run false (app_new CpalOutput_new None)
     [(TransportEvent (EvFormatProposed demo_proposal), w); (TransportEvent (EvPlayback (CmdPlay "s1")), w)]).1.
Definition study_world : Z → Z → World := room_world 5000000 uneven.
Definition kitchen_world : Z → Z → World := room_world (-3000000) even.
Definition study : App := room_app (study_world 1700000000000000000 0).
Definition kitchen : App := room_app (kitchen_world 1700000000000000000 0).

Definition opening : AudioPacketHeader := mkHeader 1 0 PcmS24le 0 1 1700000001000000000 0 6 0 0 0.

Definition study_armed : App :=
  (app_step false study (TransportEvent (EvAudioPacket opening [1; 2; 3; 4; 5; 6])) (study_world 1700000000500000000 7)).1.
Definition kitchen_armed : App :=
  (app_step false kitchen (TransportEvent (EvAudioPacket opening [1; 2; 3; 4; 5; 6])) (kitchen_world 1700000000600000000 99)).1.

Lemma study_due : due (5000000) 250000 1700000001000000000 (exchanges (5000000) uneven) study opening (study_world 1700000000500000000 7).
Proof.
  split; [by vm_compute|apply exchanges_skewed, uneven_bound|by vm_compute|exists 0, 0; by vm_compute|by vm_compute|by vm_compute| |by vm_compute].
  vm_compute. intuition (reflexivity || discriminate).
Defined.

Lemma kitchen_due : due (-3000000) 0 1700000001000000000 (exchanges (-3000000) even) kitchen opening (kitchen_world 1700000000600000000 99).
Proof.
  split; [by vm_compute|apply exchanges_skewed; intros i; unfold even; lia|by vm_compute|exists 0, 0; by vm_compute|by vm_compute|by vm_compute| |by vm_compute].
  vm_compute. intuition (reflexivity || discriminate).
Defined.

Lemma study_fired : fired 495098862 0 (study_world 1700000000500000000 7) (study_world 1700000000995098855 495098862).
Proof. vm_compute. split_and!; [discriminate|reflexivity..]. Defined.
Lemma kitchen_fired : fired 403000099 0 (kitchen_world 1700000000600000000 99) (kitchen_world 1700000001003000000 403000099).
Proof. vm_compute. split_and!; [discriminate|reflexivity..]. Defined.

Lemma endpoints_start_together_witness :
  let study_at := study_world 1700000000995098855 495098862 in
  let kitchen_at := kitchen_world 1700000001003000000 403000099 in
  app_started study_armed = false ∧ app_started kitchen_armed = false ∧
  app_started (app_step false study_armed StartTimer study_at).1 = true ∧
  app_started (app_step false kitchen_armed StartTimer kitchen_at).1 = true ∧
  Z.abs (controller_time 5000000 study_at - controller_time (-3000000) kitchen_at) ≤ 250000.
Proof.
  destruct (endpoints_start_together room_backend room_backend false false 5000000 (-3000000) 250000 0 1700000001000000000
      (exchanges 5000000 uneven) (exchanges (-3000000) even) study kitchen opening opening [1; 2; 3; 4; 5; 6] [1; 2; 3; 4; 5; 6]
      _ _ study_due kitchen_due) as (Hs & Hk & d1 & d2 & Hd1 & Hd2 & Hfire).
  split; [exact Hs|]. split; [exact Hk|].
  assert (d1 = 495098862) as -> by (vm_compute in Hd1; congruence). assert (d2 = 403000099) as -> by (vm_compute in Hd2; congruence).
  destruct (Hfire 0 0 (study_world 1700000000995098855 495098862) (kitchen_world 1700000001003000000 403000099)) as (H1 & H2 & _ & _ & H3);
    [apply study_fired|apply kitchen_fired|].
  split; [exact H1|]. split; [exact H2|]. exact H3.
Defined.
