(* ===== verification/WebUi.v ===== *)
(** * The endpoint's web interface

    Models [crates/oaat-endpoint/src/web_ui.rs]: who may control the endpoint
    ([ControlPolicy]), the routes of [handle_request] and the status document.
    The HTML page is a constructor of the response body; [WebPage] renders it.

    The HTTP and JSON libraries give the arguments: a request has its headers
    in order under lower-case names, a value being [None] where [to_str]
    refuses it, and [device_of_body] is the string under "device" of a body
    that is a JSON object. *)

From S2P Require Import Prelude Text.
From Stdlib Require Import Ascii.

Local Open Scope Z_scope.

(** ** Socket addresses, as Rust prints them *)

Inductive IpAddr :=
| V4 (a b c d : Z)
| V6 (segments : list Z).

Record SocketAddr := mkAddr { sa_ip : IpAddr; sa_port : Z; sa_scope : Z }.

Definition is_loopback (ip : IpAddr) : bool :=
  match ip with
  | V4 a _ _ _ => a =? 127
  | V6 segs => bool_decide (segs = [0; 0; 0; 0; 0; 0; 0; 1])
  end.

Definition v4_text (a b c d : Z) : string :=
  (print_uint a ++ "." ++ print_uint b ++ "." ++ print_uint c ++ "." ++ print_uint d)%string.

Definition hex_char (d : Z) : ascii := if d <? 10 then digit_char d else ascii_of_nat (87 + Z.to_nat d).

Fixpoint print_hex_digits (fuel : nat) (z : Z) (acc : string) : string :=
  match fuel with
  | O => acc
  | S fuel =>
      let acc := String (hex_char (z mod 16)) acc in
      if z <? 16 then acc else print_hex_digits fuel (z / 16) acc
  end.

(** [{:x}] of a [u16]. *)
Definition print_hex (z : Z) : string := print_hex_digits 4 z EmptyString.

(** The first longest run of zero segments, as start and length. *)
Fixpoint longest_zeros (segs : list Z) (i : nat) (current longest : nat * nat) : nat * nat :=
  match segs with
  | [] => longest
  | s :: segs =>
      if s =? 0 then
        let current := if (current.2 =? 0)%nat then (i, 1%nat) else (current.1, S current.2) in
        longest_zeros segs (S i) current (if (longest.2 <? current.2)%nat then current else longest)
      else longest_zeros segs (S i) (0%nat, 0%nat) longest
  end.

Definition v6_text (segs : list Z) : string :=
  match segs with
  | [0; 0; 0; 0; 0; 65535; ab; cd] => ("::ffff:" ++ v4_text (ab / 256) (ab mod 256) (cd / 256) (cd mod 256))%string
  | _ =>
      let '(start, n) := longest_zeros segs 0 (0%nat, 0%nat) (0%nat, 0%nat) in
      let text l := String.concat ":" (print_hex <$> l) in
      if (1 <? n)%nat then (text (take start segs) ++ "::" ++ text (drop (start + n) segs))%string
      else text segs
  end.

(** [SocketAddr]'s [Display], without the port. *)
Definition host_text (a : SocketAddr) : string :=
  match sa_ip a with
  | V4 x y z t => v4_text x y z t
  | V6 segs =>
      ("[" ++ v6_text segs ++ (if (sa_scope a =? 0)%Z then "" else "%" ++ print_uint (sa_scope a)) ++ "]")%string
  end.

Definition addr_text (a : SocketAddr) : string := (host_text a ++ ":" ++ print_uint (sa_port a))%string.

(** ** Strings *)

(** [s.trim_end_matches(p)], [p] not empty: one turn per match. *)
Fixpoint trim_end_matches_loop (fuel : nat) (p s : string) : string :=
  match fuel with
  | O => s
  | S fuel => match strip_suffix p s with Some s' => trim_end_matches_loop fuel p s' | None => s end
  end.
Definition trim_end_matches (p s : string) : string := trim_end_matches_loop (String.length s) p s.

Definition eq_ignore_ascii_case (a b : string) : bool := String.eqb (to_lowercase a) (to_lowercase b).

(** ** [ControlPolicy] *)

Definition OK : Z := 200.
Definition BAD_REQUEST : Z := 400.
Definition UNAUTHORIZED : Z := 401.
Definition FORBIDDEN : Z := 403.
Definition NOT_FOUND : Z := 404.
Definition UNSUPPORTED_MEDIA_TYPE : Z := 415.
Definition SERVICE_UNAVAILABLE : Z := 503.

Record Request := mkRequest {
  req_method : string;
  req_path : string;
  req_headers : list (string * option string);
  req_body : list Z
}.

Record ControlPolicy := mkPolicy { cp_local : SocketAddr; cp_peer : SocketAddr; cp_token : option string }.

Definition get_all (req : Request) (name : string) : list (option string) :=
  (filter (λ h, h.1 = name) (req_headers req)).*2.

(** The closure [header]: absent, one readable value, or an error. *)
Definition header (req : Request) (name : string) : result (option string) Z :=
  match get_all req name with
  | [] => Ok None
  | [Some v] => Ok (Some v)
  | _ => Err FORBIDDEN
  end.

Definition one_header (req : Request) (name : string) : option string :=
  match header req name with Ok v => v | Err _ => None end.

Definition same_token (expected supplied : list Z) : bool :=
  if negb (length expected =? length supplied)%nat then false
  else fold_left (λ diff '(a, b), Z.lor diff (Z.lxor a b)) (zip expected supplied) 0 =? 0.

Fixpoint bytes_of (s : string) : list Z :=
  match s with EmptyString => [] | String a s => Z.of_nat (nat_of_ascii a) :: bytes_of s end.

Definition check_same_origin (p : ControlPolicy) (origin host : string) : result unit Z :=
  let authority := addr_text (cp_local p) in
  let localhost := ("localhost:" ++ print_uint (sa_port (cp_local p)))%string in
  let default_port := sa_port (cp_local p) =? 80 in
  let numeric_host := if default_port then trim_end_matches ":80" authority else authority in
  let local_name := is_loopback (sa_ip (cp_local p)) &&
                    (String.eqb host localhost || default_port && String.eqb host "localhost") in
  if negb (String.eqb host authority) && negb (String.eqb host numeric_host) && negb local_name then Err FORBIDDEN
  else
    let origin_host := if default_port then trim_end_matches ":80" host else host in
    if negb (String.eqb origin ("http://" ++ origin_host)) && negb (String.eqb origin ("http://" ++ host))
    then Err FORBIDDEN else Ok tt.

Definition authorize (p : ControlPolicy) (req : Request) : result unit Z :=
  (let? origin := header req "origin" in
   let? _ := match origin with
             | Some origin =>
                 let? host := header req "host" in
                 let? host := ok_or host FORBIDDEN in
                 check_same_origin p origin host
             | None => Ok tt
             end in
   let json := match one_header req "content-type" with
               | Some v => match split ";" v with
                           | v :: _ => eq_ignore_ascii_case (trim v) "application/json"
                           | [] => false
                           end
               | None => false
               end in
   if negb json then Err UNSUPPORTED_MEDIA_TYPE
   else
     match cp_token p with
     | Some expected =>
         let? supplied := ok_or (v ← one_header req "authorization"; strip_prefix "Bearer " v) UNAUTHORIZED in
         if bool_decide (expected = ""%string) || negb (same_token (bytes_of expected) (bytes_of supplied))
         then Err UNAUTHORIZED else Ok tt
     | None => if negb (is_loopback (sa_ip (cp_peer p))) then Err FORBIDDEN else Ok tt
     end)%oaat.

(** ** The routes *)

Record BridgeStatus := mkStatus {
  bridge_name : string;
  bs_version : string;
  current_device : string;
  available_devices : list string;
  bs_connected : bool;
  bs_controller_name : option string;
  bs_stream_format : option string;
  bs_stream_sample_rate : option Z;
  bs_stream_bits : option Z;
  bs_stream_channels : option Z;
  track_title : option string;
  track_artist : option string;
  track_album : option string;
  bs_artwork_url : option string;
  bs_volume : Z;
  bs_playing : bool
}.

(** [s.replace('"', r#"\""#)]. *)
Definition DQUOTE : ascii := "034".
Definition BACKSLASH : ascii := "092".
Fixpoint escape_quotes (s : string) : string :=
  match s with
  | EmptyString => EmptyString
  | String a s => if Ascii.eqb a DQUOTE then String BACKSLASH (String DQUOTE (escape_quotes s))
                  else String a (escape_quotes s)
  end.

(** Literals of the code are written with single quotes. *)
Fixpoint json_text (s : string) : string :=
  match s with
  | EmptyString => EmptyString
  | String a s => String (if Ascii.eqb a "'" then DQUOTE else a) (json_text s)
  end.

Definition quoted (s : string) : string :=
  (String DQUOTE EmptyString ++ escape_quotes s ++ String DQUOTE EmptyString)%string.

Definition json_str (s : option string) : string :=
  match s with Some v => quoted v | None => "null" end.

Definition json_bool (b : bool) : string := if b then "true" else "false".

(** The keys of the status document with the text of their values. *)
Definition status_fields (st : BridgeStatus) : list (string * string) :=
  [ ("bridge_name", quoted (bridge_name st));
    ("version", (String DQUOTE EmptyString ++ bs_version st ++ String DQUOTE EmptyString)%string);
    ("current_device", quoted (current_device st));
    ("available_devices", ("[" ++ String.concat "," (quoted <$> available_devices st) ++ "]")%string);
    ("connected", json_bool (bs_connected st));
    ("controller_name", json_str (bs_controller_name st));
    ("playing", json_bool (bs_playing st));
    ("volume", print_uint (bs_volume st));
    ("track_title", json_str (track_title st));
    ("track_artist", json_str (track_artist st));
    ("track_album", json_str (track_album st));
    ("artwork_url", json_str (bs_artwork_url st));
    ("stream_format", json_str (bs_stream_format st));
    ("stream_sample_rate", print_uint (default 0 (bs_stream_sample_rate st)));
    ("stream_bits", print_uint (default 0 (bs_stream_bits st)));
    ("stream_channels", print_uint (default 0 (bs_stream_channels st))) ]%string.

Definition render_status_json (st : BridgeStatus) : string :=
  ("{" ++ String.concat "," ((λ kv, String DQUOTE EmptyString ++ kv.1 ++ String DQUOTE EmptyString ++ ":" ++ kv.2)%string
                               <$> status_fields st) ++ "}")%string.

(** [DeviceOk] is the document [serde_json] prints for an accepted switch. *)
Inductive Body :=
| Text (s : string)
| Page (st : BridgeStatus)
| StatusJson (s : string)
| DeviceOk (name : string).

Record Response := mkResponse { resp_code : Z; resp_body : Body }.

(** What the interface asks of the main loop. *)
Inductive WebCommand := SwitchDevice (name : string) | ReleaseOutput.

Section routes.
Variable device_of_body : list Z → option string.

(** [switch_open] and [release_tx]: whether the main loop still receives on
    the two channels, the second only where it was given. *)
Definition handle_request (req : Request) (st : BridgeStatus) (switch_open : bool) (release_tx : option bool)
    (p : ControlPolicy) : Response * list WebCommand :=
  let route m path := String.eqb (req_method req) m && String.eqb (req_path req) path in
  let rejected := match authorize p req with Err code => Some code | Ok _ => None end in
  match (if route "POST" "/api/device" || route "POST" "/api/release" then rejected else None) with
  | Some code => (mkResponse code (Text (json_text "{'ok':false,'error':'control request rejected'}")), [])
  | None =>
      match (if route "POST" "/api/release" then release_tx else None) with
      | Some true => (mkResponse OK (Text (json_text "{'ok':true}")), [ReleaseOutput])
      | Some false => (mkResponse SERVICE_UNAVAILABLE (Text (json_text "{'ok':false,'error':'endpoint not running'}")), [])
      | None =>
          if route "GET" "/" || route "GET" "/index.html" then (mkResponse OK (Page st), [])
          else if route "GET" "/api/status" then (mkResponse OK (StatusJson (render_status_json st)), [])
          else if route "POST" "/api/device" then
            match device_of_body (req_body req) with
            | Some name =>
                if negb (bool_decide (name = ""%string))
                then (mkResponse OK (DeviceOk name), if switch_open then [SwitchDevice name] else [])
                else (mkResponse BAD_REQUEST (Text (json_text "{'ok':false,'error':'missing device name'}")), [])
            | None => (mkResponse BAD_REQUEST (Text (json_text "{'ok':false,'error':'missing device name'}")), [])
            end
          else (mkResponse NOT_FOUND (Text "Not Found"), [])
      end
  end.

End routes.

(** ** Specification: who may control the endpoint *)

(** The names under which this listener is reached. *)
Definition own_names (p : ControlPolicy) : list string :=
  let a := cp_local p in
  let default_port := sa_port a =? 80 in
  addr_text a :: (if default_port then [host_text a] else [])
  ++ (if is_loopback (sa_ip a)
      then ("localhost:" ++ print_uint (sa_port a))%string :: (if default_port then ["localhost"%string] else [])
      else []).

Definition http (host : string) : string := ("http://" ++ host)%string.

(** The media type before any parameter, whatever its case. *)
Definition is_json (v : string) : Prop :=
  ∃ media params, split ";" v = media :: params ∧ to_lowercase (trim media) = "application/json"%string.

Record authorized (p : ControlPolicy) (req : Request) : Prop := {
  auth_origin : get_all req "origin" = [] ∨
    ∃ o h, get_all req "origin" = [Some o] ∧ get_all req "host" = [Some h] ∧
      h ∈ own_names p ∧ o ∈ http <$> own_names p;
  auth_json : ∃ v, get_all req "content-type" = [Some v] ∧ is_json v;
  auth_who : match cp_token p with
             | Some t => t ≠ ""%string ∧ get_all req "authorization" = [Some ("Bearer " ++ t)%string]
             | None => is_loopback (sa_ip (cp_peer p)) = true
             end
}.

(** ** Specification: JSON strings

    A reader of JSON string literals (RFC 8259, section 7; numeric escapes
    aside, which the endpoint never writes): the text and what follows the
    closing quote. *)
Definition unescape (a : ascii) : option ascii :=
  if Ascii.eqb a DQUOTE || Ascii.eqb a BACKSLASH || Ascii.eqb a "/" then Some a
  else if Ascii.eqb a "b" then Some "008"%char
  else if Ascii.eqb a "f" then Some "012"%char
  else if Ascii.eqb a "n" then Some "010"%char
  else if Ascii.eqb a "r" then Some "013"%char
  else if Ascii.eqb a "t" then Some "009"%char
  else None.

Fixpoint json_chars (s : string) : option (string * string) :=
  match s with
  | EmptyString => None
  | String a s =>
      if Ascii.eqb a DQUOTE then Some (EmptyString, s)
      else if Ascii.eqb a BACKSLASH then
        match s with
        | EmptyString => None
        | String b s =>
            c ← unescape b; '(v, rest) ← json_chars s; Some (String c v, rest)
        end
      else if (nat_of_ascii a <? 32)%nat then None
      else '(v, rest) ← json_chars s; Some (String a v, rest)
  end.

Definition json_string (s : string) : option (string * string) :=
  match s with
  | String a s => if Ascii.eqb a DQUOTE then json_chars s else None
  | EmptyString => None
  end.

(** No backslash and no control character. *)
Fixpoint plain (s : string) : bool :=
  match s with
  | EmptyString => true
  | String a s => negb (Ascii.eqb a BACKSLASH) && negb (nat_of_ascii a <? 32)%nat && plain s
  end.

(** ** Lemmas *)

Lemma trim_end_matches_none p s : strip_suffix p s = None → trim_end_matches p s = s.
Proof. intros Hs. unfold trim_end_matches. destruct (String.length s); simpl; [done|]. by rewrite Hs. Qed.

Lemma trim_end_matches_app p s : p ≠ ""%string → strip_suffix p s = None → trim_end_matches p (s ++ p) = s.
Proof.
  intros Hp Hs. unfold trim_end_matches. rewrite append_length.
  destruct p as [|a p]; [done|]. simpl String.length. rewrite Nat.add_succ_r. cbn [trim_end_matches_loop].
  rewrite strip_suffix_app by done. destruct (String.length s + String.length p)%nat; simpl; [done|]. by rewrite Hs.
Qed.

Fixpoint last_char (s : string) : option ascii :=
  match s with
  | EmptyString => None
  | String a EmptyString => Some a
  | String _ s => last_char s
  end.

Lemma last_char_app a b c : last_char b = Some c → last_char (a ++ b) = Some c.
Proof.
  intros Hb. induction a as [|x a IH]; [done|].
  change (last_char (String x (a ++ b)) = Some c). simpl. rewrite IH.
  destruct a, b; done.
Qed.

(** The host part of an address never ends in a port. *)
Lemma host_text_no_port a : strip_suffix ":80" (host_text a) = None.
Proof.
  destruct (strip_suffix ":80" (host_text a)) as [r|] eqn:E; [|done]. apply strip_suffix_Some in E.
  destruct (sa_ip a) eqn:Ei; unfold host_text in E; rewrite Ei in E.
  - assert (char_in ":" (v4_text a0 b c d) = false) as Hc.
    { unfold v4_text. by rewrite !char_in_app, !print_uint_no_char by done. }
    rewrite E, char_in_app in Hc. simpl in Hc. by rewrite orb_true_r in Hc.
  - apply (f_equal last_char) in E.
    rewrite (last_char_app r ":80" "0" eq_refl) in E.
    rewrite !(assoc String.append) in E. by rewrite (last_char_app _ "]" "]" eq_refl) in E.
Qed.

Lemma trim_authority a : sa_port a = 80 → trim_end_matches ":80" (addr_text a) = host_text a.
Proof.
  intros Hp. unfold addr_text. rewrite Hp.
  change (":" ++ print_uint 80)%string with ":80"%string.
  apply trim_end_matches_app; [done|apply host_text_no_port].
Qed.

Lemma own_names_check p h :
  h ∈ own_names p ↔
  h = addr_text (cp_local p) ∨
  h = (if sa_port (cp_local p) =? 80 then trim_end_matches ":80" (addr_text (cp_local p)) else addr_text (cp_local p)) ∨
  is_loopback (sa_ip (cp_local p)) &&
    (String.eqb h ("localhost:" ++ print_uint (sa_port (cp_local p))) ||
     (sa_port (cp_local p) =? 80) && String.eqb h "localhost") = true.
Proof.
  unfold own_names. destruct (sa_port (cp_local p) =? 80) eqn:E.
  - apply Z.eqb_eq in E. rewrite (trim_authority _ E).
    destruct (is_loopback _); simpl; rewrite ?orb_true_iff, ?String.eqb_eq; set_solver.
  - destruct (is_loopback _); simpl; rewrite ?orb_false_r, ?String.eqb_eq; set_solver.
Qed.

(** A name stripped of the default port is still one of the listener's. *)
Lemma own_names_trim p h :
  sa_port (cp_local p) = 80 → h ∈ own_names p → trim_end_matches ":80" h ∈ own_names p.
Proof.
  unfold own_names. intros E. rewrite E, Z.eqb_refl. intros Hh.
  assert (h = addr_text (cp_local p) ∨ h = host_text (cp_local p) ∨
          is_loopback (sa_ip (cp_local p)) = true ∧ (h = "localhost:80" ∨ h = "localhost")%string) as Hcase.
  { destruct (is_loopback _); change (print_uint 80) with "80"%string in Hh; simpl in Hh; set_solver. }
  destruct Hcase as [->|[->|(Hl & [->| ->])]].
  - rewrite (trim_authority _ E). set_solver.
  - rewrite trim_end_matches_none by apply host_text_no_port. set_solver.
  - rewrite Hl. change (trim_end_matches ":80" "localhost:80") with "localhost"%string. set_solver.
  - rewrite Hl. change (trim_end_matches ":80" "localhost") with "localhost"%string. set_solver.
Qed.

Lemma check_same_origin_sound p o h :
  check_same_origin p o h = Ok tt → h ∈ own_names p ∧ o ∈ http <$> own_names p.
Proof.
  unfold check_same_origin. destruct (_ && _ && _) eqn:E1; [done|]. destruct (_ && _) eqn:E2 in |- *; [done|].
  intros _.
  assert (h ∈ own_names p) as Hh.
  { apply own_names_check. rewrite !andb_false_iff, !negb_false_iff, !String.eqb_eq in E1. tauto. }
  split; [done|]. rewrite andb_false_iff, !negb_false_iff, !String.eqb_eq in E2. apply list_elem_of_fmap.
  destruct E2 as [->| ->]; [|by exists h].
  destruct (sa_port (cp_local p) =? 80) eqn:E; [|by exists h].
  apply Z.eqb_eq in E. exists (trim_end_matches ":80" h). split; [done|by apply own_names_trim].
Qed.

Lemma check_same_origin_own p h : h ∈ own_names p → check_same_origin p (http h) h = Ok tt.
Proof.
  intros Hh%own_names_check. unfold check_same_origin.
  assert (negb (String.eqb h (addr_text (cp_local p))) &&
     negb (String.eqb h (if sa_port (cp_local p) =? 80 then trim_end_matches ":80" (addr_text (cp_local p))
                         else addr_text (cp_local p))) &&
     negb (is_loopback (sa_ip (cp_local p)) &&
       (String.eqb h ("localhost:" ++ print_uint (sa_port (cp_local p))) ||
        (sa_port (cp_local p) =? 80) && String.eqb h "localhost")) = false) as ->.
  { rewrite !andb_false_iff, !negb_false_iff, !String.eqb_eq. tauto. }
  unfold http. by rewrite String.eqb_refl, andb_false_r.
Qed.

Lemma same_token_spec a b :
  same_token a b = bool_decide (a = b).
Proof.
  unfold same_token. destruct (Nat.eqb_spec (length a) (length b)) as [Hl|Hl]; simpl.
  2:{ symmetry. apply bool_decide_eq_false. congruence. }
  assert (∀ acc, (fold_left (λ diff '(a, b), Z.lor diff (Z.lxor a b)) (zip a b) acc =? 0) = true ↔ acc = 0 ∧ a = b) as Hf.
  { revert b Hl. induction a as [|x a IH]; intros [|y b] Hl acc; simplify_eq/=; [rewrite Z.eqb_eq; naive_solver|].
    rewrite IH by done. rewrite Z.lor_eq_0_iff, Z.lxor_eq_0_iff. naive_solver. }
  specialize (Hf 0). destruct (_ =? 0); case_bool_decide; naive_solver.
Qed.

Lemma bytes_of_inj a b : bytes_of a = bytes_of b → a = b.
Proof.
  revert b. induction a as [|x a IH]; intros [|y b]; simpl; try done. intros [= Hx%Nat2Z.inj Hab].
  rewrite (IH _ Hab). rewrite <- (ascii_nat_embedding x), <- (ascii_nat_embedding y). by rewrite Hx.
Qed.

Lemma header_Ok req name v :
  header req name = Ok v → get_all req name = match v with Some v => [Some v] | None => [] end.
Proof. unfold header. repeat case_match; naive_solver. Qed.

Lemma one_header_Some req name v : one_header req name = Some v → get_all req name = [Some v].
Proof.
  unfold one_header. destruct (header req name) as [o|] eqn:E; [|done]. intros ->. apply (header_Ok _ _ _ E).
Qed.

#[local] Arguments strip_prefix _ _ : simpl never.

Lemma authorize_sound p req : authorize p req = Ok tt → authorized p req.
Proof.
  unfold authorize. destruct (header req "origin") as [origin|] eqn:Eo; simpl; [|done].
  apply header_Ok in Eo.
  destruct (match origin with Some _ => _ | None => _ end) as [[]|] eqn:Eorigin in |- *; simpl; [|done].
  destruct (one_header req "content-type") as [v|] eqn:Ev; [|done]. apply one_header_Some in Ev.
  destruct (split ";" v) as [|media params] eqn:Es; [done|].
  destruct (eq_ignore_ascii_case _ _) eqn:Ej; simpl; [|done]. apply String.eqb_eq in Ej.
  intros Hwho. constructor.
  - destruct origin as [o|]; [right|by left].
    destruct (header req "host") as [[h|]|] eqn:Eh; simpl in Eorigin; try done.
    apply header_Ok in Eh. apply check_same_origin_sound in Eorigin. naive_solver.
  - exists v. split; [done|]. by exists media, params.
  - destruct (cp_token p) as [t|]; [|by destruct (is_loopback _)].
    destruct (one_header req "authorization") as [a|] eqn:Ea; simpl in Hwho; [|done].
    apply one_header_Some in Ea. destruct (strip_prefix _ a) as [supplied|] eqn:Ep; simpl in Hwho; [|done].
    apply strip_prefix_Some in Ep as ->. rewrite same_token_spec in Hwho.
    destruct (bool_decide_reflect (t = "")%string) as [|Ht]; [done|]. simpl in Hwho.
    case_bool_decide as Hb; [|done]. apply bytes_of_inj in Hb as <-. done.
Qed.

Lemma json_chars_plain s t :
  plain s = true →
  json_chars (escape_quotes s ++ t) = ('(v, rest) ← json_chars t; Some ((s ++ v)%string, rest)).
Proof.
  induction s as [|a s IH]; intros Hs.
  - change (json_chars t = '(v, rest) ← json_chars t; Some (v, rest)). by destruct (json_chars t) as [[]|].
  - simpl in Hs. apply andb_prop in Hs as [[Hb Hc]%andb_prop Hs]. specialize (IH Hs).
    cbn [escape_quotes]. destruct (Ascii.eqb_spec a DQUOTE) as [->|Hq].
    + change (String BACKSLASH (String DQUOTE (escape_quotes s)) ++ t)%string
        with (String BACKSLASH (String DQUOTE (escape_quotes s ++ t))).
      cbn [json_chars]. simpl Ascii.eqb. cbv iota. rewrite IH. by destruct (json_chars t) as [[]|].
    + change (String a (escape_quotes s) ++ t)%string with (String a (escape_quotes s ++ t)). cbn [json_chars].
      rewrite (proj2 (Ascii.eqb_neq _ _) Hq).
      apply negb_true_iff in Hb, Hc. rewrite Hb, Hc, IH. by destruct (json_chars t) as [[]|].
Qed.

Lemma escape_quotes_app a b : escape_quotes (a ++ b) = (escape_quotes a ++ escape_quotes b)%string.
Proof.
  induction a as [|x a IH]; [done|]. cbn [escape_quotes].
  change (String x a ++ b)%string with (String x (a ++ b)). cbn [escape_quotes].
  rewrite IH. by destruct (Ascii.eqb x DQUOTE).
Qed.

(** A command only leaves an authorized POST. *)
Lemma commands_authorized device_of_body req st switch_open release_tx p :
  (handle_request device_of_body req st switch_open release_tx p).2 ≠ [] →
  req_method req = "POST"%string ∧ authorize p req = Ok tt.
Proof.
  unfold handle_request. destruct (String.eqb_spec (req_method req) "POST") as [Hm|Hm]; simpl.
  - destruct (String.eqb (req_path req) "/api/device" || String.eqb (req_path req) "/api/release") eqn:E.
    + destruct (authorize p req) as [[]|]; [done|done].
    + apply orb_false_iff in E as [Ed Er]. rewrite Ed, Er. repeat case_match; done.
  - repeat case_match; done.
Qed.

(** ** Properties *)

(** Nobody else controls the endpoint: whatever a request contains, a device
    switch or a release reaches the main loop only from a POST with one JSON
    content type that carries the configured token, or, without a token, comes
    from this host; and if a browser sent it, from a page of this very
    listener addressed under one of its own names, so that neither another
    site nor a name rebound to this host can do it. *)
Theorem control_needs_authorization device_of_body req st switch_open release_tx p :
  (handle_request device_of_body req st switch_open release_tx p).2 ≠ [] →
  req_method req = "POST"%string ∧ authorized p req.
Proof. intros [Hpost Ha]%commands_authorized. split; [exact Hpost|by apply authorize_sound]. Qed.

(** The endpoint's own page works: a JSON request from a page of the listener,
    under any of its names, with the token (or from this host when there is
    none) is carried out, and answered 200. *)
Theorem own_page_controls device_of_body p name media h st :
  let auth := match cp_token p with Some t => [("authorization", Some ("Bearer " ++ t))] | None => [] end%string in
  let headers := [("host", Some h); ("origin", Some (http h)); ("content-type", Some media)]%string ++ auth in
  h ∈ own_names p → eq_ignore_ascii_case media "application/json" = true →
  char_in ";" media = false → no_whitespace media = true → name ≠ ""%string →
  match cp_token p with Some t => t ≠ ""%string | None => is_loopback (sa_ip (cp_peer p)) = true end →
  (∀ body, device_of_body body = Some name →
     handle_request device_of_body (mkRequest "POST" "/api/device" headers body) st true (Some true) p =
       (mkResponse OK (DeviceOk name), [SwitchDevice name])) ∧
  (∀ body, (handle_request device_of_body (mkRequest "POST" "/api/release" headers body) st true (Some true) p).2 =
     [ReleaseOutput]).
Proof.
  intros auth headers Hh Hj Hsemi Hws Hname Hwho.
  assert (∀ path body, authorize p (mkRequest "POST" path headers body) = Ok tt) as Hauth.
  { intros path body. unfold authorize, one_header, header, get_all, headers, auth. simpl req_headers.
    destruct (cp_token p) as [t|]; simpl;
      rewrite (check_same_origin_own p h Hh); simpl; rewrite (split_nosep _ _ Hsemi), (trim_id _ Hws), Hj; simpl.
    - change (strip_prefix "Bearer " _) with (Some t). simpl.
      rewrite same_token_spec, (bool_decide_eq_true_2 (bytes_of t = _)) by done. by rewrite bool_decide_eq_false_2.
    - by rewrite Hwho. }
  split; intros body; [intros Hbody|]; unfold handle_request; rewrite Hauth; simpl; [|done].
  rewrite Hbody. by rewrite bool_decide_eq_false_2.
Qed.

(** The strings of the status document, for a text without backslashes and
    control characters, read back as they were, and the literal ends where it
    should; but a text that ends in a backslash swallows its closing quote:
    the reader goes on into whatever follows. *)
Theorem status_strings_read s rest :
  plain s = true →
  json_string (quoted s ++ rest) = Some (s, rest) ∧
  json_string (quoted (s ++ String BACKSLASH EmptyString) ++ rest) =
    ('(v, rest) ← json_chars rest; Some ((s ++ String DQUOTE v)%string, rest)).
Proof.
  intros Hs. unfold quoted. rewrite escape_quotes_app. split.
  - change (json_chars ((escape_quotes s ++ String DQUOTE EmptyString) ++ rest) = Some (s, rest)).
    rewrite <- (assoc String.append), json_chars_plain by done. simpl. by rewrite (right_id _ String.append).
  - change (json_chars (((escape_quotes s ++ String BACKSLASH EmptyString) ++ String DQUOTE EmptyString) ++ rest) =
      ('(v, rest) ← json_chars rest; Some ((s ++ String DQUOTE v)%string, rest))).
    rewrite <- !(assoc String.append), json_chars_plain by done. simpl. change ("" ++ rest)%string with rest. by destruct (json_chars rest) as [[]|].
Qed.

(** ** Witnesses *)

Definition lan_policy : ControlPolicy :=
  mkPolicy (mkAddr (V4 192 168 1 20) 80 0) (mkAddr (V4 192 168 1 7) 51000 0) (Some "secret"%string).
Definition host_policy : ControlPolicy :=
  mkPolicy (mkAddr (V6 [0; 0; 0; 0; 0; 0; 0; 1]) 9741 0) (mkAddr (V6 [0; 0; 0; 0; 0; 0; 0; 1]) 51000 0) None.
Definition idle_status : BridgeStatus :=
  mkStatus "Tune Bridge" "0.4.0" "" [] false None None None None None None None None None 100 false.
Definition release_request : Request :=
  mkRequest "POST" "/api/release"
    [("host", Some "192.168.1.20"); ("origin", Some "http://192.168.1.20");
     ("content-type", Some "Application/JSON; charset=utf-8"); ("authorization", Some "Bearer secret")]%string [].

Lemma host_policy_names : own_names host_policy = ["[::1]:9741"; "localhost:9741"]%string.
Proof. reflexivity. Qed.

Lemma control_needs_authorization_witness :
  (handle_request (λ _, None) release_request idle_status true (Some true) lan_policy).2 = [ReleaseOutput] ∧
  authorized lan_policy release_request.
Proof.
  assert ((handle_request (λ _, None) release_request idle_status true (Some true) lan_policy).2 = [ReleaseOutput])
    as Hr by (vm_compute; reflexivity).
  split; [exact Hr|].
  apply (control_needs_authorization (λ _, None) release_request idle_status true (Some true) lan_policy).
  rewrite Hr. discriminate.
Defined.

Lemma own_page_controls_witness :
  handle_request (λ _, Some "hw:1"%string)
    (mkRequest "POST" "/api/device"
       [("host", Some "localhost:9741"); ("origin", Some "http://localhost:9741");
        ("content-type", Some "application/json")]%string []) idle_status true (Some true) host_policy =
  (mkResponse OK (DeviceOk "hw:1"), [SwitchDevice "hw:1"]).
Proof.
  refine (proj1 (own_page_controls (λ _, Some "hw:1"%string) host_policy "hw:1" "application/json" "localhost:9741"
                   idle_status _ _ _ _ _ _) [] _); try reflexivity; [|discriminate].
  rewrite host_policy_names. set_solver.
Defined.

(** A title that ends in a backslash: the reader runs into the next key. *)
Lemma status_strings_read_witness :
  json_string (quoted "AC/DC" ++ ",") = Some ("AC/DC", ",")%string ∧
  json_string (quoted ("AC/DC" ++ String BACKSLASH EmptyString) ++ ",") = None.
Proof. exact (status_strings_read "AC/DC" "," eq_refl). Defined.
