(* ===== verification/Mixer.v ===== *)
(** * The hardware mixer

    Models [crates/oaat-endpoint/src/alsa_mixer.rs]: the search for the volume
    and mute controls in what [amixer] prints, the scaling between the
    protocol's percent and the range of a control, and the operations of
    [AlsaMixer].  The [amixer] program is the argument [amixer]: what each call
    prints, or [None] when it fails. *)

From S2P Require Import Prelude Text.
From Stdlib Require Import Ascii.

Local Open Scope Z_scope.

(** ** Scaling

    [i32] arithmetic, wrapping; divisions truncate. *)

Definition scale_level_to_raw (level min max : Z) : Z :=
  let level := Z.min level 100 in
  let span := as_i 32 (max - min) in
  as_i 32 (min + Z.quot (as_i 32 (as_i 32 (level * span) + 50)) 100).

Definition scale_raw_to_level (raw min max : Z) : Z :=
  let span := as_i 32 (max - min) in
  if span =? 0 then 0
  else
    let pct := as_i 32 (Z.quot (as_i 32 (as_i 32 (as_i 32 (raw - min) * 100) + Z.quot span 2)) span) in
    clamp 0 100 pct.

(** ** Reading what amixer prints *)

Definition is_digit (a : ascii) : bool := match digit_value a with Some _ => true | None => false end.

(** The digits at the start, after an optional minus sign. *)
Definition number_prefix (s : string) : string :=
  match s with
  | String a rest =>
      if Ascii.eqb a "-" then String a (take_chars is_digit rest) else take_chars is_digit s
  | EmptyString => EmptyString
  end.

Fixpoint first_range (lines : list string) (key : string) : option Z :=
  match lines with
  | [] => None
  | line :: lines =>
      match (rest ← find_after key (trim line); parse_int 32 (number_prefix rest)) with
      | Some v => Some v
      | None => first_range lines key
      end
  end.
Definition parse_range_value (block key : string) : option Z := first_range (lines block) key.

Fixpoint first_value (lines : list string) : option Z :=
  match lines with
  | [] => None
  | line :: lines =>
      match strip_prefix ": values=" (trim line) with
      | Some raw => first ← head (split "," raw); parse_int 32 (trim first)
      | None => first_value lines
      end
  end.
Definition parse_int_value (output : string) : option Z := first_value (lines output).

(** The number of the control a block describes. *)
Definition block_numid (block : string) : option Z :=
  first_line ← head (lines block); numid ← head (split "," first_line); parse_uint 32 numid.

(** One turn of the loop of [find_playback_volume], up to the choice. *)
Definition volume_block (block : string) : option (Z * (Z * Z)) :=
  match block_numid block with
  | None => None
  | Some numid =>
      let lower := to_lowercase block in
      if negb (contains lower "playback volume") then None
      else if negb (contains lower "iface=mixer") then None
      else Some (numid, (default 0 (parse_range_value block "min="), default 100 (parse_range_value block "max=")))
  end.

Definition switch_block (block : string) : option (Z * unit) :=
  match block_numid block with
  | None => None
  | Some numid =>
      let lower := to_lowercase block in
      if negb (contains lower "playback switch") || negb (contains lower "iface=mixer") then None
      else Some (numid, tt)
  end.

(** [match best { Some((n, ..)) if numid >= n => {}, _ => best = .. }]. *)
Definition better {A} (best : option (Z * A)) (c : option (Z * A)) : option (Z * A) :=
  match c with
  | None => best
  | Some (numid, a) =>
      match best with
      | Some (n, _) => if n <=? numid then best else Some (numid, a)
      | None => Some (numid, a)
      end
  end.

Definition find_playback_volume (contents : string) : option (Z * (Z * Z)) :=
  fold_left (λ best block, better best (volume_block block)) (split_str "numid=" contents) None.

Definition find_playback_switch (contents : string) : option Z :=
  fst <$> fold_left (λ best block, better best (switch_block block)) (split_str "numid=" contents) None.

(** ** [AlsaMixer] *)

Record AlsaMixer := mkMixer {
  mx_card : Z;
  volume_numid : option Z;
  volume_min : Z;
  volume_max : Z;
  mute_numid : option Z
}.

Inductive AmixerCall :=
| Contents
| Cset (control value : string)
| Cget (control : string).

Definition numid_control (n : Z) : string := ("numid=" ++ print_uint n)%string.

Definition fir_index (filter_name : string) : option Z :=
  if String.eqb filter_name "brick wall" then Some 0
  else if String.eqb filter_name "corrected minimum phase fast" then Some 1
  else if String.eqb filter_name "minimum phase slow" then Some 2
  else if String.eqb filter_name "minimum phase fast" then Some 3
  else if String.eqb filter_name "linear phase slow" then Some 4
  else if String.eqb filter_name "linear phase fast" then Some 5
  else if String.eqb filter_name "apodizing fast" then Some 6
  else n ← parse_uint 32 filter_name; if n <=? 6 then Some n else None.

Section mixer.
Variable amixer : AmixerCall → option string.

Definition discover_controls (card : Z) : AlsaMixer :=
  match amixer Contents with
  | None => mkMixer card (Some 1) 0 100 (Some 2)
  | Some contents =>
      let '(numid, min, max) :=
        match find_playback_volume contents with
        | Some (numid, (min, max)) => (numid, min, if min <? max then max else as_i 32 (min + 1))
        | None => (1, 0, 100)
        end in
      mkMixer card (Some numid) min max (find_playback_switch contents)
  end.

Definition AlsaMixer_new (card : Z) : AlsaMixer := discover_controls card.

Definition amixer_cset (control value : string) : bool * list AmixerCall :=
  (bool_decide (is_Some (amixer (Cset control value))), [Cset control value]).

Definition mixer_set_volume (m : AlsaMixer) (level : Z) : bool * list AmixerCall :=
  match volume_numid m with
  | None => (false, [])
  | Some numid =>
      amixer_cset (numid_control numid)
        (print_int (scale_level_to_raw level (volume_min m) (volume_max m)))
  end.

Definition mixer_set_mute (m : AlsaMixer) (muted : bool) : bool * list AmixerCall :=
  match mute_numid m with
  | None => (false, [])
  | Some numid => amixer_cset (numid_control numid) (if muted then "off" else "on")
  end.

Definition set_fir_filter (m : AlsaMixer) (filter_name : string) : bool * list AmixerCall :=
  match fir_index filter_name with
  | None => (false, [])
  | Some idx => amixer_cset "numid=3" (print_uint idx)
  end.

Definition get_volume (m : AlsaMixer) : option Z :=
  numid ← volume_numid m;
  output ← amixer (Cget (numid_control numid));
  raw ← parse_int_value output;
  Some (scale_raw_to_level raw (volume_min m) (volume_max m)).

Definition get_mute (m : AlsaMixer) : option bool :=
  numid ← mute_numid m;
  output ← amixer (Cget (numid_control numid));
  if contains output "values=off" then Some true
  else if contains output "values=on" then Some false
  else None.

(** The calls of [init]; the volume is only read to be logged. *)
Definition mixer_init (m : AlsaMixer) (fir_filter : option string) : list AmixerCall :=
  (mixer_set_mute m false).2
  ++ (match fir_filter with Some f => (set_fir_filter m f).2 | None => [] end)
  ++ (match volume_numid m with Some n => [Cget (numid_control n)] | None => [] end).

End mixer.

(** ** Lemmas: scaling *)

Definition MAX_SPAN : Z := 21000000.

Lemma scale_level_exact level min max :
  in_i 32 min → in_i 32 max → min < max → max - min ≤ MAX_SPAN → 0 ≤ level →
  scale_level_to_raw level min max = min + (Z.min level 100 * (max - min) + 50) / 100.
Proof.
  unfold MAX_SPAN, in_i. intros Hmin Hmax Hlt Hspan Hl. unfold scale_level_to_raw.
  set (l := Z.min level 100). assert (0 ≤ l ≤ 100) by lia.
  assert (0 ≤ l * (max - min) ≤ 100 * (max - min)) by nia.
  rewrite (as_i_id 32 (max - min)), (as_i_id 32 (l * _)), (as_i_id 32 (_ + 50)) by range.
  rewrite Z.quot_div_nonneg by lia.
  rewrite as_i_id; [done|lia|].
  assert (0 ≤ (l * (max - min) + 50) / 100 ≤ max - min); [|range].
  split; [apply Z.div_pos; lia|]. apply Z.lt_succ_r, Z.div_lt_upper_bound; lia.
Qed.

Lemma scale_raw_exact raw min max :
  in_i 32 min → in_i 32 max → min ≤ raw ≤ max → min < max → max - min ≤ MAX_SPAN →
  scale_raw_to_level raw min max = ((raw - min) * 100 + (max - min) / 2) / (max - min).
Proof.
  unfold MAX_SPAN, in_i. intros Hmin Hmax Hraw Hlt Hspan. unfold scale_raw_to_level.
  assert (0 ≤ (max - min) / 2 ≤ max - min) by (split; [apply Z.div_pos|apply Z.div_le_upper_bound]; lia).
  rewrite (as_i_id 32 (max - min)), (as_i_id 32 (raw - min)), (as_i_id 32 (_ * 100)) by range.
  rewrite (Z.quot_div_nonneg (max - min) 2), (as_i_id 32 (_ + _)) by range.
  rewrite Z.quot_div_nonneg by lia. rewrite (proj2 (Z.eqb_neq _ _)) by lia.
  assert (0 ≤ ((raw - min) * 100 + (max - min) / 2) / (max - min) ≤ 100).
  { split; [apply Z.div_pos; lia|]. apply Z.lt_succ_r, Z.div_lt_upper_bound; [lia|].
    assert ((max - min) / 2 < max - min) by (apply Z.div_lt_upper_bound; lia). nia. }
  rewrite as_i_id by range. unfold clamp. lia.
Qed.

(** ** Lemmas: the search *)

Lemma better_fold {A} (f : string → option (Z * A)) blocks best :
  let r := fold_left (λ best block, better best (f block)) blocks best in
  (∀ n a, r = Some (n, a) →
     (best = Some (n, a) ∨ ∃ block, block ∈ blocks ∧ f block = Some (n, a)) ∧
     (∀ n' a', best = Some (n', a') → n ≤ n') ∧
     (∀ block n' a', block ∈ blocks → f block = Some (n', a') → n ≤ n')) ∧
  (r = None → best = None ∧ ∀ block, block ∈ blocks → f block = None).
Proof.
  revert best. induction blocks as [|b blocks IH]; intros best r; simpl in r.
  - subst r. split; [|set_solver]. intros n a ->. split_and!; [by left|naive_solver lia|set_solver].
  - destruct (IH (better best (f b))) as [IHs IHn]. fold r in IHs, IHn. split.
    + intros n a Hr. destruct (IHs n a Hr) as (Hin & Hbest & Hall). unfold better in Hin, Hbest.
      destruct (f b) as [[nb ab]|] eqn:Eb.
      * destruct best as [[n0 a0]|]; [destruct (n0 <=? nb) eqn:Ele|].
        -- apply Z.leb_le in Ele. pose proof (Hbest _ _ eq_refl). split_and!; [set_solver| |].
           ++ naive_solver lia.
           ++ intros block n' a' [->|Hb]%elem_of_cons Hf; [|by eapply Hall]. simplify_eq. lia.
        -- apply Z.leb_gt in Ele. pose proof (Hbest _ _ eq_refl). split_and!.
           ++ destruct Hin as [Heq|?]; [right; exists b; set_solver|set_solver].
           ++ naive_solver lia.
           ++ intros block n' a' [->|Hb]%elem_of_cons Hf; [|by eapply Hall]. simplify_eq. lia.
        -- pose proof (Hbest _ _ eq_refl). split_and!; [|done|].
           ++ destruct Hin as [Heq|?]; [right; exists b; set_solver|set_solver].
           ++ intros block n' a' [->|Hb]%elem_of_cons Hf; [|by eapply Hall]. simplify_eq. lia.
      * split_and!; [set_solver|done|].
        intros block n' a' [->|Hb]%elem_of_cons Hf; [congruence|by eapply Hall].
    + intros Hr. destruct (IHn Hr) as [Hbest Hall]. unfold better in Hbest.
      destruct (f b) as [[nb ab]|] eqn:Eb; [by repeat case_match|]. split; [done|].
      intros block [->|Hb]%elem_of_cons; auto.
Qed.

Lemma parse_digits_range w acc s z :
  0 ≤ acc → parse_digits w acc s = Some z → acc < 2 ^ w → 0 ≤ z < 2 ^ w.
Proof.
  revert acc. induction s as [|a s IH]; intros acc Hacc; simpl; [by intros [= ->]|].
  destruct (digit_value a) as [d|] eqn:Ed; [|done]. case_match; [|done].
  assert (0 ≤ d) by (unfold digit_value in Ed; case_match; simplify_eq; lia).
  intros Hz Hlt. apply (IH (acc * 10 + d)); [lia|done|]. by apply Z.ltb_lt.
Qed.

Lemma parse_int_range s z : parse_int 32 s = Some z → in_i 32 z.
Proof.
  unfold parse_int. destruct s as [|a s]; [done|]. case_match.
  - destruct s; [done|]. destruct (parse_digits _ _ _) as [n|] eqn:E; [|done].
    apply parse_digits_range in E; [|lia|lia]. case_match; [|done]. intros [= <-]. range.
  - unfold parse_uint. intros Hp. case_match; [done|].
    apply parse_digits_range in Hp; [|lia|lia]. range.
Qed.

Lemma parse_range_value_range block key z : parse_range_value block key = Some z → in_i 32 z.
Proof.
  unfold parse_range_value. induction (lines block) as [|line ls IH]; simpl; [done|].
  destruct (find_after key (trim line)) as [rest|]; simpl; [|done].
  destruct (parse_int 32 _) eqn:E; [|done]. intros [= ->]. by apply (parse_int_range _ _ E).
Qed.

Lemma scale_bounds level min max :
  in_i 32 min → in_i 32 max → min < max → max - min ≤ MAX_SPAN → 0 ≤ level →
  let raw := scale_level_to_raw level min max in
  min ≤ raw ≤ max ∧ Z.abs ((raw - min) * 100 - Z.min level 100 * (max - min)) ≤ 50.
Proof.
  intros Hmin Hmax Hlt Hspan Hl raw. unfold raw. rewrite scale_level_exact by done.
  set (l := Z.min level 100). assert (0 ≤ l ≤ 100) by lia.
  assert (0 ≤ l * (max - min) ≤ 100 * (max - min)) by nia.
  pose proof (Z.div_mod (l * (max - min) + 50) 100 ltac:(lia)).
  pose proof (Z.mod_pos_bound (l * (max - min) + 50) 100 ltac:(lia)). lia.
Qed.

Lemma scale_roundtrip level min max :
  in_i 32 min → in_i 32 max → 100 ≤ max - min ≤ MAX_SPAN → 0 ≤ level ≤ 100 →
  scale_raw_to_level (scale_level_to_raw level min max) min max = level.
Proof.
  intros Hmin Hmax Hspan Hl. destruct (scale_bounds level min max) as [Hraw Hd]; try (done || lia).
  rewrite scale_raw_exact by (done || lia). rewrite Z.min_l in Hd by lia.
  set (d := scale_level_to_raw level min max - min) in *. set (span := max - min) in *.
  symmetry. apply (Z.div_unique _ _ _ (d * 100 + span / 2 - level * span)); [|lia].
  left. pose proof (Z.div_mod span 2 ltac:(lia)). pose proof (Z.mod_pos_bound span 2 ltac:(lia)).
  destruct (decide (span = 100)) as [E|]; [rewrite E in *; change (100 / 2) with 50 in *|]; lia.
Qed.

Lemma first_value_skip pre line post :
  Forall (λ l, strip_prefix ": values=" (trim l) = None) pre →
  first_value (pre ++ line :: post) = first_value (line :: post).
Proof. induction 1 as [|l pre Hl _ IH]; [done|]. cbn [first_value app]. by rewrite Hl, IH. Qed.

(** The best of the blocks, or none. *)
Definition lowest {A} (f : string → option (Z * A)) (blocks : list string) (r : option (Z * A)) : Prop :=
  match r with
  | Some (n, a) => (∃ b, b ∈ blocks ∧ f b = Some (n, a)) ∧ ∀ b n' a', b ∈ blocks → f b = Some (n', a') → n ≤ n'
  | None => ∀ b, b ∈ blocks → f b = None
  end.

Lemma fold_lowest {A} (f : string → option (Z * A)) blocks :
  lowest f blocks (fold_left (λ best block, better best (f block)) blocks None).
Proof.
  destruct (better_fold f blocks None) as [Hs Hn]. unfold lowest.
  destruct (fold_left _ _ _) as [[n a]|]; [|naive_solver].
  destruct (Hs n a eq_refl) as ([|] & _ & Hmin); naive_solver.
Qed.

Lemma find_switch_lowest contents n :
  find_playback_switch contents = Some n ↔
  (∃ b, b ∈ split_str "numid=" contents ∧ switch_block b = Some (n, tt)) ∧
  ∀ b n', b ∈ split_str "numid=" contents → switch_block b = Some (n', tt) → n ≤ n'.
Proof.
  unfold find_playback_switch. pose proof (fold_lowest switch_block (split_str "numid=" contents)) as Hl.
  destruct (fold_left _ _ _) as [[n0 []]|]; simpl in *.
  - destruct Hl as [Hb Hmin]. split; [naive_solver|]. intros [(b & Hin & Hs) Hmin']. f_equal.
    destruct Hb as (b0 & Hin0 & Hs0). pose proof (Hmin _ _ _ Hin Hs). pose proof (Hmin' _ _ Hin0 Hs0). lia.
  - split; [done|]. intros [(b & Hin & Hs) _]. rewrite (Hl b Hin) in Hs. done.
Qed.

Lemma volume_block_range b n lo hi : volume_block b = Some (n, (lo, hi)) → in_i 32 lo ∧ in_i 32 hi.
Proof.
  unfold volume_block. repeat case_match; try done. intros [= <- <- <-].
  destruct (parse_range_value b "min=") eqn:E1, (parse_range_value b "max=") eqn:E2; simpl;
    try apply parse_range_value_range in E1; try apply parse_range_value_range in E2; split; (done || range).
Qed.

(** ** Properties *)

(** The hardware volume follows the protocol's: over the range of a control
    the level is mapped to the nearest step, within the range, silence to its
    lowest and anything from 100 on to its highest value, and never down when
    the level goes up. *)
Theorem level_scaling min max level level' :
  in_i 32 min → in_i 32 max → min < max → max - min ≤ MAX_SPAN → 0 ≤ level ≤ level' →
  let raw := scale_level_to_raw level min max in
  min ≤ raw ≤ max ∧
  Z.abs ((raw - min) * 100 - Z.min level 100 * (max - min)) ≤ 50 ∧
  raw ≤ scale_level_to_raw level' min max ∧
  scale_level_to_raw 0 min max = min ∧ (100 ≤ level → raw = max).
Proof.
  intros Hmin Hmax Hlt Hspan Hl raw.
  destruct (scale_bounds level min max) as [Hraw Hd]; try (done || lia).
  split; [done|]. split; [done|]. unfold raw. rewrite !scale_level_exact by (done || lia). split_and!.
  - apply Z.add_le_mono_l, Z.div_le_mono; [lia|]. nia.
  - rewrite Z.min_l, Z.mul_0_l by lia. change ((0 + 50) / 100) with 0. lia.
  - intros. rewrite Z.min_r by lia.
    replace (100 * (max - min) + 50) with (50 + (max - min) * 100) by lia.
    rewrite Z.div_add by lia. change (50 / 100) with 0. lia.
Qed.

(** A volume that was set reads back: on a control with at least one step per
    percent, if [amixer] prints the value it was given, [get_volume] returns
    the level of [set_volume] exactly. *)
Theorem volume_set_reads_back amixer m numid level value out pre line rest post :
  volume_numid m = Some numid → in_i 32 (volume_min m) → in_i 32 (volume_max m) →
  100 ≤ volume_max m - volume_min m ≤ MAX_SPAN → 0 ≤ level ≤ 100 →
  (mixer_set_volume amixer m level).2 = [Cset (numid_control numid) value] →
  amixer (Cget (numid_control numid)) = Some out → lines out = pre ++ line :: post →
  Forall (λ l, strip_prefix ": values=" (trim l) = None) pre →
  trim line = (": values=" ++ value ++ "," ++ rest)%string →
  get_volume amixer m = Some level.
Proof.
  intros Hn Hmin Hmax Hspan Hl Hset Hget Hlines Hpre Hline.
  unfold mixer_set_volume in Hset. rewrite Hn in Hset. simpl in Hset. injection Hset as <-.
  unfold get_volume. rewrite Hn. simpl. rewrite Hget. simpl. unfold parse_int_value.
  rewrite Hlines, first_value_skip by done. cbn [first_value]. rewrite Hline, strip_prefix_app.
  change ("," ++ rest)%string with (String "," rest). rewrite split_app by by apply print_int_no_char. simpl.
  rewrite trim_id by apply print_int_no_whitespace.
  rewrite parse_print_int; [|lia|].
  - simpl. by rewrite scale_roundtrip.
  - destruct (scale_bounds level (volume_min m) (volume_max m)) as [Hraw _]; try (done || lia). range.
Qed.

(** Discovery binds the right controls: the volume control is, of the blocks
    describing a mixer control named as a playback volume, the one with the
    lowest number, with its range; mute is bound only to a playback switch;
    and whatever [amixer] prints, the range bound fits 32 bits and is not
    empty, so that no later scaling divides by zero. *)
Theorem discovery_sound amixer card contents :
  amixer Contents = Some contents →
  let blocks := split_str "numid=" contents in
  let m := AlsaMixer_new amixer card in
  (∀ b n r, b ∈ blocks → volume_block b = Some (n, r) →
     ∃ b' n', b' ∈ blocks ∧ volume_numid m = Some n' ∧ n' ≤ n ∧
       (∃ hi, volume_block b' = Some (n', (volume_min m, hi)) ∧ (volume_min m < hi → volume_max m = hi))) ∧
  (∀ n, mute_numid m = Some n ↔
     (∃ b, b ∈ blocks ∧ switch_block b = Some (n, tt)) ∧
     ∀ b n', b ∈ blocks → switch_block b = Some (n', tt) → n ≤ n') ∧
  in_i 32 (volume_min m) ∧ in_i 32 (volume_max m) ∧ as_i 32 (volume_max m - volume_min m) ≠ 0.
Proof.
  intros Hc blocks m. unfold m, AlsaMixer_new, discover_controls. rewrite Hc.
  pose proof (fold_lowest volume_block blocks) as Hl. change (fold_left _ blocks None) with (find_playback_volume contents) in Hl.
  pose proof (find_switch_lowest contents) as Hsw. fold blocks in Hsw.
  destruct (find_playback_volume contents) as [[n [lo hi]]|]; simpl in Hl |- *.
  - destruct Hl as [(b & Hb & Hv) Hmin]. destruct (volume_block_range _ _ _ _ Hv) as [Hlo Hhi].
    split_and!; [|done|done|..].
    + intros b' n' r Hb' Hv'. exists b, n. split_and!; [done|done|by eapply Hmin|]. exists hi. split; [done|].
      intros Hlt. by rewrite (proj2 (Z.ltb_lt _ _) Hlt).
    + case_match; [done|apply as_i_range; lia].
    + case_match eqn:E; [apply Z.ltb_lt in E|]; unfold as_i in *; unfold in_i in *; Z.div_mod_to_equations; lia.
  - split_and!; [|done|range|range|done]. intros b n r Hb Hv. rewrite (Hl b Hb) in Hv. done.
Qed.

(** The 32-bit arithmetic of the scaling overflows on a control with more than
    21,474,835 steps: full volume is turned into a value below the range. *)
Theorem scaling_overflows max :
  21474836 ≤ max < 42949672 → scale_level_to_raw 100 0 max < 0.
Proof.
  intros Hm. unfold scale_level_to_raw. rewrite Z.min_l by lia.
  rewrite (as_i_id 32 (max - 0)) by range.
  assert (as_i 32 (as_i 32 (100 * (max - 0)) + 50) = 100 * max + 50 - 2 ^ 32) as ->.
  { unfold as_i. change (2 ^ (32 - 1)) with 2147483648. change (2 ^ 32) with 4294967296.
    Z.div_mod_to_equations. lia. }
  set (n := 4294967246 - 100 * max). assert (146 ≤ n < 2147483648) by lia.
  replace (100 * max + 50 - 2 ^ 32) with (- n) by lia. rewrite Z.quot_opp_l by lia.
  assert (1 ≤ Z.quot n 100 ≤ n).
  { rewrite Z.quot_div_nonneg by lia. split; [apply Z.div_le_lower_bound|apply Z.div_le_upper_bound]; lia. }
  rewrite as_i_id; [lia|lia|range].
Qed.

(** ** Witnesses *)

(** What a USB DAC prints. *)
Definition smsl_contents : string :=
"numid=1,iface=PCM,name='Playback Channel Map'
  ; type=INTEGER,access=r--v-R--,values=2,min=0,max=36,step=0
  : values=0,0
numid=2,iface=MIXER,name='SMSL USB AUDIO  Playback Switch'
  ; type=BOOLEAN,access=rw------,values=2
  : values=on,on
numid=4,iface=MIXER,name='SMSL USB AUDIO  Playback Volume'
  ; type=INTEGER,access=rw---R--,values=2,min=-127,max=0,step=0
  : values=0,0
".

Definition smsl_control (raw : string) : string :=
("numid=4,iface=MIXER,name='SMSL USB AUDIO  Playback Volume'
  ; type=INTEGER,access=rw---R--,values=2,min=-127,max=0,step=0
  : values=" ++ raw ++ "," ++ raw ++ "
")%string.

Definition smsl_amixer (call : AmixerCall) : option string :=
  match call with
  | Contents => Some smsl_contents
  | Cset _ _ => Some EmptyString
  | Cget _ => Some (smsl_control "-63")
  end.

Lemma smsl_mixer : AlsaMixer_new smsl_amixer 1 = mkMixer 1 (Some 4) (-127) 0 (Some 2).
Proof. vm_compute. reflexivity. Qed.

Lemma level_scaling_witness :
  scale_level_to_raw 50 (-127) 0 = -63 ∧ -63 ≤ scale_level_to_raw 70 (-127) 0.
Proof.
  assert (scale_level_to_raw 50 (-127) 0 = -63) as E by (vm_compute; reflexivity).
  split; [exact E|]. rewrite <- E.
  refine (proj1 (proj2 (proj2 (level_scaling (-127) 0 50 70 _ _ _ _ _))));
    vm_compute; try split; reflexivity || discriminate.
Defined.

Lemma volume_set_reads_back_witness :
  (mixer_set_volume smsl_amixer (AlsaMixer_new smsl_amixer 1) 50).2 = [Cset "numid=4" "-63"] ∧
  get_volume smsl_amixer (AlsaMixer_new smsl_amixer 1) = Some 50.
Proof.
  rewrite smsl_mixer.
  assert ((mixer_set_volume smsl_amixer (mkMixer 1 (Some 4) (-127) 0 (Some 2)) 50).2 = [Cset "numid=4" "-63"])
    as Hset by (vm_compute; reflexivity).
  split; [exact Hset|].
  apply (volume_set_reads_back smsl_amixer (mkMixer 1 (Some 4) (-127) 0 (Some 2)) 4 50 "-63" (smsl_control "-63")
           (take 2 (lines (smsl_control "-63"))) "  : values=-63,-63" "-63" []);
    try (vm_compute; try split; reflexivity || discriminate).
  vm_compute. repeat constructor.
Defined.

Lemma discovery_sound_witness :
  (∀ n, mute_numid (AlsaMixer_new smsl_amixer 1) = Some n ↔
     (∃ b, b ∈ split_str "numid=" smsl_contents ∧ switch_block b = Some (n, tt)) ∧
     ∀ b n', b ∈ split_str "numid=" smsl_contents → switch_block b = Some (n', tt) → n ≤ n') ∧
  mute_numid (AlsaMixer_new smsl_amixer 1) = Some 2.
Proof.
  split; [|vm_compute; reflexivity]. apply (discovery_sound smsl_amixer 1 smsl_contents). reflexivity.
Defined.

Lemma scaling_overflows_witness : scale_level_to_raw 100 0 30000000 < 0.
Proof. apply scaling_overflows. split; vm_compute; reflexivity || discriminate. Defined.
