(* ===== verification/Ffi.v ===== *)
(** * The C interface

    Models [crates/oaat-ffi/src/lib.rs]: the handle a C program holds, the
    events it polls, the strings and buffers handed over to it, the audio
    callback, and the calls as steps on the memory they share.  What C may not
    do (a freed handle, a string freed twice) is undefined behaviour, [None].

    The transport behind a handle is the queue of events it delivers and the
    queue of control messages it takes; starting the runtime and generating an
    identifier are arguments. *)

From S2P Require Import Prelude Text Format Session Wire Message Codec Negotiate EndpointTransport.
From Stdlib Require Import Ascii.

Local Open Scope Z_scope.

(** ** What C sees *)

(** [OaatAudioFormat::from(f)], by the value of the C enumeration. *)
Definition OaatAudioFormat_from (f : AudioFormat) : Z :=
  match f with
  | PcmS16le => 0x01 | PcmS24le => 0x02 | PcmS24le4 => 0x03 | PcmS32le => 0x04 | PcmF32le => 0x05
  | DsdU8 => 0x10 | DsdU16le => 0x11 | DsdU32le => 0x12
  | Flac => 0x20 | Opus => 0x21 | TrueHd => 0x30 | Eac3 => 0x31
  end.

Inductive OaatEventType :=
| EtNone | EtConnected | EtFormatProposed | EtAudio | EtPlay | EtPause | EtStop | EtMetadata | EtDisconnected
| EtVolumeSet | EtVolumeGet | EtVolumeMute | EtFormatAccepted | EtFormatRejected | EtError.

Inductive OaatStatus := StIdle | StConnected | StStreaming | StPaused | StError.

Definition status_code (s : OaatStatus) : Z :=
  match s with StIdle => 0 | StConnected => 1 | StStreaming => 2 | StPaused => 3 | StError => 4 end.

(** Pointers; 0 is NULL. *)
Abbreviation ptr := Z.

(** The union, by its variants. *)
Inductive OaatEventData :=
| DataConnected (controller_id controller_name : ptr)
| DataFormatProposed (stream_id : ptr) (format sample_rate channels bits_per_sample : Z)
| DataAudio (data : ptr) (len format sequence pts_ns sample_offset : Z)
| DataPlayback (stream_id : ptr)
| DataMetadata (title artist album : ptr) (duration_ms : Z)
| DataVolume (level : Z) (muted : bool)
| DataFormatRejected (stream_id reason : ptr)
| DataError (message : ptr).

Record OaatEvent := mkEvent { event_type : OaatEventType; event_data : OaatEventData }.

(** ** State *)

(** What Rust allocated and gave away; addresses are not used twice. *)
Record CHeap := mkHeap { h_next : ptr; h_strings : gmap ptr string; h_buffers : gmap ptr (list Z) }.

(** One call of the audio callback. *)
Record CallbackCall := mkCallback {
  cc_callback : ptr;
  cc_data : list Z;
  cc_format : Z;
  cc_sample_rate : Z;
  cc_channels : Z;
  cc_user_data : ptr
}.

Record AudioCallbackState := mkCallbackState {
  acs_callback : option ptr;
  acs_user_data : ptr;
  acs_sample_rate : Z;
  acs_channels : Z
}.

Record OaatEndpoint := mkEndpoint {
  event_rx : list EndpointEvent;
  control_tx : list Message;
  audio_cb : AudioCallbackState;
  ep_status : Z
}.

Definition CONTROL_CAPACITY : nat := 64.

Definition set_events (ep : OaatEndpoint) (q : list EndpointEvent) : OaatEndpoint :=
  mkEndpoint q (control_tx ep) (audio_cb ep) (ep_status ep).
Definition set_callback_state (ep : OaatEndpoint) (cb : AudioCallbackState) : OaatEndpoint :=
  mkEndpoint (event_rx ep) (control_tx ep) cb (ep_status ep).
Definition set_status (ep : OaatEndpoint) (s : OaatStatus) : OaatEndpoint :=
  mkEndpoint (event_rx ep) (control_tx ep) (audio_cb ep) (status_code s).

(** ** Strings and buffers *)

Definition NUL : ascii := "000".

Definition to_c_string (s : string) (h : CHeap) : ptr * CHeap :=
  if char_in NUL s then (0, h)
  else (h_next h, mkHeap (h_next h + 1) (<[h_next h := s]> (h_strings h)) (h_buffers h)).

(** [payload.leak()]: an empty payload leaks nothing, its pointer dangles. *)
Definition leak (payload : list Z) (h : CHeap) : ptr * CHeap :=
  if bool_decide (payload = []) then (1, h)
  else (h_next h, mkHeap (h_next h + 1) (h_strings h) (<[h_next h := payload]> (h_buffers h))).

Definition none_event : OaatEvent := mkEvent EtNone (DataVolume 0 false).

(** ** Conversion of an event *)

Section ffi.
Variable error_to_string : OaatError → string.

Definition convert_event (ep : OaatEndpoint) (event : EndpointEvent) (h : CHeap)
    : OaatEvent * OaatEndpoint * list CallbackCall * CHeap :=
  match event with
  | EvConnected controller_id controller_name =>
      let '(p, h) := to_c_string controller_id h in
      let '(q, h) := to_c_string controller_name h in
      (mkEvent EtConnected (DataConnected p q), set_status ep StConnected, [], h)
  | EvFormatProposed fp =>
      let cb := audio_cb ep in
      let ep := set_callback_state ep
                  (mkCallbackState (acs_callback cb) (acs_user_data cb) (fp_sample_rate fp) (fp_channels fp)) in
      let '(p, h) := to_c_string (fp_stream_id fp) h in
      (mkEvent EtFormatProposed
         (DataFormatProposed p (OaatAudioFormat_from (fp_format fp)) (fp_sample_rate fp) (fp_channels fp)
            (fp_bits_per_sample fp)), ep, [], h)
  | EvFormatAccepted stream_id =>
      let '(p, h) := to_c_string stream_id h in
      (mkEvent EtFormatAccepted (DataPlayback p), set_status ep StStreaming, [], h)
  | EvFormatRejected stream_id reason =>
      let '(p, h) := to_c_string stream_id h in
      let '(q, h) := to_c_string reason h in
      (mkEvent EtFormatRejected (DataFormatRejected p q), ep, [], h)
  | EvAudioPacket header payload =>
      let cb := audio_cb ep in
      let calls :=
        match acs_callback cb with
        | Some callback =>
            [mkCallback callback payload (OaatAudioFormat_from (format header)) (acs_sample_rate cb)
               (acs_channels cb) (acs_user_data cb)]
        | None => []
        end in
      let '(p, h) := leak payload h in
      (mkEvent EtAudio
         (DataAudio p (Z.of_nat (length payload)) (OaatAudioFormat_from (format header)) (sequence header)
            (pts_ns header) (sample_offset header)), ep, calls, h)
  | EvPlayback cmd =>
      let '(ty, stream_id, ep) :=
        match cmd with
        | CmdPlay s => (EtPlay, s, set_status ep StStreaming)
        | CmdPause s => (EtPause, s, set_status ep StPaused)
        | CmdStop s => (EtStop, s, set_status ep StConnected)
        | CmdSeek s _ => (EtPlay, s, ep)
        end in
      let '(p, h) := to_c_string stream_id h in
      (mkEvent ty (DataPlayback p), ep, [], h)
  | EvMetadata m =>
      let '(p, h) := to_c_string (title (md_track m)) h in
      let '(q, h) := to_c_string (artist (md_track m)) h in
      let '(r, h) := to_c_string (album (md_track m)) h in
      (mkEvent EtMetadata (DataMetadata p q r (duration_ms (md_track m))), ep, [], h)
  | EvVolume (VolSet level) => (mkEvent EtVolumeSet (DataVolume level false), ep, [], h)
  | EvVolume VolGet => (mkEvent EtVolumeGet (DataVolume 0 false), ep, [], h)
  | EvVolume (VolMute muted) => (mkEvent EtVolumeMute (DataVolume 0 muted), ep, [], h)
  | EvDisconnected => (mkEvent EtDisconnected (DataVolume 0 false), set_status ep StIdle, [], h)
  | EvError e =>
      let '(p, h) := to_c_string (error_to_string e) h in
      (mkEvent EtError (DataError p), set_status ep StError, [], h)
  | EvNextTrackReady _ | EvNextTrackReformat _ _ _ | EvZoneAssigned _ | EvZoneUpdated _ _ | EvZoneReleased _ =>
      (none_event, ep, [], h)
  end.

(** ** The calls *)

(** [port + n] in 16 bits, wrapping. *)
Definition ffi_port (port n : Z) : Z := if port =? 0 then 0 else wrapping_add 16 port n.

Definition ffi_capabilities : EndpointCapabilities :=
  mkCapabilities 768000 32 (Some 256) 8
    [PcmS16le; PcmS24le; PcmS24le4; PcmS32le; PcmF32le; DsdU8; DsdU16le; DsdU32le; Flac] None true true.

Definition ffi_config (endpoint_id name : string) (port : Z) : EndpointConfig :=
  mkEndpointConfig endpoint_id name ffi_capabilities (ffi_port port 1) (ffi_port port 2) 200 false.

(** The memory a C program shares with the library. *)
Record CState := mkC { c_heap : CHeap; c_endpoints : gmap ptr OaatEndpoint; c_calls : list CallbackCall }.

Inductive CCall :=
| oaat_endpoint_new (name : option (option string)) (port : Z)
| oaat_endpoint_free (ep : ptr)
| oaat_endpoint_poll_event (ep : ptr) (timeout_ms : Z)
| oaat_endpoint_set_audio_callback (ep : ptr) (callback : option ptr) (user_data : ptr)
| oaat_endpoint_set_volume (ep : ptr) (level : Z)
| oaat_endpoint_get_status (ep : ptr)
| oaat_string_free (s : ptr).

Inductive CReturn :=
| RetVoid
| RetHandle (ep : ptr) (config : option EndpointConfig)
| RetEvent (e : OaatEvent)
| RetStatus (s : OaatStatus).

Definition status_of_code (code : Z) : OaatStatus :=
  if code =? 0 then StIdle else if code =? 1 then StConnected else if code =? 2 then StStreaming
  else if code =? 3 then StPaused else StError.

(** The event a poll takes: one already queued, or within the timeout the
    first to arrive. *)
Definition poll_queue (ep : OaatEndpoint) (timeout_ms : Z) (arriving : list EndpointEvent)
    : option EndpointEvent * list EndpointEvent :=
  let queue := if timeout_ms =? 0 then event_rx ep else event_rx ep ++ arriving in
  match queue with e :: rest => (Some e, rest) | [] => (None, []) end.

(** A handle is NULL, live, or undefined behaviour. *)
Definition with_endpoint (c : CState) (p : ptr) (null : CReturn)
    (k : OaatEndpoint → CState * CReturn) : option (CState * CReturn) :=
  if p =? 0 then Some (c, null) else ep ← c_endpoints c !! p; Some (k ep).

Definition put_endpoint (c : CState) (p : ptr) (ep : OaatEndpoint) : CState :=
  mkC (c_heap c) (<[p := ep]> (c_endpoints c)) (c_calls c).

(** [started]: the runtime and the identifier of a new endpoint. *)
Definition c_endpoint_new (c : CState) (name : option (option string)) (port : Z) (started : option string)
    : CState * CReturn :=
  match name, started with
  | Some (Some name), Some id =>
      let h := c_heap c in
      let p := h_next h in
      let ep := mkEndpoint [] [] (mkCallbackState None 0 0 0) (status_code StIdle) in
      (mkC (mkHeap (p + 1) (h_strings h) (h_buffers h)) (<[p := ep]> (c_endpoints c)) (c_calls c),
       RetHandle p (Some (ffi_config id name port)))
  | _, _ => (c, RetHandle 0 None)
  end.

Definition c_endpoint_free (c : CState) (p : ptr) : option (CState * CReturn) :=
  with_endpoint c p RetVoid (λ _, (mkC (c_heap c) (delete p (c_endpoints c)) (c_calls c), RetVoid)).

(** [arriving] is what the transport delivers during the call. *)
Definition c_poll_event (c : CState) (p : ptr) (timeout_ms : Z) (arriving : list EndpointEvent)
    : option (CState * CReturn) :=
  with_endpoint c p (RetEvent none_event) (λ ep,
    match poll_queue ep timeout_ms arriving with
    | (None, _) => (c, RetEvent none_event)
    | (Some e, rest) =>
        let '(ev, ep, calls, h) := convert_event (set_events ep rest) e (c_heap c) in
        (mkC h (<[p := ep]> (c_endpoints c)) (c_calls c ++ calls), RetEvent ev)
    end).

Definition c_set_audio_callback (c : CState) (p : ptr) (callback : option ptr) (user_data : ptr)
    : option (CState * CReturn) :=
  with_endpoint c p RetVoid (λ ep,
    let cb := audio_cb ep in
    (put_endpoint c p
       (set_callback_state ep (mkCallbackState callback user_data (acs_sample_rate cb) (acs_channels cb))), RetVoid)).

Definition c_set_volume (c : CState) (p : ptr) (level : Z) : option (CState * CReturn) :=
  with_endpoint c p RetVoid (λ ep,
    (put_endpoint c p
       (if (length (control_tx ep) <? CONTROL_CAPACITY)%nat
        then mkEndpoint (event_rx ep) (control_tx ep ++ [MVolumeReport (mkVolumeReport level false)])
               (audio_cb ep) (ep_status ep)
        else ep), RetVoid)).

Definition c_get_status (c : CState) (p : ptr) : option (CState * CReturn) :=
  with_endpoint c p (RetStatus StError) (λ ep, (c, RetStatus (status_of_code (ep_status ep)))).

Definition c_string_free (c : CState) (p : ptr) : option (CState * CReturn) :=
  if p =? 0 then Some (c, RetVoid)
  else match h_strings (c_heap c) !! p with
       | None => None
       | Some _ =>
           Some (mkC (mkHeap (h_next (c_heap c)) (delete p (h_strings (c_heap c))) (h_buffers (c_heap c)))
                   (c_endpoints c) (c_calls c), RetVoid)
       end.

(** A call of the interface; [None] is undefined behaviour. *)
Definition c_step (c : CState) (call : CCall) (arriving : list EndpointEvent) (started : option string)
    : option (CState * CReturn) :=
  match call with
  | oaat_endpoint_new name port => Some (c_endpoint_new c name port started)
  | oaat_endpoint_free p => c_endpoint_free c p
  | oaat_endpoint_poll_event p timeout_ms => c_poll_event c p timeout_ms arriving
  | oaat_endpoint_set_audio_callback p callback user_data => c_set_audio_callback c p callback user_data
  | oaat_endpoint_set_volume p level => c_set_volume c p level
  | oaat_endpoint_get_status p => c_get_status c p
  | oaat_string_free p => c_string_free c p
  end.

(** The transport between calls puts events on the channel. *)
Definition deliver (c : CState) (p : ptr) (events : list EndpointEvent) : CState :=
  mkC (c_heap c) (alter (λ ep, set_events ep (event_rx ep ++ events)) p (c_endpoints c)) (c_calls c).

End ffi.

Tactic Notation "unfold_call" "in" hyp(H) :=
  unfold c_step, c_endpoint_new, c_endpoint_free, c_poll_event, c_set_audio_callback, c_set_volume, c_get_status,
    c_string_free in H.
Tactic Notation "unfold_call" :=
  unfold c_step, c_endpoint_new, c_endpoint_free, c_poll_event, c_set_audio_callback, c_set_volume, c_get_status,
    c_string_free.

(** ** Specification: what a C program reads

    An event as C reads it through its pointers, and what [oaat.h] says it
    reads of each event of the transport: a text with a NUL inside is NULL. *)
Record CView := mkView {
  v_type : OaatEventType;
  v_strings : list (option string);
  v_numbers : list Z;
  v_bytes : list Z
}.

Definition c_text (s : string) : option string := if char_in NUL s then None else Some s.

Definition strings_of (d : OaatEventData) : list ptr :=
  match d with
  | DataConnected p q | DataFormatRejected p q => [p; q]
  | DataFormatProposed p _ _ _ _ | DataPlayback p | DataError p => [p]
  | DataMetadata p q r _ => [p; q; r]
  | DataAudio _ _ _ _ _ _ | DataVolume _ _ => []
  end.

Definition numbers_of (d : OaatEventData) : list Z :=
  match d with
  | DataFormatProposed _ f r c b => [f; r; c; b]
  | DataAudio _ _ f s t o => [f; s; t; o]
  | DataMetadata _ _ _ d => [d]
  | DataVolume l m => [l; Z.b2z m]
  | _ => []
  end.

Definition read_string (h : CHeap) (p : ptr) : option string := if p =? 0 then None else h_strings h !! p.

Definition read_bytes (h : CHeap) (d : OaatEventData) : list Z :=
  match d with
  | DataAudio p len _ _ _ _ => take (Z.to_nat len) (default [] (h_buffers h !! p))
  | _ => []
  end.

(** The header gives no data to the types NONE, DISCONNECTED and VOLUME_GET. *)
Definition read_numbers (e : OaatEvent) : list Z :=
  match event_type e with
  | EtNone | EtDisconnected | EtVolumeGet => []
  | _ => numbers_of (event_data e)
  end.

Definition read_event (h : CHeap) (e : OaatEvent) : CView :=
  mkView (event_type e) (read_string h <$> strings_of (event_data e)) (read_numbers e)
    (read_bytes h (event_data e)).

(** What the header describes: the type of an event and the fields of the
    member of the union for that type. It has no type for a seek, for the next
    track and for the zone. *)
Definition header_view (error_to_string : OaatError → string) (e : EndpointEvent) : option CView :=
  match e with
  | EvConnected i n => Some (mkView EtConnected (c_text <$> [i; n]) [] [])
  | EvFormatProposed fp =>
      Some (mkView EtFormatProposed [c_text (fp_stream_id fp)]
              [wire_id (fp_format fp); fp_sample_rate fp; fp_channels fp; fp_bits_per_sample fp] [])
  | EvFormatAccepted s => Some (mkView EtFormatAccepted [c_text s] [] [])
  | EvFormatRejected s r => Some (mkView EtFormatRejected (c_text <$> [s; r]) [] [])
  | EvAudioPacket h p => Some (mkView EtAudio [] [wire_id (format h); sequence h; pts_ns h; sample_offset h] p)
  | EvPlayback (CmdPlay s) => Some (mkView EtPlay [c_text s] [] [])
  | EvPlayback (CmdPause s) => Some (mkView EtPause [c_text s] [] [])
  | EvPlayback (CmdStop s) => Some (mkView EtStop [c_text s] [] [])
  | EvMetadata m =>
      Some (mkView EtMetadata (c_text <$> [title (md_track m); artist (md_track m); album (md_track m)])
              [duration_ms (md_track m)] [])
  | EvVolume (VolSet l) => Some (mkView EtVolumeSet [] [l; 0] [])
  | EvVolume VolGet => Some (mkView EtVolumeGet [] [] [])
  | EvVolume (VolMute m) => Some (mkView EtVolumeMute [] [0; Z.b2z m] [])
  | EvDisconnected => Some (mkView EtDisconnected [] [] [])
  | EvError e => Some (mkView EtError [c_text (error_to_string e)] [] [])
  | EvPlayback (CmdSeek _ _) => None
  | EvNextTrackReady _ | EvNextTrackReformat _ _ _ | EvZoneAssigned _ | EvZoneUpdated _ _ | EvZoneReleased _ => None
  end.

(** How an event shows in C: as the header says; a seek, for which it has no
    type, as PLAY without the position; the others without a type as NONE,
    which the header documents as the end of the timeout. *)
Inductive shows (error_to_string : OaatError → string) : EndpointEvent → CView → Prop :=
| shows_documented e v : header_view error_to_string e = Some v → shows error_to_string e v
| shows_seek s pos : shows error_to_string (EvPlayback (CmdSeek s pos)) (mkView EtPlay [c_text s] [] [])
| shows_nothing e : header_view error_to_string e = None → (∀ s pos, e ≠ EvPlayback (CmdSeek s pos)) →
    shows error_to_string e (mkView EtNone [] [] []).

Definition event_view (error_to_string : OaatError → string) (e : EndpointEvent) : CView :=
  match header_view error_to_string e, e with
  | Some v, _ => v
  | None, EvPlayback (CmdSeek s _) => mkView EtPlay [c_text s] [] []
  | None, _ => mkView EtNone [] [] []
  end.

(** The buffers an event leaves behind. *)
Definition leaks (e : EndpointEvent) : nat :=
  match e with EvAudioPacket _ (_ :: _) => 1 | _ => 0 end.

(** The callbacks due for a run of events. *)
Fixpoint callbacks_due (cb : AudioCallbackState) (q : list EndpointEvent) : list CallbackCall :=
  match q with
  | [] => []
  | EvFormatProposed fp :: q =>
      callbacks_due (mkCallbackState (acs_callback cb) (acs_user_data cb) (fp_sample_rate fp) (fp_channels fp)) q
  | EvAudioPacket h p :: q =>
      (match acs_callback cb with
       | Some f => [mkCallback f p (wire_id (format h)) (acs_sample_rate cb) (acs_channels cb) (acs_user_data cb)]
       | None => []
       end) ++ callbacks_due cb q
  | _ :: q => callbacks_due cb q
  end.

(** The status after a run of events. *)
Definition next_status (s : OaatStatus) (e : EndpointEvent) : OaatStatus :=
  match e with
  | EvConnected _ _ => StConnected
  | EvFormatAccepted _ | EvPlayback (CmdPlay _) => StStreaming
  | EvPlayback (CmdPause _) => StPaused
  | EvPlayback (CmdStop _) => StConnected
  | EvDisconnected => StIdle
  | EvError _ => StError
  | _ => s
  end.

(** A C program that frees the strings of an event once it has read them. *)
Section client.
Variable error_to_string : OaatError → string.

Fixpoint free_all (c : CState) (ps : list ptr) : option CState :=
  match ps with
  | [] => Some c
  | p :: ps => '(c, _) ← c_step error_to_string c (oaat_string_free p) [] None; free_all c ps
  end.

Definition poll_and_free (c : CState) (p : ptr) : option (CState * CView) :=
  match c_step error_to_string c (oaat_endpoint_poll_event p 0) [] None with
  | Some (c, RetEvent ev) => c' ← free_all c (strings_of (event_data ev)); Some (c', read_event (c_heap c) ev)
  | _ => None
  end.

Fixpoint poll_loop (n : nat) (c : CState) (p : ptr) : option (CState * list CView) :=
  match n with
  | O => Some (c, [])
  | S n => '(c, v) ← poll_and_free c p; '(c, vs) ← poll_loop n c p; Some (c, v :: vs)
  end.

End client.

(** ** Well-formed memory

    Every live address has been given out, none is NULL or the dangling
    address of an empty payload, and none is a string, a buffer or a handle at
    the same time as another of these. *)
Record heap_wf (h : CHeap) : Prop := {
  wf_next : 1 < h_next h;
  wf_strings p : is_Some (h_strings h !! p) → 1 < p < h_next h;
  wf_buffers p : is_Some (h_buffers h !! p) → 1 < p < h_next h;
  wf_disjoint p : is_Some (h_strings h !! p) → is_Some (h_buffers h !! p) → False
}.

Record c_wf (c : CState) : Prop := {
  cw_heap : heap_wf (c_heap c);
  cw_handles p : is_Some (c_endpoints c !! p) → 1 < p < h_next (c_heap c);
  cw_disjoint p : is_Some (c_endpoints c !! p) →
    h_strings (c_heap c) !! p = None ∧ h_buffers (c_heap c) !! p = None;
  cw_status p ep : c_endpoints c !! p = Some ep → ∃ s, ep_status ep = status_code s;
  cw_control p ep : c_endpoints c !! p = Some ep → (length (control_tx ep) ≤ CONTROL_CAPACITY)%nat
}.

(** The addresses in use, and those a call hands out. *)
Definition live (c : CState) (p : ptr) : Prop :=
  is_Some (h_strings (c_heap c) !! p) ∨ is_Some (h_buffers (c_heap c) !! p) ∨ is_Some (c_endpoints c !! p).

Definition payload_of (d : OaatEventData) : list ptr :=
  match d with DataAudio p _ _ _ _ _ => [p] | _ => [] end.

Definition handed_out (r : CReturn) : list ptr :=
  match r with
  | RetHandle p _ => [p]
  | RetEvent e => strings_of (event_data e) ++ payload_of (event_data e)
  | RetVoid | RetStatus _ => []
  end.

(** ** Lemmas: memory *)

Lemma heap_wf_advance h : heap_wf h → heap_wf (mkHeap (h_next h + 1) (h_strings h) (h_buffers h)).
Proof. intros [Hn Hs Hb Hd]. constructor; simpl; [lia|intros p ?%Hs; lia|intros p ?%Hb; lia|done]. Qed.

Lemma heap_wf_string h s :
  heap_wf h → heap_wf (mkHeap (h_next h + 1) (<[h_next h := s]> (h_strings h)) (h_buffers h)).
Proof.
  intros [Hn Hs Hb Hd]. constructor; simpl; [lia| |intros p ?%Hb; lia|];
    intros p; destruct (decide (p = h_next h)) as [->|]; rewrite ?lookup_insert_ne by done.
  - lia.
  - intros ?%Hs. lia.
  - intros _ ?%Hb. lia.
  - apply Hd.
Qed.

Lemma heap_wf_buffer h b :
  heap_wf h → heap_wf (mkHeap (h_next h + 1) (h_strings h) (<[h_next h := b]> (h_buffers h))).
Proof.
  intros [Hn Hs Hb Hd]. constructor; simpl; [lia|intros p ?%Hs; lia| |];
    intros p; destruct (decide (p = h_next h)) as [->|]; rewrite ?lookup_insert_ne by done.
  - lia.
  - intros ?%Hb. lia.
  - intros ?%Hs. lia.
  - apply Hd.
Qed.

(** Fewer strings. *)
Lemma heap_wf_forget h n strs :
  heap_wf h → h_next h ≤ n → (∀ p, is_Some (strs !! p) → is_Some (h_strings h !! p)) →
  heap_wf (mkHeap n strs (h_buffers h)).
Proof.
  intros [Hn Hs Hb Hd] Hle Hsub. constructor; simpl; [lia|intros p ?%Hsub%Hs; lia|intros p ?%Hb; lia|].
  intros p ?%Hsub. by apply Hd.
Qed.

Fixpoint alloc_all (l : list string) (h : CHeap) : list ptr * CHeap :=
  match l with
  | [] => ([], h)
  | s :: l => let '(p, h) := to_c_string s h in let '(ps, h) := alloc_all l h in (p :: ps, h)
  end.

(** [ps] are the strings of [l], live in [h'] and new since [h]. *)
Record allocated (h : CHeap) (l : list string) (ps : list ptr) (h' : CHeap) : Prop := {
  al_wf : heap_wf h';
  al_next : h_next h ≤ h_next h';
  al_buffers : h_buffers h' = h_buffers h;
  al_old p : p < h_next h → h_strings h' !! p = h_strings h !! p;
  al_read : read_string h' <$> ps = c_text <$> l;
  al_new p : is_Some (h_strings h' !! p) → h_next h ≤ p → p ∈ ps;
  al_range p : p ∈ ps → p = 0 ∨ h_next h ≤ p < h_next h' ∧ is_Some (h_strings h' !! p);
  al_nodup : NoDup (filter (λ p, p ≠ 0) ps)
}.

Lemma alloc_all_spec l h ps h' : heap_wf h → alloc_all l h = (ps, h') → allocated h l ps h'.
Proof.
  revert h ps. induction l as [|s l IH]; intros h ps Hwf Ha; simpl in Ha.
  - simplify_eq. constructor; try done; [|set_solver|constructor].
    intros p Hp ?. apply (wf_strings _ Hwf) in Hp. lia.
  - unfold to_c_string in Ha. destruct (char_in NUL s) eqn:En.
    + destruct (alloc_all l h) as [ps0 h0] eqn:E. simplify_eq.
      destruct (IH h ps0 Hwf E) as [Hwf' Hnext Hbuf Hold Hread Hnew Hrange Hnodup].
      constructor; try done.
      * rewrite !fmap_cons, Hread. unfold c_text at 2. by rewrite En.
      * intros p ??. right. by apply Hnew.
      * intros p [->|?]%elem_of_cons; [by left|by apply Hrange].
    + set (h1 := mkHeap _ _ _) in Ha. destruct (alloc_all l h1) as [ps0 h0] eqn:E. simplify_eq.
      assert (heap_wf h1) as Hwf1 by (by apply heap_wf_string).
      destruct (IH h1 ps0 Hwf1 E) as [Hwf' Hnext Hbuf Hold Hread Hnew Hrange Hnodup]. simpl in Hnext, Hbuf, Hold, Hnew, Hrange.
      assert (h_strings h' !! h_next h = Some s) as Hs by (rewrite Hold by lia; apply lookup_insert_eq).
      destruct Hwf as [Hn Hst Hb _].
      constructor; try done.
      * lia.
      * intros p Hp. rewrite Hold by lia. apply lookup_insert_ne. lia.
      * rewrite !fmap_cons, Hread. unfold read_string. rewrite (proj2 (Z.eqb_neq _ _)) by lia. rewrite Hs.
        unfold c_text at 2. by rewrite En.
      * intros p Hp Hle. destruct (decide (p = h_next h)) as [->|]; [by left|right]. apply Hnew; [done|lia].
      * intros p [->|Hp]%elem_of_cons; [right; split; [simpl in Hnext; lia|by exists s]|].
        destruct (Hrange p Hp) as [|[? ?]]; [by left|right; split; [lia|done]].
      * rewrite filter_cons_True by lia. constructor; [|done].
        intros [_ Hp]%list_elem_of_filter. destruct (Hrange _ Hp) as [|[? _]]; lia.
Qed.

Section client_lemmas.
Variable error_to_string : OaatError → string.

Lemma free_all_strings c ps :
  (∀ p, p ∈ ps → p = 0 ∨ is_Some (h_strings (c_heap c) !! p)) → NoDup (filter (λ p, p ≠ 0) ps) →
  ∃ strs, free_all error_to_string c ps =
      Some (mkC (mkHeap (h_next (c_heap c)) strs (h_buffers (c_heap c))) (c_endpoints c) (c_calls c)) ∧
    ∀ q, strs !! q = if decide (q ∈ ps ∧ q ≠ 0) then None else h_strings (c_heap c) !! q.
Proof.
  revert c. induction ps as [|p ps IH]; intros c Hps Hnd.
  - exists (h_strings (c_heap c)). split; [by destruct c as [[]]|]. intros q. rewrite decide_False; set_solver.
  - cbn [free_all]. unfold_call. destruct (Z.eqb_spec p 0) as [->|Hp]; simpl.
    + rewrite filter_cons_False in Hnd by naive_solver.
      destruct (IH c) as (strs & -> & Hs); [set_solver|done|]. exists strs. split; [done|]. intros q.
      rewrite Hs. do 2 case_decide; set_solver.
    + rewrite filter_cons_True in Hnd by done. apply NoDup_cons in Hnd as [Hnin Hnd].
      destruct (Hps p) as [?|[s Hs]]; [by left|done|]. rewrite Hs. simpl.
      set (c1 := mkC _ _ _). destruct (IH c1) as (strs & -> & Hstrs); [|done|].
      { intros q Hq. destruct (Hps q) as [?|Hsome]; [by right|by left|right]. simpl.
        rewrite lookup_delete_ne; [done|]. intros <-. apply Hnin. by apply list_elem_of_filter. }
      exists strs. split; [done|]. intros q. rewrite Hstrs. simpl.
      destruct (decide (q = p)) as [->|Hqp].
      * rewrite lookup_delete_eq.
        do 2 case_decide; set_solver.
      * rewrite lookup_delete_ne by done. do 2 case_decide; set_solver.
Qed.

(** Freeing what an event allocated restores the strings. *)
Lemma free_allocated c h l ps :
  heap_wf h → allocated h l ps (c_heap c) →
  free_all error_to_string c ps =
    Some (mkC (mkHeap (h_next (c_heap c)) (h_strings h) (h_buffers (c_heap c))) (c_endpoints c) (c_calls c)).
Proof.
  intros Hwf [_ _ _ Hold _ Hnew Hrange Hnodup].
  destruct (free_all_strings c ps) as (strs & -> & Hs); [|done|].
  { intros p Hp. destruct (Hrange p Hp) as [|[]]; auto. }
  do 3 f_equal. apply map_eq. intros q. rewrite Hs. destruct (decide (q < h_next h)) as [Hq|Hq].
  - rewrite decide_False; [by apply Hold|]. intros [Hin ?]. destruct (Hrange q Hin); lia.
  - destruct (h_strings h !! q) as [s|] eqn:E.
    + assert (1 < q < h_next h) by (apply (wf_strings _ Hwf); by exists s). lia.
    + case_decide as Hd; [done|]. destruct (h_strings (c_heap c) !! q) as [s|] eqn:E'; [|done].
      destruct Hd. assert (q ∈ ps) as Hin by (apply Hnew; [by exists s|lia]). split; [done|].
      intros ->. pose proof (wf_next _ Hwf). lia.
Qed.

(** The buffers of [h0] are those of [h], and the payload in [ps]. *)
Record leaked (h h0 : CHeap) (ps : list ptr) : Prop := {
  lk_next : h_next h ≤ h_next h0;
  lk_old p : p < h_next h → h_buffers h0 !! p = h_buffers h !! p;
  lk_range p : p ∈ ps → p = 1 ∨ h_next h ≤ p < h_next h0 ∧ is_Some (h_buffers h0 !! p)
}.

Lemma leaked_nothing h : leaked h h [].
Proof. constructor; [done..|]. intros p []%elem_of_nil. Qed.

Lemma leaked_buffer h b :
  leaked h (mkHeap (h_next h + 1) (h_strings h) (<[h_next h := b]> (h_buffers h))) [h_next h].
Proof.
  constructor; simpl; [lia| |].
  - intros p Hp. apply lookup_insert_ne. lia.
  - intros p ->%list_elem_of_singleton. right. split; [lia|]. rewrite lookup_insert_eq. by eexists.
Qed.

(** The strings of an event are those it was given, in order; its other data
    do not depend on the heap; a payload is one buffer. *)
Lemma convert_event_spec ep e h ev ep' calls h' :
  heap_wf h → convert_event error_to_string ep e h = (ev, ep', calls, h') →
  ∃ l h0, allocated h0 l (strings_of (event_data ev)) h' ∧ heap_wf h0 ∧
    h_strings h0 = h_strings h ∧ leaked h h0 (payload_of (event_data ev)) ∧
    size (h_buffers h0) = (size (h_buffers h) + leaks e)%nat ∧
    read_event h' ev = event_view error_to_string e ∧
    event_rx ep' = event_rx ep ∧ control_tx ep' = control_tx ep ∧
    (∀ s, ep_status ep = status_code s → ep_status ep' = status_code (next_status s e)) ∧
    (∀ q, calls ++ callbacks_due (audio_cb ep') q = callbacks_due (audio_cb ep) (e :: q)).
Proof.
  intros Hwf Hc.
  assert (∀ l ps, alloc_all l h = (ps, h') → strings_of (event_data ev) = ps →
    mkView (event_type ev) (c_text <$> l) (read_numbers ev) [] = event_view error_to_string e →
    read_bytes h' (event_data ev) = [] → leaks e = 0%nat → payload_of (event_data ev) = [] →
    event_rx ep' = event_rx ep → control_tx ep' = control_tx ep →
    (∀ s, ep_status ep = status_code s → ep_status ep' = status_code (next_status s e)) →
    (∀ q, calls ++ callbacks_due (audio_cb ep') q = callbacks_due (audio_cb ep) (e :: q)) →
    ∃ l h0, allocated h0 l (strings_of (event_data ev)) h' ∧ heap_wf h0 ∧
      h_strings h0 = h_strings h ∧ leaked h h0 (payload_of (event_data ev)) ∧
      size (h_buffers h0) = (size (h_buffers h) + leaks e)%nat ∧
      read_event h' ev = event_view error_to_string e ∧
      event_rx ep' = event_rx ep ∧ control_tx ep' = control_tx ep ∧
      (∀ s, ep_status ep = status_code s → ep_status ep' = status_code (next_status s e)) ∧
      (∀ q, calls ++ callbacks_due (audio_cb ep') q = callbacks_due (audio_cb ep) (e :: q))) as Hk.
  { intros l ps Ha <- Hv Hb Hl -> ????. pose proof (alloc_all_spec l h _ _ Hwf Ha) as Hal.
    exists l, h. split_and!; try done; [by apply leaked_nothing|lia|]. unfold read_event. by rewrite Hb, (al_read _ _ _ _ Hal). }
  destruct e as [i n|fp|sid|sid r|hd payload|cmd|m|cmd|sid|sid f r|z|z l|z| |e]; cbn [convert_event] in Hc.
  - destruct (to_c_string i h) as [p h1] eqn:E1, (to_c_string n h1) as [q h2] eqn:E2. simplify_eq.
    apply (Hk [i; n] [p; q]); try done. simpl. by rewrite E1, E2.
  - destruct (to_c_string (fp_stream_id fp) h) as [p h1] eqn:E1. simplify_eq.
    apply (Hk [fp_stream_id fp] [p]); try done. simpl. by rewrite E1.
  - destruct (to_c_string sid h) as [p h1] eqn:E1. simplify_eq.
    apply (Hk [sid] [p]); try done. simpl. by rewrite E1.
  - destruct (to_c_string sid h) as [p h1] eqn:E1, (to_c_string r h1) as [q h2] eqn:E2. simplify_eq.
    apply (Hk [sid; r] [p; q]); try done. simpl. by rewrite E1, E2.
  - clear Hk. destruct (leak payload h) as [p h1] eqn:E. simplify_eq. exists [], h'.
    unfold leak in E. destruct payload as [|b payload]; simpl in E; simplify_eq; simpl.
    + split_and!; try done; [by apply (alloc_all_spec [] h')|]. constructor; [done..|].
      intros p ->%list_elem_of_singleton. by left.
    + pose proof (heap_wf_buffer h (b :: payload) Hwf) as Hwf'.
      split_and!; try done; [by apply (alloc_all_spec [])|by apply leaked_buffer| |].
      * rewrite map_size_insert_None; [lia|]. destruct (h_buffers h !! h_next h) as [x|] eqn:Ex; [|done].
        pose proof (wf_buffers _ Hwf (h_next h) (ex_intro _ x Ex)). lia.
      * unfold read_event, read_bytes. cbn [event_data event_type h_buffers]. rewrite lookup_insert_eq, Nat2Z.id.
        by rewrite take_ge.
  - destruct cmd as [sid|sid|sid|sid pos]; destruct (to_c_string sid h) as [p h1] eqn:E1; simplify_eq;
      apply (Hk [sid] [p]); try done; simpl; by rewrite E1.
  - destruct (to_c_string (title (md_track m)) h) as [p h1] eqn:E1, (to_c_string (artist (md_track m)) h1) as [q h2] eqn:E2,
      (to_c_string (album (md_track m)) h2) as [r h3] eqn:E3. simplify_eq.
    apply (Hk [title (md_track m); artist (md_track m); album (md_track m)] [p; q; r]); try done.
    simpl. by rewrite E1, E2, E3.
  - destruct cmd; simplify_eq; by apply (Hk [] []).
  - simplify_eq. by apply (Hk [] []).
  - simplify_eq. by apply (Hk [] []).
  - simplify_eq. by apply (Hk [] []).
  - simplify_eq. by apply (Hk [] []).
  - simplify_eq. by apply (Hk [] []).
  - simplify_eq. by apply (Hk [] []).
  - destruct (to_c_string (error_to_string e) h) as [p h1] eqn:E1. simplify_eq.
    apply (Hk [error_to_string e] [p]); try done. simpl. by rewrite E1.
Qed.

Lemma poll_and_free_spec c p ep e q s :
  heap_wf (c_heap c) → p ≠ 0 → c_endpoints c !! p = Some ep → event_rx ep = e :: q → ep_status ep = status_code s →
  ∃ c' ep', poll_and_free error_to_string c p = Some (c', event_view error_to_string e) ∧
    heap_wf (c_heap c') ∧ h_strings (c_heap c') = h_strings (c_heap c) ∧
    size (h_buffers (c_heap c')) = (size (h_buffers (c_heap c)) + leaks e)%nat ∧
    c_endpoints c' = <[p := ep']> (c_endpoints c) ∧
    event_rx ep' = q ∧ control_tx ep' = control_tx ep ∧ ep_status ep' = status_code (next_status s e) ∧
    ∃ calls, c_calls c' = c_calls c ++ calls ∧
      ∀ q', calls ++ callbacks_due (audio_cb ep') q' = callbacks_due (audio_cb ep) (e :: q').
Proof.
  intros Hwf Hp Hep Hq Hst. unfold poll_and_free. unfold_call. unfold with_endpoint.
  rewrite (proj2 (Z.eqb_neq _ _) Hp), Hep. cbn [mbind option_bind]. unfold poll_queue. rewrite Z.eqb_refl, Hq.
  destruct (convert_event error_to_string (set_events ep q) e (c_heap c)) as [[[ev ep'] calls] h'] eqn:E.
  destruct (convert_event_spec _ _ _ _ _ _ _ Hwf E) as (l & h0 & Hal & Hwf0 & Hs0 & Hlk & Hb0 & Hv & Hr & Hct & Hs & Hcb).
  pose proof (free_allocated (mkC h' (<[p:=ep']> (c_endpoints c)) (c_calls c ++ calls)) h0 l _ Hwf0 Hal) as Hfree.
  rewrite Hfree. cbn [mbind option_bind c_heap]. rewrite Hv.
  exists (mkC (mkHeap (h_next h') (h_strings h0) (h_buffers h')) (<[p:=ep']> (c_endpoints c)) (c_calls c ++ calls)), ep'.
  split; [done|]. cbn [c_heap c_endpoints c_calls h_strings h_buffers]. rewrite (al_buffers _ _ _ _ Hal).
  split_and!; try done; [|by apply Hs|by exists calls].
  apply heap_wf_forget; [done|apply (al_next _ _ _ _ Hal)|done].
Qed.

Lemma poll_loop_spec q c p ep rest s :
  heap_wf (c_heap c) → p ≠ 0 → c_endpoints c !! p = Some ep → event_rx ep = q ++ rest → ep_status ep = status_code s →
  ∃ c' ep', poll_loop error_to_string (length q) c p = Some (c', event_view error_to_string <$> q) ∧
    h_strings (c_heap c') = h_strings (c_heap c) ∧
    size (h_buffers (c_heap c')) = (size (h_buffers (c_heap c)) + sum_list (leaks <$> q))%nat ∧
    c_endpoints c' = <[p := ep']> (c_endpoints c) ∧
    event_rx ep' = rest ∧ control_tx ep' = control_tx ep ∧ ep_status ep' = status_code (fold_left next_status q s) ∧
    c_calls c' = c_calls c ++ callbacks_due (audio_cb ep) q.
Proof.
  revert c ep s. induction q as [|e q IH]; intros c ep s Hwf Hp Hep Hq Hst.
  - exists c, ep. simpl in *. rewrite insert_id, app_nil_r by done. split_and!; try done.
  - destruct (poll_and_free_spec c p ep e (q ++ rest) s Hwf Hp Hep Hq Hst)
      as (c1 & ep1 & Hpoll & Hwf1 & Hs1 & Hb1 & He1 & Hr1 & Hct1 & Hst1 & calls & Hc1 & Hcb).
    destruct (IH c1 ep1 (next_status s e) Hwf1 Hp) as (c' & ep' & Hloop & Hs & Hb & He & Hr & Hct & Hst' & Hc); try done.
    { rewrite He1. apply lookup_insert_eq. }
    exists c', ep'. cbn [length poll_loop]. rewrite Hpoll. cbn [mbind option_bind]. rewrite Hloop. cbn [mbind option_bind].
    rewrite fmap_cons. split_and!; try done.
    + by rewrite Hs.
    + rewrite Hb, Hb1. rewrite fmap_cons. simpl. lia.
    + rewrite He, He1. by rewrite insert_insert_eq.
    + by rewrite Hct.
    + rewrite Hc, Hc1, <- (Hcb q). by rewrite app_assoc.
Qed.

End client_lemmas.

(** ** The calls keep the memory well formed *)

(** What [h'] adds to [h] is above it. *)
Record heap_extends (h h' : CHeap) : Prop := {
  he_next : h_next h ≤ h_next h';
  he_strings p : p < h_next h → h_strings h' !! p = h_strings h !! p;
  he_buffers p : p < h_next h → h_buffers h' !! p = h_buffers h !! p
}.

Lemma heap_extends_allocated h h0 l ps qs h' :
  leaked h h0 qs → h_strings h0 = h_strings h → allocated h0 l ps h' → heap_extends h h'.
Proof.
  intros [Hn Hb _] Hs Hal. pose proof (al_next _ _ _ _ Hal). constructor; [lia| |].
  - intros p Hp. rewrite (al_old _ _ _ _ Hal p), Hs by lia. done.
  - intros p Hp. rewrite (al_buffers _ _ _ _ Hal). by apply Hb.
Qed.

Lemma c_wf_put c p ep h calls :
  c_wf c → heap_wf h → heap_extends (c_heap c) h →
  h_strings h !! p = None → h_buffers h !! p = None → 1 < p < h_next h →
  (∃ s, ep_status ep = status_code s) → (length (control_tx ep) ≤ CONTROL_CAPACITY)%nat →
  c_wf (mkC h (<[p := ep]> (c_endpoints c)) calls).
Proof.
  intros [Hh Hp Hd Hs Hc] Hwf [Hn Hst Hbf] Hps Hpb Hp' Hep Hct.
  constructor; simpl; [done| | | |]; intros q; (destruct (decide (q = p)) as [->|];
    [rewrite ?lookup_insert_eq|rewrite ?lookup_insert_ne by done]).
  - done.
  - intros ?%Hp. lia.
  - done.
  - intros Hq. pose proof (Hp q Hq). rewrite Hst, Hbf by lia. by apply Hd.
  - by intros ? [= <-].
  - intros ep' ?. by apply (Hs q).
  - by intros ? [= <-].
  - intros ep' ?. by apply (Hc q).
Qed.

(** The same heap, another state of a live handle. *)
Lemma c_wf_update c p ep ep' :
  c_wf c → c_endpoints c !! p = Some ep → (∃ s, ep_status ep' = status_code s) →
  (length (control_tx ep') ≤ CONTROL_CAPACITY)%nat → c_wf (put_endpoint c p ep').
Proof.
  intros Hwf Hep Hs Hct. pose proof (cw_handles _ Hwf p ltac:(by exists ep)).
  destruct (cw_disjoint _ Hwf p ltac:(by exists ep)). by apply c_wf_put; [|apply Hwf|..].
Qed.

(** Fewer handles and strings. *)
Lemma c_wf_forget c eps strs :
  c_wf c → (∀ p ep, eps !! p = Some ep → c_endpoints c !! p = Some ep) →
  (∀ p s, strs !! p = Some s → h_strings (c_heap c) !! p = Some s) →
  c_wf (mkC (mkHeap (h_next (c_heap c)) strs (h_buffers (c_heap c))) eps (c_calls c)).
Proof.
  intros [Hh Hp Hd Hs Hc] He Hst. constructor; simpl.
  - apply heap_wf_forget; [done|lia|]. intros p [s ?%Hst]. by exists s.
  - intros p [ep ?%He]. apply Hp. by exists ep.
  - intros p [ep ?%He]. destruct (Hd p) as [Hn ?]; [by exists ep|]. split; [|done].
    destruct (strs !! p) eqn:E; [|done]. apply Hst in E. congruence.
  - intros p ep ?%He. by apply (Hs p).
  - intros p ep ?%He. by apply (Hc p).
Qed.

(** What a call may change: it gives back at most the string or the handle it
    is asked to free, keeps every other live string, buffer and handle, and
    hands out new addresses only, all distinct. *)
Record accounted (c : CState) (call : CCall) (c' : CState) (r : CReturn) : Prop := {
  ac_wf : c_wf c';
  ac_strings p s : h_strings (c_heap c) !! p = Some s →
    call = oaat_string_free p ∨ h_strings (c_heap c') !! p = Some s;
  ac_buffers p b : h_buffers (c_heap c) !! p = Some b → h_buffers (c_heap c') !! p = Some b;
  ac_handles p : is_Some (c_endpoints c !! p) → call = oaat_endpoint_free p ∨ is_Some (c_endpoints c' !! p);
  ac_new p : p ∈ handed_out r → p ≤ 1 ∨ ¬ live c p ∧ live c' p;
  ac_distinct : NoDup (filter (λ p, 1 < p) (handed_out r))
}.

Lemma not_live c p : c_wf c → h_next (c_heap c) ≤ p → ¬ live c p.
Proof.
  intros Hwf Hp [H|[H|H]]; [apply (wf_strings _ (cw_heap _ Hwf)) in H|apply (wf_buffers _ (cw_heap _ Hwf)) in H|
    apply (cw_handles _ Hwf) in H]; lia.
Qed.

(** A call that leaves the heap alone and hands out nothing. *)
Lemma accounted_quiet c call c' r :
  c_wf c' → c_heap c' = c_heap c → (∀ p, is_Some (c_endpoints c !! p) → is_Some (c_endpoints c' !! p)) →
  filter (λ p, 1 < p) (handed_out r) = [] → accounted c call c' r.
Proof.
  intros Hwf Hh He Hr. constructor; rewrite ?Hh, ?Hr; eauto; [|constructor].
  intros p Hp. left. destruct (decide (1 < p)); [|lia].
  assert (p ∈ filter (λ p, 1 < p) (handed_out r)) as Hin by (by apply list_elem_of_filter). rewrite Hr in Hin. set_solver.
Qed.

Lemma insert_is_Some (m : gmap ptr OaatEndpoint) p ep q : is_Some (m !! q) → is_Some (<[p := ep]> m !! q).
Proof. intros ?. destruct (decide (q = p)) as [->|]; [rewrite lookup_insert_eq|rewrite lookup_insert_ne]; eauto. Qed.

Lemma with_endpoint_accounted c call p null k c' r :
  with_endpoint c p null k = Some (c', r) → c_wf c → handed_out null = [] →
  (∀ ep, c_endpoints c !! p = Some ep → accounted c call (k ep).1 (k ep).2) → accounted c call c' r.
Proof.
  unfold with_endpoint. case_match.
  - intros [= -> ->] ? Hr _. apply accounted_quiet; eauto. by rewrite Hr.
  - destruct (c_endpoints c !! p) as [ep|]; [|done]. simpl. intros [= Hk] _ _ Hep.
    specialize (Hep ep eq_refl). by rewrite Hk in Hep.
Qed.

(** A poll that takes an event. *)
Lemma poll_accounted error_to_string c call p ep rest e ev ep' calls h' :
  c_wf c → c_endpoints c !! p = Some ep →
  convert_event error_to_string (set_events ep rest) e (c_heap c) = (ev, ep', calls, h') →
  accounted c call (mkC h' (<[p := ep']> (c_endpoints c)) (c_calls c ++ calls)) (RetEvent ev).
Proof.
  intros Hwf Hep E. pose proof (cw_heap _ Hwf) as Hh.
  destruct (convert_event_spec _ _ _ _ _ _ _ _ Hh E) as (l & h0 & Hal & Hwf0 & Hs0 & Hlk & Hb0 & Hv & Hr & Hct & Hs & Hcb).
  pose proof (heap_extends_allocated _ _ _ _ _ _ Hlk Hs0 Hal) as Hext.
  pose proof (cw_handles _ Hwf p ltac:(by exists ep)). destruct (cw_disjoint _ Hwf p ltac:(by exists ep)) as [Hps Hpb].
  pose proof (lk_next _ _ _ Hlk). pose proof (al_next _ _ _ _ Hal).
  assert (c_wf (mkC h' (<[p := ep']> (c_endpoints c)) (c_calls c ++ calls))) as Hwf'.
  { apply c_wf_put; try done; [by apply (al_wf _ _ _ _ Hal)|by rewrite (he_strings _ _ Hext) by lia|
      by rewrite (he_buffers _ _ Hext) by lia|lia| |].
    - destruct (cw_status _ Hwf p ep Hep) as [s Hs']. exists (next_status s e). by apply Hs.
    - rewrite Hct. by apply (cw_control _ Hwf p ep). }
  constructor; simpl; [done| | | | |].
  - intros q s Hq. right. rewrite (he_strings _ _ Hext); [done|]. apply (wf_strings _ Hh). by exists s.
  - intros q b Hq. rewrite (he_buffers _ _ Hext); [done|]. apply (wf_buffers _ Hh). by exists b.
  - intros q Hq. right. by apply insert_is_Some.
  - intros q [Hq|Hq]%elem_of_app.
    + destruct (al_range _ _ _ _ Hal q Hq) as [->|[? ?]]; [by left|right]. split; [apply not_live; [done|lia]|by left].
    + destruct (lk_range _ _ _ Hlk q Hq) as [->|[? ?]]; [by left|right]. split; [apply not_live; [done|lia]|].
      right. left. simpl. by rewrite (al_buffers _ _ _ _ Hal).
  - pose proof (al_nodup _ _ _ _ Hal) as Hnd. destruct (event_data ev); cbn [strings_of payload_of] in *;
      rewrite ?app_nil_r; try (rewrite <- (list_filter_filter_l _ (λ p, p ≠ 0)) by lia; by apply NoDup_filter).
    apply NoDup_filter, NoDup_singleton.
Qed.

(** No call releases a buffer. *)
Lemma convert_event_buffers error_to_string ep e h ev ep' calls h' :
  convert_event error_to_string ep e h = (ev, ep', calls, h') → (size (h_buffers h) ≤ size (h_buffers h'))%nat.
Proof.
  unfold convert_event, to_c_string, leak. intros E. repeat case_match; simplify_eq; simpl; try lia;
    rewrite map_size_insert; destruct (h_buffers h !! h_next h); simpl; unfold id; lia.
Qed.

Lemma c_step_buffers error_to_string c call arriving started c' r :
  c_step error_to_string c call arriving started = Some (c', r) →
  (size (h_buffers (c_heap c)) ≤ size (h_buffers (c_heap c')))%nat.
Proof.
  intros Hstep.
  assert (∀ p null k, with_endpoint c p null k = Some (c', r) →
            (∀ ep, (size (h_buffers (c_heap c)) ≤ size (h_buffers (c_heap (k ep).1)))%nat) →
            (size (h_buffers (c_heap c)) ≤ size (h_buffers (c_heap c')))%nat) as Hwith.
  { intros p null k. unfold with_endpoint. case_match; [by intros [= -> ->]|].
    destruct (c_endpoints c !! p) as [ep|]; [|done]. simpl. intros [= Hk] Hle. specialize (Hle ep). by rewrite Hk in Hle. }
  destruct call; unfold_call in Hstep; try (eapply Hwith; [done|intros e; simpl; done]).
  - by repeat case_match; simplify_eq.
  - eapply Hwith; [done|]. intros e. cbv beta. destruct (poll_queue _ _ _) as [[?|] ?]; simpl; [|done].
    destruct (convert_event _ _ _ _) as [[[? ?] ?] h'] eqn:E. by apply convert_event_buffers in E.
  - by repeat case_match; simplify_eq.
Qed.

Lemma new_accounted c name port id :
  c_wf c → accounted c (oaat_endpoint_new (Some (Some name)) port)
    (c_endpoint_new c (Some (Some name)) port (Some id)).1 (c_endpoint_new c (Some (Some name)) port (Some id)).2.
Proof.
  intros Hwf. pose proof (cw_heap _ Hwf) as Hh. pose proof (wf_next _ Hh). simpl. constructor; simpl; eauto.
  - apply c_wf_put; simpl; try done; [by apply heap_wf_advance|by constructor; simpl; [lia|..]| | |lia|by exists StIdle|lia].
    + apply eq_None_not_Some. intros ?%(wf_strings _ Hh). lia.
    + apply eq_None_not_Some. intros ?%(wf_buffers _ Hh). lia.
  - intros q Hq. right. by apply insert_is_Some.
  - intros q ->%list_elem_of_singleton. right. split; [by apply not_live|].
    right. right. simpl. rewrite lookup_insert_eq. eauto.
  - apply NoDup_filter, NoDup_singleton.
Qed.

Lemma free_accounted c p :
  c_wf c → accounted c (oaat_endpoint_free p) (mkC (c_heap c) (delete p (c_endpoints c)) (c_calls c)) RetVoid.
Proof.
  intros Hwf. constructor; simpl; eauto.
  - destruct c as [[]]. apply (c_wf_forget _ _ _ Hwf); simpl; [|done]. by intros q ep [_ ?]%lookup_delete_Some.
  - intros q Hq. destruct (decide (q = p)) as [->|]; [by left|right]. by rewrite lookup_delete_ne.
  - intros q []%elem_of_nil.
  - constructor.
Qed.

Lemma string_free_accounted c p :
  c_wf c → accounted c (oaat_string_free p)
    (mkC (mkHeap (h_next (c_heap c)) (delete p (h_strings (c_heap c))) (h_buffers (c_heap c)))
       (c_endpoints c) (c_calls c)) RetVoid.
Proof.
  intros Hwf. constructor; simpl; eauto.
  - apply c_wf_forget; [done..|]. by intros q s [_ ?]%lookup_delete_Some.
  - intros q s Hq. destruct (decide (q = p)) as [->|]; [by left|right]. by rewrite lookup_delete_ne.
  - intros q []%elem_of_nil.
  - constructor.
Qed.

Lemma event_view_shows error_to_string e : shows error_to_string e (event_view error_to_string e).
Proof.
  unfold event_view. destruct (header_view error_to_string e) as [v|] eqn:E; [by constructor|].
  destruct e as [| | | | |[]| |[]| | | | | | |]; try done; (apply shows_seek || (apply shows_nothing; [done|])); done.
Qed.

(** ** Properties *)

(** C39 Every defined call of the C interface, whatever its arguments, keeps the
    shared memory well formed and accounts for it. Well formed: every live
    string, buffer and handle is an address already given out, none is two of
    these at once, the status of every endpoint is one of the five of the
    header, and at most 64 control messages wait. Accounted for: the call gives
    back at most the string or the handle it is asked to free, leaves every
    other live string and buffer as it was and every other handle live, and the
    addresses it hands out, NULL and the one of an empty payload apart, are
    distinct, live and were not live before. *)
Theorem c_step_wf error_to_string c call arriving started c' r :
  c_wf c → c_step error_to_string c call arriving started = Some (c', r) →
  c_wf c' ∧ accounted c call c' r.
Proof.
  intros Hwf Hstep. assert (accounted c call c' r) as Hac; [|split; [apply Hac|done]].
  pose proof (wf_next _ (cw_heap _ Hwf)) as Hn.
  destruct call as [name port|p|p t|p cb u|p level|p|p]; unfold_call in Hstep.
  - destruct name as [[name|]|], started as [id|]; simplify_eq; try (by apply accounted_quiet; eauto).
    by apply new_accounted.
  - eapply with_endpoint_accounted; [done..|]. intros ep Hep. by apply free_accounted.
  - eapply with_endpoint_accounted; [done..|]. intros ep Hep. cbv beta.
    destruct (poll_queue ep t arriving) as [[e|] rest]; [|by apply accounted_quiet; eauto].
    destruct (convert_event _ _ _ _) as [[[ev ep'] calls] h'] eqn:E. by eapply poll_accounted.
  - eapply with_endpoint_accounted; [done..|]. intros ep Hep. apply accounted_quiet; simpl; try done.
    + eapply c_wf_update; [done..|exact (cw_status _ Hwf p ep Hep)|exact (cw_control _ Hwf p ep Hep)].
    + intros q. apply insert_is_Some.
  - eapply with_endpoint_accounted; [done..|]. intros ep Hep. apply accounted_quiet; simpl; try done.
    + pose proof (cw_control _ Hwf p ep Hep). pose proof (cw_status _ Hwf p ep Hep).
      eapply c_wf_update; [done..| |]; destruct (_ <? _)%nat eqn:E; try done; simpl.
      apply Nat.ltb_lt in E. rewrite length_app. simpl. lia.
    + intros q. apply insert_is_Some.
  - eapply with_endpoint_accounted; [done..|]. intros ep Hep. by apply accounted_quiet; eauto.
  - case_match; [simplify_eq; by apply accounted_quiet; eauto|].
    destruct (h_strings (c_heap c) !! p) eqn:E; simplify_eq. by apply string_free_accounted.
Qed.

(** C40 A C program that polls and frees the strings of each event reads the
    transport's events, one for each poll and in order, through valid
    pointers. An event [oaat.h] describes reads exactly as it says. Those it
    does not describe are not lost to the count but to the program: a seek
    reads as PLAY without its position, and an event of the next track or of
    the zone as [OAAT_EVENT_NONE], which the header documents as the end of
    the timeout. The status follows the last event that sets it, and the audio
    callback is called for each packet, in order, with its bytes and the rate
    and channels of the last proposal. *)
Theorem polls_report_events error_to_string c p ep q rest s :
  c_wf c → c_endpoints c !! p = Some ep → event_rx ep = q ++ rest → ep_status ep = status_code s →
  ∃ c' ep' views, poll_loop error_to_string (length q) c p = Some (c', views) ∧
    Forall2 (shows error_to_string) q views ∧
    c_endpoints c' = <[p := ep']> (c_endpoints c) ∧ event_rx ep' = rest ∧
    ep_status ep' = status_code (fold_left next_status q s) ∧
    c_calls c' = c_calls c ++ callbacks_due (audio_cb ep) q.
Proof.
  intros Hwf Hep Hq Hs. pose proof (cw_handles _ Hwf p ltac:(by exists ep)).
  destruct (poll_loop_spec error_to_string q c p ep rest s) as (c' & ep' & ?&?&?&?&?&?&?&?);
    try done; [apply Hwf|lia|]. exists c', ep', (event_view error_to_string <$> q).
  split_and!; try done. apply Forall2_fmap_r, Forall_Forall2_diag, Forall_true. apply event_view_shows.
Qed.

(** Memory handed to C is accounted for exactly: a program that frees the
    strings it is told to free ends with the strings it started with, and
    never frees anything twice; but every audio event with a payload leaves a
    buffer behind that no call of the interface releases. *)
Theorem audio_payloads_leak error_to_string c p ep q rest :
  c_wf c → c_endpoints c !! p = Some ep → event_rx ep = q ++ rest →
  ∃ c' views, poll_loop error_to_string (length q) c p = Some (c', views) ∧
    h_strings (c_heap c') = h_strings (c_heap c) ∧
    size (h_buffers (c_heap c')) = (size (h_buffers (c_heap c)) + sum_list (leaks <$> q))%nat ∧
    ∀ call arriving started c'' r, c_step error_to_string c' call arriving started = Some (c'', r) →
      (size (h_buffers (c_heap c')) ≤ size (h_buffers (c_heap c'')))%nat.
Proof.
  intros Hwf Hep Hq. pose proof (cw_handles _ Hwf p ltac:(by exists ep)).
  destruct (cw_status _ Hwf p ep Hep) as [s Hs].
  destruct (poll_loop_spec error_to_string q c p ep rest s) as (c' & ep' & ?&?&?&?&?&?&?&?);
    try done; [apply Hwf|lia|]. exists c', (event_view error_to_string <$> q). split_and!; try done.
  intros call arriving started c'' r Hstep. by eapply c_step_buffers.
Qed.

(** A poll that returns no event does not mean that there is none: when the
    transport has queued one of the five events without a C counterpart (a
    gapless transition, a zone change), the poll takes it and returns
    [OAAT_EVENT_NONE], with the events behind it still waiting. *)
Theorem none_hides_events error_to_string c p ep e q t arriving started :
  p ≠ 0 → c_endpoints c !! p = Some ep → event_rx ep = e :: q →
  v_type (event_view error_to_string e) = EtNone →
  ∃ ep', c_step error_to_string c (oaat_endpoint_poll_event p t) arriving started =
      Some (mkC (c_heap c) (<[p := ep']> (c_endpoints c)) (c_calls c), RetEvent none_event) ∧
    event_rx ep' = if t =? 0 then q else q ++ arriving.
Proof.
  intros Hp Hep Hq Hv. unfold_call. unfold with_endpoint. rewrite (proj2 (Z.eqb_neq _ _) Hp), Hep. simpl.
  unfold poll_queue. rewrite Hq.
  destruct (t =? 0); simpl; destruct e; try done; try (by destruct cmd); simpl; rewrite app_nil_r; eexists; split; done.
Qed.

(** The rate the audio callback reports is not always the stream's: a
    proposal the endpoint rejects changes it although the negotiated format
    stays, and a gapless change of format, which the endpoint adopts, does
    not. *)
Theorem callback_rate_diverges error_to_string id name port s ep h fp r ntp now :
  let cfg := ffi_config id name port in
  negotiate_format ffi_capabilities fp = MFormatReject r →
  (current_format s ≠ Some (np_format ntp) ∨ current_sample_rate s ≠ Some (np_sample_rate ntp)) →
  let after outs := fold_left (λ st e, let '(_, ep, _, h) := convert_event error_to_string st.1 e st.2 in (ep, h))
                      (omap (λ o, match o with Event e => Some e | Write _ => None end) outs) (ep, h) in
  (let '(s', outs) := on_format_propose cfg s fp now in
   current_sample_rate s' = current_sample_rate s ∧
   acs_sample_rate (audio_cb (after outs).1) = fp_sample_rate fp) ∧
  (let '(s', outs) := on_next_track s ntp in
   current_sample_rate s' = Some (np_sample_rate ntp) ∧
   acs_sample_rate (audio_cb (after outs).1) = acs_sample_rate (audio_cb ep)).
Proof.
  intros cfg Hr Hne after. split.
  - unfold on_format_propose. change (cfg_capabilities cfg) with ffi_capabilities. rewrite Hr. simpl. split; [done|].
    unfold after. simpl. unfold to_c_string. repeat case_match; simplify_eq; done.
  - unfold on_next_track.
    assert (bool_decide (current_format s = Some (np_format ntp)) &&
            bool_decide (current_sample_rate s = Some (np_sample_rate ntp)) = false) as ->; [|done].
    destruct Hne; [rewrite bool_decide_eq_false_2 by done|rewrite andb_comm, bool_decide_eq_false_2 by done]; done.
Qed.

(** The three ports of an endpoint are distinct and adjacent for every control
    port up to 65533; from 65534 on the 16-bit sums wrap to the port that
    means "any" or to a privileged one. *)
Theorem ffi_ports port :
  in_u 16 port → port ≠ 0 →
  let cfg := ffi_config "id" "name" port in
  (port ≤ 65533 → cfg_audio_port cfg = port + 1 ∧ cfg_clock_port cfg = port + 2) ∧
  (port = 65534 → cfg_audio_port cfg = 65535 ∧ cfg_clock_port cfg = 0) ∧
  (port = 65535 → cfg_audio_port cfg = 0 ∧ cfg_clock_port cfg = 1).
Proof.
  intros Hp H0 cfg. simpl. unfold ffi_port, wrapping_add. rewrite (proj2 (Z.eqb_neq _ _) H0).
  split; [|split; by intros ->]. intros. rewrite !as_u_id by range. done.
Qed.

(** ** Witnesses *)

Definition c_start : CState := mkC (mkHeap 16 ∅ ∅) ∅ [].
Definition no_text (e : OaatError) : string := EmptyString.
Definition c_new : CState :=
  match c_step no_text c_start (oaat_endpoint_new (Some (Some "Hall"%string)) 9740) [] (Some "id"%string) with
  | Some (c, _) => c
  | None => c_start
  end.
Definition demo_events : list EndpointEvent :=
  [ EvConnected "ctl" "Controller";
    EvFormatProposed (mkFormatPropose "s1" PcmS16le 44100 2 Stereo 16 None);
    EvAudioPacket (mkHeader 1 0 PcmS16le 7 1 1000 0 4 0 0 0) [1; 2; 3; 4];
    EvPlayback (CmdPause "s1") ].
Definition c_ready : CState :=
  deliver (match c_step no_text c_new (oaat_endpoint_set_audio_callback 16 (Some 77) 88) [] None with
           | Some (c, _) => c
           | None => c_new
           end) 16 demo_events.
Definition demo_endpoint : OaatEndpoint := mkEndpoint demo_events [] (mkCallbackState (Some 77) 88 0 0) 0.

Lemma c_start_wf : c_wf c_start.
Proof. split; [split|..]; simpl; try lia; try (intros p; rewrite ?lookup_empty; intros []; done); done. Qed.

Lemma c_ready_endpoints : c_endpoints c_ready = <[16 := demo_endpoint]> ∅.
Proof. vm_compute. reflexivity. Qed.

Lemma c_ready_wf : c_wf c_ready.
Proof.
  assert (c_ready = mkC (mkHeap 17 ∅ ∅) (<[16 := demo_endpoint]> ∅) []) as -> by (vm_compute; reflexivity).
  apply (c_wf_put c_start 16 demo_endpoint (mkHeap 17 ∅ ∅)); simpl; try done; try lia.
  - apply c_start_wf.
  - apply (heap_wf_advance (mkHeap 16 ∅ ∅)). apply c_start_wf.
  - by exists StIdle.
Qed.

Definition first_polled : CState * CReturn :=
  default (c_ready, RetVoid) (c_step no_text c_ready (oaat_endpoint_poll_event 16 0) [] None).

(** A poll that hands out two strings. *)
Lemma c_step_wf_witness :
  handed_out first_polled.2 = [17; 18] ∧ c_wf first_polled.1 ∧
  accounted c_ready (oaat_endpoint_poll_event 16 0) first_polled.1 first_polled.2.
Proof.
  split; [vm_compute; reflexivity|].
  apply (c_step_wf no_text c_ready (oaat_endpoint_poll_event 16 0) [] None _ _ c_ready_wf).
  vm_compute. reflexivity.
Defined.

Lemma polls_report_events_witness :
  ∃ c' views, poll_loop no_text 4 c_ready 16 = Some (c', views) ∧ Forall2 (shows no_text) demo_events views ∧
    c_calls c' = [mkCallback 77 [1; 2; 3; 4] 1 44100 2 88].
Proof.
  destruct (polls_report_events no_text c_ready 16 demo_endpoint demo_events [] StIdle c_ready_wf)
    as (c' & ep' & views & Hloop & Hviews & _ & _ & _ & Hcalls); [by rewrite c_ready_endpoints|reflexivity|reflexivity|].
  exists c', views. split; [exact Hloop|]. split; [exact Hviews|exact Hcalls].
Defined.

Lemma audio_payloads_leak_witness :
  ∃ c' views, poll_loop no_text 4 c_ready 16 = Some (c', views) ∧ size (h_buffers (c_heap c')) = 1%nat.
Proof.
  destruct (audio_payloads_leak no_text c_ready 16 demo_endpoint demo_events [] c_ready_wf)
    as (c' & views & Hloop & _ & Hsize & _); [by rewrite c_ready_endpoints|reflexivity|].
  exists c', views. split; [exact Hloop|exact Hsize].
Defined.

Lemma none_hides_events_witness :
  ∃ c' ep', c_step no_text (mkC (mkHeap 17 ∅ ∅) (<[16 := set_events demo_endpoint [EvZoneAssigned "z"; EvDisconnected]]> ∅) [])
      (oaat_endpoint_poll_event 16 0) [] None = Some (c', RetEvent none_event) ∧ event_rx ep' = [EvDisconnected].
Proof.
  destruct (none_hides_events no_text
              (mkC (mkHeap 17 ∅ ∅) (<[16 := set_events demo_endpoint [EvZoneAssigned "z"; EvDisconnected]]> ∅) []) 16
              (set_events demo_endpoint [EvZoneAssigned "z"; EvDisconnected]) (EvZoneAssigned "z") [EvDisconnected] 0 [] None)
    as (ep' & Hstep & Hq); [done|reflexivity|reflexivity|reflexivity|].
  eexists. exists ep'. split; [exact Hstep|exact Hq].
Defined.

Lemma callback_rate_diverges_witness :
  negotiate_format ffi_capabilities (mkFormatPropose "s2" Opus 48000 2 Stereo 16 None) =
    MFormatReject (mkFormatReject "s2" "unsupported format: OPUS") ∧
  let '(s', outs) := on_format_propose (ffi_config "id" "Hall" 9740)
                       (mkSession (mkCodec []) (Some PcmS16le) (Some 44100) None false None)
                       (mkFormatPropose "s2" Opus 48000 2 Stereo 16 None) 0 in
  current_sample_rate s' = Some 44100.
Proof.
  assert (negotiate_format ffi_capabilities (mkFormatPropose "s2" Opus 48000 2 Stereo 16 None) =
    MFormatReject (mkFormatReject "s2" "unsupported format: OPUS")) as Hr by (vm_compute; reflexivity).
  split; [exact Hr|].
  refine (proj1 (proj1 (callback_rate_diverges no_text "id" "Hall" 9740
    (mkSession (mkCodec []) (Some PcmS16le) (Some 44100) None false None) demo_endpoint (mkHeap 17 ∅ ∅) _ _
    (mkNextTrackPrepare "s3" PcmS16le 96000 2 Stereo 16) 0 Hr _))).
  right. discriminate.
Defined.

Lemma ffi_ports_witness :
  cfg_audio_port (ffi_config "id" "name" 9740) = 9741 ∧ cfg_clock_port (ffi_config "id" "name" 65535) = 1.
Proof.
  split.
  - apply (ffi_ports 9740); [split; vm_compute; reflexivity || discriminate|discriminate|discriminate].
  - apply (ffi_ports 65535); [split; vm_compute; reflexivity || discriminate|discriminate|reflexivity].
Defined.
