(* ===== verification/Player.v ===== *)
(** * The controller program: playing a file

    Models [run_controller_file] of [crates/oaat-cli/src/main.rs]: reading a
    WAV file, and streaming its samples to one endpoint through the controller
    transport.  Connecting and the clock exchange come before; pacing only
    delays the packets and printing is left out.  [std::process::exit] on a
    bad file is an error value, an [unwrap] that fails or a division by zero
    the value [Panic]. *)

From S2P Require Import Prelude Text Format Session Wire Message Codec Float Clock Fec FecRecovery Sync EndpointTransport ControllerTransport Zone ZoneAudio.

Local Open Scope Z_scope.

(** ** The WAV file *)

Definition le16 (d : list Z) (i : nat) : Z := from_le_bytes (take 2 (drop i d)).
Definition le32 (d : list Z) (i : nat) : Z := from_le_bytes (take 4 (drop i d)).

Definition RIFF : list Z := [82; 73; 70; 70].
Definition WAVE : list Z := [87; 65; 86; 69].
Definition DATA : list Z := [100; 97; 116; 97].

Definition is_wav (d : list Z) : bool :=
  (44 <? length d)%nat && bool_decide (take 4 d = RIFF) && bool_decide (take 4 (drop 8 d) = WAVE).

(** The search for the data chunk: where its bytes start and how many there
    are; [NoChunk] at the end of the file. *)
Inductive ChunkSearch := Chunk (offset len : nat) | NoChunk | OutOfFuel.

Fixpoint find_data (fuel : nat) (d : list Z) (data_offset : nat) : ChunkSearch :=
  match fuel with
  | O => OutOfFuel
  | S fuel =>
      if (data_offset + 8 <? length d)%nat then
        let chunk_size := Z.to_nat (le32 d (data_offset + 4)) in
        if bool_decide (take 4 (drop data_offset d) = DATA)
        then Chunk (data_offset + 8) (chunk_size `min` (length d - (data_offset + 8)))%nat
        else
          let data_offset := (data_offset + (8 + chunk_size))%nat in
          find_data fuel d (if (chunk_size mod 2 =? 0)%nat then data_offset else S data_offset)
      else NoChunk
  end.

Inductive WavError := NotWav | NoDataChunk | UnsupportedBitDepth (bits : Z).

Record WavFile := mkWav {
  wav_channels : Z;
  wav_sample_rate : Z;
  wav_bits : Z;
  wav_format : AudioFormat;
  wav_pcm : list Z
}.

(** [(bits_per_sample as usize / 8) * channels as usize]. *)
Definition wav_frame (w : WavFile) : nat := (Z.to_nat (wav_bits w / 8) * Z.to_nat (wav_channels w))%nat.

Definition parse_wav (d : list Z) : outcome (result WavFile WavError) :=
  if negb (is_wav d) then Ret (Err NotWav)
  else
    let channels := as_u 8 (le16 d 22) in
    let sample_rate := le32 d 24 in
    let bits := as_u 8 (le16 d 34) in
    match find_data (S (length d)) d 12 with
    | OutOfFuel | NoChunk => Ret (Err NoDataChunk)
    | Chunk _ O => Ret (Err NoDataChunk)
    | Chunk offset len =>
        let pcm := take len (drop offset d) in
        if (bits / 8) * channels =? 0 then Panic
        else
          let file fmt := Ret (Ok (mkWav channels sample_rate bits fmt pcm)) in
          if bits =? 16 then file PcmS16le
          else if bits =? 24 then file PcmS24le
          else if bits =? 32 then file PcmS32le
          else Ret (Err (UnsupportedBitDepth bits))
    end.

(** ** Streaming *)

Definition SAMPLES_PER_PACKET : nat := 360.
Definition PLAY_DELAY_NS : Z := 200000000.

(** [start_ns + (sample_offset as f64 / sample_rate as f64 * 1e9) as u64]. *)
Definition packet_pts (start_ns sample_offset rate : Z) : Z :=
  as_u 64 (start_ns +
    float_trunc (f64_mul (f64_div (f64_of_Z sample_offset) (f64_of_Z rate)) (f64_of_Z 1000000000)) 0 U64_MAX).

(** One turn of the loop sends [chunk_bytes] of what is left: flags, offset in
    samples and payload of each packet. *)
Fixpoint file_packets (fuel packet_bytes frame : nat) (pcm : list Z) (offset : nat) (sample_offset : Z)
    : list (Z * Z * list Z) :=
  match fuel with
  | O => []
  | S fuel =>
      if (offset <? length pcm)%nat then
        let chunk_bytes := (packet_bytes `min` (length pcm - offset))%nat in
        let payload := take chunk_bytes (drop offset pcm) in
        let flags := if (offset =? 0)%nat then FIRST_PACKET else 0 in
        (flags, sample_offset, payload)
        :: file_packets fuel packet_bytes frame pcm (offset + chunk_bytes)
             (sample_offset + Z.of_nat (chunk_bytes / frame))
      else []
  end.

Definition wav_packets (w : WavFile) : list (Z * Z * list Z) :=
  file_packets (S (length (wav_pcm w))) (SAMPLES_PER_PACKET * wav_frame w) (wav_frame w) (wav_pcm w) 0 0.

(** [sample_offset] after the loop. *)
Definition samples_sent (w : WavFile) : Z :=
  foldr (λ p n, Z.of_nat (length (p.2 : list Z) / wav_frame w) + n) 0 (wav_packets w).


(** [.await.unwrap()] on a request. *)
Definition unwrap (r : result unit OaatError * ConnectedEndpoint) : outcome ConnectedEndpoint :=
  match r with (Ok _, ep) => Ret ep | (Err _, _) => Panic end.

(** The progress line divides by the rate after each packet. *)
Fixpoint send_packets (ep : ConnectedEndpoint) (fmt : AudioFormat) (start_ns rate : Z)
    (pkts : list (Z * Z * list Z)) : outcome ConnectedEndpoint :=
  match pkts with
  | [] => Ret ep
  | (flags, offset, payload) :: pkts =>
      (let! ep := unwrap (send_audio ep 1 fmt (packet_pts start_ns offset rate) offset payload flags) in
       if rate =? 0 then Panic else send_packets ep fmt start_ns rate pkts)%oaat
  end.

(** [duration_s * 1000.0] in milliseconds, from the whole samples. *)
Definition duration_ms (w : WavFile) : Z :=
  let total_samples := Z.of_nat (length (wav_pcm w) / wav_frame w) in
  float_trunc (f64_mul (f64_div (f64_of_Z total_samples) (f64_of_Z (wav_sample_rate w))) (f64_of_Z 1000)) 0 U64_MAX.

Definition file_metadata (filename : string) (w : WavFile) : TrackMetadata :=
  mkTrackMetadata filename "OAAT File Player" "" (duration_ms w) None
    (Some ("PCM " ++ print_uint (wav_bits w) ++ "/" ++ print_uint (wav_sample_rate w / 1000))%string).

Definition stream_file (ep : ConnectedEndpoint) (filename : string) (w : WavFile) (start_ns : Z)
    : outcome ConnectedEndpoint :=
  (let stream_id := "file-stream"%string in
   let! ep := unwrap (propose_format ep stream_id (wav_format w) (wav_sample_rate w) (wav_channels w) Stereo (wav_bits w)) in
   let! ep := unwrap (send_metadata ep (file_metadata filename w)) in
   let! ep := unwrap (send_play ep stream_id) in
   let! ep := send_packets ep (wav_format w) start_ns (wav_sample_rate w) (wav_packets w) in
   let! ep := unwrap (send_audio ep 1 (wav_format w) (packet_pts start_ns (samples_sent w) (wav_sample_rate w))
                        (samples_sent w) [] LAST_PACKET) in
   unwrap (send_stop ep stream_id))%oaat.

(** [now] is the clock when streaming starts; the file has been read. *)
Definition run_controller_file (ep : ConnectedEndpoint) (filename : string) (file : list Z) (now : Z)
    : outcome (result ConnectedEndpoint WavError) :=
  (let! w := parse_wav file in
   match w with
   | Err e => Ret (Err e)
   | Ok w => let! ep := stream_file ep filename w (wrapping_add 64 now PLAY_DELAY_NS) in Ret (Ok ep)
   end)%oaat.


(** ** Lemmas: the chunk search *)

Lemma find_data_more fuel fuel' d off :
  (length d <= off + fuel)%nat → (length d <= off + fuel')%nat →
  find_data (S fuel) d off = find_data (S fuel') d off.
Proof.
  revert fuel' off. induction fuel as [|fuel IH]; intros fuel' off Hf Hf'; cbn [find_data];
    (destruct (Nat.ltb_spec (off + 8) (length d)); [|done]); [lia|].
  destruct fuel' as [|fuel']; [lia|]. case_match; [done|]. apply IH; case_match; lia.
Qed.

Lemma find_data_result fuel d off : (length d <= off + fuel)%nat → find_data (S fuel) d off ≠ OutOfFuel.
Proof.
  revert off. induction fuel as [|fuel IH]; intros off Hf; cbn [find_data];
    (destruct (Nat.ltb_spec (off + 8) (length d)); [|done]); [lia|].
  case_match; [done|]. apply IH. case_match; lia.
Qed.

(** A chunk of the file: its name, its bytes, and a byte of padding to an even
    length. *)
Definition riff_chunk (id body : list Z) (pad : Z) : list Z :=
  id ++ to_le_bytes 4 (len body) ++ body ++ (if (length body mod 2 =? 0)%nat then [] else [pad]).

Record chunk_ok (id body : list Z) : Prop := {
  co_id : length id = 4%nat;
  co_data : id ≠ DATA;
  co_len : len body < 2 ^ 32
}.

Lemma riff_chunk_len id body pad : length id = 4%nat →
  length (riff_chunk id body pad) = (8 + length body + (if (length body mod 2 =? 0)%nat then 0 else 1))%nat.
Proof. intros Hid. unfold riff_chunk. rewrite !length_app, to_le_bytes_length, Hid. case_match; simpl; lia. Qed.

Lemma chunk_size_read pre id (body : list Z) rest :
  length id = 4%nat → len body < 2 ^ 32 →
  le32 (pre ++ id ++ to_le_bytes 4 (len body) ++ rest) (length pre + 4) = len body.
Proof.
  intros Hid Hlen. unfold le32. rewrite (assoc app). rewrite drop_app_length' by (rewrite length_app, Hid; done).
  rewrite take_app_length' by (by rewrite to_le_bytes_length).
  apply from_to_le_bytes. unfold in_u. split; [unfold len; lia|done].
Qed.

Lemma find_data_skip fuel pre id body pad rest :
  chunk_ok id body → rest ≠ [] → (length (pre ++ riff_chunk id body pad ++ rest) <= length pre + fuel)%nat →
  find_data (S fuel) (pre ++ riff_chunk id body pad ++ rest) (length pre) =
  find_data (S fuel) (pre ++ riff_chunk id body pad ++ rest) (length (pre ++ riff_chunk id body pad)).
Proof.
  intros [Hid Hne Hlen] Hrest Hf. set (d := pre ++ _) in *.
  assert (length d = length pre + length (riff_chunk id body pad) + length rest)%nat as Hd
    by (unfold d; rewrite !length_app; lia).
  rewrite length_app. rewrite riff_chunk_len in * by done.
  destruct rest as [|b rest]; [done|]. simpl in Hd.
  destruct fuel as [|fuel]; [lia|].
  rewrite (find_data_more (S fuel) fuel d (length pre + _)) by lia.
  change (find_data (S (S fuel)) d (length pre)) with
    (if (length pre + 8 <? length d)%nat then
        let chunk_size := Z.to_nat (le32 d (length pre + 4)) in
        if bool_decide (take 4 (drop (length pre) d) = DATA)
        then Chunk (length pre + 8) (chunk_size `min` (length d - (length pre + 8)))%nat
        else
          let data_offset := (length pre + (8 + chunk_size))%nat in
          find_data (S fuel) d (if (chunk_size mod 2 =? 0)%nat then data_offset else S data_offset)
      else NoChunk).
  cbv zeta. rewrite (proj2 (Nat.ltb_lt _ _)) by lia.
  assert (le32 d (length pre + 4) = len body) as ->.
  { unfold d, riff_chunk. rewrite <- !(assoc app). by apply chunk_size_read. }
  unfold len. rewrite Nat2Z.id.
  rewrite bool_decide_eq_false_2.
  2:{ unfold d, riff_chunk. rewrite drop_app_length, <- !(assoc app), take_app_length' by done. done. }
  destruct (length body mod 2 =? 0)%nat; f_equal; lia.
Qed.

Lemma find_data_found fuel pre pcm rest :
  pcm ≠ [] → len pcm < 2 ^ 32 →
  find_data (S fuel) (pre ++ DATA ++ to_le_bytes 4 (len pcm) ++ pcm ++ rest) (length pre) =
  Chunk (length pre + 8) (length pcm).
Proof.
  intros Hne Hlen. cbn [find_data].
  destruct pcm as [|b pcm]; [done|].
  rewrite (proj2 (Nat.ltb_lt _ _)) by (rewrite !length_app, to_le_bytes_length; simpl; lia).
  rewrite chunk_size_read by done. rewrite drop_app_length, bool_decide_eq_true_2 by done.
  f_equal. unfold len. rewrite Nat2Z.id, !length_app, to_le_bytes_length.
  change (length DATA) with 4%nat. lia.
Qed.

(** The file after its first twelve bytes: chunks, then the data. *)
Definition chunks_bytes (cs : list (list Z * list Z * Z)) : list Z :=
  concat ((λ '(id, body, pad), riff_chunk id body pad) <$> cs).

Lemma find_data_chunks fuel pre cs pcm rest :
  Forall (λ '(id, body, _), chunk_ok id body) cs → pcm ≠ [] → len pcm < 2 ^ 32 →
  let d := pre ++ chunks_bytes cs ++ DATA ++ to_le_bytes 4 (len pcm) ++ pcm ++ rest in
  (length d <= length pre + fuel)%nat →
  find_data (S fuel) d (length pre) = Chunk (length (pre ++ chunks_bytes cs) + 8) (length pcm).
Proof.
  intros Hcs Hne Hlen. revert pre. induction Hcs as [|[[id body] pad] cs Hc _ IH]; intros pre d Hf.
  - unfold d, chunks_bytes. simpl. rewrite app_nil_r. by apply find_data_found.
  - set (rest' := chunks_bytes cs ++ DATA ++ to_le_bytes 4 (len pcm) ++ pcm ++ rest).
    assert (d = pre ++ riff_chunk id body pad ++ rest') as Hd
      by (unfold d, rest', chunks_bytes; rewrite fmap_cons; cbn [concat]; by rewrite <- !(assoc app)).
    assert (rest' ≠ []) by (unfold rest', DATA; destruct (chunks_bytes cs); done).
    rewrite Hd in Hf |- *. rewrite find_data_skip by done.
    assert (pre ++ riff_chunk id body pad ++ rest' =
            (pre ++ riff_chunk id body pad) ++ rest') as Hassoc by by rewrite (assoc app).
    rewrite Hassoc. unfold rest'. rewrite IH.
    + f_equal. unfold chunks_bytes. rewrite fmap_cons. cbn [concat]. by rewrite <- !(assoc app).
    + fold rest'. rewrite <- Hassoc. rewrite (length_app pre (riff_chunk _ _ _)). lia.
Qed.

(** ** Lemmas: the packets of a file *)

Lemma packet_samples (packet frame left : nat) :
  (0 < frame)%nat → (packet = SAMPLES_PER_PACKET * frame)%nat →
  (Nat.min packet left / frame)%nat = Nat.min SAMPLES_PER_PACKET (left / frame).
Proof.
  intros Hf ->. destruct (Nat.le_ge_cases (SAMPLES_PER_PACKET * frame) left) as [Hle|Hge].
  - rewrite Nat.min_l, Nat.div_mul by lia. rewrite Nat.min_l; [done|]. apply Nat.div_le_lower_bound; lia.
  - rewrite Nat.min_r by done. rewrite Nat.min_r; [done|].
    apply Nat.Div0.div_le_upper_bound. lia.
Qed.

(** Packet [k] of what is left from [offset] on. *)
Lemma file_packets_lookup fuel frame pcm offset so k :
  (0 < frame)%nat → (length pcm - offset < fuel)%nat →
  let packet := (SAMPLES_PER_PACKET * frame)%nat in
  file_packets fuel packet frame pcm offset so !! k =
    if decide (offset + k * packet < length pcm)%nat
    then Some (if (offset + k * packet =? 0)%nat then FIRST_PACKET else 0,
               so + Z.of_nat (SAMPLES_PER_PACKET * k), take packet (drop (offset + k * packet) pcm))
    else None.
Proof.
  intros Hframe. revert offset so k. induction fuel as [|fuel IH]; intros offset so k Hf packet; [lia|].
  assert (0 < packet)%nat by (unfold packet, SAMPLES_PER_PACKET; lia).
  cbn [file_packets]. fold packet. destruct (Nat.ltb_spec offset (length pcm)) as [Hlt|Hge].
  2:{ rewrite decide_False by lia. done. }
  destruct k as [|k]; cbn [lookup list_lookup].
  - rewrite Nat.mul_0_l, Nat.add_0_r, decide_True by done.
    rewrite Nat.mul_0_r, Z.add_0_r. do 2 f_equal.
    destruct (Nat.le_ge_cases packet (length pcm - offset)).
    + by rewrite Nat.min_l.
    + by rewrite Nat.min_r, !take_ge by (rewrite ?length_drop; lia).
  - change (list_lookup k) with (lookup (M:=list (Z*Z*list Z)) k). rewrite IH by lia. fold packet.
    destruct (Nat.le_ge_cases packet (length pcm - offset)).
    + rewrite Nat.min_l by done. rewrite <- Nat.add_assoc, (Nat.add_comm packet). fold (S k * packet)%nat.
      replace (k * packet + packet)%nat with (S k * packet)%nat by lia.
      destruct (decide _); [|done]. do 3 f_equal.
      unfold packet. rewrite Nat.div_mul by lia. lia.
    + rewrite Nat.min_r by done. rewrite !decide_False by lia. done.
Qed.

Lemma file_packets_concat fuel frame pcm offset so :
  (0 < frame)%nat → (length pcm - offset < fuel)%nat →
  concat (snd <$> file_packets fuel (SAMPLES_PER_PACKET * frame) frame pcm offset so) = drop offset pcm.
Proof.
  intros Hframe. revert offset so. induction fuel as [|fuel IH]; intros offset so Hf; [lia|].
  assert (0 < SAMPLES_PER_PACKET * frame)%nat by (unfold SAMPLES_PER_PACKET; lia).
  cbn [file_packets]. destruct (Nat.ltb_spec offset (length pcm)) as [Hlt|Hge].
  2:{ by rewrite drop_ge. }
  rewrite fmap_cons. cbn [concat snd]. rewrite IH by lia.
  rewrite <- (drop_drop pcm). by rewrite take_drop.
Qed.

Lemma file_packets_samples fuel frame pcm offset so :
  (0 < frame)%nat → (length pcm - offset < fuel)%nat →
  foldr (λ p n, Z.of_nat (length (p.2 : list Z) / frame) + n) 0
    (file_packets fuel (SAMPLES_PER_PACKET * frame) frame pcm offset so) =
  Z.of_nat ((length pcm - offset) / frame).
Proof.
  intros Hframe. revert offset so. induction fuel as [|fuel IH]; intros offset so Hf; [lia|].
  assert (0 < SAMPLES_PER_PACKET * frame)%nat by (unfold SAMPLES_PER_PACKET; lia).
  cbn [file_packets]. destruct (Nat.ltb_spec offset (length pcm)) as [Hlt|Hge].
  2:{ replace (length pcm - offset)%nat with 0%nat by lia. rewrite Nat.Div0.div_0_l. done. }
  cbn [foldr snd]. rewrite IH by lia. rewrite length_take, length_drop.
  destruct (Nat.le_ge_cases (SAMPLES_PER_PACKET * frame) (length pcm - offset)).
  - rewrite !Nat.min_l by lia. rewrite Nat.div_mul by lia. rewrite <- Nat2Z.inj_add. f_equal.
    replace (length pcm - offset)%nat with
      (length pcm - (offset + SAMPLES_PER_PACKET * frame) + SAMPLES_PER_PACKET * frame)%nat by lia.
    rewrite Nat.div_add by lia. lia.
  - rewrite !Nat.min_r by lia. replace (length pcm - (offset + (length pcm - offset)))%nat with 0%nat by lia.
    rewrite Nat.Div0.div_0_l. lia.
Qed.

(** ** Lemmas: sending the packets *)

(** The header [send_audio] writes. *)
Definition player_header (sid : Z) (fmt : AudioFormat) (start_ns rate sequence : Z) (p : Z * Z * list Z) : AudioPacketHeader :=
  mkHeader CURRENT_VERSION p.1.1 fmt sequence sid (packet_pts start_ns p.1.2 rate) p.1.2
    (as_u 16 (len p.2)) 0 0 0.

Definition player_packets (sid : Z) (fmt : AudioFormat) (start_ns rate base : Z) (ps : list (Z * Z * list Z))
    : list FecPacket :=
  imap (λ i p, (player_header sid fmt start_ns rate (wrapping_add 16 base (Z.of_nat i)) p, p.2)) ps.

Definition sent_audio (ep : ConnectedEndpoint) (ds : list (list Z)) (n : Z) : ConnectedEndpoint :=
  mkConnected (ep_info ep) (ep_sent ep) (ep_writable ep) (ep_audio_target ep) (ep_clock_target ep)
    (ep_audio_sent ep ++ ds) (ep_clock_state ep) (wrapping_add 16 (ep_sequence ep) n) (ep_reader_alive ep).

Lemma send_packets_sends ep fmt start rate ps :
  0 < rate → is_u16 (ep_sequence ep) →
  send_packets ep fmt start rate ps =
    Ret (sent_audio ep (datagram_of <$> player_packets 1 fmt start rate (ep_sequence ep) ps) (len ps)).
Proof.
  intros Hr. revert ep. induction ps as [|[[fl off] p] ps IH]; intros ep Hs; cbn [send_packets].
  - destruct ep. unfold sent_audio. cbn in *. rewrite app_nil_r. do 2 f_equal.
    unfold wrapping_add. rewrite Z.add_0_r. by rewrite as_u_id.
  - unfold send_audio, unwrap. cbn [outcome_bind]. rewrite (proj2 (Z.eqb_neq rate 0)) by lia.
    rewrite IH by (apply wrapping_add_range; lia). unfold sent_audio.
    cbn [ep_info ep_sent ep_writable ep_audio_target ep_clock_target ep_audio_sent ep_clock_state ep_sequence
         ep_reader_alive].
    rewrite wrapping_add_add, <- (assoc app). rewrite len_cons.
    f_equal. f_equal. unfold player_packets. rewrite imap_cons, fmap_cons. cbn [app]. do 3 f_equal.
    + unfold datagram_of, player_header, wrapping_add. cbn [fst snd]. by rewrite Z.add_0_r, (as_u_id 16 (ep_sequence ep)).
    + apply imap_ext. intros i q _. cbn. rewrite wrapping_add_add. do 3 f_equal. lia.
Qed.

(** What the receive loop makes of packets without FEC: those that fit its
    buffer are delivered as they are. *)
Definition plain_packet (p : FecPacket) : Prop :=
  header_wf p.1 ∧ version p.1 = 1 ∧ len p.2 = payload_len p.1 ∧ fec_group_size p.1 = 0 ∧
  flags_contains (flags p.1) FEC = false.

Definition fits (p : FecPacket) : Prop := len p.2 ≤ MAX_AUDIO_PAYLOAD.
#[export] Instance fits_dec p : Decision (fits p).
Proof. unfold fits. apply _. Defined.

Lemma audio_recv_plain r clock p :
  plain_packet p → base_seq r = None → fits p →
  audio_recv r clock (datagram_of p) = Ret ([packet_event p], r, set_link_stats clock (lost r) (recovered r)).
Proof.
  intros (Hwf & Hv & Hl & Hg & Hfec) Hb Hfit. unfold datagram_of, audio_datagram.
  rewrite audio_recv_datagram by done.
  unfold receiver_feed. rewrite Hg, Hfec. cbn [negb andb Z.eqb].
  assert (receiver_flush r = ([], r)) as Hflush by (unfold receiver_flush; by rewrite Hb).
  rewrite Hflush. cbn [outcome_bind app]. destruct p as [h p]. cbn [fst snd].
  destruct (flags_contains (flags h) LAST_PACKET); [rewrite Hflush|]; done.
Qed.

Lemma audio_run_plain r clock ps :
  Forall plain_packet ps → base_seq r = None →
  ∃ clock', audio_run r clock (datagram_of <$> ps) = Ret (packet_event <$> filter fits ps, r, clock').
Proof.
  intros Hps Hb. revert clock. induction Hps as [|p ps Hp _ IH]; intros clock; [by eexists|].
  rewrite fmap_cons. cbn [audio_run]. rewrite filter_cons. destruct (decide (fits p)) as [Hfit|Hfit].
  - rewrite audio_recv_plain by done. cbn [outcome_bind].
    destruct (IH (set_link_stats clock (lost r) (recovered r))) as (c & ->). by eexists.
  - destruct Hp as (Hwf & Hv & Hl & _). unfold datagram_of at 1, audio_datagram.
    rewrite audio_recv_too_long by (done || (unfold fits in Hfit; lia)).
    cbn [outcome_bind]. destruct (IH clock) as (c & ->). by eexists.
Qed.

(** ** The streamed file *)

(** What [stream_file] sends for a file. *)
Definition file_messages (filename : string) (w : WavFile) : list Message :=
  [MFormatPropose (mkFormatPropose "file-stream" (wav_format w) (wav_sample_rate w) (wav_channels w) Stereo
                     (wav_bits w) None);
   MMetadata (mkMetadata (file_metadata filename w)); MPlay (mkPlay "file-stream"); MStop (mkStop "file-stream")].

Definition file_stream (w : WavFile) (start base : Z) : list FecPacket :=
  player_packets 1 (wav_format w) start (wav_sample_rate w) base
    (wav_packets w ++ [(LAST_PACKET, samples_sent w, [])]).

Lemma player_packets_app sid fmt start rate base ps qs :
  player_packets sid fmt start rate base (ps ++ qs) =
  player_packets sid fmt start rate base ps ++ player_packets sid fmt start rate (wrapping_add 16 base (len ps)) qs.
Proof.
  unfold player_packets. rewrite imap_app. f_equal. apply imap_ext. intros i p _. cbn.
  rewrite wrapping_add_add. do 3 f_equal. unfold len. lia.
Qed.


Lemma player_packets_payloads sid fmt start rate base ps : snd <$> player_packets sid fmt start rate base ps = snd <$> ps.
Proof. unfold player_packets. rewrite fmap_imap. rewrite <- (imap_const snd ps). by apply imap_ext. Qed.

Lemma stream_file_sends ep filename w start :
  ep_writable ep = true → is_u16 (ep_sequence ep) → 0 < wav_sample_rate w →
  ∃ ep', stream_file ep filename w start = Ret ep' ∧
    ep_sent ep' = ep_sent ep ++ file_messages filename w ∧
    ep_audio_sent ep' = ep_audio_sent ep ++ (datagram_of <$> file_stream w start (ep_sequence ep)).
Proof.
  intros Hw Hs Hr. unfold stream_file, propose_format, send_metadata, send_play, send_stop, send_message.
  rewrite Hw. cbn [unwrap outcome_bind ep_writable]. rewrite send_packets_sends by done.
  cbn [outcome_bind]. unfold send_audio at 1. unfold sent_audio.
  cbn [unwrap outcome_bind ep_info ep_sent ep_writable ep_audio_target ep_clock_target ep_audio_sent
       ep_clock_state ep_sequence ep_reader_alive].
  eexists. split; [reflexivity|]. cbn [ep_sent ep_audio_sent]. split.
  - by rewrite <- !(assoc app).
  - rewrite <- (assoc app). f_equal. unfold file_stream. rewrite player_packets_app, fmap_app. f_equal.
    unfold player_packets. rewrite imap_cons. cbn [imap fmap list_fmap]. unfold datagram_of, player_header.
    cbn [fst snd]. do 3 f_equal. unfold wrapping_add at 2.
    by rewrite Z.add_0_r, (as_u_id 16 (wrapping_add _ _ _)) by (apply wrapping_add_range; lia).
Qed.


Lemma packet_pts_range start off rate : is_u64 (packet_pts start off rate).
Proof. apply as_u_range. lia. Qed.

Lemma player_header_plain sid fmt start rate base p :
  is_u32 sid → in_u 4 p.1.1 → flags_contains p.1.1 FEC = false → is_u64 p.1.2 → is_u16 base → is_u16 (len p.2) →
  plain_packet (player_header sid fmt start rate base p, p.2).
Proof.
  intros Hsid Hf Hfec Ho Hb Hl. unfold plain_packet, player_header. cbn.
  rewrite (as_u_id 16) by done. split; [|done].
  split; cbn; try done; try apply packet_pts_range; unfold in_u; lia.
Qed.

Record playable (w : WavFile) : Prop := {
  pb_rate : 0 < wav_sample_rate w;
  pb_frame : (0 < wav_frame w)%nat;
  pb_udp : Z.of_nat (SAMPLES_PER_PACKET * wav_frame w) < 2 ^ 16;
  pb_len : len (wav_pcm w) < 2 ^ 62
}.

Lemma wav_packets_lookup w k : playable w →
  wav_packets w !! k =
    if decide (k * (SAMPLES_PER_PACKET * wav_frame w) < length (wav_pcm w))%nat
    then Some (if (k =? 0)%nat then FIRST_PACKET else 0, Z.of_nat (SAMPLES_PER_PACKET * k),
               take (SAMPLES_PER_PACKET * wav_frame w) (drop (k * (SAMPLES_PER_PACKET * wav_frame w)) (wav_pcm w)))
    else None.
Proof.
  intros Hp. destruct (Hp) as [_ Hf _ _]. unfold wav_packets. rewrite file_packets_lookup by lia.
  rewrite !Nat.add_0_l, Z.add_0_l. destruct (decide _); [|done]. do 3 f_equal.
  destruct k as [|k]; [done|]. unfold SAMPLES_PER_PACKET. by rewrite (proj2 (Nat.eqb_neq _ _)) by lia.
Qed.

Lemma samples_sent_all w : playable w → samples_sent w = Z.of_nat (length (wav_pcm w) / wav_frame w).
Proof.
  intros [_ Hf _ _]. unfold samples_sent, wav_packets. rewrite file_packets_samples by lia.
  by rewrite Nat.sub_0_r.
Qed.

Lemma file_stream_plain w start base :
  playable w → is_u16 base → Forall plain_packet (file_stream w start base).
Proof.
  intros Hp Hb. destruct (Hp) as [_ Hf Hu Hl]. unfold len in Hl.
  apply Forall_lookup. intros i q. unfold file_stream, player_packets.
  rewrite list_lookup_imap. destruct (_ !! i) as [p|] eqn:E; [|done]. intros [= <-].
  assert (is_u16 (wrapping_add 16 base (Z.of_nat i))) by (apply wrapping_add_range; lia).
  apply lookup_app_Some in E as [E|[_ E]].
  - rewrite wav_packets_lookup in E by done. destruct (decide _) as [Hlt|]; [|done]. apply Some_inj in E as <-.
    apply player_header_plain; cbn [fst snd]; try done.
    + by destruct (i =? 0)%nat; split.
    + by destruct (i =? 0)%nat.
    + unfold SAMPLES_PER_PACKET in *. unfold in_u. split; [lia|].
      assert (i * 1 <= i * wav_frame w)%nat by (apply Nat.mul_le_mono_l; lia). lia.
    + unfold len, in_u. rewrite length_take. lia.
  - destruct (i - _)%nat as [|?]; [apply Some_inj in E as <-|done].
    apply player_header_plain; cbn [fst snd]; try done.
    rewrite samples_sent_all by done. unfold in_u. split; [lia|].
    assert (length (wav_pcm w) / wav_frame w <= length (wav_pcm w))%nat by (apply Nat.Div0.div_le_upper_bound; nia).
    lia.
Qed.

Lemma file_stream_lookup w start base i h p : playable w →
  file_stream w start base !! i = Some (h, p) →
  let packet := (SAMPLES_PER_PACKET * wav_frame w)%nat in
  sequence h = wrapping_add 16 base (Z.of_nat i) ∧
  sample_offset h = Z.of_nat ((SAMPLES_PER_PACKET * i) `min` (length (wav_pcm w) / wav_frame w)) ∧
  pts_ns h = packet_pts start (sample_offset h) (wav_sample_rate w) ∧ format h = wav_format w ∧
  (if decide (i = length (wav_packets w)) then flags h = LAST_PACKET ∧ p = []
   else (i < length (wav_packets w))%nat ∧ flags h = (if (i =? 0)%nat then FIRST_PACKET else 0) ∧
     (i * packet < length (wav_pcm w))%nat ∧ p = take packet (drop (i * packet) (wav_pcm w))).
Proof.
  intros Hp. destruct (Hp) as [_ Hf _ _]. unfold file_stream, player_packets.
  rewrite list_lookup_imap. destruct (_ !! i) as [q|] eqn:E; [|done]. intros [= <- <-]. cbn zeta.
  cbn [player_header sequence sample_offset pts_ns format flags].
  apply lookup_app_Some in E as [E|[Hge E]].
  - pose proof (lookup_lt_Some _ _ _ E) as Hlt. rewrite decide_False by lia.
    rewrite wav_packets_lookup in E by done. destruct (decide _) as [Hoff|]; [|done].
    apply Some_inj in E as <-. cbn [fst snd]. split_and!; try done. f_equal.
    rewrite Nat.min_l; [done|]. apply Nat.div_le_lower_bound. all: lia.
  - destruct (i - _)%nat as [|?] eqn:Hi; [apply Some_inj in E as <-|done]. cbn [fst snd].
    assert (i = length (wav_packets w)) as -> by lia. rewrite decide_True by done.
    rewrite samples_sent_all by done. split_and!; try done. f_equal. rewrite Nat.min_r; [done|].
    assert (wav_packets w !! length (wav_packets w) = None) as Hn by by apply lookup_ge_None_2.
    rewrite wav_packets_lookup in Hn by done. destruct (decide _); [done|].
    apply Nat.Div0.div_le_upper_bound. lia.
Qed.

Lemma file_stream_payloads w start base : playable w → concat (snd <$> file_stream w start base) = wav_pcm w.
Proof.
  intros [_ Hf _ _]. unfold file_stream. rewrite player_packets_app, fmap_app, concat_app.
  rewrite !player_packets_payloads. unfold wav_packets. rewrite file_packets_concat by lia. cbn. apply app_nil_r.
Qed.

Lemma filter_all {A} (P : A → Prop) `{∀ x, Decision (P x)} (l : list A) : Forall P l → filter P l = l.
Proof. induction 1 as [|x l Hx _ IH]; [done|]. rewrite filter_cons_True by done. by rewrite IH. Qed.

(** ** Theorems *)

(** The search for the data chunk ends on every file, within
    one step per byte, and the samples it finds lie inside the file: no slice
    of [run_controller_file] is out of range. *)
Theorem wav_search_ends d :
  match find_data (S (length d)) d 12 with
  | Chunk offset n => (12 < offset)%nat ∧ (offset + n <= length d)%nat
  | NoChunk => True
  | OutOfFuel => False
  end ∧
  ∀ w, parse_wav d = Ret (Ok w) → ∃ pre post, d = pre ++ wav_pcm w ++ post ∧ wav_pcm w ≠ [].
Proof.
  assert (∀ fuel off o n, find_data fuel d off = Chunk o n → (off < o)%nat ∧ (o + n <= length d)%nat) as Hin.
  { induction fuel as [|fuel IH]; intros off o n; cbn [find_data]; [done|].
    destruct (Nat.ltb_spec (off + 8) (length d)); [|done]. case_match; [intros [= <- <-]; lia|].
    intros He. apply IH in He. case_match; lia. }
  pose proof (find_data_result (length d) d 12) as Hr. unfold parse_wav.
  destruct (find_data (S (length d)) d 12) as [o n| |] eqn:E; [|split; [done|]|].
  - apply Hin in E as Ho. split; [done|]. intros w Hw.
    assert (wav_pcm w = take n (drop o d) ∧ n ≠ 0%nat) as [-> Hn] by (repeat case_match; simplify_eq/=; done).
    exists (take o d), (drop n (drop o d)). rewrite !take_drop. split; [done|].
    intros He. apply (f_equal length) in He. rewrite length_take, length_drop in He. simpl in He. lia.
  - intros w. by case_match.
  - by destruct Hr; [lia|].
Qed.

(** C38 A WAV file whose packets fit the receive buffer is played
    whole: the controller announces its format, its metadata and its start,
    sends its samples and stops; the endpoint's receive loop delivers every
    packet, their payloads are the file's samples in order, sequence numbers
    and sample offsets count up without a gap, the presentation times are those
    of the offsets, and exactly the first packet is marked first and the last
    one, empty, last. *)
Theorem file_played ep filename w start clock :
  ep_writable ep = true → is_u16 (ep_sequence ep) → playable w → wav_pcm w ≠ [] →
  Z.of_nat (SAMPLES_PER_PACKET * wav_frame w) ≤ MAX_AUDIO_PAYLOAD →
  ∃ ep' pkts clock',
    stream_file ep filename w start = Ret ep' ∧
    ep_sent ep' = ep_sent ep ++ file_messages filename w ∧
    ep_audio_sent ep' = ep_audio_sent ep ++ (datagram_of <$> pkts) ∧
    audio_run FecReceiver_new clock (datagram_of <$> pkts) = Ret (packet_event <$> pkts, FecReceiver_new, clock') ∧
    concat (snd <$> pkts) = wav_pcm w ∧
    ∀ i h p, pkts !! i = Some (h, p) →
      sequence h = wrapping_add 16 (ep_sequence ep) (Z.of_nat i) ∧
      sample_offset h = Z.of_nat ((SAMPLES_PER_PACKET * i) `min` (length (wav_pcm w) / wav_frame w)) ∧
      pts_ns h = packet_pts start (sample_offset h) (wav_sample_rate w) ∧ format h = wav_format w ∧
      flags h = (if (i =? 0)%nat then FIRST_PACKET else if (S i =? length pkts)%nat then LAST_PACKET else 0).
Proof.
  intros Hw Hs Hp Hne Hfit. destruct (Hp) as [Hr Hf _ _].
  destruct (stream_file_sends ep filename w start) as (ep' & Hrun & Hm & Ha); [done..|].
  destruct (audio_run_plain FecReceiver_new clock (file_stream w start (ep_sequence ep))) as (c & Hc);
    [by apply file_stream_plain|done|].
  exists ep', (file_stream w start (ep_sequence ep)), c. split_and!; try done.
  - rewrite Hc, filter_all; [done|]. apply Forall_lookup. intros i [h p] Hi.
    apply file_stream_lookup in Hi as (_ & _ & _ & _ & Hi); [|done]. unfold fits, len. cbn [snd].
    destruct (decide _); [by destruct Hi as [_ ->]|]. destruct Hi as (_ & _ & _ & ->). rewrite length_take. lia.
  - by apply file_stream_payloads.
  - intros i h p Hi. apply file_stream_lookup in Hi as (? & ? & ? & ? & Hi); [|done]. split_and!; try done.
    assert (length (file_stream w start (ep_sequence ep)) = S (length (wav_packets w))) as ->.
    { unfold file_stream, player_packets. rewrite length_imap, length_app. simpl. lia. }
    assert (0 < length (wav_packets w))%nat.
    { apply lookup_lt_is_Some. rewrite wav_packets_lookup by done. rewrite decide_True; [by eexists|].
      destruct (wav_pcm w); [done|]. simpl. lia. }
    destruct (decide _) as [->|].
    + rewrite Nat.eqb_refl, (proj2 (Nat.eqb_neq _ 0)) by lia. by destruct Hi.
    + destruct Hi as (? & -> & _). rewrite (proj2 (Nat.eqb_neq (S i) _)) by lia. done.
Qed.

Definition demo_endpoint : ConnectedEndpoint :=
  mkConnected (mkHelloAck 1 "ep" "Kitchen" (mkCapabilities 96000 24 None 2 [PcmS24le] None false false)
                 9740 9741 100 []) [] true (1, 9740) (1, 9741) [] ClockState_new 65535 true.
Definition demo_wav (channels bits : Z) (bytes : nat) : WavFile :=
  mkWav channels 48000 bits PcmS32le (replicate bytes 7).

Lemma demo_playable : playable (demo_wav 2 16 3000).
Proof. split; vm_compute; [done|lia|done|done]. Qed.

Lemma file_played_witness :
  ∃ ep' pkts clock',
    stream_file demo_endpoint "song" (demo_wav 2 16 3000) 0 = Ret ep' ∧
    audio_run FecReceiver_new SharedClock_new (datagram_of <$> pkts) =
      Ret (packet_event <$> pkts, FecReceiver_new, clock') ∧
    concat (snd <$> pkts) = replicate 3000 7.
Proof.
  destruct (file_played demo_endpoint "song" (demo_wav 2 16 3000) 0 SharedClock_new)
    as (ep' & pkts & c & ? & _ & _ & ? & ? & _); [done|split; done|exact demo_playable|done|done|].
  exists ep', pkts, c. split_and!; assumption.
Defined.

(** A file whose packets do not fit the receive buffer (six channels
    of 32 bits do not) is sent all the same and not played: of everything the
    controller sends, the endpoint's receive loop delivers at most what is left
    after the last full packet. *)
Theorem wide_file_dropped ep filename w start clock :
  ep_writable ep = true → is_u16 (ep_sequence ep) → playable w →
  MAX_AUDIO_PAYLOAD < Z.of_nat (SAMPLES_PER_PACKET * wav_frame w) →
  let packet := (SAMPLES_PER_PACKET * wav_frame w)%nat in
  ∃ ep' pkts evs clock',
    stream_file ep filename w start = Ret ep' ∧
    ep_audio_sent ep' = ep_audio_sent ep ++ (datagram_of <$> pkts) ∧ concat (snd <$> pkts) = wav_pcm w ∧
    audio_run FecReceiver_new clock (datagram_of <$> pkts) = Ret (evs, FecReceiver_new, clock') ∧
    Forall (λ e, ∃ h p, e = EvAudioPacket h p ∧
      (p = [] ∨ p = drop (length (wav_pcm w) / packet * packet) (wav_pcm w))) evs.
Proof.
  intros Hw Hs Hp Hwide packet. destruct (Hp) as [Hr Hf _ _].
  destruct (stream_file_sends ep filename w start) as (ep' & Hrun & _ & Ha); [done..|].
  set (pkts := file_stream w start (ep_sequence ep)) in *.
  destruct (audio_run_plain FecReceiver_new clock pkts) as (c & Hc); [by apply file_stream_plain|done|].
  exists ep', pkts, (packet_event <$> filter fits pkts), c. split_and!; try done.
  { by apply file_stream_payloads. }
  apply Forall_fmap, Forall_forall. intros [h p] [Hfit Hin]%list_elem_of_filter. exists h, p. split; [done|].
  apply list_elem_of_lookup in Hin as [i Hi]. apply file_stream_lookup in Hi as (_ & _ & _ & _ & Hi); [|done].
  destruct (decide _); [left; by destruct Hi|right]. destruct Hi as (_ & _ & Hlt & ->).
  fold packet in Hlt, Hfit, Hwide |- *.
  assert (length (wav_pcm w) - i * packet < packet)%nat as Hsmall.
  { unfold fits, len in Hfit. cbn [snd] in Hfit. rewrite length_take, length_drop in Hfit. lia. }
  rewrite take_ge by (rewrite length_drop; lia). do 2 f_equal.
  apply Nat.div_unique with (length (wav_pcm w) - i * packet)%nat; lia.
Qed.

Lemma wide_file_dropped_witness :
  ∃ ep' evs clock',
    stream_file demo_endpoint "song" (demo_wav 6 32 (Z.to_nat 20000)) 0 = Ret ep' ∧
    (∃ pkts, concat (snd <$> pkts) = replicate (Z.to_nat 20000) 7 ∧
     audio_run FecReceiver_new SharedClock_new (datagram_of <$> pkts) = Ret (evs, FecReceiver_new, clock')) ∧
    Forall (λ e, ∃ h p, e = EvAudioPacket h p ∧ (length p <= 2720)%nat) evs.
Proof.
  destruct (wide_file_dropped demo_endpoint "song" (demo_wav 6 32 (Z.to_nat 20000)) 0 SharedClock_new)
    as (ep' & pkts & evs & c & ? & _ & ? & ? & Hevs); [done|split; done|split; vm_compute; [done|lia|done|done]|done|].
  exists ep', evs, c. split_and!; [assumption|exists pkts; split; assumption|]. eapply Forall_impl; [exact Hevs|].
  intros e (h & p & -> & Hp). exists h, p. split; [done|]. destruct Hp as [->| ->]; vm_compute; lia.
Defined.

(** ** The header of a WAV file *)

Definition FMT : list Z := [102; 109; 116; 32].
Definition JUNK : list Z := [74; 85; 78; 75].

Definition fmt_body (tag channels rate byte_rate align bits : Z) : list Z :=
  to_le_bytes 2 tag ++ to_le_bytes 2 channels ++ to_le_bytes 4 rate ++ to_le_bytes 4 byte_rate ++
  to_le_bytes 2 align ++ to_le_bytes 2 bits.

(** A RIFF file of chunks, the samples in the chunk [data]. *)
Definition wav_bytes (size : Z) (cs : list (list Z * list Z * Z)) (pcm rest : list Z) : list Z :=
  (RIFF ++ to_le_bytes 4 size ++ WAVE) ++ chunks_bytes cs ++ DATA ++ to_le_bytes 4 (len pcm) ++ pcm ++ rest.

Lemma le16_at d pre v post : d = pre ++ to_le_bytes 2 v ++ post → is_u16 v → le16 d (length pre) = v.
Proof.
  intros -> Hv. unfold le16. rewrite drop_app_length.
  rewrite take_app_length' by (by rewrite to_le_bytes_length). by apply from_to_le_bytes.
Qed.

Lemma le32_at d pre v post : d = pre ++ to_le_bytes 4 v ++ post → is_u32 v → le32 d (length pre) = v.
Proof.
  intros -> Hv. unfold le32. rewrite drop_app_length.
  rewrite take_app_length' by (by rewrite to_le_bytes_length). by apply from_to_le_bytes.
Qed.

Lemma wav_bytes_is_wav size cs pcm rest :
  (32 < length (chunks_bytes cs ++ DATA ++ to_le_bytes 4 (len pcm) ++ pcm ++ rest))%nat →
  is_wav (wav_bytes size cs pcm rest) = true.
Proof.
  intros Hl. unfold is_wav, wav_bytes. set (tl := chunks_bytes cs ++ _) in *.
  rewrite (proj2 (Nat.ltb_lt _ _)).
  2:{ rewrite length_app. change (length (RIFF ++ _)) with 12%nat. lia. }
  rewrite !bool_decide_eq_true_2; done.
Qed.

Lemma wav_bytes_find size cs pcm rest :
  Forall (λ '(id, body, _), chunk_ok id body) cs → pcm ≠ [] → len pcm < 2 ^ 32 →
  let d := wav_bytes size cs pcm rest in
  ∃ off, find_data (S (length d)) d 12 = Chunk off (length pcm) ∧ take (length pcm) (drop off d) = pcm.
Proof.
  intros Hcs Hne Hlen d. set (pre := RIFF ++ to_le_bytes 4 size ++ WAVE).
  pose proof (find_data_chunks (length d) pre cs pcm rest Hcs Hne Hlen) as Hfind. cbn zeta in Hfind.
  change (pre ++ chunks_bytes cs ++ _) with d in Hfind. change (length pre) with 12%nat in Hfind.
  rewrite Hfind by lia. eexists. split; [done|].
  assert (d = (pre ++ chunks_bytes cs ++ DATA ++ to_le_bytes 4 (len pcm)) ++ pcm ++ rest) as ->
    by (unfold d, wav_bytes; by rewrite <- !(assoc app)).
  rewrite drop_app_length'; [by apply take_app_length|].
  rewrite !length_app, to_le_bytes_length. change (length DATA) with 4%nat. lia.
Qed.

Lemma fmt_chunk_ok tag channels rate byte_rate align bits :
  chunk_ok FMT (fmt_body tag channels rate byte_rate align bits).
Proof. by split. Qed.

Lemma fmt_first_is_wav size body pad cs pcm rest : length body = 16%nat → pcm ≠ [] →
  is_wav (wav_bytes size ((FMT, body, pad) :: cs) pcm rest) = true.
Proof.
  intros Hb Hne. apply wav_bytes_is_wav. unfold chunks_bytes. rewrite fmap_cons. cbn [concat].
  rewrite !length_app, to_le_bytes_length, riff_chunk_len, Hb by done.
  change (length DATA) with 4%nat. destruct pcm; [done|]. simpl. lia.
Qed.

(** A PCM WAV file is read back: of a file with the format
    chunk first, then any chunks but [data], then the samples, the parser
    returns the channels, rate, bits and samples that were written, for 16, 24
    and 32 bits.  The format tag does not matter to it: float samples (tag 3)
    are read as 32-bit integers too. *)
Theorem wav_read size tag channels rate byte_rate align bits fmt cs pcm rest :
  0 < channels < 256 → is_u32 rate → (bits, fmt) ∈ [(16, PcmS16le); (24, PcmS24le); (32, PcmS32le)] →
  Forall (λ '(id, body, _), chunk_ok id body) cs → pcm ≠ [] → len pcm < 2 ^ 32 →
  parse_wav (wav_bytes size ((FMT, fmt_body tag channels rate byte_rate align bits, 0) :: cs) pcm rest) =
    Ret (Ok (mkWav channels rate bits fmt pcm)).
Proof.
  intros Hch Hrate Hbits Hcs Hne Hlen.
  assert (16 ≤ bits ≤ 32) by (clear -Hbits; set_unfold; naive_solver lia).
  set (d := wav_bytes _ _ _ _). unfold parse_wav.
  destruct (wav_bytes_find size ((FMT, fmt_body tag channels rate byte_rate align bits, 0) :: cs) pcm rest)
    as (off & Hfind & Hpcm); [by constructor|done..|]. fold d in Hfind, Hpcm.
  unfold d at 1. rewrite fmt_first_is_wav by done. cbn [negb]. rewrite Hfind, Hpcm.
  set (pre := RIFF ++ to_le_bytes 4 size ++ WAVE ++ FMT ++ to_le_bytes 4 16 ++ to_le_bytes 2 tag).
  set (post := chunks_bytes cs ++ DATA ++ to_le_bytes 4 (len pcm) ++ pcm ++ rest).
  assert (le16 d 22 = channels) as ->.
  { apply (le16_at d pre channels (to_le_bytes 4 rate ++ to_le_bytes 4 byte_rate ++ to_le_bytes 2 align ++
             to_le_bytes 2 bits ++ post)); [|unfold in_u; lia].
    unfold d, wav_bytes, chunks_bytes. by rewrite fmap_cons. }
  assert (le32 d 24 = rate) as ->.
  { apply (le32_at d (pre ++ to_le_bytes 2 channels) rate (to_le_bytes 4 byte_rate ++ to_le_bytes 2 align ++
             to_le_bytes 2 bits ++ post)); [|done].
    unfold d, wav_bytes, chunks_bytes. by rewrite fmap_cons. }
  assert (le16 d 34 = bits) as ->.
  { apply (le16_at d (pre ++ to_le_bytes 2 channels ++ to_le_bytes 4 rate ++ to_le_bytes 4 byte_rate ++
             to_le_bytes 2 align) bits post); [|unfold in_u; lia].
    unfold d, wav_bytes, chunks_bytes. by rewrite fmap_cons. }
  rewrite !(as_u_id 8) by (unfold in_u; lia).
  destruct (length pcm) eqn:El; [by destruct pcm|].
  rewrite !elem_of_cons, elem_of_nil in Hbits. destruct Hbits as [[= -> ->]|[[= -> ->]|[[= -> ->]|[]]]];
    (rewrite (proj2 (Z.eqb_neq _ 0)); [done|apply Z.neq_mul_0; split; [done|lia]]).
Qed.

Definition LIST : list Z := [76; 73; 83; 84].

Lemma wav_read_witness :
  chunk_ok LIST [1; 2; 3] ∧
  parse_wav (wav_bytes 0 [(FMT, fmt_body 3 2 44100 0 4 16, 0); (LIST, [1; 2; 3], 0)] [1; 2; 3; 4] []) =
    Ret (Ok (mkWav 2 44100 16 PcmS16le [1; 2; 3; 4])).
Proof.
  assert (chunk_ok LIST [1; 2; 3]) by by split.
  split; [done|].
  apply (wav_read 0 3 2 44100 0 4 16 PcmS16le [(LIST, [1; 2; 3], 0)] [1; 2; 3; 4] []);
    [lia|split; done|apply elem_of_cons; by left|by constructor|done|done].
Defined.

(** The parser reads the format at fixed offsets, not from the
    format chunk: a file that starts with another chunk, like the zeroed
    [JUNK] chunk that recorders reserve for a longer header, makes it read
    zero channels, and the program divides by zero. *)
Theorem junk_first_panics size n cs pcm rest :
  (16 <= n)%nat → Z.of_nat n < 2 ^ 32 → Forall (λ '(id, body, _), chunk_ok id body) cs →
  pcm ≠ [] → len pcm < 2 ^ 32 →
  parse_wav (wav_bytes size ((JUNK, replicate n 0, 0) :: cs) pcm rest) = Panic.
Proof.
  intros Hn Hn32 Hcs Hne Hlen. set (d := wav_bytes _ _ _ _).
  destruct (wav_bytes_find size ((JUNK, replicate n 0, 0) :: cs) pcm rest) as (off & Hfind & Hpcm); [|done..|].
  { constructor; [|done]. split; [done..|]. unfold len. by rewrite length_replicate. }
  fold d in Hfind, Hpcm. unfold parse_wav. assert (is_wav d = true) as ->.
  { apply wav_bytes_is_wav. unfold chunks_bytes. rewrite fmap_cons. cbn [concat].
    rewrite !length_app, to_le_bytes_length, riff_chunk_len, length_replicate by done.
    change (length DATA) with 4%nat. destruct pcm; [done|]. simpl. lia. }
  cbn [negb]. rewrite Hfind, Hpcm. destruct (length pcm) eqn:El; [by destruct pcm|].
  assert (le16 d 22 = 0) as ->.
  { destruct (Nat.le_exists_sub 4 n) as (m & Hm & _); [lia|]. rewrite Nat.add_comm in Hm. unfold d.
    rewrite Hm. clear. unfold wav_bytes, chunks_bytes. rewrite fmap_cons. cbn [concat]. unfold riff_chunk.
    rewrite <- !(assoc app). change (replicate (4 + m) 0) with ([0; 0] ++ to_le_bytes 2 0 ++ replicate m 0) at 2.
    rewrite <- !(assoc app).
    eapply (le16_at _ (RIFF ++ to_le_bytes 4 size ++ WAVE ++ JUNK ++ to_le_bytes 4 (len (replicate (4 + m) 0)) ++ [0; 0]) 0);
      [|split; done]. rewrite <- !(assoc app). reflexivity. }
  by rewrite Z.mul_0_r.
Qed.

Lemma junk_first_panics_witness :
  chunk_ok FMT (fmt_body 1 2 44100 0 4 16) ∧
  parse_wav (wav_bytes 0 [(JUNK, replicate 28 0, 0); (FMT, fmt_body 1 2 44100 0 4 16, 0)] [1; 2; 3; 4] []) = Panic.
Proof.
  assert (chunk_ok FMT (fmt_body 1 2 44100 0 4 16)) by apply fmt_chunk_ok.
  split; [done|].
  apply (junk_first_panics 0 28 [(FMT, fmt_body 1 2 44100 0 4 16, 0)] [1; 2; 3; 4] []);
    [lia|done|by constructor|done|done].
Defined.

Lemma wav_search_ends_witness :
  let d := wav_bytes 0 [(FMT, fmt_body 1 2 44100 0 4 16, 0)] [1; 2; 3; 4] [] in
  find_data (S (length d)) d 12 = Chunk 44 4 ∧
  ∃ pre post, d = pre ++ [1; 2; 3; 4] ++ post ∧ [1; 2; 3; 4] ≠ [].
Proof.
  split; [vm_compute; reflexivity|].
  apply (proj2 (wav_search_ends (wav_bytes 0 [(FMT, fmt_body 1 2 44100 0 4 16, 0)] [1; 2; 3; 4] []))
           (mkWav 2 44100 16 PcmS16le [1; 2; 3; 4])).
  vm_compute. reflexivity.
Defined.
