(* ===== verification/Discovery.v ===== *)
(** * Discovery

    Models [crates/oaat-endpoint/src/discovery.rs] and
    [crates/oaat-controller/src/discovery.rs]: the mDNS service an endpoint
    announces, and how a controller finds and reads it.  The mDNS daemon is
    the library [mdns_sd]: what a browser resolves from a service, and which
    events it receives when, are arguments; [resolves] states what the
    library says of a service that is resolved. *)

From S2P Require Import Prelude Text Session Capability.

Local Open Scope Z_scope.

Definition SERVICE_TYPE : string := "_oaat._tcp".
Definition CTRL_SERVICE_TYPE : string := "_oaat-ctrl._tcp".
Definition DEFAULT_CONTROL_PORT : Z := 9740.
Definition VERSION_TEXT : string := print_uint 1.

(** [std::net::Ipv4Addr], by its four bytes, and its text. *)
Abbreviation Ipv4Addr := (Z * Z * Z * Z)%type.
Definition UNSPECIFIED : Ipv4Addr := (0, 0, 0, 0).
Definition ipv4_text (ip : Ipv4Addr) : string :=
  let '(a, b, c, d) := ip in
  (print_uint a ++ "." ++ print_uint b ++ "." ++ print_uint c ++ "." ++ print_uint d)%string.

(** The arguments of [ServiceInfo::new]; [si_ip] is a text the library
    parses, empty for none. *)
Record ServiceInfo := mkService {
  si_type : string;
  si_instance : string;
  si_hostname : string;
  si_ip : string;
  si_port : Z;
  si_props : list (string * string)
}.

Definition local_domain (service : string) : string := (service ++ ".local.")%string.

(** ** The endpoint's announcement *)

Record EndpointAnnouncement := mkAnnouncement {
  instance_name : string;
  an_port : Z;
  an_endpoint_id : string;
  an_capabilities : Capabilities;
  an_channels_max : Z;
  volume_type : option string;
  an_model : option string;
  an_vendor : option string;
  firmware : option string
}.

(** The address of the route to the internet, when there is one and it is
    IPv4; [probe] is what the socket tells. *)
Definition detect_local_ip (probe : option Ipv4Addr) : Ipv4Addr := default UNSPECIFIED probe.

Definition push_some (key : string) (v : option string) (props : list (string * string)) : list (string * string) :=
  match v with Some v => props ++ [(key, v)] | None => props end.

Definition announcement_props (a : EndpointAnnouncement) (ip : Ipv4Addr) : list (string * string) :=
  let props :=
    [("v", VERSION_TEXT); ("id", an_endpoint_id a); ("name", instance_name a);
     ("caps", caps_fmt (an_capabilities a)); ("ch", print_uint (an_channels_max a));
     ("ip", ipv4_text ip)]%string in
  let props := push_some "vol" (volume_type a) props in
  let props := push_some "model" (an_model a) props in
  let props := push_some "vendor" (an_vendor a) props in
  push_some "fw" (firmware a) props.

(** What [register] hands to the daemon. *)
Definition register (a : EndpointAnnouncement) (hostname : string) (probe : option Ipv4Addr) : ServiceInfo :=
  let local_ip := detect_local_ip probe in
  mkService (local_domain SERVICE_TYPE) (instance_name a) (local_domain hostname) (ipv4_text local_ip) (an_port a)
    (announcement_props a local_ip).

(** ** The controller's side *)

(** A service as [mdns_sd] resolves it: its IPv4 addresses in the order they
    are iterated, and its properties by key. *)
Record ResolvedService := mkResolved {
  get_addresses_v4 : list Ipv4Addr;
  get_port : Z;
  get_fullname : string;
  get_property : string → option string
}.

Record DiscoveredEndpoint := mkDiscovered {
  de_name : string;
  de_endpoint_id : string;
  de_addr : Ipv4Addr * Z;
  de_capabilities : option Capabilities;
  de_channels_max : Z;
  de_model : option string;
  de_vendor : option string
}.

Definition parse_endpoint (info : ResolvedService) : option DiscoveredEndpoint :=
  ip ← head (get_addresses_v4 info);
  endpoint_id ← get_property info "id";
  Some (mkDiscovered
          (default (get_fullname info) (get_property info "name")) endpoint_id (ip, get_port info)
          (caps ← get_property info "caps"; match caps_parse caps with Ok c => Some c | Err _ => None end)
          (default 2 (ch ← get_property info "ch"; parse_uint 8 ch))
          (get_property info "model") (get_property info "vendor")).

(** One turn of a search: the deadline has passed, an event arrives in time,
    or the channel reports a timeout or its end. *)
Inductive ServiceEvent := ServiceResolved (info : ResolvedService) | OtherEvent.
Inductive SearchTurn := DeadlinePassed | Received (e : ServiceEvent) | RecvFailed.

Fixpoint find_first_loop (turns : list SearchTurn) : option DiscoveredEndpoint :=
  match turns with
  | [] | DeadlinePassed :: _ | RecvFailed :: _ => None
  | Received (ServiceResolved info) :: turns =>
      match parse_endpoint info with Some ep => Some ep | None => find_first_loop turns end
  | Received OtherEvent :: turns => find_first_loop turns
  end.

Fixpoint find_all_loop (turns : list SearchTurn) (endpoints : list DiscoveredEndpoint) : list DiscoveredEndpoint :=
  match turns with
  | [] | DeadlinePassed :: _ | RecvFailed :: _ => endpoints
  | Received (ServiceResolved info) :: turns =>
      find_all_loop turns (match parse_endpoint info with Some ep => endpoints ++ [ep] | None => endpoints end)
  | Received OtherEvent :: turns => find_all_loop turns endpoints
  end.

(** [browse] is the receiver of the daemon, when it could be made. *)
Definition find_first (browse : option (list SearchTurn)) : option DiscoveredEndpoint :=
  turns ← browse; find_first_loop turns.
Definition find_all (browse : option (list SearchTurn)) : list DiscoveredEndpoint :=
  match browse with Some turns => find_all_loop turns [] | None => [] end.

Definition announce_controller (controller_id controller_name hostname : string) (port zone_count : Z) : ServiceInfo :=
  mkService (local_domain CTRL_SERVICE_TYPE) controller_name (local_domain hostname) "" port
    [("v", VERSION_TEXT); ("id", controller_id); ("name", controller_name); ("zones", print_uint zone_count)]%string.

(** ** Specification *)

(** The value of a property among those of a service. *)
Definition prop_get (key : string) (props : list (string * string)) : option string :=
  snd <$> List.find (λ kv, String.eqb kv.1 key) props.

(** What the library promises of a service with one address that a browser
    resolves. *)
Record resolves (ip : Ipv4Addr) (si : ServiceInfo) (rs : ResolvedService) : Prop := {
  res_addresses : si_ip si = ipv4_text ip → get_addresses_v4 rs = [ip];
  res_port : get_port rs = si_port si;
  res_props key : get_property rs key = prop_get key (si_props si)
}.

(** The services resolved before a search ends. *)
Fixpoint heard (turns : list SearchTurn) : list ResolvedService :=
  match turns with
  | Received (ServiceResolved info) :: turns => info :: heard turns
  | Received OtherEvent :: turns => heard turns
  | _ => []
  end.

(** What a controller should know of an announced endpoint: a maximal rate
    below 1 kHz cannot be announced. *)
Definition announced_as (a : EndpointAnnouncement) (ip : Ipv4Addr) : DiscoveredEndpoint :=
  mkDiscovered (instance_name a) (an_endpoint_id a) (ip, an_port a)
    (if pcm_max_rate_khz (an_capabilities a) =? 0 then None else Some (an_capabilities a))
    (an_channels_max a) (an_model a) (an_vendor a).

(** ** Lemmas *)

Lemma prop_get_app key l k :
  prop_get key (l ++ k) = match prop_get key l with Some v => Some v | None => prop_get key k end.
Proof.
  unfold prop_get. induction l as [|[x v] l IH]; [done|]. cbn [List.find app fst].
  destruct (String.eqb x key); [done|exact IH].
Qed.

Lemma prop_get_push key k v props :
  prop_get key (push_some k v props) =
  match prop_get key props with Some w => Some w | None => if String.eqb k key then v else None end.
Proof.
  destruct v as [v|]; cbn [push_some].
  - rewrite prop_get_app. destruct (prop_get key props); [done|]. unfold prop_get. cbn [List.find fst].
    by destruct (String.eqb k key).
  - destruct (prop_get key props); [done|]. by destruct (String.eqb k key).
Qed.

Lemma find_all_heard turns acc : find_all_loop turns acc = acc ++ omap parse_endpoint (heard turns).
Proof.
  revert acc. induction turns as [|[|[info|]|] turns IH]; intros acc; cbn [find_all_loop heard omap list_omap];
    rewrite ?app_nil_r; try done.
  rewrite IH. destruct (parse_endpoint info); [by rewrite <- (assoc app)|done].
Qed.

Lemma find_first_heard turns : find_first_loop turns = head (omap parse_endpoint (heard turns)).
Proof.
  induction turns as [|[|[info|]|] turns IH]; cbn [find_first_loop heard omap list_omap]; try done.
  by destruct (parse_endpoint info).
Qed.

Lemma parse_announced a hostname probe rs :
  caps_wf (an_capabilities a) → is_u8 (an_channels_max a) →
  resolves (detect_local_ip probe) (register a hostname probe) rs →
  parse_endpoint rs = Some (announced_as a (detect_local_ip probe)).
Proof.
  intros Hcaps Hch [Haddr Hport Hprops]. unfold parse_endpoint. rewrite Haddr, Hport by done.
  rewrite !Hprops. cbn [si_props register si_port]. unfold announcement_props.
  rewrite !prop_get_push. unfold prop_get. cbn -[caps_fmt caps_parse print_uint parse_uint announced_as].
  rewrite caps_parse_fmt, parse_print_uint by done. unfold announced_as.
  destruct (pcm_max_rate_khz (an_capabilities a) =? 0), (an_model a), (an_vendor a); reflexivity.
Qed.

(** ** Properties *)

(** What an endpoint announces is what a controller finds: the
    service it registers, once resolved, is parsed as the endpoint with its
    name, identifier, address, port, channels, model, vendor and capabilities
    (these are lost when the maximal rate is below 1 kHz); a search that hears
    the service lists the endpoint, and a search for the first one ends with
    an endpoint. *)
Theorem announcement_discovered a hostname probe rs turns :
  caps_wf (an_capabilities a) → is_u8 (an_channels_max a) →
  resolves (detect_local_ip probe) (register a hostname probe) rs →
  parse_endpoint rs = Some (announced_as a (detect_local_ip probe)) ∧
  (rs ∈ heard turns →
   announced_as a (detect_local_ip probe) ∈ find_all (Some turns) ∧ is_Some (find_first (Some turns))).
Proof.
  intros Hcaps Hch Hrs. pose proof (parse_announced a hostname probe rs Hcaps Hch Hrs) as Hp.
  split; [done|]. intros Hin. unfold find_all, find_first. cbn [mbind option_bind].
  rewrite find_all_heard, find_first_heard. cbn [app].
  assert (announced_as a (detect_local_ip probe) ∈ omap parse_endpoint (heard turns)) as Hel
    by (apply list_elem_of_omap; by exists rs).
  split; [done|]. destruct (omap parse_endpoint (heard turns)) as [|e l]; [by apply not_elem_of_nil in Hel|by exists e].
Qed.

(** The two searches agree: [find_all] lists the endpoints of
    the services heard before the deadline, in order (one that is resolved
    again is listed again), and [find_first] is its first; a search that hears
    no endpoint finds none. *)
Theorem searches_agree browse :
  find_all browse = omap parse_endpoint (heard (default [] browse)) ∧ find_first browse = head (find_all browse).
Proof.
  destruct browse as [turns|]; [|done]. cbn [default find_all find_first mbind option_bind].
  by rewrite find_all_heard, find_first_heard.
Qed.

Definition demo_announcement : EndpointAnnouncement :=
  mkAnnouncement "Kitchen" 9740 "kitchen-1" (mkCaps 192 24 (Some 256) true false false false) 2 (Some "sw"%string) None
    (Some "MozAIk Labs"%string) (Some "0.1.0"%string).
Definition demo_service : ServiceInfo := register demo_announcement "pi" (Some (192, 168, 1, 20)).
Definition demo_resolved : ResolvedService :=
  mkResolved [(192, 168, 1, 20)] 9740 "Kitchen._oaat._tcp.local." (λ key, prop_get key (si_props demo_service)).

Lemma announcement_discovered_witness :
  resolves (192, 168, 1, 20) demo_service demo_resolved ∧
  parse_endpoint demo_resolved = Some (announced_as demo_announcement (192, 168, 1, 20)) ∧
  announced_as demo_announcement (192, 168, 1, 20) ∈ find_all (Some [Received OtherEvent; Received (ServiceResolved demo_resolved)]) ∧
  is_Some (find_first (Some [Received OtherEvent; Received (ServiceResolved demo_resolved)])).
Proof.
  assert (resolves (192, 168, 1, 20) demo_service demo_resolved) as Hr by by split.
  destruct (announcement_discovered demo_announcement "pi" (Some (192, 168, 1, 20)) demo_resolved
              [Received OtherEvent; Received (ServiceResolved demo_resolved)]) as [Hp Hs];
    [by repeat split|by split|exact Hr|].
  split; [exact Hr|]. split; [exact Hp|]. apply Hs. cbn [heard]. apply elem_of_cons. by left.
Defined.
