(* ===== verification/Startup.v ===== *)
(** * Starting the endpoint program

    Models [crates/oaat-cli/src/config.rs] and the start of
    [crates/oaat-cli/src/main.rs]: the configuration file and where it is
    looked for, the command line over it, the persistent identifier, and what
    [run_endpoint] sets up before its event loop: capabilities, announcement,
    transport configuration and first status.  The TOML reader, the file
    system, the audio hardware and the version of the build are arguments;
    [std::process::exit] on a bad configuration is an error value. *)

From S2P Require Import Prelude Text Format Session Capability Wire Message Negotiate EndpointTransport Samples Alsa AlsaOutput WebUi Discovery.
From Stdlib Require Import Ascii.

Local Open Scope Z_scope.

Definition DEFAULT_WEB_UI_PORT : Z := 9741.

(** ** The configuration *)

Record EndpointSection := mkEndpointSection {
  ec_name : string;
  ec_port : Z;
  ec_audio_device : option string;
  ec_tls : bool;
  ec_id : option string
}.

Record CapabilitiesSection := mkCapabilitiesSection {
  cc_pcm_max_rate : Z;
  cc_pcm_max_bits : Z;
  cc_channels_max : Z;
  cc_dsd : bool;
  cc_flac : bool
}.

Record DacSection := mkDacSection { hardware_volume : bool; card : Z; fir_filter : option string }.

Record WebUiSection := mkWebUiSection {
  web_enabled : bool;
  web_port : Z;
  web_bind : IpAddr;
  web_control_token : option string
}.

Record HooksSection := mkHooksSection { on_start : option string; on_stop : option string }.

Record EndpointFileConfig := mkFileConfig {
  cf_endpoint : EndpointSection;
  cf_capabilities : CapabilitiesSection;
  cf_dac : DacSection;
  cf_logging_level : string;
  cf_web_ui : WebUiSection;
  cf_hooks : HooksSection
}.

Definition default_endpoint : EndpointSection := mkEndpointSection "OAAT Endpoint" 9740 None false None.
Definition default_capabilities : CapabilitiesSection := mkCapabilitiesSection 192000 24 2 false true.
Definition default_web_ui : WebUiSection := mkWebUiSection true DEFAULT_WEB_UI_PORT (V4 127 0 0 1) None.
Definition default_config : EndpointFileConfig :=
  mkFileConfig default_endpoint default_capabilities (mkDacSection false 0 None) "info" default_web_ui
    (mkHooksSection None None).

Definition DEFAULT_CONFIG_PATHS : list string := ["/etc/tune-bridge/config.toml"; "/etc/oaat/endpoint.toml"]%string.

Inductive ConfigError := CannotRead (path : string) | InvalidConfig (path : string).

Section load.
Variable toml_from_str : string → option EndpointFileConfig.
Variable read_to_string : string → option string.
Variable exists_path : string → bool.

Definition read_config (path : string) : result EndpointFileConfig ConfigError :=
  (let? contents := ok_or (read_to_string path) (CannotRead path) in
   ok_or (toml_from_str contents) (InvalidConfig path))%oaat.

Fixpoint load_default (paths : list string) : result EndpointFileConfig ConfigError :=
  match paths with
  | [] => Ok default_config
  | path :: paths => if exists_path path then read_config path else load_default paths
  end.

(** [EndpointFileConfig::load]. *)
Definition load (explicit_path : option string) : result EndpointFileConfig ConfigError :=
  match explicit_path with
  | Some path => read_config path
  | None => load_default DEFAULT_CONFIG_PATHS
  end.
End load.

(** ** The command line *)

Record EndpointArgs := mkArgs {
  arg_name : option string;
  arg_port : option Z;
  arg_config : option string;
  arg_daemon : bool;
  arg_audio_device : option string;
  arg_tls : bool;
  arg_no_web_ui : bool;
  arg_web_port : option Z;
  arg_dsd : bool
}.

(** The parameters of [run_endpoint]. *)
Record EndpointParams := mkParams {
  ep_name : string;
  ep_fixed_id : option string;
  ep_port : Z;
  ep_audio_device : option string;
  ep_daemon : bool;
  ep_tls : bool;
  ep_caps : CapabilitiesSection;
  ep_dac : DacSection;
  ep_hooks : HooksSection;
  ep_web_ui : bool;
  ep_web_addr : IpAddr * Z;
  ep_control_token : option string;
  ep_dsd : bool
}.

(** [hostname]: the name of the system; [detected]: the DAC found. *)
Definition endpoint_params (args : EndpointArgs) (cfg : EndpointFileConfig) (hostname : string)
    (detected : option string) : EndpointParams :=
  let e := cf_endpoint cfg in
  let w := cf_web_ui cfg in
  mkParams
    (match arg_name args with
     | Some name => name
     | None => if String.eqb (ec_name e) "OAAT Endpoint" then hostname else ec_name e
     end)
    (ec_id e)
    (default (ec_port e) (arg_port args))
    (match arg_audio_device args with
     | Some d => Some d
     | None => match ec_audio_device e with Some d => Some d | None => detected end
     end)
    (arg_daemon args)
    (arg_tls args || ec_tls e)
    (cf_capabilities cfg) (cf_dac cfg) (cf_hooks cfg)
    (negb (arg_no_web_ui args) && web_enabled w)
    (web_bind w, default (web_port w) (arg_web_port args))
    (web_control_token w)
    (arg_dsd args || cc_dsd (cf_capabilities cfg)).

(** ** The identifier *)

(** [char::is_alphanumeric], on ASCII. *)
Definition is_alphanumeric (a : ascii) : bool :=
  let n := nat_of_ascii a in
  ((48 <=? n) && (n <=? 57) || (65 <=? n) && (n <=? 90) || (97 <=? n) && (n <=? 122))%nat.

Fixpoint slug (name : string) : string :=
  match name with
  | EmptyString => EmptyString
  | String a name => String (if is_alphanumeric a then lower_char a else "_") (slug name)
  end.

Definition id_file (name : string) : string := ("/var/tmp/oaat-" ++ slug name ++ ".id")%string.

(** [files] is what can be read; [writable] whether the write succeeds. *)
Definition load_or_create_endpoint_id (name fresh : string) (files : gmap string string) (writable : bool)
    : string * gmap string string :=
  let create := (fresh, if writable then <[id_file name := fresh]> files else files) in
  match files !! id_file name with
  | Some id => if String.eqb (trim id) "" then create else (trim id, files)
  | None => create
  end.

Definition endpoint_id (p : EndpointParams) (fresh : string) (files : gmap string string) (writable : bool)
    : string * gmap string string :=
  match ep_fixed_id p with
  | Some id => if String.eqb (trim id) "" then load_or_create_endpoint_id (ep_name p) fresh files writable
               else (trim id, files)
  | None => load_or_create_endpoint_id (ep_name p) fresh files writable
  end.

(** ** Capabilities *)

(** [probed]: the highest native DSD rate the device accepts. *)
Definition dsd_max (p : EndpointParams) (probed : option Z) : option Z := if ep_dsd p then probed else None.

Definition announced_formats (p : EndpointParams) (probed : option Z) : list AudioFormat :=
  [PcmS16le; PcmS24le; PcmS32le] ++ (if cc_flac (ep_caps p) then [Flac] else []) ++
  (match dsd_max p probed with Some _ => [DsdU8; DsdU16le; DsdU32le] | None => [] end).

Definition hello_capabilities (p : EndpointParams) (probed : option Z) : EndpointCapabilities :=
  mkCapabilities (cc_pcm_max_rate (ep_caps p)) (cc_pcm_max_bits (ep_caps p)) (dsd_max p probed)
    (cc_channels_max (ep_caps p)) (announced_formats p probed) None true true.

Definition mdns_capabilities (p : EndpointParams) (probed : option Z) : Capabilities :=
  mkCaps (cc_pcm_max_rate (ep_caps p) / 1000) (cc_pcm_max_bits (ep_caps p)) (dsd_max p probed)
    (cc_flac (ep_caps p)) false false false.

(** ** What runs *)

Definition announcement (p : EndpointParams) (id : string) (actual_port : Z) (probed : option Z) (version : string)
    : EndpointAnnouncement :=
  mkAnnouncement (ep_name p) actual_port id (mdns_capabilities p probed) (cc_channels_max (ep_caps p))
    (Some (if hardware_volume (ep_dac p) then "hw" else "sw")%string) None (Some "MozAIk Labs"%string) (Some version).

(** Audio and clock ports are chosen by the system. *)
Definition endpoint_config (p : EndpointParams) (id : string) (probed : option Z) : EndpointConfig :=
  mkEndpointConfig id (ep_name p) (hello_capabilities p probed) 0 0 1000 true.

Definition initial_status (p : EndpointParams) (devices : list string) (version : string) : BridgeStatus :=
  mkStatus (ep_name p) version (default "system default"%string (ep_audio_device p)) devices false None None None None
    None None None None None 100 false.

(** What the hook thread runs: the commands of the events, in order. *)
Definition hook_commands (cfg : HooksSection) (events : list string) : list (string * string) :=
  omap (λ event, cmd ← (if String.eqb event "start" then on_start cfg else on_stop cfg); Some (event, cmd)) events.

(** ** Specification *)

(** A proposal within what a controller knows of an endpoint from its
    announcement. *)
Definition within_announced (de : DiscoveredEndpoint) (fp : FormatPropose) : Prop :=
  ∃ c, de_capabilities de = Some c ∧
    match fp_format fp with
    | PcmS16le | PcmS24le | PcmS24le4 | PcmS32le | PcmF32le =>
        fp_sample_rate fp ≤ pcm_max_rate_hz c ∧ fp_bits_per_sample fp ≤ cap_pcm_max_bits c
    | DsdU8 | DsdU16le | DsdU32le => ∃ m, dsd_max_multiplier c = Some m ∧ default 64 (fp_dsd_rate fp) ≤ m
    | Flac => cap_flac c = true
    | Opus => cap_opus c = true
    | TrueHd => cap_truehd c = true
    | Eac3 => cap_eac3 c = true
    end.

(** The PCM formats the command-line endpoint does not list in its Hello. *)
Definition unlisted_pcm (f : AudioFormat) : bool := bool_decide (f = PcmS24le4 ∨ f = PcmF32le).

(** The types of the configuration, and of what the device answers. *)
Record params_wf (p : EndpointParams) (probed : option Z) : Prop := {
  pw_rate : is_u32 (cc_pcm_max_rate (ep_caps p));
  pw_bits : is_u8 (cc_pcm_max_bits (ep_caps p));
  pw_channels : is_u8 (cc_channels_max (ep_caps p));
  pw_dsd m : probed = Some m → is_u16 m
}.

(** ** Lemmas *)

Lemma mdns_capabilities_wf p probed : params_wf p probed → caps_wf (mdns_capabilities p probed).
Proof.
  intros [Hr Hb _ Hd]. unfold caps_wf, mdns_capabilities, dsd_max. cbn. split_and!; [|done|].
  - destruct Hr. split; [apply Z.div_pos; lia|]. apply Z.div_lt_upper_bound; lia.
  - destruct (ep_dsd p); [|done]. destruct probed; [by apply Hd|done].
Qed.

Lemma announced_rate_hz p probed : params_wf p probed →
  pcm_max_rate_hz (mdns_capabilities p probed) =
  cc_pcm_max_rate (ep_caps p) - cc_pcm_max_rate (ep_caps p) mod 1000.
Proof.
  intros [[H1 H2] _ _ _]. unfold pcm_max_rate_hz, mdns_capabilities. cbn [pcm_max_rate_khz].
  rewrite as_u_id; [Z.div_mod_to_equations; lia|]. unfold in_u. Z.div_mod_to_equations. lia.
Qed.

Lemma announced_formats_spec p probed f :
  f ∈ announced_formats p probed ↔
  f ∈ [PcmS16le; PcmS24le; PcmS32le] ∨ (f = Flac ∧ cc_flac (ep_caps p) = true) ∨
  (is_dsd f = true ∧ is_Some (dsd_max p probed)).
Proof.
  unfold announced_formats. rewrite !elem_of_app. destruct (cc_flac (ep_caps p)), (dsd_max p probed);
    rewrite !elem_of_cons, ?elem_of_nil, <- ?not_eq_None_Some; destruct f; cbn; naive_solver.
Qed.

Lemma trim_end_idemp s : trim_end (trim_end s) = trim_end s.
Proof.
  induction s as [|a s IH]; [done|]. cbn [trim_end]. destruct (trim_end s) as [|b t] eqn:E.
  - destruct (is_whitespace a) eqn:Ea; [done|]. cbn [trim_end]. by rewrite Ea.
  - change (trim_end (String a (String b t))) with
      (match trim_end (String b t) with
       | EmptyString => if is_whitespace a then EmptyString else String a EmptyString
       | t => String a t end).
    by rewrite IH.
Qed.

(** A text that starts with no whitespace, as the left trim leaves it. *)
Definition left_trimmed (s : string) : Prop :=
  match s with String a _ => is_whitespace a = false | EmptyString => True end.

Lemma trim_start_left s : left_trimmed (trim_start s).
Proof. induction s as [|a s IH]; [done|]. cbn [trim_start]. by destruct (is_whitespace a) eqn:E. Qed.

Lemma left_trimmed_start s : left_trimmed s → trim_start s = s.
Proof. destruct s as [|a s]; [done|]. simpl. by intros ->. Qed.

Lemma left_trimmed_end s : left_trimmed s → left_trimmed (trim_end s).
Proof.
  destruct s as [|a s]; [done|]. intros Ha. cbn [trim_end]. simpl in Ha.
  destruct (trim_end s); [by rewrite Ha|done].
Qed.

Lemma trim_idemp s : trim (trim s) = trim s.
Proof.
  unfold trim. rewrite (left_trimmed_start (trim_end (trim_start s))); [apply trim_end_idemp|].
  apply left_trimmed_end, trim_start_left.
Qed.

(** ** Properties *)

(** C33 What an endpoint announces is what it accepts, but for two formats: a
    controller that resolves the announcement of a started endpoint knows its
    maximal rate, cut to whole kilohertz (and nothing below one), its depth,
    DSD limit, FLAC support and channels. Every proposal it makes within the
    announced rate and depth, DSD limit or codecs is accepted by the endpoint's
    negotiation, whatever its channels are, unless its format is 24-bit samples
    in four bytes or floating point: these are rejected as unsupported, as the
    announcement names a rate and a depth but no PCM format. *)
Theorem announced_formats_accepted p id actual_port probed version hostname ip_probe rs :
  params_wf p probed →
  resolves (detect_local_ip ip_probe)
    (register (announcement p id actual_port probed version) hostname ip_probe) rs →
  ∃ de, parse_endpoint rs = Some de ∧ de_endpoint_id de = id ∧ de_name de = ep_name p ∧
    de_channels_max de = cc_channels_max (ep_caps p) ∧
    (cc_pcm_max_rate (ep_caps p) < 1000 → de_capabilities de = None) ∧
    (1000 ≤ cc_pcm_max_rate (ep_caps p) → ∃ c, de_capabilities de = Some c ∧
       pcm_max_rate_hz c = cc_pcm_max_rate (ep_caps p) - cc_pcm_max_rate (ep_caps p) mod 1000) ∧
    ∀ fp, within_announced de fp →
      negotiate_format (cfg_capabilities (endpoint_config p id probed)) fp =
      if unlisted_pcm (fp_format fp)
      then MFormatReject (mkFormatReject (fp_stream_id fp) ("unsupported format: " ++ AudioFormat_fmt (fp_format fp)))
      else MFormatAccept (mkFormatAccept (fp_stream_id fp)).
Proof.
  intros Hp Hrs. pose proof (mdns_capabilities_wf _ _ Hp) as Hcaps. pose proof (announced_rate_hz _ _ Hp) as Hhz.
  destruct (Hp) as [[Hr0 Hr] _ Hch _].
  eexists. split; [exact (parse_announced (announcement p id actual_port probed version) _ _ _ Hcaps Hch Hrs)|].
  unfold announced_as. cbn [announcement an_capabilities an_endpoint_id instance_name an_channels_max de_endpoint_id de_name
                            de_channels_max de_capabilities]. split_and!; try done.
  - intros Hlow. cbn [mdns_capabilities pcm_max_rate_khz]. by rewrite Z.div_small by lia.
  - intros Hhigh. cbn [mdns_capabilities pcm_max_rate_khz]. rewrite (proj2 (Z.eqb_neq _ 0)).
    2:{ Z.div_mod_to_equations. lia. } by eexists.
  - intros fp (c & Hc & Hfp). cbn [de_capabilities] in Hc. destruct (_ =? 0); [done|]. simplify_eq.
    cbn [endpoint_config cfg_capabilities hello_capabilities]. unfold negotiate_format. cbn [formats].
    rewrite Hhz in Hfp. revert Hfp. cbn [mdns_capabilities cap_pcm_max_bits cap_flac dsd_max_multiplier].
    assert (0 ≤ cc_pcm_max_rate (ep_caps p) mod 1000) by (apply Z.mod_pos_bound; lia).
    destruct (fp_format fp) eqn:Hf; intros Hfp; try done;
      [ | |rewrite bool_decide_eq_false_2; [done|]| |rewrite bool_decide_eq_false_2; [done|]| | | |].
    3, 5: intros Hin%announced_formats_spec; rewrite !elem_of_cons, elem_of_nil in Hin; naive_solver.
    all: change (unlisted_pcm _) with false; rewrite bool_decide_eq_true_2 by
      (apply announced_formats_spec; rewrite !elem_of_cons;
       first [by auto 6 | destruct Hfp as (m & Hd & _); right; right; split; [done|by exists m]]);
      cbn [negb is_pcm is_dsd pcm_max_rate pcm_max_bits dsd_max_rate hello_capabilities].
    1-3: rewrite (proj2 (Z.leb_le _ _)), (proj2 (Z.leb_le _ _)) by lia; done.
    1-3: destruct Hfp as (m & Hd & Hm); rewrite Hd, (proj2 (Z.ltb_ge _ _)) by lia; done.
    done.
Qed.

Definition demo_params : EndpointParams :=
  endpoint_params (mkArgs (Some "Kitchen"%string) None None false None false false None true) default_config "pi" None.
Definition demo_proposal : FormatPropose := mkFormatPropose "s" DsdU32le 88200 2 Stereo 32 (Some 128).
Definition demo_registered : ServiceInfo :=
  register (announcement demo_params "kitchen-1" 9740 (Some 256) "0.1.0") "pi" (Some (192, 168, 1, 20)).
Definition demo_found : ResolvedService :=
  mkResolved [(192, 168, 1, 20)] 9740 "Kitchen._oaat._tcp.local." (λ key, prop_get key (si_props demo_registered)).

Lemma demo_params_wf : params_wf demo_params (Some 256).
Proof. split; [by split..|]. intros m [= <-]. by split. Qed.

Definition demo_float : FormatPropose := mkFormatPropose "s" PcmF32le 96000 2 Stereo 24 None.

Lemma announced_formats_accepted_witness :
  ∃ de, parse_endpoint demo_found = Some de ∧ within_announced de demo_proposal ∧ within_announced de demo_float ∧
    negotiate_format (cfg_capabilities (endpoint_config demo_params "kitchen-1" (Some 256))) demo_proposal =
      MFormatAccept (mkFormatAccept "s") ∧
    negotiate_format (cfg_capabilities (endpoint_config demo_params "kitchen-1" (Some 256))) demo_float =
      MFormatReject (mkFormatReject "s" ("unsupported format: " ++ AudioFormat_fmt PcmF32le)).
Proof.
  destruct (announced_formats_accepted demo_params "kitchen-1" 9740 (Some 256) "0.1.0" "pi" (Some (192, 168, 1, 20)) demo_found)
    as (de & Hde & _ & _ & _ & _ & _ & Hfp); [exact demo_params_wf|by split|].
  assert (within_announced de demo_proposal ∧ within_announced de demo_float) as [Hw Hx].
  { assert (Some de = Some (announced_as (announcement demo_params "kitchen-1" 9740 (Some 256) "0.1.0") (192, 168, 1, 20)))
      as [= ->] by (rewrite <- Hde; vm_compute; reflexivity).
    split; eexists; (split; [reflexivity|]).
    - exists 256. split; [reflexivity|]. cbn. lia.
    - vm_compute. by split. }
  exists de. split; [exact Hde|]. split; [exact Hw|]. split; [exact Hx|]. split; [exact (Hfp _ Hw)|exact (Hfp _ Hx)].
Defined.

(** Without a configuration file the controls stay on the host,
    whatever the command line says: the status page listens on loopback, and a
    device switch or a release reaches the event loop only from a loopback
    peer. *)
Theorem default_controls_are_local args hostname detected device_of_body req st switch_open release_tx peer :
  let p := endpoint_params args default_config hostname detected in
  let policy := mkPolicy (mkAddr (ep_web_addr p).1 (ep_web_addr p).2 0) peer (ep_control_token p) in
  is_loopback (ep_web_addr p).1 = true ∧
  ((handle_request device_of_body req st switch_open release_tx policy).2 ≠ [] →
   is_loopback (sa_ip peer) = true).
Proof.
  intros p policy. split; [done|]. intros [_ Ha]%commands_authorized.
  by apply authorize_sound, auth_who in Ha.
Qed.


(** The identifier survives a restart: once an endpoint has
    started and could write its file (or has a fixed identifier), every later
    start under the same configuration has the same identifier, whatever is
    generated then and whether or not the disk can still be written. *)
Theorem endpoint_id_persists p fresh files :
  trim fresh = fresh → fresh ≠ ""%string →
  let '(id, files') := endpoint_id p fresh files true in
  id ≠ ""%string ∧ trim id = id ∧ ∀ fresh' writable, endpoint_id p fresh' files' writable = (id, files').
Proof.
  intros Ht Hne. unfold endpoint_id, load_or_create_endpoint_id.
  assert (∀ text, String.eqb (trim text) "" = false → trim text ≠ ""%string) as Htext by (intros ? ?%String.eqb_neq; done).
  assert (String.eqb fresh "" = false) as Hfe by by apply String.eqb_neq.
  destruct (ep_fixed_id p) as [i|]; [destruct (String.eqb (trim i) "") eqn:Ei|];
    [|by rewrite trim_idemp; auto|];
    (destruct (files !! id_file (ep_name p)) as [text|] eqn:E; [destruct (String.eqb (trim text) "") eqn:Et|]);
    rewrite ?lookup_insert_eq, ?Ht, ?Hfe, ?E, ?Et, ?trim_idemp; auto.
Qed.

Lemma endpoint_id_persists_witness :
  let '(id, files') := endpoint_id demo_params "f81d4fae" ∅ true in
  id ≠ ""%string ∧ trim id = id ∧ ∀ fresh' writable, endpoint_id demo_params fresh' files' writable = (id, files').
Proof. apply (endpoint_id_persists demo_params "f81d4fae" ∅); done. Defined.

(** The identifier is kept by the name with everything but letters
    and digits folded together: a second endpoint of the host whose name
    differs only in punctuation or case starts with the identifier of the
    first, although it is another endpoint. *)
Theorem similar_names_share_id p q fresh files :
  ep_fixed_id p = None → ep_fixed_id q = None → slug (ep_name p) = slug (ep_name q) →
  trim fresh = fresh → fresh ≠ ""%string →
  let '(id, files') := endpoint_id p fresh files true in
  ∀ fresh' writable, (endpoint_id q fresh' files' writable).1 = id.
Proof.
  intros Hp Hq Hslug Ht Hne. unfold endpoint_id, load_or_create_endpoint_id. rewrite Hp, Hq.
  assert (id_file (ep_name q) = id_file (ep_name p)) as -> by (unfold id_file; by rewrite Hslug).
  assert (String.eqb fresh "" = false) as Hfe by by apply String.eqb_neq.
  destruct (files !! id_file (ep_name p)) as [text|] eqn:E; [destruct (String.eqb (trim text) "") eqn:Et|];
    rewrite ?lookup_insert_eq, ?Ht, ?Hfe, ?E, ?Et; done.
Qed.

Definition named (name : string) : EndpointParams :=
  endpoint_params (mkArgs (Some name) None None false None false false None false) default_config "pi" None.

Lemma similar_names_share_id_witness :
  let '(id, files') := endpoint_id (named "Room A") "f81d4fae" ∅ true in
  ∀ fresh' writable, (endpoint_id (named "room-a") fresh' files' writable).1 = id.
Proof. apply (similar_names_share_id (named "Room A") (named "room-a") "f81d4fae" ∅); done. Defined.

(** The path the documentation names is only the second one tried. *)
Theorem documented_config_shadowed toml_from_str read exists_path cfg :
  exists_path "/etc/tune-bridge/config.toml"%string = true →
  load toml_from_str read exists_path None = Ok cfg →
  ∃ text, read "/etc/tune-bridge/config.toml"%string = Some text ∧ toml_from_str text = Some cfg.
Proof.
  intros He. unfold load. cbn [load_default DEFAULT_CONFIG_PATHS]. rewrite He. unfold read_config.
  destruct (read _) as [text|]; [|done]. simpl. destruct (toml_from_str text) eqn:Et; [|done].
  intros [= <-]. eauto.
Qed.

Lemma default_controls_are_local_witness :
  let p := endpoint_params (mkArgs None None None false None false false None false) default_config "pi" None in
  let policy := mkPolicy (mkAddr (ep_web_addr p).1 (ep_web_addr p).2 0) (mkAddr (V4 127 0 0 1) 50000 0) (ep_control_token p) in
  (handle_request (λ _, None) (mkRequest "POST" "/api/release" [("content-type", Some "application/json")]%string [])
     idle_status true (Some true) policy).2 = [ReleaseOutput] ∧
  is_loopback (V4 127 0 0 1) = true.
Proof.
  intros p policy. split; [vm_compute; reflexivity|].
  apply (proj2 (default_controls_are_local (mkArgs None None None false None false false None false) "pi" None (λ _, None)
    (mkRequest "POST" "/api/release" [("content-type", Some "application/json")]%string []) idle_status true (Some true)
    (mkAddr (V4 127 0 0 1) 50000 0))).
  vm_compute. discriminate.
Defined.

(** Native DSD is accepted only where it plays: when a started
    endpoint accepts a DSD proposal at one of the standard multiples, DSD was
    enabled and the device it will open, probed at start, took that very rate
    in its native format. *)
Theorem dsd_accepted_is_playable p probe fp a :
  let device := dsd_hw_device (resolve_device_name (ep_audio_device p)) in
  negotiate_format (hello_capabilities p (announced_dsd_max (ep_audio_device p) probe)) fp = MFormatAccept a →
  is_dsd (fp_format fp) = true → default 64 (fp_dsd_rate fp) ∈ DSD_MULTIPLIERS →
  ep_dsd p = true ∧ starts_with device "hw:" = true ∧
  ∃ accepted, probe device (dsd_u32_rate <$> DSD_MULTIPLIERS) = Ok accepted ∧
    dsd_u32_rate (default 64 (fp_dsd_rate fp)) ∈ accepted.
Proof.
  intros device Hneg Hdsd Hm. pose proof (announced_dsd_max_spec (ep_audio_device p) probe) as Hspec. cbn zeta in Hspec.
  fold device in Hspec. unfold negotiate_format in Hneg.
  destruct (negb _); [done|]. assert (is_pcm (fp_format fp) = false) as Hpcm by by destruct (fp_format fp).
  rewrite Hpcm, Hdsd in Hneg. cbn [hello_capabilities dsd_max_rate] in Hneg. unfold dsd_max in Hneg.
  destruct (ep_dsd p); [|done]. destruct (announced_dsd_max _ _) as [m|]; [|done].
  destruct (Z.ltb_spec m (default 64 (fp_dsd_rate fp))); [done|].
  destruct Hspec as (accepted & Hhw & Hprobe & _ & Hall & _). split; [done|]. split; [done|].
  exists accepted. split; [done|]. by apply Hall.
Qed.

Definition dsd_params : EndpointParams :=
  endpoint_params (mkArgs (Some "Kitchen"%string) None None false (Some "hw:1,0"%string) false false None true)
    default_config "pi" None.

Lemma dsd_accepted_is_playable_witness :
  negotiate_format (hello_capabilities dsd_params (announced_dsd_max (ep_audio_device dsd_params) (λ _ rates, Ok rates)))
    demo_proposal = MFormatAccept (mkFormatAccept "s") ∧
  ∃ accepted, Ok (dsd_u32_rate <$> DSD_MULTIPLIERS) = (Ok accepted : result (list Z) DsdProbeError) ∧
    dsd_u32_rate 128 ∈ accepted.
Proof.
  assert (negotiate_format (hello_capabilities dsd_params (announced_dsd_max (ep_audio_device dsd_params) (λ _ rates, Ok rates)))
    demo_proposal = MFormatAccept (mkFormatAccept "s")) as Hneg by (vm_compute; reflexivity).
  split; [exact Hneg|].
  exact (proj2 (proj2 (dsd_accepted_is_playable dsd_params (λ _ rates, Ok rates) demo_proposal _ Hneg
    ltac:(vm_compute; reflexivity) ltac:(apply elem_of_cons; right; apply elem_of_cons; by left)))).
Defined.
