(* ===== verification/Bridge.v ===== *)
(** * The endpoint program with its web interface

    Models the rest of the event loop of [run_endpoint] in
    [crates/oaat-cli/src/main.rs], around the playback of [App]: the status it
    publishes to the web interface ([BridgeStatus], [update]), the counters of
    a session, the hook commands ([HookRunner]), and the two channels by which
    the web interface of [WebUi] moves the output.

    One turn is [bridge_step]: a turn of the event loop or a request served.
    A request that finds its channel full waits and is served later. *)

From S2P Require Import Prelude Format Message Wire Float Sync Text WebUi Flac Alsa AlsaOutput AudioOutput EndpointTransport App Startup.

Local Open Scope Z_scope.

(** [current_device_name] of the two outputs. *)
Class ReportsDevice (B : AudioBackend) := { au_current_device_name : audio → option string }.

Definition alsa_current_device_name `{FlacStream} (_ : AlsaDirectOutput) : option string := Some "alsa-direct"%string.

#[export] Instance alsa_reports `{FlacStream} : ReportsDevice alsa_backend :=
  {| au_current_device_name := alsa_current_device_name : @audio alsa_backend → option string |}.

#[export] Instance cpal_reports `{FlacStream} (decode : list Z → list f32) : ReportsDevice (cpal_backend decode) :=
  {| au_current_device_name := co_device_name : @audio (cpal_backend decode) → option string |}.

(** ** The status *)

Definition status_connection (st : BridgeStatus) (connected : bool) (controller : option string) : BridgeStatus :=
  mkStatus (bridge_name st) (bs_version st) (current_device st) (available_devices st) connected controller
    (bs_stream_format st) (bs_stream_sample_rate st) (bs_stream_bits st) (bs_stream_channels st)
    (WebUi.track_title st) (track_artist st) (track_album st) (bs_artwork_url st) (bs_volume st) (bs_playing st).

Definition status_stream (st : BridgeStatus) (format : option string) (rate bits channels : option Z) : BridgeStatus :=
  mkStatus (bridge_name st) (bs_version st) (current_device st) (available_devices st) (bs_connected st)
    (bs_controller_name st) format rate bits channels
    (WebUi.track_title st) (track_artist st) (track_album st) (bs_artwork_url st) (bs_volume st) (bs_playing st).

Definition status_device (st : BridgeStatus) (device : string) : BridgeStatus :=
  mkStatus (bridge_name st) (bs_version st) device (available_devices st) (bs_connected st) (bs_controller_name st)
    (bs_stream_format st) (bs_stream_sample_rate st) (bs_stream_bits st) (bs_stream_channels st)
    (WebUi.track_title st) (track_artist st) (track_album st) (bs_artwork_url st) (bs_volume st) (bs_playing st).

Definition status_track (st : BridgeStatus) (title artist album artwork : option string) (playing : bool) : BridgeStatus :=
  mkStatus (bridge_name st) (bs_version st) (current_device st) (available_devices st) (bs_connected st)
    (bs_controller_name st) (bs_stream_format st) (bs_stream_sample_rate st) (bs_stream_bits st) (bs_stream_channels st)
    title artist album artwork (bs_volume st) playing.

(** [PlaybackCommand::Stop]. *)
Definition status_stopped (st : BridgeStatus) : BridgeStatus :=
  status_track (status_stream st None None None None) None None None None false.

Definition status_metadata (st : BridgeStatus) (t : TrackMetadata) : BridgeStatus :=
  status_track st (Some (title t)) (Some (artist t)) (Some (album t)) (artwork_url t) true.

Definition status_disconnected (st : BridgeStatus) : BridgeStatus :=
  status_stream (status_connection st false None) None None None None.

(** [s.playing = false]. *)
Definition status_not_playing (st : BridgeStatus) : BridgeStatus :=
  status_track st (WebUi.track_title st) (track_artist st) (track_album st) (bs_artwork_url st) false.

Section bridge.
Context `{B : AudioBackend} {R : ReportsDevice B}.

Definition device_shown (a : audio) : string := default "unknown"%string (au_current_device_name a).

(** A proposal the output was configured for. *)
Definition status_proposed (s : App) (fp : FormatPropose) (w : World) (st : BridgeStatus) : BridgeStatus :=
  match au_configure (app_audio s) (fp_format fp) (fp_sample_rate fp) (fp_channels fp) (app_device_name s) (w_device w) with
  | (Ok _, a) =>
      status_stream (status_device st (device_shown a)) (Some (AudioFormat_fmt (fp_format fp)))
        (Some (fp_sample_rate fp)) (Some (fp_bits_per_sample fp)) (Some (fp_channels fp))
  | (Err _, _) => st
  end.

(** The bits shown are left as they were. *)
Definition status_reformatted (s : App) (fmt : AudioFormat) (rate : Z) (w : World) (st : BridgeStatus) : BridgeStatus :=
  if app_released s then st
  else
    match au_configure (app_audio s) fmt rate 2 (app_device_name s) (w_device w) with
    | (Ok _, a) =>
        status_stream (status_device st (device_shown a)) (Some (AudioFormat_fmt fmt)) (Some rate) (bs_stream_bits st) (Some 2)
    | (Err _, _) => st
    end.

(** The status after a turn of the event loop in state [s]. *)
Definition status_step (s : App) (i : AppInput) (w : World) (st : BridgeStatus) : BridgeStatus :=
  match i with
  | TransportEvent (EvConnected _ controller) => status_connection st true (Some controller)
  | TransportEvent (EvFormatProposed fp) => status_proposed s fp w st
  | TransportEvent (EvNextTrackReformat _ fmt rate) => status_reformatted s fmt rate w st
  | TransportEvent (EvPlayback (CmdStop _)) => status_stopped st
  | TransportEvent (EvMetadata m) => status_metadata st (md_track m)
  | TransportEvent EvDisconnected => status_disconnected st
  | ReleaseRequest => status_not_playing st
  | DeviceSwitch name => status_device st name
  | _ => st
  end.

(** [packet_count] and [total_bytes], of one session. *)
Definition count_step (counts : Z * Z) (i : AppInput) : Z * Z :=
  match i with
  | TransportEvent (EvAudioPacket _ payload) => (counts.1 + 1, counts.2 + len payload)
  | TransportEvent EvDisconnected => (0, 0)
  | _ => counts
  end.

(** ** The program *)

Record Bridge := mkBridge {
  br_app : App;
  br_status : BridgeStatus;
  br_counts : Z * Z;
  br_switches : list string;
  br_releases : nat
}.

Definition bridge_start (a : audio) (p : EndpointParams) (devices : list string) (version : string) : Bridge :=
  mkBridge (app_new a (ep_audio_device p)) (initial_status p devices version) (0, 0) [] 0.

(** [mpsc::channel::<String>(8)] and [mpsc::channel::<()>(4)]. *)
Definition SWITCH_CHANNEL_CAPACITY : nat := 8.
Definition RELEASE_CHANNEL_CAPACITY : nat := 4.

Variable device_of_body : list Z → option string.
Variable hardware_volume : bool.

Inductive BridgeInput :=
| Loop (i : AppInput) (w : World)
| Http (req : Request) (p : ControlPolicy).

(** A turn of the event loop, its input already taken. *)
Definition loop_turn (b : Bridge) (i : AppInput) (w : World) (switches : list string) (releases : nat)
  : Bridge * list AppOutput :=
  let '(a, outs) := app_step hardware_volume (br_app b) i w in
  (mkBridge a (status_step (br_app b) i w (br_status b)) (count_step (br_counts b) i) switches releases, outs).

(** What the event loop receives on the two channels of the web interface. *)
Definition loop_step (b : Bridge) (i : AppInput) (w : World) : option (Bridge * list AppOutput) :=
  match i with
  | DeviceSwitch name =>
      match br_switches b with
      | first :: rest =>
          if bool_decide (first = name) then Some (loop_turn b i w rest (br_releases b)) else None
      | [] => None
      end
  | ReleaseRequest =>
      match br_releases b with
      | S n => Some (loop_turn b i w (br_switches b) n)
      | O => None
      end
  | _ => Some (loop_turn b i w (br_switches b) (br_releases b))
  end.

Definition queue_command (b : Bridge) (c : WebCommand) : option Bridge :=
  match c with
  | SwitchDevice name =>
      if (length (br_switches b) <? SWITCH_CHANNEL_CAPACITY)%nat
      then Some (mkBridge (br_app b) (br_status b) (br_counts b) (br_switches b ++ [name]) (br_releases b)) else None
  | ReleaseOutput =>
      if (br_releases b <? RELEASE_CHANNEL_CAPACITY)%nat
      then Some (mkBridge (br_app b) (br_status b) (br_counts b) (br_switches b) (S (br_releases b))) else None
  end.

Fixpoint queue_commands (b : Bridge) (cs : list WebCommand) : option Bridge :=
  match cs with
  | [] => Some b
  | c :: cs => match queue_command b c with Some b => queue_commands b cs | None => None end
  end.

Definition bridge_step (b : Bridge) (i : BridgeInput) : option (Bridge * list AppOutput * option Response) :=
  match i with
  | Loop i w => match loop_step b i w with Some (b, outs) => Some (b, outs, None) | None => None end
  | Http req p =>
      let '(response, cs) := handle_request device_of_body req (br_status b) true (Some true) p in
      match queue_commands b cs with
      | Some b => Some (b, [], Some response)
      | None => None
      end
  end.

Fixpoint bridge_run (b : Bridge) (ins : list BridgeInput) : option (Bridge * list AppOutput) :=
  match ins with
  | [] => Some (b, [])
  | i :: ins =>
      match bridge_step b i with
      | Some (b, o, _) => match bridge_run b ins with Some (b, os) => Some (b, o ++ os) | None => None end
      | None => None
      end
  end.

(** ** What a run asks for and takes *)

Definition command_names (cs : list WebCommand) : list string :=
  omap (λ c, match c with SwitchDevice name => Some name | ReleaseOutput => None end) cs.

Definition command_releases (cs : list WebCommand) : nat :=
  length (omap (λ c, match c with ReleaseOutput => Some tt | SwitchDevice _ => None end) cs).

Definition no_status : BridgeStatus :=
  mkStatus "" "" "" [] false None None None None None None None None None 0 false.

(** The commands of a request; the status plays no part in them. *)
Definition requested (i : BridgeInput) : list WebCommand :=
  match i with
  | Http req p => (handle_request device_of_body req no_status true (Some true) p).2
  | Loop _ _ => []
  end.

Definition asked (ins : list BridgeInput) : list WebCommand := concat (requested <$> ins).

Definition switches_taken (ins : list BridgeInput) : list string :=
  omap (λ i, match i with Loop (DeviceSwitch name) _ => Some name | _ => None end) ins.

Definition releases_taken (ins : list BridgeInput) : nat :=
  length (omap (λ i, match i with Loop ReleaseRequest _ => Some tt | _ => None end) ins).

(** ** Lemmas *)

Lemma handle_request_commands req st st' p :
  (handle_request device_of_body req st true (Some true) p).2 = (handle_request device_of_body req st' true (Some true) p).2.
Proof. unfold handle_request. repeat case_match; done. Qed.

Lemma queue_commands_spec b cs b' :
  queue_commands b cs = Some b' →
  br_app b' = br_app b ∧ br_status b' = br_status b ∧ br_counts b' = br_counts b ∧
  br_switches b' = br_switches b ++ command_names cs ∧ br_releases b' = (br_releases b + command_releases cs)%nat.
Proof.
  revert b. induction cs as [|c cs IH]; intros b Hq; cbn [queue_commands] in Hq.
  { simplify_eq. cbn. by rewrite app_nil_r, Nat.add_0_r. }
  destruct (queue_command b c) as [b1|] eqn:E; [|done]. destruct (IH _ Hq) as (-> & -> & -> & -> & ->).
  unfold queue_command in E. unfold command_names, command_releases. destruct c; case_match; simplify_eq; cbn [br_app br_status br_counts br_switches br_releases].
  - by rewrite <- (assoc_L (++)).
  - split_and!; try done. cbn [omap list_omap length]. lia.
Qed.

(** One turn: what is taken leaves a queue, what is asked joins one. *)
Lemma bridge_step_queues b i b' o r :
  bridge_step b i = Some (b', o, r) →
  br_switches b ++ command_names (requested i) = switches_taken [i] ++ br_switches b' ∧
  (br_releases b + command_releases (requested i) = releases_taken [i] + br_releases b')%nat.
Proof.
  destruct i as [i w|req p]; cbn [bridge_step requested].
  - intros Hs. assert (∃ sw rel, Some (loop_turn b i w sw rel) = loop_step b i w ∧
      br_switches b = switches_taken [Loop i w] ++ sw ∧ br_releases b = (releases_taken [Loop i w] + rel)%nat) as (sw & rel & E & Es & Er).
    { destruct i; cbn [loop_step] in *; try (by exists (br_switches b), (br_releases b)).
      - destruct (br_releases b) as [|n] eqn:En; [done|]. by exists (br_switches b), n.
      - destruct (br_switches b) as [|first rest] eqn:En; [done|]. case_bool_decide; [subst first|done].
        by exists rest, (br_releases b). }
    rewrite <- E in Hs. unfold loop_turn in Hs. destruct (app_step _ _ _ _) as [a os]. simplify_eq.
    cbn [br_switches br_releases command_names command_releases omap list_omap length].
    rewrite app_nil_r, Nat.add_0_r. done.
  - rewrite (handle_request_commands req _ (br_status b) p).
    destruct (handle_request _ _ _ _ _ _) as [response cs]. cbn [snd].
    destruct (queue_commands b cs) as [b1|] eqn:E; [|done]. intros [= <- _ _].
    destruct (queue_commands_spec _ _ _ E) as (_ & _ & _ & -> & ->). done.
Qed.

Lemma bridge_run_queues b ins b' outs :
  bridge_run b ins = Some (b', outs) →
  br_switches b ++ command_names (asked ins) = switches_taken ins ++ br_switches b' ∧
  (br_releases b + command_releases (asked ins) = releases_taken ins + br_releases b')%nat.
Proof.
  revert b outs. induction ins as [|i ins IH]; intros b outs Hr; cbn [bridge_run] in Hr.
  { simplify_eq. cbn. by rewrite app_nil_r, Nat.add_0_r. }
  destruct (bridge_step b i) as [[[b1 o] r]|] eqn:E; [|done]. destruct (bridge_run b1 ins) as [[b2 os]|] eqn:E2; [|done].
  simplify_eq. destruct (bridge_step_queues _ _ _ _ _ E) as [Hs1 Hr1]. destruct (IH _ _ E2) as [Hs2 Hr2].
  unfold asked in *. rewrite fmap_cons. cbn [concat].
  change (switches_taken (i :: ins)) with (switches_taken ([i] ++ ins)).
  change (releases_taken (i :: ins)) with (releases_taken ([i] ++ ins)).
  unfold command_names, command_releases, switches_taken, releases_taken in *. rewrite !omap_app, !length_app in *.
  split; [|lia]. by rewrite (assoc_L (++)), Hs1, <- !(assoc_L (++)), Hs2.
Qed.

(** What a request asks for, it may. *)
Lemma requested_authorized i c :
  c ∈ requested i → ∃ req p, i = Http req p ∧ req_method req = "POST"%string ∧ authorized p req ∧
    match c with
    | SwitchDevice name => req_path req = "/api/device"%string ∧ device_of_body (req_body req) = Some name
    | ReleaseOutput => req_path req = "/api/release"%string
    end.
Proof.
  destruct i as [|req p]; cbn [requested]; [by intros ?%elem_of_nil|]. intros Hc. exists req, p. split; [done|].
  assert ((handle_request device_of_body req no_status true (Some true) p).2 ≠ []) as Hne.
  { intros E. rewrite E in Hc. by apply elem_of_nil in Hc. }
  apply commands_authorized in Hne as [Hm Ha]. split; [done|]. split; [by apply authorize_sound|].
  revert Hc. unfold handle_request. rewrite Ha.
  destruct (String.eqb_spec (req_method req) "POST"), (String.eqb_spec (req_path req) "/api/release"),
    (String.eqb_spec (req_path req) "/api/device"); try done; cbn [andb orb].
  all: repeat case_match; simplify_eq/=; intros Hc; try (by apply elem_of_nil in Hc);
    apply list_elem_of_singleton in Hc; simplify_eq; done.
Qed.

Lemma bridge_run_snoc b bs i b1 o1 b2 o2 r :
  bridge_run b bs = Some (b1, o1) → bridge_step b1 i = Some (b2, o2, r) → bridge_run b (bs ++ [i]) = Some (b2, o1 ++ o2).
Proof.
  revert b o1. induction bs as [|i0 bs IH]; intros b o1 Hr Hs; cbn [bridge_run app] in *.
  { simplify_eq. rewrite Hs. by rewrite app_nil_r. }
  destruct (bridge_step b i0) as [[[b0 o0] r0]|]; [|done]. destruct (bridge_run b0 bs) as [[b1' o']|] eqn:E; [|done]. simplify_eq.
  rewrite (IH _ _ E Hs). by rewrite (assoc_L (++)).
Qed.

(** What the event loop carries out was asked for in the run. *)
Lemma command_asked ins c : c ∈ asked ins → ∃ i, i ∈ ins ∧ c ∈ requested i.
Proof.
  intros Hc. unfold asked in Hc. apply list_elem_of_In, in_concat in Hc as (l & Hl & Hc).
  apply list_elem_of_In, list_elem_of_fmap in Hl as (i & -> & Hi). exists i. split; [done|]. by apply list_elem_of_In.
Qed.

Lemma switch_requested a params devices version ins b outs device :
  bridge_run (bridge_start a params devices version) ins = Some (b, outs) → device ∈ switches_taken ins →
  ∃ req p, Http req p ∈ ins ∧ req_method req = "POST"%string ∧ authorized p req ∧ device_of_body (req_body req) = Some device.
Proof.
  intros Hr Hd. destruct (bridge_run_queues _ _ _ _ Hr) as [Hs _]. cbn [bridge_start br_switches app] in Hs.
  assert (device ∈ command_names (asked ins)) as Hin by (rewrite Hs; set_solver).
  apply list_elem_of_omap in Hin as ([d|] & Hc & [= ->]). destruct (command_asked _ _ Hc) as (i & Hi & Hreq).
  destruct (requested_authorized _ _ Hreq) as (req & p & -> & Hm & Ha & _ & Hbody). by exists req, p.
Qed.

Lemma release_requested a params devices version ins b outs :
  bridge_run (bridge_start a params devices version) ins = Some (b, outs) → releases_taken ins ≠ O →
  ∃ req p, Http req p ∈ ins ∧ req_method req = "POST"%string ∧ authorized p req ∧ req_path req = "/api/release"%string.
Proof.
  intros Hr Hrel. destruct (bridge_run_queues _ _ _ _ Hr) as [_ Hn]. cbn [bridge_start br_releases] in Hn.
  assert (command_releases (asked ins) ≠ O) as Hne by lia. unfold command_releases in Hne.
  destruct (omap _ (asked ins)) as [|u l] eqn:E; [done|].
  assert (u ∈ u :: l) as Hu by (left). rewrite <- E in Hu. apply list_elem_of_omap in Hu as ([d|] & Hc & Hd); [done|].
  destruct (command_asked _ _ Hc) as (i & Hi & Hreq).
  destruct (requested_authorized _ _ Hreq) as (req & p & -> & Hm & Ha & Hpath). by exists req, p.
Qed.

Lemma taken_requested a params devices version ins b outs :
  bridge_run (bridge_start a params devices version) ins = Some (b, outs) →
  switches_taken ins ≠ [] ∨ releases_taken ins ≠ O →
  ∃ req p, Http req p ∈ ins ∧ req_method req = "POST"%string ∧ authorized p req.
Proof.
  intros Hr [Hs|Hrel].
  - destruct (switches_taken ins) as [|device l] eqn:E; [done|].
    destruct (switch_requested _ _ _ _ _ _ _ device Hr) as (req & p & ? & ? & ? & _); [rewrite E; left|by exists req, p].
  - destruct (release_requested _ _ _ _ _ _ _ Hr Hrel) as (req & p & ? & ? & ? & _). by exists req, p.
Qed.

(** The status and the program agree on who is connected. *)
Definition status_agrees (p : EndpointParams) (devices : list string) (version : string) (b : Bridge) : Prop :=
  bs_connected (br_status b) = app_connected (br_app b) ∧
  (is_Some (bs_controller_name (br_status b)) ↔ app_connected (br_app b) = true) ∧
  bridge_name (br_status b) = ep_name p ∧ bs_version (br_status b) = version ∧
  available_devices (br_status b) = devices ∧ bs_volume (br_status b) = 100.

Lemma app_step_connected s i w :
  app_connected (app_step hardware_volume s i w).1 =
  match i with
  | TransportEvent (EvConnected _ _) => true
  | TransportEvent EvDisconnected => false
  | _ => app_connected s
  end.
Proof.
  destruct i; cbn [app_step]; try done.
  - by repeat case_match.
  - unfold servo_tick, servo_correct. cbn [fst]. by repeat case_match; simplify_eq.
  - destruct e; cbn [on_event]; try done.
    + unfold on_format_proposed. by case_match.
    + unfold on_audio_packet, deferred_start. cbn [fst]. by repeat case_match.
    + destruct cmd; cbn [on_playback]; try done.
      * unfold on_play. by repeat case_match; simplify_eq.
      * unfold end_use. by case_match.
    + unfold on_volume. by repeat case_match.
    + unfold on_reformat. by case_match.
    + unfold on_disconnected, end_use. by case_match.
  - unfold on_release_request, end_use. by repeat case_match; simplify_eq.
Qed.

Lemma loop_turn_agrees p devices version b i w sw rel :
  status_agrees p devices version b → status_agrees p devices version (loop_turn b i w sw rel).1.
Proof.
  intros (Hc & Hn & Hb & Hv & Ha & Hvol). unfold status_agrees, loop_turn.
  pose proof (app_step_connected (br_app b) i w) as Hstep. destruct (app_step _ _ _ _) as [a outs].
  cbn [fst br_app br_status] in *. rewrite Hstep.
  destruct i; try done; try (by split_and!).
  destruct e; try done; cbn [status_step]; try (by split_and!).
  - unfold status_proposed. by destruct (au_configure _ _ _ _ _ _) as [[]].
  - by destruct cmd.
  - unfold status_reformatted. case_match; [done|]. by destruct (au_configure _ _ _ _ _ _) as [[]].
  - simpl. by split_and!.
Qed.

Lemma loop_step_turn b i w b' o :
  loop_step b i w = Some (b', o) → ∃ sw rel, loop_turn b i w sw rel = (b', o).
Proof. intros Hs. destruct i; cbn [loop_step] in Hs; repeat case_match; simplify_eq; by eexists _, _. Qed.

Lemma bridge_step_agrees p devices version b i b' o r :
  status_agrees p devices version b → bridge_step b i = Some (b', o, r) → status_agrees p devices version b'.
Proof.
  intros Ha Hs. destruct i as [i w|req policy]; cbn [bridge_step] in Hs.
  - destruct (loop_step b i w) as [[b1 o1]|] eqn:E; [|done]. simplify_eq.
    apply loop_step_turn in E as (sw & rel & E). pose proof (loop_turn_agrees _ _ _ b i w sw rel Ha) as H'. by rewrite E in H'.
  - destruct (handle_request _ _ _ _ _ _) as [response cs]. destruct (queue_commands b cs) as [b1|] eqn:E; [|done]. simplify_eq.
    destruct (queue_commands_spec _ _ _ E) as (Hap & Hst & _). unfold status_agrees in *. by rewrite Hap, Hst.
Qed.

(** The commands run for hooks that alternate. *)
Fixpoint alternating (b : bool) (start stop : string) (n : nat) : list (string * string) :=
  match n with
  | O => []
  | S n => (if b then ("stop", stop) else ("start", start))%string :: alternating (negb b) start stop n
  end.

Lemma hook_commands_run cfg b b' start stop hs :
  on_start cfg = Some start → on_stop cfg = Some stop → hook_run b hs = Some b' →
  hook_commands cfg hs = alternating b start stop (length hs).
Proof.
  intros Hstart Hstop. unfold hook_commands. rewrite Hstart, Hstop.
  revert b. induction hs as [|h hs IH]; intros b Hr; [done|]. cbn [hook_run] in Hr. cbn [omap list_omap length alternating].
  destruct b.
  - destruct (String.eqb_spec h "stop") as [->|]; [|done]. cbn. f_equal. by apply IH.
  - destruct (String.eqb_spec h "start") as [->|]; [|done]. cbn. f_equal. by apply IH.
Qed.

(** ** Properties *)

(** The web interface moves the output only on behalf of those who
    may: in any run of the program, every device switch and every release that
    the event loop carries out was asked for by an authorized POST of that run
    (no more releases than asked for, the switches in the order asked), and
    what was asked for and not carried out yet waits in the channels. *)
Theorem moves_only_on_request a params devices version ins b outs :
  bridge_run (bridge_start a params devices version) ins = Some (b, outs) →
  command_names (asked ins) = switches_taken ins ++ br_switches b ∧
  command_releases (asked ins) = (releases_taken ins + br_releases b)%nat ∧
  (∀ device, device ∈ switches_taken ins →
     ∃ req p, Http req p ∈ ins ∧ req_method req = "POST"%string ∧ authorized p req ∧ device_of_body (req_body req) = Some device) ∧
  (releases_taken ins ≠ O →
     ∃ req p, Http req p ∈ ins ∧ req_method req = "POST"%string ∧ authorized p req ∧ req_path req = "/api/release"%string).
Proof.
  intros Hr. destruct (bridge_run_queues _ _ _ _ Hr) as [Hs Hn]. cbn [bridge_start br_switches br_releases app] in Hs, Hn.
  split; [done|]. split; [lia|]. split.
  - intros device. by eapply switch_requested.
  - by eapply release_requested.
Qed.

(** The status tells who is connected: in every state of a run,
    the web page shows the endpoint connected exactly when the program counts
    itself connected, and names a controller exactly then; the name, version
    and devices shown are those of the start.  The volume shown is always 100,
    whatever the controller sets. *)
Theorem status_tracks_connection a p devices version ins b outs :
  bridge_run (bridge_start a p devices version) ins = Some (b, outs) →
  status_agrees p devices version b.
Proof.
  assert (status_agrees p devices version (bridge_start a p devices version)) as Hst.
  { unfold status_agrees, bridge_start. cbn. by split_and!. }
  revert Hst. generalize (bridge_start a p devices version). intros b0 Hst.
  revert b0 outs Hst. induction ins as [|i ins IH]; intros b0 outs Hst Hr; cbn [bridge_run] in Hr; [by simplify_eq|].
  destruct (bridge_step b0 i) as [[[b1 o] r]|] eqn:E; [|done]. destruct (bridge_run b1 ins) as [[b2 os]|] eqn:E2; [|done].
  simplify_eq. eapply IH; [|exact E2]. by eapply bridge_step_agrees.
Qed.

(** C29 A release takes effect: an authorized POST to the release
    route is answered 200 when the channel has room, and the turn of the event
    loop that takes it leaves the output off, however it was used before,
    tells a connected controller, runs the stop hook exactly when the output
    was in use, and shows that nothing plays. *)
Theorem web_release_takes_effect `{!AudioBackendLaws B} b req p :
  req_method req = "POST"%string → req_path req = "/api/release"%string → authorize p req = Ok tt →
  (br_releases b < RELEASE_CHANNEL_CAPACITY)%nat →
  ∃ b1, bridge_step b (Http req p) = Some (b1, [], Some (mkResponse OK (Text (json_text "{'ok':true}")))) ∧
    ∀ w, ∃ b2 outs, bridge_step b1 (Loop ReleaseRequest w) = Some (b2, outs, None) ∧
      off (app_audio (br_app b2)) ∧ app_released (br_app b2) = true ∧ app_output_in_use (br_app b2) = false ∧
      bs_playing (br_status b2) = false ∧ br_releases b2 = br_releases b ∧
      outs = (if app_connected (br_app b)
              then [Ctrl (MEndpointRelease (mkEndpointRelease (app_stream_id (br_app b)) LocalSource))] else [])
             ++ (if app_output_in_use (br_app b) then [Hook "stop"] else []).
Proof.
  intros Hm Hp Ha Hroom. eexists. split.
  { cbn [bridge_step]. unfold handle_request. rewrite Hm, Hp, Ha. cbn -[Nat.ltb RELEASE_CHANNEL_CAPACITY].
    rewrite (proj2 (Nat.ltb_lt _ _) Hroom). reflexivity. }
  intros w. cbn [bridge_step loop_step br_releases]. unfold loop_turn. cbn [br_app br_status br_counts br_switches].
  pose proof (idle_release hardware_volume (br_app b) w) as [Hoff Hrel _ _ _].
  destruct (app_step hardware_volume (br_app b) ReleaseRequest w) as [a os] eqn:E. cbn [fst] in Hoff, Hrel.
  eexists _, _. split; [reflexivity|]. cbn [br_app br_status br_releases]. split_and!; try done.
  all: cbn [app_step] in E; unfold on_release_request, end_use in E; cbn in E;
    destruct (app_output_in_use (br_app b)) eqn:Eu; simplify_eq; cbn; rewrite ?Eu; done.
Qed.

(** A device switch is shown before it is used: the status names
    the new device at once, while the output goes on with the old one, which
    no turn leaves before the next configuration; the next proposal configures
    the device named. *)
Theorem switch_applies_at_next_proposal b device w fp w' :
  head (br_switches b) = Some device →
  ∃ b1, bridge_step b (Loop (DeviceSwitch device) w) = Some (b1, [], None) ∧
    current_device (br_status b1) = device ∧ app_audio (br_app b1) = app_audio (br_app b) ∧
    ∃ b2 outs, bridge_step b1 (Loop (TransportEvent (EvFormatProposed fp)) w') = Some (b2, outs, None) ∧
      app_audio (br_app b2) =
        (au_configure (app_audio (br_app b)) (fp_format fp) (fp_sample_rate fp) (fp_channels fp) (Some device) (w_device w')).2.
Proof.
  intros Hh. destruct (br_switches b) as [|first rest] eqn:Es; [done|]. simplify_eq/=.
  eexists. split. { rewrite Es, bool_decide_eq_true_2 by done. reflexivity. }
  split; [done|]. split; [done|]. cbn. unfold loop_turn. cbn [app_step on_event br_app]. unfold on_format_proposed. cbn.
  destruct (au_configure _ _ _ _ _ _) as [r a]. by eexists _, _.
Qed.

(** The status goes on playing: after metadata, a controller that
    leaves is shown gone and its stream forgotten, and the output is stopped
    and out of use, but the page still shows the track as playing. *)
Theorem status_keeps_playing b m w w' :
  ∃ b' outs, bridge_run b [Loop (TransportEvent (EvMetadata m)) w; Loop (TransportEvent EvDisconnected) w'] = Some (b', outs) ∧
    bs_connected (br_status b') = false ∧ bs_stream_format (br_status b') = None ∧
    app_audio (br_app b') = au_stop (app_audio (br_app b)) ∧ app_output_in_use (br_app b') = false ∧
    bs_playing (br_status b') = true ∧ WebUi.track_title (br_status b') = Some (title (md_track m)).
Proof.
  cbn [bridge_run bridge_step loop_step]. unfold loop_turn. cbn [app_step on_event br_app br_status br_counts br_switches br_releases].
  unfold on_disconnected, end_use. cbn. destruct (app_output_in_use (br_app b)) eqn:Eu; cbn;
    (eexists _, _; split; [reflexivity|]); cbn; by rewrite ?Eu.
Qed.

(** The hook commands alternate: with both configured, the commands run over
    any run are the start command and the stop command in turn, beginning with
    start, each told its event. *)
Theorem hook_commands_alternate cfg start stop a dev ins :
  on_start cfg = Some start → on_stop cfg = Some stop →
  let events := hooks_of (app_run hardware_volume (app_new a dev) ins).2 in
  hook_commands cfg events = alternating false start stop (length events).
Proof.
  intros Hstart Hstop events. eapply hook_commands_run; [done|done|].
  unfold events. clear events. change false with (app_output_in_use (app_new a dev)). apply keeps_hooks_run.
Qed.

End bridge.

(** ** Witnesses *)

#[local] Existing Instance App.no_flac.

Definition bridge_params : EndpointParams :=
  endpoint_params (mkArgs (Some "Tune Bridge"%string) None None false None false false None false) default_config "pi" None.
Definition demo_bridge : @Bridge alsa_backend := bridge_start (B := alsa_backend) AlsaDirectOutput_new bridge_params [] "0.1.0".
Definition demo_device_of_body (_ : list Z) : option string := Some "hw:1"%string.
Definition demo_policy : ControlPolicy := mkPolicy (mkAddr (V4 127 0 0 1) 9741 0) (mkAddr (V4 127 0 0 1) 50000 0) None.
Definition demo_post (path : string) : Request :=
  mkRequest "POST" path [("content-type", Some "application/json")]%string [].
Definition demo_switch : list BridgeInput :=
  [Http (demo_post "/api/device") demo_policy; Loop (DeviceSwitch "hw:1") pi_world].

Definition demo_switched : @Bridge alsa_backend :=
  match bridge_run demo_device_of_body false demo_bridge demo_switch with Some (b, _) => b | None => demo_bridge end.

Lemma demo_switch_runs : bridge_run demo_device_of_body false demo_bridge demo_switch = Some (demo_switched, []).
Proof. reflexivity. Qed.

Lemma moves_only_on_request_witness :
  ∃ req p, Http req p ∈ demo_switch ∧ authorized p req.
Proof.
  pose proof (moves_only_on_request (B := alsa_backend) demo_device_of_body false AlsaDirectOutput_new bridge_params [] "0.1.0"
    demo_switch demo_switched [] demo_switch_runs) as Hmoves. destruct Hmoves as (_ & _ & Hd & _).
  destruct (Hd "hw:1"%string) as (req & p & Hin & _ & Ha & _); [apply list_elem_of_here|]. exists req, p. split; [exact Hin|exact Ha].
Defined.

Definition demo_connected : Bridge :=
  match bridge_run demo_device_of_body false demo_bridge [Loop (TransportEvent (EvConnected "c1" "Server")) pi_world] with
  | Some (b, _) => b
  | None => demo_bridge
  end.

Lemma status_tracks_connection_witness :
  status_agrees bridge_params [] "0.1.0" demo_connected ∧ bs_controller_name (br_status demo_connected) = Some "Server"%string.
Proof.
  split; [|reflexivity].
  eapply (status_tracks_connection (B := alsa_backend) demo_device_of_body false AlsaDirectOutput_new bridge_params [] "0.1.0"
    [Loop (TransportEvent (EvConnected "c1" "Server")) pi_world] demo_connected []).
  reflexivity.
Defined.

Lemma web_release_takes_effect_witness :
  ∃ b1 b2, bridge_step demo_device_of_body false demo_connected (Http (demo_post "/api/release") demo_policy) =
      Some (b1, [], Some (mkResponse OK (Text (json_text "{'ok':true}")))) ∧
    bridge_step demo_device_of_body false b1 (Loop ReleaseRequest pi_world) =
      Some (b2, [Ctrl (MEndpointRelease (mkEndpointRelease "" LocalSource))], None) ∧ bs_playing (br_status b2) = false.
Proof.
  destruct (web_release_takes_effect demo_device_of_body false demo_connected (demo_post "/api/release") demo_policy)
    as (b1 & H1 & H2); [reflexivity|reflexivity|reflexivity|apply Nat.ltb_lt; reflexivity|].
  destruct (H2 pi_world) as (b2 & outs & H3 & _ & _ & _ & Hp & _ & Houts). exists b1, b2.
  split; [exact H1|]. split; [rewrite H3, Houts; reflexivity|exact Hp].
Defined.

Definition demo_asked : Bridge :=
  mkBridge (br_app demo_connected) (br_status demo_connected) (0, 0) ["hw:1"%string] 0.

Lemma switch_applies_at_next_proposal_witness :
  ∃ b1, bridge_step demo_device_of_body false demo_asked (Loop (DeviceSwitch "hw:1") pi_world) = Some (b1, [], None) ∧
    current_device (br_status b1) = "hw:1"%string.
Proof.
  destruct (switch_applies_at_next_proposal demo_device_of_body false demo_asked "hw:1" pi_world
    (mkFormatPropose "s1" PcmS24le 96000 2 Stereo 24 None) pi_world) as (b1 & H1 & H2 & _); [reflexivity|].
  exists b1. split; [exact H1|exact H2].
Defined.

(** On ALSA a configured device is shown as [alsa-direct], whatever it is. *)
Lemma alsa_status_hides_device s fp w st a u :
  configure_with_device (app_audio s) (fp_format fp) (fp_sample_rate fp) (fp_channels fp) (app_device_name s) (w_device w).1.1 = (Ok u, a) →
  current_device (status_proposed s fp w st) = "alsa-direct"%string.
Proof. intros Hc. unfold status_proposed. cbn [au_configure alsa_backend]. by rewrite Hc. Qed.

Lemma hook_commands_alternate_witness :
  hook_commands (mkHooksSection (Some "amp on") (Some "amp off"))%string ["start"; "stop"]%string =
  [("start", "amp on"); ("stop", "amp off")]%string.
Proof.
  exact (hook_commands_alternate (B := alsa_backend) false (mkHooksSection (Some "amp on") (Some "amp off"))%string "amp on" "amp off"
    AlsaDirectOutput_new None
    [(TransportEvent (EvPlayback (CmdPlay "s1")), pi_world); (TransportEvent (EvPlayback (CmdStop "s1")), pi_world)]
    eq_refl eq_refl).
Defined.
