(* ===== verification/WebPage.v ===== *)
(** * The page of the endpoint's web interface

    Models [render_html] of [crates/oaat-endpoint/src/web_ui.rs] and the
    requests the page's script makes.  The literals of the code are written
    with a backtick for each double quote, which they contain and backticks
    they do not.

    Specification side: the elements of an HTML text, by a scanner for tags
    with double-quoted attributes.  The page escapes nothing, so markup in the
    strings a controller sends becomes part of the page; without markup the
    page has the elements of the template. *)

From S2P Require Import Prelude Message Text Float WebUi AudioOutput EndpointTransport App Bridge.
From Stdlib Require Import Ascii.

Local Open Scope Z_scope.

(** ** Literals *)

Fixpoint literal (s : string) : string :=
  match s with
  | EmptyString => EmptyString
  | String a s => String (if Ascii.eqb a "`" then DQUOTE else a) (literal s)
  end.

(** The template between its placeholders. *)
Definition page_0 : string := "<!DOCTYPE html>
<html lang=`en`>
<head>
  <meta charset=`utf-8`>
  <meta name=`viewport` content=`width=device-width, initial-scale=1, user-scalable=no`>
  <title>".
Definition page_1 : string := "</title>
  <style>
    * { margin:0; padding:0; box-sizing:border-box; }
    html { font-size:18px; }
    body { font-family:-apple-system,BlinkMacSystemFont,`Segoe UI`,Roboto,sans-serif;
           background:#0d0d1a; color:#ccc; height:100vh; overflow:hidden;
           display:flex; flex-direction:column; }
    header { display:flex; align-items:center; justify-content:space-between;
              padding:0.6rem 1rem; background:#111125; border-bottom:1px solid #1a1a3a; }
    .bridge-name { font-size:0.85rem; font-weight:600; color:#fff; }
    .conn { display:flex; align-items:center; gap:0.4rem; font-size:0.75rem; }
    .dot { width:8px; height:8px; border-radius:50%; }
    .dot.connected { background:#4ade80; box-shadow:0 0 6px #4ade80; }
    .dot.disconnected { background:#f87171; }
    main { flex:1; display:flex; flex-direction:column; justify-content:center;
            align-items:center; padding:1.5rem; gap:1.5rem; }
    .now-playing { display:flex; align-items:center; gap:1.2rem; width:100%; max-width:500px; }
    .now-playing.idle { opacity:0.4; }
    .art { width:120px; height:120px; border-radius:8px; object-fit:cover;
            background:#1a1a3a; flex-shrink:0; }
    .art-placeholder { width:120px; height:120px; border-radius:8px;
                        background:#1a1a3a; flex-shrink:0;
                        display:flex; align-items:center; justify-content:center; }
    .art-placeholder::after { content:``; display:block; width:40px; height:40px;
                               border-radius:50%; border:3px solid #333; }
    .track-info { min-width:0; }
    .track-title { font-size:1.3rem; font-weight:700; color:#fff;
                    white-space:nowrap; overflow:hidden; text-overflow:ellipsis; }
    .track-artist { font-size:1rem; color:#aaa; margin-top:0.15rem;
                     white-space:nowrap; overflow:hidden; text-overflow:ellipsis; }
    .track-album { font-size:0.8rem; color:#666; margin-top:0.1rem;
                    white-space:nowrap; overflow:hidden; text-overflow:ellipsis; }
    .idle-text { color:#555; font-style:italic; }
    .badge { display:inline-block; margin-top:0.5rem; padding:0.2rem 0.6rem;
              border-radius:4px; font-size:0.7rem; font-weight:600;
              background:#1a1a3a; color:#4ade80; letter-spacing:0.03em; }
    .volume { width:100%; max-width:500px; }
    .vol-row { display:flex; align-items:center; gap:0.8rem; }
    .vol-icon { font-size:1.2rem; color:#888; flex-shrink:0; cursor:pointer; }
    .vol-slider { flex:1; -webkit-appearance:none; appearance:none; height:6px;
                   border-radius:3px; background:#1a1a3a; outline:none; }
    .vol-slider::-webkit-slider-thumb { -webkit-appearance:none; width:24px; height:24px;
                                         border-radius:50%; background:#4ade80; cursor:pointer; }
    .vol-val { font-size:0.8rem; color:#888; width:2.5rem; text-align:right; }
    .device { font-size:0.7rem; color:#555; text-align:center; }
  </style>
</head>
<body>
  <header>
    <span class=`bridge-name`>".
Definition page_2 : string := "</span>
    <span class=`conn`><span class=`dot ".
Definition page_3 : string := "`></span>".
Definition page_4 : string := "</span>
  </header>
  <main>
    ".
Definition page_5 : string := "
    <div class=`volume`>
      <div class=`vol-row`>
        <span class=`vol-icon` onclick=`toggleMute()`>&#128264;</span>
        <input class=`vol-slider` type=`range` min=`0` max=`100` value=`".
Definition page_6 : string := "`
               oninput=`setVol(this.value)`>
        <span class=`vol-val` id=`vol-val`>".
Definition page_7 : string := "%</span>
      </div>
    </div>
    <div class=`device`>".
Definition page_8 : string := "</div>
  </main>
  <script>
    function setVol(v) {
      document.getElementById('vol-val').textContent = v + '%';
      fetch('/api/volume', {method:'POST',
        headers:{'Content-Type':'application/json'},
        body:JSON.stringify({volume:parseInt(v)})
      });
    }
    function toggleMute() {
      fetch('/api/mute', {method:'POST'});
    }
    async function poll() {
      try {
        const r = await fetch('/api/status');
        const s = await r.json();
        if (s.track_title) {
          document.querySelector('.track-title').textContent = s.track_title || 'Unknown';
          document.querySelector('.track-artist').textContent = s.track_artist || '';
          document.querySelector('.track-album').textContent = s.track_album || '';
        }
      } catch(e) {}
    }
    setInterval(poll, 3000);
  </script>
</body>
</html>".

(** ** The badge of the stream *)

(** [x.fract() == 0.0]. *)
Definition f64_fract_is_zero (x : f64) : bool :=
  match x with
  | S754_zero _ => true
  | S754_finite _ m e => if 0 <=? e then true else Z.pos m mod 2 ^ (- e) =? 0
  | _ => false
  end.

(** [{x:.1}] of a positive number: the exact value to the nearest tenth, ties
    to even. *)
Definition tenths (x : f64) : Z :=
  match x with
  | S754_finite _ m e =>
      if 0 <=? e then 10 * Z.pos m * 2 ^ e
      else
        let n := 10 * Z.pos m in let d := 2 ^ (- e) in let q := n / d in
        match 2 * (n mod d) ?= d with Lt => q | Gt => q + 1 | Eq => if Z.even q then q else q + 1 end
  | _ => 0
  end.
Definition f64_fixed1 (x : f64) : string :=
  (print_uint (tenths x / 10) ++ "." ++ print_uint (tenths x mod 10))%string.

Definition rate_text (rate : Z) : string :=
  let rate_khz := f64_div (f64_of_Z rate) (f64_of_Z 1000) in
  if f64_fract_is_zero rate_khz then print_uint (float_trunc rate_khz 0 (2 ^ 32 - 1)) else f64_fixed1 rate_khz.

Definition format_badge (st : BridgeStatus) : string :=
  match bs_stream_format st with
  | Some fmt =>
      let rate := default 0 (bs_stream_sample_rate st) in
      let bits := default 0 (bs_stream_bits st) in
      literal "<span class=`badge`>" ++ fmt ++ " " ++ print_uint bits ++ "/" ++ rate_text rate ++ "</span>"
  | None => ""
  end%string.

(** ** The page *)

Definition art_html (artwork : string) : string :=
  (if bool_decide (artwork = "") then literal "<div class=`art-placeholder`></div>"
   else literal "<img class=`art` src=`" ++ artwork ++ literal "` alt=``>")%string.

Definition now_playing (st : BridgeStatus) : string :=
  if bs_playing st then
    (literal "<div class=`now-playing`>
      " ++ art_html (default "" (bs_artwork_url st)) ++ literal "
      <div class=`track-info`>
        <div class=`track-title`>" ++ default "Unknown" (track_title st) ++ literal "</div>
        <div class=`track-artist`>" ++ default "" (track_artist st) ++ literal "</div>
        <div class=`track-album`>" ++ default "" (track_album st) ++ literal "</div>
        " ++ format_badge st ++ literal "
      </div>
    </div>")%string
  else
    literal "<div class=`now-playing idle`>
      <div class=`art-placeholder`></div>
      <div class=`track-info`><div class=`track-title idle-text`>Idle</div></div>
    </div>".

Definition conn_dot (st : BridgeStatus) : string := if bs_connected st then "connected" else "disconnected".
Definition conn_text (st : BridgeStatus) : string :=
  if bs_connected st then default "Connected"%string (bs_controller_name st) else "Waiting...".

Definition render_html (st : BridgeStatus) : string :=
  (literal page_0 ++ bridge_name st ++ literal page_1 ++ bridge_name st ++ literal page_2 ++ conn_dot st ++
   literal page_3 ++ conn_text st ++ literal page_4 ++ now_playing st ++ literal page_5 ++ print_uint (bs_volume st) ++
   literal page_6 ++ print_uint (bs_volume st) ++ literal page_7 ++ current_device st ++ literal page_8)%string.

(** The text a response carries. *)
Definition body_text (b : Body) (device_json : string → string) : string :=
  match b with
  | Text s | StatusJson s => s
  | Page st => render_html st
  | DeviceOk name => device_json name
  end.

(** ** Specification: the elements of a text *)

(** Outside a tag, in its name, after it, and in a quoted attribute. *)
Inductive Html := InText | InName (name : string) | InTag (name : string) | InQuote (name : string).

Definition snoc (s : string) (a : ascii) : string := (s ++ String a EmptyString)%string.

Definition html_step (st : Html) (a : ascii) : list string * Html :=
  match st with
  | InText => ([], if Ascii.eqb a "<" then InName "" else InText)
  | InName n =>
      if Ascii.eqb a ">" then ([n], InText)
      else if Ascii.eqb a " " || Ascii.eqb a "010" then ([], InTag n) else ([], InName (snoc n a))
  | InTag n => if Ascii.eqb a ">" then ([n], InText) else ([], if Ascii.eqb a DQUOTE then InQuote n else InTag n)
  | InQuote n => ([], if Ascii.eqb a DQUOTE then InTag n else InQuote n)
  end.

Fixpoint scan (st : Html) (s : string) : list string * Html :=
  match s with
  | EmptyString => ([], st)
  | String a s => let '(l, st) := html_step st a in let '(m, st) := scan st s in (l ++ m, st)
  end.

(** The tags of a text in order, and whether it ends outside of them. *)
Definition elements (s : string) : list string := (scan InText s).1.
Definition closed (s : string) : Prop := (scan InText s).2 = InText.

Lemma scan_app st a b : scan st (a ++ b) = ((scan st a).1 ++ (scan (scan st a).2 b).1, (scan (scan st a).2 b).2).
Proof.
  revert st. induction a as [|c a IH]; intros st; simpl; [by apply surjective_pairing|].
  destruct (html_step st c) as [l st']. rewrite IH. destruct (scan st' a) as [m st'']. cbn. by rewrite app_assoc.
Qed.

Lemma scan_closed s : closed s → scan InText s = (elements s, InText).
Proof. unfold closed, elements. destruct (scan InText s); cbn. by intros ->. Qed.

Lemma scan_no_markup s : char_in "<" s = false → scan InText s = ([], InText).
Proof.
  induction s as [|a s IH]; [done|]. cbn. intros [Ha Hs]%orb_false_iff. rewrite Ha, IH by done. done.
Qed.
Lemma no_markup_closed s : char_in "<" s = false → closed s.
Proof. intros H. unfold closed. by rewrite scan_no_markup. Qed.
Lemma no_markup_elements s : char_in "<" s = false → elements s = [].
Proof. intros H. unfold elements. by rewrite scan_no_markup. Qed.

Lemma scan_quoted n s : char_in DQUOTE s = false → scan (InQuote n) s = ([], InQuote n).
Proof.
  induction s as [|a s IH]; [done|]. cbn. intros [Ha Hs]%orb_false_iff. rewrite Ha, IH by done. done.
Qed.


(** ** The elements of the page *)

(** What a fragment adds: a closed text with these elements. *)
Definition fragment (s : string) (tags : list string) : Prop := scan InText s = (tags, InText).

Lemma fragment_app a b l m : fragment a l → fragment b m → fragment (a ++ b) (l ++ m).
Proof. unfold fragment. intros Ha Hb. rewrite scan_app, Ha. cbn. by rewrite Hb. Qed.
Lemma fragment_closed s : closed s → fragment s (elements s).
Proof. apply scan_closed. Qed.
Lemma fragment_plain s : char_in "<" s = false → fragment s [].
Proof. apply scan_no_markup. Qed.
Lemma fragment_empty : fragment "" [].
Proof. done. Qed.
Lemma fragment_elements s tags : fragment s tags → elements s = tags ∧ closed s.
Proof. unfold fragment, elements, closed. by intros ->. Qed.

(** A value in a quoted attribute of a tag. *)
Lemma fragment_attribute a v b l m n :
  scan InText a = (l, InQuote n) → char_in DQUOTE v = false → scan (InQuote n) b = (m, InText) → fragment (a ++ v ++ b) (l ++ m).
Proof. intros Ha Hv Hb. unfold fragment. rewrite scan_app, Ha. cbn. rewrite scan_app, scan_quoted by done. cbn. by rewrite Hb. Qed.

Ltac fragment_literal := vm_compute; reflexivity.

Definition conn_tags : list string := ["/span"; "span"; "span"; "/span"].
Lemma fragment_conn st : fragment (literal page_2 ++ conn_dot st ++ literal page_3) conn_tags.
Proof.
  apply (fragment_attribute _ _ _ ["/span"; "span"]%string ["span"; "/span"]%string "span"); [fragment_literal| |fragment_literal].
  unfold conn_dot. by destruct (bs_connected st).
Qed.

Definition volume_tags : list string := ["div"; "div"; "span"; "/span"; "input"; "span"].
Lemma fragment_volume v : fragment (literal page_5 ++ print_uint v ++ literal page_6) volume_tags.
Proof.
  apply (fragment_attribute _ _ _ ["div"; "div"; "span"; "/span"]%string ["input"; "span"]%string "input"); [fragment_literal| |fragment_literal].
  by apply print_uint_no_char.
Qed.

Definition art_tags (artwork : string) : list string := if bool_decide (artwork = ""%string) then ["div"; "/div"]%string else ["img"]%string.
Lemma fragment_art artwork : char_in DQUOTE artwork = false → fragment (art_html artwork) (art_tags artwork).
Proof.
  intros Ha. unfold art_html, art_tags. case_bool_decide; [fragment_literal|].
  by apply (fragment_attribute _ _ _ [] ["img"]%string "img"); [fragment_literal| |fragment_literal].
Qed.

Lemma digit_text_plain v : char_in "<" (print_uint v) = false.
Proof. by apply print_uint_no_char. Qed.

Lemma rate_text_plain rate : fragment (rate_text rate) [].
Proof.
  unfold rate_text. case_match; [apply fragment_plain, digit_text_plain|]. unfold f64_fixed1.
  apply (fragment_app _ _ [] []); [apply fragment_plain, digit_text_plain|].
  apply (fragment_app "." _ [] []); [done|apply fragment_plain, digit_text_plain].
Qed.

Definition badge_tags (st : BridgeStatus) : list string :=
  match bs_stream_format st with Some fmt => "span"%string :: elements fmt ++ ["/span"%string] | None => [] end.
Lemma fragment_badge st : closed (default ""%string (bs_stream_format st)) → fragment (format_badge st) (badge_tags st).
Proof.
  intros Hf. unfold format_badge, badge_tags. destruct (bs_stream_format st) as [fmt|]; [|done]. cbn in Hf.
  apply (fragment_app _ _ ["span"]%string); [fragment_literal|]. apply fragment_app; [by apply fragment_closed|].
  apply (fragment_app " " _ []); [done|]. apply (fragment_app _ _ []); [apply fragment_plain, digit_text_plain|].
  apply (fragment_app "/" _ []); [done|]. apply (fragment_app _ _ []); [apply rate_text_plain|done].
Qed.

(** The strings of a status that the page shows, each closed. *)
Record presentable (st : BridgeStatus) : Prop := {
  pr_name : closed (bridge_name st);
  pr_device : closed (current_device st);
  pr_controller : closed (default ""%string (bs_controller_name st));
  pr_title : closed (default ""%string (track_title st));
  pr_artist : closed (default ""%string (track_artist st));
  pr_album : closed (default ""%string (track_album st));
  pr_format : closed (default ""%string (bs_stream_format st));
  pr_artwork : char_in DQUOTE (default ""%string (bs_artwork_url st)) = false
}.

Definition playing_tags (st : BridgeStatus) : list string :=
  if bs_playing st then
    ["div"] ++ art_tags (default "" (bs_artwork_url st)) ++ ["div"; "div"] ++ elements (default "" (track_title st)) ++
    ["/div"; "div"] ++ elements (default "" (track_artist st)) ++ ["/div"; "div"] ++ elements (default "" (track_album st)) ++
    ["/div"] ++ badge_tags st ++ ["/div"; "/div"]
  else ["div"; "div"; "/div"; "div"; "div"; "/div"; "/div"; "/div"]%string.

Lemma closed_default d s : closed d → closed (default ""%string s) → closed (default d s).
Proof. by destruct s. Qed.
Lemma elements_default d s : elements d = [] → elements (default d s) = elements (default ""%string s).
Proof. by destruct s. Qed.

Lemma fragment_playing st : presentable st → fragment (now_playing st) (playing_tags st).
Proof.
  intros [_ _ _ Ht Hr Hl Hf Ha]. unfold now_playing, playing_tags. destruct (bs_playing st); [|fragment_literal].
  rewrite <- (elements_default "Unknown" (track_title st)) by done.
  apply fragment_app; [fragment_literal|]. apply fragment_app; [by apply fragment_art|]. apply fragment_app; [fragment_literal|].
  apply fragment_app; [by apply fragment_closed, closed_default|]. apply fragment_app; [fragment_literal|].
  apply fragment_app; [by apply fragment_closed|]. apply fragment_app; [fragment_literal|].
  apply fragment_app; [by apply fragment_closed|]. apply fragment_app; [fragment_literal|].
  apply fragment_app; [by apply fragment_badge|fragment_literal].
Qed.

Definition page_tags (st : BridgeStatus) : list string :=
  ["!DOCTYPE"; "html"; "head"; "meta"; "meta"; "title"] ++ elements (bridge_name st) ++
  ["/title"; "style"; "/style"; "/head"; "body"; "header"; "span"] ++ elements (bridge_name st) ++ conn_tags ++
  (if bs_connected st then elements (default "" (bs_controller_name st)) else []) ++ ["/span"; "/header"; "main"] ++
  playing_tags st ++ volume_tags ++ ["/span"; "/div"; "/div"; "div"] ++ elements (current_device st) ++
  ["/div"; "/main"; "script"; "/script"; "/body"; "/html"]%string.

Lemma fragment_conn_text st :
  closed (default ""%string (bs_controller_name st)) →
  fragment (conn_text st) (if bs_connected st then elements (default ""%string (bs_controller_name st)) else []).
Proof.
  intros Hc. unfold conn_text. destruct (bs_connected st); [|fragment_literal].
  rewrite <- (elements_default "Connected" (bs_controller_name st)) by done. by apply fragment_closed, closed_default.
Qed.

Lemma fragment_app3 a v b r l m : fragment (a ++ v ++ b) l → fragment r m → fragment (a ++ v ++ b ++ r) (l ++ m).
Proof. intros Ha Hr. rewrite (assoc String.append v), (assoc String.append a). by apply fragment_app. Qed.

Lemma fragment_page st : presentable st → fragment (render_html st) (page_tags st).
Proof.
  intros Hp. pose proof (fragment_playing st Hp) as Hplay. destruct Hp as [Hn Hd Hc _ _ _ _ _]. unfold render_html, page_tags.
  apply fragment_app; [fragment_literal|]. apply fragment_app; [by apply fragment_closed|].
  apply fragment_app; [fragment_literal|]. apply fragment_app; [by apply fragment_closed|].
  apply fragment_app3; [apply fragment_conn|]. apply fragment_app; [by apply fragment_conn_text|].
  apply fragment_app; [fragment_literal|]. apply fragment_app; [exact Hplay|].
  apply fragment_app3; [apply fragment_volume|].
  apply (fragment_app _ _ [] _); [apply fragment_plain, digit_text_plain|].
  apply (fragment_app _ _ ["/span"; "/div"; "/div"; "div"]%string); [fragment_literal|].
  apply fragment_app; [by apply fragment_closed|fragment_literal].
Qed.

(** ** The requests of the page *)

(** What the script sends: the slider, the mute symbol and the poll, with the
    headers of a browser on the page's own origin. *)
Definition page_requests (host : string) (volume : Z) : list Request :=
  let origin := [("host", Some host); ("origin", Some (http host))]%string in
  [ mkRequest "POST" "/api/volume" (("content-type", Some "application/json") :: origin)
      (bytes_of (literal ("{`volume`:" ++ print_uint volume ++ "}")));
    mkRequest "POST" "/api/mute" origin [];
    mkRequest "GET" "/api/status" [("host", Some host)] [] ]%string.

Lemma title_in_page st tag :
  presentable st → bs_playing st = true → tag ∈ elements (default ""%string (track_title st)) → tag ∈ elements (render_html st).
Proof.
  intros Hp Hplay Htag. destruct (fragment_elements _ _ (fragment_page st Hp)) as [-> _].
  unfold page_tags, playing_tags. rewrite Hplay. set_solver.
Qed.

(** ** Properties *)

(** C30 While the strings shown are [presentable], that is, while each of them
    ends outside a tag and the artwork address holds no double quote, the
    elements of the page are those of the template with those of the strings in
    their place: nothing is escaped. So without markup in the names and titles
    the page is the template, and a script in a title, artist, album or
    controller name, which come from the network, is a script of the page, with
    the origin from which the endpoint takes commands. (A string that ends
    inside a tag, such as the title "I <3 U", takes the markup after it into
    that tag; of such pages nothing is said.) *)
Theorem page_elements st :
  presentable st →
  elements (render_html st) = page_tags st ∧ closed (render_html st) ∧
  (bs_playing st = true → ∀ tag,
     tag ∈ elements (default "" (track_title st)) ∨ tag ∈ elements (default "" (track_artist st)) ∨ tag ∈ elements (default "" (track_album st)) →
     tag ∈ elements (render_html st)) ∧
  (bs_connected st = true → ∀ tag, tag ∈ elements (default "" (bs_controller_name st)) → tag ∈ elements (render_html st))%string.
Proof.
  intros Hp. destruct (fragment_elements _ _ (fragment_page st Hp)) as [He Hc]. split; [exact He|]. split; [exact Hc|].
  rewrite He. split.
  - intros Hplay tag Htag. assert (tag ∈ playing_tags st) as Hin; [|unfold page_tags; set_solver].
    unfold playing_tags. rewrite Hplay. set_solver.
  - intros Hconn tag Htag. unfold page_tags. rewrite Hconn. set_solver.
Qed.

(** Of the requests the page makes only the poll is answered: whatever the
    policy and the state are, moving the volume and muting get 404 and nothing
    is asked of the program. *)
Theorem page_controls_dead device_of_body st switch_open release_tx p host volume :
  (λ req, (λ r, (resp_code r.1, r.2)) (handle_request device_of_body req st switch_open release_tx p)) <$> page_requests host volume =
  [(NOT_FOUND, []); (NOT_FOUND, []); (OK, [])].
Proof. reflexivity. Qed.

(** From the controller to the page: after the metadata of a track, whoever
    asks for the page gets one whose elements include those of the title. *)
Section served.
Context `{B : AudioBackend} {R : ReportsDevice B} (hardware_volume : bool) (device_of_body : list Z → option string).

Theorem metadata_becomes_markup (b : Bridge) m w headers p device_json :
  presentable (status_metadata (br_status b) (md_track m)) →
  ∃ b' outs response,
    bridge_step device_of_body hardware_volume b (Loop (TransportEvent (EvMetadata m)) w) = Some (b', outs, None) ∧
    bridge_step device_of_body hardware_volume b' (Http (mkRequest "GET" "/" headers []) p) = Some (b', [], Some response) ∧
    resp_code response = OK ∧
    ∀ tag, tag ∈ elements (title (md_track m)) → tag ∈ elements (body_text (resp_body response) device_json).
Proof.
  intros Hp. eexists _, _, _. split; [reflexivity|]. split; [reflexivity|]. split; [reflexivity|].
  intros tag Htag. cbn [resp_body body_text]. apply (title_in_page _ _ Hp); [reflexivity|exact Htag].
Qed.
End served.

(** ** Witnesses *)

#[local] Existing Instance App.no_flac.

Definition song (title : string) : TrackMetadata := mkTrackMetadata title "Boards & Co" "A > B" 180000 None None.
Definition shown (title : string) : BridgeStatus := status_metadata idle_status (song title).

Lemma shown_presentable title : closed title → presentable (shown title).
Proof. intros Ht. by split; try (vm_compute; reflexivity). Qed.

Definition script_title : string := "<script>fetch('/api/release')</script>".

Lemma page_elements_witness :
  elements (render_html (shown "Roygbiv")) = page_tags (shown "Roygbiv") ∧
  length (List.filter (String.eqb "script") (elements (render_html (shown "Roygbiv")))) = 1%nat ∧
  length (List.filter (String.eqb "script") (elements (render_html (shown script_title)))) = 2%nat.
Proof.
  destruct (page_elements (shown "Roygbiv") (shown_presentable "Roygbiv" eq_refl)) as [H1 _].
  destruct (page_elements (shown script_title) (shown_presentable script_title eq_refl)) as [H2 _].
  split; [exact H1|]. rewrite H1, H2. split; vm_compute; reflexivity.
Defined.

Lemma metadata_becomes_markup_witness :
  ∃ b' outs response,
    bridge_step demo_device_of_body false demo_bridge (Loop (TransportEvent (EvMetadata (mkMetadata (song script_title)))) pi_world) = Some (b', outs, None) ∧
    bridge_step demo_device_of_body false b' (Http (mkRequest "GET" "/" [] []) demo_policy) = Some (b', [], Some response) ∧
    resp_code response = OK ∧ ∀ tag, tag ∈ elements script_title → tag ∈ elements (body_text (resp_body response) id).
Proof.
  apply (metadata_becomes_markup false demo_device_of_body demo_bridge (mkMetadata (song script_title)) pi_world [] demo_policy id).
  by split; try (vm_compute; reflexivity).
Defined.

(** The badges of the standard rates. *)
Example standard_rates :
  rate_text <$> [44100; 48000; 88200; 96000; 176400; 192000; 352800; 384000; 2822400; 22050; 11025] =
  ["44.1"; "48"; "88.2"; "96"; "176.4"; "192"; "352.8"; "384"; "2822.4"; "22.1"; "11.0"]%string.
Proof. vm_compute. reflexivity. Qed.
