(* ===== verification/Endpoint.v ===== *)
(** * The whole endpoint

    Puts the two halves of the endpoint program together: the transport of
    [Server] ([crates/oaat-endpoint/src/transport.rs]) and the program of
    [Bridge] ([run_endpoint] of [crates/oaat-cli/src/main.rs]), which run
    concurrently and meet in two bounded channels, [event_tx] (256 events) and
    [ctrl_tx] (32 messages), and in the shared clock.

    The components take their turns at once; here a turn that sends waits until
    all of it is sent.  A turn of the session is over, and its effect visible,
    once its last event is in the channel; the audio task takes no datagram
    while it has events to send; the program's event loop takes no turn while it
    has messages to send.  A run is any sequence of enabled steps. *)

From S2P Require Import Prelude Format Session Wire Message Codec Fec FecRecovery Float Clock Sync Negotiate EndpointTransport ZoneAudio Server Text WebUi Flac Alsa AlsaOutput AudioOutput App Startup Bridge.

Local Open Scope Z_scope.

(** [mpsc::channel(256)]. *)
Definition EVENT_CHANNEL_CAPACITY : nat := 256.

Section node.
Context `{JsonCodec} {IpAddr : Type} {B : AudioBackend} {R : ReportsDevice B}.
Context (cfg : EndpointConfig) (tls : bool) (device_of_body : list Z → option string) (hardware_volume : bool).

Abbreviation sstep := (server_step (IpAddr := IpAddr) cfg tls CTRL_CHANNEL_CAPACITY).
Abbreviation bstep := (bridge_step device_of_body hardware_volume).
Abbreviation brun := (bridge_run device_of_body hardware_volume).

(** [nd_turn] is the read whose messages the session is at work on, [nd_unsent]
    the events of it still to send; likewise for the audio task and, with
    [nd_commands], for the program. *)
Record Node := mkNode {
  nd_server : Server IpAddr;
  nd_turn : option (list Z * Z);
  nd_unsent : list EndpointEvent;
  nd_audio_unsent : list EndpointEvent;
  nd_events : list EndpointEvent;
  nd_bridge : Bridge;
  nd_commands : list Message
}.

Definition node_start (clock : SharedClock) (b : Bridge) : Node := mkNode (server_start clock) None [] [] [] b [].

Inductive NodeInput :=
(** the accept loop, the session, the tasks, and what arrives at the sockets *)
| Serves (i : ServerInput IpAddr)
(** [event_tx.send] of the session and of the audio task *)
| SessionSends
| AudioSends
(** [event_rx.recv()], the other arms of the event loop, and web requests *)
| TakesEvent (w : World)
| Turns (i : BridgeInput)
(** [ctrl_tx.send] *)
| ProgramSends.

(** The turns the transport and the program have completed. *)
Definition Done : Type := (Trace (IpAddr := IpAddr) * list BridgeInput)%type.

Definition events_of (os : list (ServerOutput IpAddr)) : list EndpointEvent := events (session_outs os).

Definition with_server (n : Node) (s : Server IpAddr) : Node :=
  mkNode s (nd_turn n) (nd_unsent n) (nd_audio_unsent n) (nd_events n) (nd_bridge n) (nd_commands n).

(** The end of a session's turn; with the session its audio task ends, in the
    middle of what it had to send. *)
Definition turn_ends (n : Node) (s : Server IpAddr) : Node :=
  mkNode s None [] (if sv_connection s is Some _ then nd_audio_unsent n else []) (nd_events n) (nd_bridge n) (nd_commands n).

Definition of_session (i : ServerInput IpAddr) : bool :=
  match i with
  | Accepted _ _ | AcceptFailed | Received _ _ | StreamFailed _ | TakesControl _ | TimerFired _ => true
  | _ => false
  end.

(** A turn of the transport begins, or takes place if it has nothing to send. *)
Definition serve (n : Node) (i : ServerInput IpAddr) : option (Node * Done) :=
  match sstep (nd_server n) i with
  | None => None
  | Some (s, o) =>
      let done := ([(i, o)], []) in
      if of_session i then
        match nd_turn n with
        | Some _ => None
        | None =>
            match i, events_of o with
            | Received data now, _ :: _ =>
                Some (mkNode (nd_server n) (Some (data, now)) (events_of o) (nd_audio_unsent n) (nd_events n)
                        (nd_bridge n) (nd_commands n), ([], []))
            | _, _ => Some (turn_ends n s, done)
            end
        end
      else
        match i with
        | AppSends _ => None
        | AudioTurn _ | AudioSocketFailed =>
            match nd_audio_unsent n with
            | [] => Some (mkNode s (nd_turn n) (nd_unsent n) (events_of o) (nd_events n) (nd_bridge n) (nd_commands n), done)
            | _ :: _ => None
            end
        | _ => Some (with_server n s, done)
        end
  end.

Definition room (n : Node) : bool := (length (nd_events n) <? EVENT_CHANNEL_CAPACITY)%nat.

Definition session_sends (n : Node) : option (Node * Done) :=
  match nd_turn n, nd_unsent n with
  | Some (data, now), e :: rest =>
      if room n then
        let n := mkNode (nd_server n) (nd_turn n) rest (nd_audio_unsent n) (nd_events n ++ [e]) (nd_bridge n) (nd_commands n) in
        match rest with
        | [] =>
            match sstep (nd_server n) (Received data now) with
            | Some (s, o) => Some (turn_ends n s, ([(Received data now, o)], []))
            | None => None
            end
        | _ :: _ => Some (n, ([], []))
        end
      else None
  | _, _ => None
  end.

Definition audio_sends (n : Node) : option (Node * Done) :=
  match nd_audio_unsent n with
  | e :: rest =>
      if room n
      then Some (mkNode (nd_server n) (nd_turn n) (nd_unsent n) rest (nd_events n ++ [e]) (nd_bridge n) (nd_commands n), ([], []))
      else None
  | [] => None
  end.

(** The program reads the clock the transport keeps. *)
Definition observed (n : Node) (w : World) : World :=
  mkWorld (w_now w) (w_now_report w) (w_instant w) (sv_clock (nd_server n)) (w_device w).

(** A turn of the program; [commands] is what it has left to send from an
    earlier one. *)
Definition program_turn (n : Node) (queue : list EndpointEvent) (i : BridgeInput) : option (Node * Done) :=
  match bstep (nd_bridge n) i with
  | Some (b, outs, _) =>
      Some (mkNode (nd_server n) (nd_turn n) (nd_unsent n) (nd_audio_unsent n) queue b (nd_commands n ++ controls outs), ([], [i]))
  | None => None
  end.

Definition takes_event (n : Node) (w : World) : option (Node * Done) :=
  match nd_commands n, nd_events n with
  | [], e :: rest => program_turn n rest (Loop (TransportEvent e) (observed n w))
  | _, _ => None
  end.

(** The sound device and the web server do not wait for the event loop. *)
Definition turns (n : Node) (i : BridgeInput) : option (Node * Done) :=
  match i with
  | Loop (TransportEvent _) _ => None
  | Loop AudioThread w => program_turn n (nd_events n) (Loop AudioThread (observed n w))
  | Loop i w => match nd_commands n with [] => program_turn n (nd_events n) (Loop i (observed n w)) | _ :: _ => None end
  | Http _ _ => program_turn n (nd_events n) i
  end.

Definition program_sends (n : Node) : option (Node * Done) :=
  match nd_commands n with
  | m :: rest =>
      match sstep (nd_server n) (AppSends m) with
      | Some (s, o) =>
          Some (mkNode s (nd_turn n) (nd_unsent n) (nd_audio_unsent n) (nd_events n) (nd_bridge n) rest, ([(AppSends m, o)], []))
      | None => None
      end
  | [] => None
  end.

Definition node_step (n : Node) (i : NodeInput) : option (Node * Done) :=
  match i with
  | Serves i => serve n i
  | SessionSends => session_sends n
  | AudioSends => audio_sends n
  | TakesEvent w => takes_event n w
  | Turns i => turns n i
  | ProgramSends => program_sends n
  end.

Fixpoint node_run (n : Node) (ins : list NodeInput) : option (Node * Done) :=
  match ins with
  | [] => Some (n, ([], []))
  | i :: ins =>
      match node_step n i with
      | Some (n, (tr, bs)) =>
          match node_run n ins with
          | Some (n, (tr', bs')) => Some (n, (tr ++ tr', bs ++ bs'))
          | None => None
          end
      | None => None
      end
  end.

(** ** What a run is observed to do *)

Definition is_packet (e : EndpointEvent) : bool := match e with EvAudioPacket _ _ => true | _ => false end.

(** The events the program has taken. *)
Definition events_taken (bs : list BridgeInput) : list EndpointEvent :=
  omap (λ i, match i with Loop (TransportEvent e) _ => Some e | _ => None end) bs.

(** What the sessions tell, packets aside. *)
Definition tells (tr : Trace (IpAddr := IpAddr)) : list EndpointEvent :=
  filter (λ e, is_packet e = false) (concat ((λ t, events_of t.2) <$> tr)).

(** The events of the turn at work. *)
Definition turn_events (n : Node) : list EndpointEvent :=
  match nd_turn n with
  | Some (data, now) => match sstep (nd_server n) (Received data now) with Some (_, o) => events_of o | None => [] end
  | None => []
  end.

Definition told (es : list EndpointEvent) : list EndpointEvent := filter (λ e, is_packet e = false) es.
Definition packets_in (es : list EndpointEvent) : list EndpointEvent := filter (λ e, is_packet e = true) es.

(** ** The transport's turns *)

Lemma events_of_app o1 o2 : events_of (o1 ++ o2) = events_of o1 ++ events_of o2.
Proof. unfold events_of, session_outs, events. by rewrite !omap_app. Qed.

Lemma events_of_session o : events_of (SessionOut <$> o) = events o.
Proof. unfold events_of. by rewrite session_outs_fmap. Qed.

(** Control messages, the timer, failures and the accept loop tell nothing;
    only a read and a datagram do. *)
Lemma session_step_tells p i p' o :
  session_step cfg p i = Some (p', o) → match i with TcpRead _ _ => True | _ => events o = [] end.
Proof.
  intros Hs. destruct p as [codec|v|r], i as [data now|e|m|now]; simplify_eq/=; try done.
  - destruct (on_control v m) as [v' o'] eqn:E. simplify_eq. unfold on_control in E.
    destruct m; simplify_eq/=; repeat case_match; simplify_eq; done.
  - unfold on_accept_timer in Hs. repeat case_match; simplify_eq; done.
Qed.

Lemma server_step_tells s i s' o :
  sstep s i = Some (s', o) → match i with Received _ _ | AudioTurn _ => True | _ => events_of o = [] end.
Proof.
  intros Hs. destruct i; cbn [server_step] in Hs; try done; unfold session_turn, clock_turn, clock_request_turn in Hs;
    repeat case_match; simplify_eq; try done; rewrite events_of_session;
    match goal with H : session_step _ _ _ = Some _ |- _ => by apply session_step_tells in H end.
Qed.

(** What a read tells depends on the session alone, *)
Lemma read_same s s1 data now :
  cn_phase <$> sv_connection s1 = cn_phase <$> sv_connection s →
  snd <$> sstep s1 (Received data now) = snd <$> sstep s (Received data now).
Proof.
  intros Hp. cbn [server_step]. unfold session_turn.
  destruct (sv_connection s) as [c|], (sv_connection s1) as [c1|]; simplify_eq/=; [|done].
  rewrite Hp. destruct (session_step cfg (cn_phase c) _) as [[p o]|]; done.
Qed.

(** and that the tasks and what arrives leave as it is. *)
Lemma tasks_keep_phase s i s' o :
  of_session i = false → sstep s i = Some (s', o) → cn_phase <$> sv_connection s' = cn_phase <$> sv_connection s.
Proof.
  intros Hi Hs. destruct i; simplify_eq/=; try done; unfold audio_turn, clock_turn, clock_request_turn in Hs;
    repeat case_match; simplify_eq/=; done.
Qed.

Lemma packets_told o : packets o = packets_in (events_of o).
Proof.
  induction o as [|[[m|e]|to bytes] o IH]; [done|exact IH| |exact IH].
  change (packets (SessionOut (Event e) :: o)) with (packets ([SessionOut (Event e)] ++ o)).
  change (events_of (SessionOut (Event e) :: o)) with (e :: events_of o). rewrite packets_app, IH. unfold packets_in. rewrite filter_cons.
  by destruct e.
Qed.

Lemma no_packets es : packets_in es = [] → told es = es.
Proof.
  unfold packets_in, told. induction es as [|e es IH]; [done|]. rewrite !filter_cons.
  repeat case_decide; try congruence; intros Hp; try done; [f_equal; by apply IH|by destruct (is_packet e)].
Qed.

Lemma all_packets es : packets_in es = es → told es = [].
Proof.
  unfold packets_in, told. induction es as [|e es IH]; [done|]. rewrite !filter_cons.
  repeat case_decide; try congruence; intros Hp; [injection Hp as Hp; by apply IH| |by destruct (is_packet e)].
  exfalso.   pose proof (length_filter (λ e, is_packet e = true) es) as Hl. apply (f_equal length) in Hp. cbn in Hp. lia.
Qed.

(** A read tells no packet, *)
Lemma read_told s data now s' o :
  sstep s (Received data now) = Some (s', o) → packets_in (events_of o) = [] ∧ told (events_of o) = events_of o.
Proof.
  cbn [server_step]. unfold session_turn. destruct (sv_connection s) as [c|]; [|done].
  destruct (session_step cfg (cn_phase c) _) as [[p o1]|] eqn:E; [|done]. intros [= _ <-].
  apply (session_step_quiet (IpAddr := IpAddr)) in E. unfold quiet in E. rewrite packets_told in E.
  split; [done|by apply no_packets].
Qed.

(** and a datagram nothing else. *)
Lemma datagram_told s d s' o :
  sstep s (AudioTurn d) = Some (s', o) → told (events_of o) = [] ∧ packets_in (events_of o) = events_of o.
Proof.
  intros Hs. assert (packets_in (events_of o) = events_of o) as Hp; [|split; [by apply all_packets|done]].
  rewrite <- packets_told. cbn [server_step] in Hs. unfold audio_turn in Hs. repeat case_match; try done; simplify_eq; [|done].
  match goal with H : audio_recv _ _ _ = Ret (?evs, _, _) |- _ => rewrite (audio_recv_packets _ _ _ _ _ _ H); clear; induction evs as [|e es IH] end;
    [done|]. unfold events_of, session_outs, events in *. cbn. by f_equal.
Qed.

(** ** The two parts of a run, and what is between them *)

Record node_inv (clock : SharedClock) (b0 : Bridge) (d : Done) (n : Node) : Prop := {
  ni_server : server_reach cfg tls CTRL_CHANNEL_CAPACITY clock d.1 (nd_server n);
  ni_bridge : ∃ outs, brun b0 d.2 = Some (nd_bridge n, outs) ∧ controls outs = app_sent d.1 ++ nd_commands n;
  ni_told : told (events_taken d.2 ++ nd_events n) ++ nd_unsent n = tells d.1 ++ turn_events n;
  ni_packets : packets_in (events_taken d.2 ++ nd_events n) ++ nd_audio_unsent n `sublist_of` delivered d.1;
  ni_turn : ∀ data now, nd_turn n = Some (data, now) → is_Some (sstep (nd_server n) (Received data now)) ∧ nd_unsent n ≠ [];
  ni_idle : nd_turn n = None → nd_unsent n = [];
  ni_unsent : Forall (λ e, is_packet e = false) (nd_unsent n) ∧ Forall (λ e, is_packet e = true) (nd_audio_unsent n);
  ni_room : (length (nd_events n) ≤ EVENT_CHANNEL_CAPACITY)%nat
}.

Lemma told_app e1 e2 : told (e1 ++ e2) = told e1 ++ told e2.
Proof. apply filter_app. Qed.
Lemma packets_in_app e1 e2 : packets_in (e1 ++ e2) = packets_in e1 ++ packets_in e2.
Proof. apply filter_app. Qed.

Lemma told_one e : is_packet e = false → told [e] = [e] ∧ packets_in [e] = [].
Proof. intros He. unfold told, packets_in. rewrite !filter_cons. repeat case_decide; try congruence. done. Qed.
Lemma packet_one e : is_packet e = true → told [e] = [] ∧ packets_in [e] = [e].
Proof. intros He. unfold told, packets_in. rewrite !filter_cons. repeat case_decide; try congruence. done. Qed.

Lemma told_Forall es : told es = es → Forall (λ e, is_packet e = false) es.
Proof. intros <-. apply Forall_forall. intros e He. unfold told in He. by apply list_elem_of_filter in He as [? _]. Qed.
Lemma packets_Forall es : packets_in es = es → Forall (λ e, is_packet e = true) es.
Proof. intros <-. apply Forall_forall. intros e He. unfold packets_in in He. by apply list_elem_of_filter in He as [? _]. Qed.

Lemma tells_snoc tr i o : tells (tr ++ [(i, o)]) = tells tr ++ told (events_of o).
Proof. unfold tells. rewrite fmap_app, concat_app, filter_app. cbn. by rewrite app_nil_r. Qed.

Lemma app_sent_snoc (tr : Trace (IpAddr := IpAddr)) i o :
  app_sent (tr ++ [(i, o)]) = app_sent tr ++ match i with AppSends m => [m] | _ => [] end.
Proof. unfold app_sent. rewrite omap_app. by destruct i. Qed.

Lemma events_taken_snoc bs i :
  events_taken (bs ++ [i]) = events_taken bs ++ match i with Loop (TransportEvent e) _ => [e] | _ => [] end.
Proof. unfold events_taken. rewrite omap_app. by destruct i as [[]|]. Qed.

(** A turn of a task, or a message queued, leaves the turn at work as it is. *)
Lemma turn_same n s :
  cn_phase <$> sv_connection s = cn_phase <$> sv_connection (nd_server n) → ∀ n', nd_server n' = s → nd_turn n' = nd_turn n →
  turn_events n' = turn_events n ∧
  ∀ data now, is_Some (sstep (nd_server n) (Received data now)) → is_Some (sstep s (Received data now)).
Proof.
  intros Hp n' Hs Ht. unfold turn_events. rewrite Ht, Hs. split.
  - destruct (nd_turn n) as [[data now]|]; [|done]. pose proof (read_same (nd_server n) s data now Hp) as E.
    by destruct (sstep s _) as [[? o1]|], (sstep (nd_server n) _) as [[? o2]|]; simplify_eq/=.
  - intros data now. pose proof (read_same (nd_server n) s data now Hp) as E.
    destruct (sstep s _) as [[? o1]|], (sstep (nd_server n) _) as [[? o2]|]; simplify_eq/=; intros [? ?]; try done; by eexists.
Qed.

(** The transport takes a turn that the session has nothing to send in. *)
Lemma inv_turn clock b0 d n i s o :
  node_inv clock b0 d n → sstep (nd_server n) i = Some (s, o) → nd_turn n = None → events_of o = [] →
  (∀ m, i ≠ AppSends m) → node_inv clock b0 (d.1 ++ [(i, o)], d.2) (turn_ends n s).
Proof.
  intros [Hs (outs & Hb & Hc) Ht Hp Hturn Hidle [Hu Ha] Hr] Hstep Hn Ho Hi.
  assert (turn_events n = []) as Hte by (unfold turn_events; by rewrite Hn). rewrite Hte, (Hidle Hn), !app_nil_r in Ht.
  assert (packets o = []) as Hpk by (by rewrite packets_told, Ho).
  split; cbn [fst snd turn_ends nd_server nd_turn nd_unsent nd_audio_unsent nd_events nd_bridge nd_commands]; try done.
  - by eapply server_reach_step.
  - exists outs. split; [done|]. rewrite app_sent_snoc, Hc. destruct i; rewrite ?app_nil_r; try done. by destruct (Hi m).
  - unfold turn_events. cbn. rewrite tells_snoc, Ho, app_nil_r, !app_nil_r. done.
  - rewrite delivered_snoc, Hpk, app_nil_r. destruct (sv_connection s); [done|]. rewrite app_nil_r.
    etrans; [|exact Hp]. by apply sublist_inserts_r.
  - split; [done|]. by destruct (sv_connection s).
Qed.

(** A task takes a turn, or what arrives is queued. *)
Lemma inv_task clock b0 d n i s o n' :
  node_inv clock b0 d n → sstep (nd_server n) i = Some (s, o) → of_session i = false → (∀ m, i ≠ AppSends m) →
  told (events_of o) = [] →
  (packets o = [] ∧ nd_audio_unsent n' = nd_audio_unsent n ∨ nd_audio_unsent n = [] ∧ nd_audio_unsent n' = events_of o ∧
     packets_in (events_of o) = events_of o) →
  nd_server n' = s → nd_turn n' = nd_turn n → nd_unsent n' = nd_unsent n → nd_events n' = nd_events n →
  nd_bridge n' = nd_bridge n → nd_commands n' = nd_commands n →
  node_inv clock b0 (d.1 ++ [(i, o)], d.2) n'.
Proof.
  intros [Hs (outs & Hb & Hc) Ht Hp Hturn Hidle [Hu Ha] Hr] Hstep Hi Hm Ho Hau E1 E2 E3 E4 E5 E6.
  pose proof (tasks_keep_phase _ _ _ _ Hi Hstep) as Hph. destruct (turn_same n s Hph n' E1 E2) as [Hte Hsome].
  split; cbn [fst snd]; rewrite ?E1, ?E2, ?E3, ?E4, ?E5, ?E6; try done.
  - by eapply server_reach_step.
  - exists outs. split; [done|]. rewrite app_sent_snoc, Hc. destruct i; rewrite ?app_nil_r; try done. by destruct (Hm m).
  - by rewrite Hte, tells_snoc, Ho, app_nil_r.
  - rewrite delivered_snoc. destruct Hau as [[-> ->]|(E & -> & Hpk)]; [by rewrite app_nil_r|].
    rewrite E, app_nil_r in Hp. rewrite packets_told, Hpk. by apply sublist_app.
  - intros data now Hd. destruct (Hturn _ _ Hd) as [??]. split; [by apply Hsome|done].
  - split; [done|]. destruct Hau as [[_ ->]|(_ & -> & Hpk)]; [done|by apply packets_Forall].
Qed.

Definition extend (d d' : Done) : Done := (d.1 ++ d'.1, d.2 ++ d'.2).

Lemma extend_trace d tr : extend d (tr, []) = (d.1 ++ tr, d.2).
Proof. unfold extend. cbn. by rewrite app_nil_r. Qed.
Lemma extend_nothing d : extend d ([], []) = d.
Proof. unfold extend. cbn. rewrite !app_nil_r. by destruct d. Qed.

Lemma inv_serve clock b0 d n i n' d' :
  node_inv clock b0 d n → serve n i = Some (n', d') → node_inv clock b0 (extend d d') n'.
Proof.
  intros Hinv. unfold serve. destruct (sstep (nd_server n) i) as [[s o]|] eqn:Hstep; [|done].
  pose proof (server_step_tells _ _ _ _ Hstep) as Htells. destruct (of_session i) eqn:Hi.
  - destruct (nd_turn n) as [|] eqn:Hn; [done|]. intros Hs.
    assert (events_of o = [] → node_inv clock b0 (d.1 ++ [(i, o)], d.2) (turn_ends n s)) as Hnow.
    { intros Ho. apply inv_turn; try done. intros m ->. done. }
    destruct i; simplify_eq/=; rewrite ?extend_trace; try (by apply Hnow).
    destruct (events_of o) as [|e es] eqn:Ho; simplify_eq; [rewrite extend_trace; by apply Hnow|]. rewrite extend_nothing.
    destruct (read_told _ _ _ _ _ Hstep) as [Hpk Htd]. rewrite Ho in Hpk, Htd.
    destruct Hinv as [Hserver Hb Ht Hp Hturn Hidle [Hu Ha] Hr]. split; cbn; try done.
    + rewrite (Hidle Hn), app_nil_r in Ht. rewrite Ht. unfold turn_events. rewrite Hn. cbn. by rewrite app_nil_r, Hstep, Ho.
    + intros ? ? [= <- <-]. split; [by eexists|done].
    + split; [by apply told_Forall|done].
  - assert (∀ n1, told (events_of o) = [] →
      (packets o = [] ∧ nd_audio_unsent n1 = nd_audio_unsent n ∨ nd_audio_unsent n = [] ∧ nd_audio_unsent n1 = events_of o ∧
        packets_in (events_of o) = events_of o) →
      nd_server n1 = s → nd_turn n1 = nd_turn n → nd_unsent n1 = nd_unsent n → nd_events n1 = nd_events n →
      nd_bridge n1 = nd_bridge n → nd_commands n1 = nd_commands n → (∀ m, i ≠ AppSends m) →
      node_inv clock b0 (d.1 ++ [(i, o)], d.2) n1) as Htask.
    { intros n1 H1 H2 E1 E2 E3 E4 E5 E6 Hm. by eapply inv_task. }
    assert (events_of o = [] → told (events_of o) = [] ∧ packets o = []) as Hnil.
    { intros Ho. by rewrite packets_told, Ho. }
    intros Hs. destruct i; try done; simplify_eq; rewrite ?extend_trace;
      try (destruct (Hnil Htells); apply Htask; try done; by left).
    + destruct (nd_audio_unsent n) eqn:Ea; simplify_eq. rewrite extend_trace.
      destruct (datagram_told _ _ _ _ Hstep) as [??]. apply Htask; try done. by right.
    + destruct (nd_audio_unsent n) eqn:Ea; simplify_eq. rewrite extend_trace. destruct (Hnil Htells) as [? Hp].
      apply Htask; try done. left. by rewrite Htells.
Qed.

Lemma inv_session_sends clock b0 d n n' d' :
  node_inv clock b0 d n → session_sends n = Some (n', d') → node_inv clock b0 (extend d d') n'.
Proof.
  intros Hinv. pose proof Hinv as [Hserver (outs & Hb & Hc) Ht Hp Hturn Hidle [Hu Ha] Hr]. unfold session_sends, room.
  destruct (nd_turn n) as [[data now]|] eqn:En; [|done]. destruct (nd_unsent n) as [|e rest] eqn:Eu; [done|].
  destruct (Nat.ltb_spec (length (nd_events n)) EVENT_CHANNEL_CAPACITY) as [Hroom|]; [|done].
  apply Forall_cons in Hu as [He Hu]. destruct (told_one e He) as [He1 He2].
  assert (told (events_taken d.2 ++ nd_events n ++ [e]) ++ rest = tells d.1 ++ turn_events n) as Ht'.
  { rewrite (assoc_L (++)), told_app, He1, <- (assoc_L (++)). done. }
  assert (packets_in (events_taken d.2 ++ nd_events n ++ [e]) = packets_in (events_taken d.2 ++ nd_events n)) as Hp'.
  { by rewrite (assoc_L (++)), packets_in_app, He2, app_nil_r. }
  assert (length (nd_events n ++ [e]) ≤ EVENT_CHANNEL_CAPACITY)%nat as Hr' by (rewrite length_app; cbn; lia).
  destruct rest as [|e' rest].
  - cbn [nd_server]. destruct (sstep (nd_server n) (Received data now)) as [[s o]|] eqn:Hstep; [|done]. intros [= <- <-].
    rewrite extend_trace. destruct (read_told _ _ _ _ _ Hstep) as [Hpk Htd]. unfold turn_events in Ht'. rewrite En, Hstep, app_nil_r in Ht'.
    split; cbn [fst snd turn_ends nd_server nd_turn nd_unsent nd_audio_unsent nd_events nd_bridge nd_commands]; try done.
    + by eapply server_reach_step.
    + exists outs. rewrite app_sent_snoc, app_nil_r. done.
    + unfold turn_events. cbn. rewrite !app_nil_r, tells_snoc, Htd. done.
    + rewrite delivered_snoc, packets_told, Hpk, app_nil_r, Hp'. destruct (sv_connection s); [done|]. rewrite app_nil_r.
      etrans; [|exact Hp]. by apply sublist_inserts_r.
    + split; [done|]. by destruct (sv_connection s).
  - intros [= <- <-]. rewrite extend_nothing. split; cbn [fst snd nd_server nd_turn nd_unsent nd_audio_unsent nd_events nd_bridge nd_commands]; try done.
    + by exists outs.
    + unfold turn_events in *. rewrite En in Ht'. exact Ht'.
    + by rewrite Hp'.
    + intros ? ? Hd. split; [|done]. by apply Hturn.
Qed.

Lemma inv_audio_sends clock b0 d n n' d' :
  node_inv clock b0 d n → audio_sends n = Some (n', d') → node_inv clock b0 (extend d d') n'.
Proof.
  intros [Hserver Hb Ht Hp Hturn Hidle [Hu Ha] Hr]. unfold audio_sends, room. destruct (nd_audio_unsent n) as [|e rest]; [done|].
  destruct (Nat.ltb_spec (length (nd_events n)) EVENT_CHANNEL_CAPACITY) as [Hroom|]; [|done]. intros [= <- <-]. rewrite extend_nothing.
  apply Forall_cons in Ha as [He Ha]. destruct (packet_one e He) as [He1 He2].
  split; cbn [nd_server nd_turn nd_unsent nd_audio_unsent nd_events nd_bridge nd_commands]; try done.
  - by rewrite (assoc_L (++)), told_app, He1, app_nil_r.
  - by rewrite (assoc_L (++)), packets_in_app, He2, <- (assoc_L (++)).
  - rewrite length_app. cbn. lia.
Qed.

(** The program takes a turn, on the first event of the channel or without. *)
Lemma inv_program_turn clock b0 d n queue i n' d' :
  node_inv clock b0 d n → program_turn n queue i = Some (n', d') →
  nd_events n = match i with Loop (TransportEvent e) _ => [e] | _ => [] end ++ queue → node_inv clock b0 (extend d d') n'.
Proof.
  intros [Hserver (outs & Hb & Hc) Ht Hp Hturn Hidle Hu Hr]. unfold program_turn.
  destruct (bstep (nd_bridge n) i) as [[[b o] r]|] eqn:Hstep; [|done]. intros [= <- <-] Hq.
  unfold extend. cbn [fst snd]. rewrite app_nil_r.
  split; cbn [fst snd nd_server nd_turn nd_unsent nd_audio_unsent nd_events nd_bridge nd_commands]; try done.
  - exists (outs ++ o). split; [by eapply bridge_run_snoc|]. unfold controls in *. by rewrite omap_app, Hc, <- (assoc_L (++)).
  - by rewrite events_taken_snoc, <- (assoc_L (++)), <- Hq.
  - by rewrite events_taken_snoc, <- (assoc_L (++)), <- Hq.
  - rewrite Hq, length_app in Hr. lia.
Qed.

Lemma inv_program_sends clock b0 d n n' d' :
  node_inv clock b0 d n → program_sends n = Some (n', d') → node_inv clock b0 (extend d d') n'.
Proof.
  intros [Hserver (outs & Hb & Hc) Ht Hp Hturn Hidle Hu Hr]. unfold program_sends. destruct (nd_commands n) as [|m rest]; [done|].
  destruct (sstep (nd_server n) (AppSends m)) as [[s o]|] eqn:Hstep; [|done]. intros [= <- <-]. rewrite extend_trace.
  pose proof (tasks_keep_phase _ (AppSends m) _ _ eq_refl Hstep) as Hph.
  assert (o = []) as -> by (cbn in Hstep; repeat case_match; by simplify_eq).
  destruct (turn_same n s Hph (mkNode s (nd_turn n) (nd_unsent n) (nd_audio_unsent n) (nd_events n) (nd_bridge n) rest) eq_refl eq_refl) as [Hte Hsome].
  split; cbn [fst snd nd_server nd_turn nd_unsent nd_audio_unsent nd_events nd_bridge nd_commands]; try done.
  - by eapply server_reach_step.
  - exists outs. split; [done|]. by rewrite app_sent_snoc, Hc, <- (assoc_L (++)).
  - by rewrite Hte, tells_snoc, app_nil_r.
  - by rewrite delivered_snoc, app_nil_r.
  - intros data now Hd. destruct (Hturn _ _ Hd). split; [by apply Hsome|done].
Qed.

Lemma inv_step clock b0 d n i n' d' :
  node_inv clock b0 d n → node_step n i = Some (n', d') → node_inv clock b0 (extend d d') n'.
Proof.
  intros Hinv Hs. destruct i as [i| | |w|i|]; cbn [node_step] in Hs.
  - by eapply inv_serve.
  - by eapply inv_session_sends.
  - by eapply inv_audio_sends.
  - unfold takes_event in Hs. destruct (nd_commands n); [|done]. destruct (nd_events n) eqn:Ee; [done|]. by eapply inv_program_turn.
  - destruct i as [[] w|req p]; cbn [turns] in Hs; try done; try (destruct (nd_commands n) eqn:Ec; [|done]); by eapply inv_program_turn.
  - by eapply inv_program_sends.
Qed.

Lemma inv_run clock b0 d n ins n' d' :
  node_inv clock b0 d n → node_run n ins = Some (n', d') → node_inv clock b0 (extend d d') n'.
Proof.
  revert d n d'. induction ins as [|i ins IH]; intros d n d' Hinv Hr; cbn [node_run] in Hr.
  { simplify_eq. by rewrite extend_nothing. }
  destruct (node_step n i) as [[n1 [tr bs]]|] eqn:E; [|done]. destruct (node_run n1 ins) as [[n2 [tr' bs']]|] eqn:E2; [|done]. simplify_eq.
  pose proof (IH _ _ _ (inv_step _ _ _ _ _ _ _ Hinv E) E2) as H'. unfold extend in *. cbn [fst snd] in *. by rewrite <- !(assoc_L (++)) in H'.
Qed.

Lemma inv_start clock b : node_inv clock b ([], []) (node_start clock b).
Proof. split; try done; [apply server_reach_start|by exists []|cbn; unfold EVENT_CHANNEL_CAPACITY; lia]. Qed.

(** ** What the parts know of each other *)

Lemma server_reach_mid clock tr s i o :
  server_reach cfg tls CTRL_CHANNEL_CAPACITY clock tr s → (i, o) ∈ tr →
  ∃ pre s1 s2, server_reach cfg tls CTRL_CHANNEL_CAPACITY clock pre s1 ∧ sstep s1 i = Some (s2, o).
Proof.
  induction 1 as [|tr s i0 s' o0 Hr IH Hs]; [by intros ?%elem_of_nil|].
  intros [Hin|[= -> ->]%list_elem_of_singleton]%elem_of_app; [by apply IH|by exists tr, s, s'].
Qed.

(** Every turn that writes to the controller is a turn of a session that has
    been run so far as [session_step] says. *)
Lemma turn_of_session clock tr s (i : ServerInput IpAddr) (o : list (ServerOutput IpAddr)) :
  server_reach cfg tls CTRL_CHANNEL_CAPACITY clock tr s → (i, o) ∈ tr →
  match session_input i with
  | Some i' => ∃ p p' o', phase_ok p ∧ session_step cfg p i' = Some (p', o') ∧ session_outs o = o'
  | None => written (session_outs o) = []
  end.
Proof.
  intros Hr Hin. destruct (server_reach_mid _ _ _ _ _ Hr Hin) as (pre & s1 & s2 & Hpre & Hs).
  assert (∀ i' s3, sv_connection s3 = sv_connection s1 → session_turn cfg s3 i' = Some (s2, o) →
            ∃ p p' o', phase_ok p ∧ session_step cfg p i' = Some (p', o') ∧ session_outs o = o') as Hturn.
  { intros i' s3 Hc. unfold session_turn. rewrite Hc. destruct (sv_connection s1) as [c|] eqn:Hc1; [|done].
    destruct (session_step cfg (cn_phase c) i') as [[p o']|] eqn:E; [|done]. intros [= _ <-].
    apply server_reach_serves in Hpre. unfold serves in Hpre. rewrite Hc1 in Hpre.
    destruct Hpre as (? & ? & post & _ & _ & _ & Hreach & _).
    exists (cn_phase c), p, o'. split; [by eapply session_reach_ok|]. split; [done|]. apply session_outs_fmap. }
  destruct i; cbn [server_step session_input] in *; try (by eapply Hturn);
    try (unfold audio_turn, clock_turn, clock_request_turn in Hs; repeat case_match; by simplify_eq).
  - destruct (sv_channel s1) as [|first rest]; [done|]. case_bool_decide; [|done]. eapply Hturn; [|exact Hs]. done.
  - unfold audio_turn in Hs. repeat case_match; try done; simplify_eq; [|done]. clear.
    match goal with |- context [_ <$> ?evs] => induction evs as [|ev evs IH] end; [done|exact IH].
Qed.

(** With deferred accepts, a stream is accepted on a message of the program, or
    by the timer. *)
Lemma accept_written clock tr s (i : ServerInput IpAddr) (o : list (ServerOutput IpAddr)) a :
  cfg_defer_format_accept cfg = true → server_reach cfg tls CTRL_CHANNEL_CAPACITY clock tr s → (i, o) ∈ tr →
  MFormatAccept a ∈ written (session_outs o) → i = TakesControl (MFormatAccept a) ∨ ∃ now, i = TimerFired now.
Proof.
  intros Hdefer Hr Hin Ha. pose proof (turn_of_session _ _ _ _ _ Hr Hin) as Hturn.
  destruct (session_input i) as [i'|] eqn:Ei; [|rewrite Hturn in Ha; by apply elem_of_nil in Ha].
  destruct Hturn as (p & p' & o' & Hp & Hs & Ho). rewrite Ho in Ha.
  destruct (session_step_spec _ _ _ _ _ Hs Hp) as (_ & _ & Hacc).
  destruct (Hacc Hdefer a Ha) as [->|(v & dl & now & _ & -> & _)]; destruct i; simplify_eq/=; eauto.
Qed.

Lemma app_accepts s i w a :
  MFormatAccept a ∈ controls (app_step hardware_volume s i w).2 →
  ∃ fp, i = TransportEvent (EvFormatProposed fp) ∧ fp_stream_id fp = fa_stream_id a ∧
    ∃ au, au_configure (app_audio s) (fp_format fp) (fp_sample_rate fp) (fp_channels fp) (app_device_name s) (w_device w) = (Ok tt, au).
Proof.
  assert (∀ s', MFormatAccept a ∈ controls (end_use s').2 → False) as Hend.
  { intros s'. unfold end_use. case_match; cbn; by intros ?%elem_of_nil. }
  destruct i as [| | |e| |name]; cbn [app_step]; try by intros ?%elem_of_nil.
  - repeat case_match; by intros ?%elem_of_nil.
  - unfold servo_tick, stream_stats. repeat case_match; simplify_eq; cbn; rewrite ?list_elem_of_singleton; try done;
      intros ?%elem_of_nil; done.
  - destruct e as [|fp| | | |cmd| |cmd| |sid fmt rate| | | | |]; cbn [on_event]; try by intros ?%elem_of_nil.
    + unfold on_format_proposed. cbn [app_audio app_device_name].
      destruct (au_configure _ _ _ _ _ _) as [[[]|e] au] eqn:E; cbn; intros Hin%list_elem_of_singleton; simplify_eq.
      exists fp. split; [done|]. split; [done|]. by exists au.
    + destruct cmd; cbn [on_playback]; try by intros ?%elem_of_nil.
      * unfold on_play. repeat case_match; simplify_eq; cbn; by intros ?%elem_of_nil.
      * by intros ?%Hend.
    + unfold on_volume. repeat case_match; by intros ?%elem_of_nil.
    + unfold on_reformat. case_match; by intros ?%elem_of_nil.
    + unfold on_disconnected. by intros ?%Hend.
  - unfold on_release_request, end_use. repeat case_match; simplify_eq; cbn; rewrite ?list_elem_of_singleton; try done; by intros ?%elem_of_nil.
Qed.

(** A message the program has sent to accept a stream comes from a turn in which
    it configured its output for a proposal of that stream. *)
Lemma accept_sent b bs b' outs a :
  brun b bs = Some (b', outs) → MFormatAccept a ∈ controls outs →
  ∃ pre fp w post b1 o1, bs = pre ++ Loop (TransportEvent (EvFormatProposed fp)) w :: post ∧ brun b pre = Some (b1, o1) ∧
    fp_stream_id fp = fa_stream_id a ∧
    ∃ au, au_configure (app_audio (br_app b1)) (fp_format fp) (fp_sample_rate fp) (fp_channels fp) (app_device_name (br_app b1))
            (w_device w) = (Ok tt, au).
Proof.
  revert b outs. induction bs as [|i bs IH]; intros b outs Hr Ha; cbn [bridge_run] in Hr.
  { simplify_eq. by apply elem_of_nil in Ha. }
  destruct (bstep b i) as [[[b1 o] r]|] eqn:E; [|done]. destruct (brun b1 bs) as [[b2 os]|] eqn:E2; [|done]. simplify_eq.
  unfold controls in Ha. rewrite omap_app in Ha. apply elem_of_app in Ha as [Ha|Ha].
  - destruct i as [i w|req p]; cbn [bridge_step] in E.
    2:{ destruct (handle_request _ _ _ _ _ _) as [? cs]. destruct (queue_commands b cs); [|done]. simplify_eq. by apply elem_of_nil in Ha. }
    destruct (loop_step _ b i w) as [[b3 o3]|] eqn:El; [|done]. simplify_eq.
    apply loop_step_turn in El as (sw & rel & El). unfold loop_turn in El.
    pose proof (app_accepts (br_app b) i w a) as Hacc. destruct (app_step _ _ _ _) as [a' outs']. simplify_eq.
    destruct (Hacc Ha) as (fp & -> & Hid & Hau). by exists [], fp, w, bs, b, [].
  - destruct (IH _ _ E2 Ha) as (pre & fp & w & post & b3 & o3 & -> & Hpre & Hid & Hc).
    exists (i :: pre), fp, w, post, b3, (o ++ o3). cbn [bridge_run]. rewrite E, Hpre. done.
Qed.

(** ** Waiting *)

(** Neither the session nor the program can go on: each waits for room in the
    channel the other would have to empty. *)
Definition wedged (n : Node) : Prop :=
  nd_unsent n ≠ [] ∧ length (nd_events n) = EVENT_CHANNEL_CAPACITY ∧
  nd_commands n ≠ [] ∧ length (sv_channel (nd_server n)) = CTRL_CHANNEL_CAPACITY.

(** The steps by which the parts pass on what they have: nothing new arrives. *)
Definition passes_on (i : NodeInput) : bool :=
  match i with
  | SessionSends | AudioSends | TakesEvent _ | ProgramSends | Serves (TakesControl _) => true
  | _ => false
  end.

(** Nothing is left to pass on, but for messages to a controller not there. *)
Definition settled (n : Node) : Prop :=
  nd_unsent n = [] ∧ nd_audio_unsent n = [] ∧ nd_events n = [] ∧ nd_commands n = [].

Definition is_proposal (e : EndpointEvent) : bool := match e with EvFormatProposed _ => true | _ => false end.

Definition proposals (es : list EndpointEvent) : nat := length (filter (λ e, is_proposal e = true) es).

#[local] Arguments proposals : simpl never.

(** The messages that are, or will be, in the channel to the transport. *)
Definition load (n : Node) : nat :=
  length (sv_channel (nd_server n)) + length (nd_commands n) + proposals (nd_events n ++ nd_unsent n).

(** How many steps it can take to pass everything on. *)
Definition work (n : Node) : nat :=
  4 * length (nd_unsent n) + 4 * length (nd_audio_unsent n) + 3 * length (nd_events n) +
  2 * length (nd_commands n) + length (sv_channel (nd_server n)).

Lemma app_answers s e w :
  length (controls (app_step hardware_volume s (TransportEvent e) w).2) = proposals [e].
Proof.
  cbn [app_step]. destruct e as [|fp| | | |cmd| |cmd| |sid fmt rate| | | | |]; cbn [on_event]; try done.
  - unfold on_format_proposed. by destruct (au_configure _ _ _ _ _ _).
  - destruct cmd; cbn [on_playback]; try done.
    + unfold on_play. repeat case_match; by simplify_eq.
    + unfold end_use. by case_match.
  - unfold on_volume. by repeat case_match.
  - unfold on_reformat. by case_match.
  - unfold on_disconnected, end_use. by case_match.
Qed.

Lemma proposals_app e1 e2 : proposals (e1 ++ e2) = (proposals e1 + proposals e2)%nat.
Proof. unfold proposals. by rewrite filter_app, length_app. Qed.

Lemma proposals_cons e es : proposals (e :: es) = (proposals [e] + proposals es)%nat.
Proof. apply (proposals_app [e] es). Qed.

Lemma proposals_le e : (proposals [e] ≤ 1)%nat.
Proof. unfold proposals. etrans; [apply length_filter|]. done. Qed.

(** A step that passes something on. *)
Lemma takes_event_spec n w n' d' :
  takes_event n w = Some (n', d') →
  ∃ e rest, nd_events n = e :: rest ∧ nd_commands n = [] ∧ nd_events n' = rest ∧ nd_unsent n' = nd_unsent n ∧
    nd_audio_unsent n' = nd_audio_unsent n ∧ nd_server n' = nd_server n ∧ length (nd_commands n') = proposals [e].
Proof.
  unfold takes_event, program_turn. destruct (nd_commands n) eqn:Ec; [|done]. destruct (nd_events n) as [|e rest]; [done|].
  cbn [bridge_step loop_step]. unfold loop_turn. pose proof (app_answers (br_app (nd_bridge n)) e (observed n w)) as Ha.
  destruct (app_step _ _ _ _) as [a o]. intros [= <- <-]. exists e, rest. by cbn.
Qed.

Lemma channel_same s i s' o :
  sstep s i = Some (s', o) → (∀ m, i ≠ AppSends m ∧ i ≠ TakesControl m) → sv_channel s' = sv_channel s.
Proof.
  intros Hs Hi. destruct (server_step_queues _ _ _ _ _ _ _ Hs) as (Hq & _). destruct i; cbn in Hq; rewrite ?app_nil_r in Hq; try done;
    match goal with m : Message |- _ => by destruct (Hi m) end.
Qed.

Lemma passes_on_step n i n' d' :
  Forall (λ e, is_packet e = true) (nd_audio_unsent n) → node_step n i = Some (n', d') → passes_on i = true → (work n' < work n)%nat ∧ (load n' ≤ load n)%nat.
Proof.
  intros Hpk Hs Hi. destruct i as [i| | |w|i|]; try done; cbn [node_step] in Hs.
  - destruct i as [| | | |m| | | | | | | | |]; try done. unfold serve in Hs.
    destruct (sstep (nd_server n) (TakesControl m)) as [[s o]|] eqn:Hstep; [|done].
    destruct (server_step_queues _ _ _ _ _ _ _ Hstep) as (Hq & _). cbn in Hq. rewrite app_nil_r in Hq.
    cbn in Hs. destruct (nd_turn n); [done|]. simplify_eq. unfold work, load. cbn. rewrite Hq. cbn [length].
    destruct (sv_connection s); cbn; rewrite app_nil_r, proposals_app; lia.
  - unfold session_sends in Hs. destruct (nd_turn n) as [[data now]|]; [|done]. destruct (nd_unsent n) as [|e rest] eqn:Eu; [done|].
    destruct (room n); [|done]. destruct rest as [|e' rest].
    + cbn [nd_server] in Hs. destruct (sstep (nd_server n) (Received data now)) as [[s o]|] eqn:Hstep; [|done]. simplify_eq.
      apply channel_same in Hstep; [|done]. unfold work, load. cbn. rewrite Hstep, Eu, !app_nil_r, length_app. cbn.
      destruct (sv_connection s); cbn; lia.
    + simplify_eq. unfold work, load. cbn. rewrite Eu, <- (assoc_L (++)), length_app. cbn. lia.
  - unfold audio_sends in Hs. destruct (nd_audio_unsent n) as [|e rest] eqn:Ea; [done|]. destruct (room n); [|done]. simplify_eq.
    unfold work, load. cbn. rewrite Ea, !length_app. cbn. rewrite !proposals_app.
    apply Forall_cons in Hpk as [He _]. assert (proposals [e] = 0%nat) as -> by by destruct e. lia.
  - apply takes_event_spec in Hs as (e & rest & E1 & E2 & E3 & E4 & E5 & E6 & E7). pose proof (proposals_le e).
    unfold work, load. rewrite E1, E2, E3, E4, E5, E6, E7, !proposals_app, (proposals_cons e rest). cbn [length]. lia.
  - unfold program_sends in Hs. destruct (nd_commands n) as [|m rest] eqn:Ec; [done|].
    destruct (sstep (nd_server n) (AppSends m)) as [[s o]|] eqn:Hstep; [|done]. simplify_eq.
    destruct (server_step_queues _ _ _ _ _ _ _ Hstep) as (Hq & _). cbn in Hq.
    unfold work, load. cbn. rewrite Ec, <- Hq, length_app. cbn. lia.
Qed.

(** The steps that could be enabled. *)
Definition candidates (w : World) (n : Node) : list NodeInput :=
  [SessionSends; AudioSends; TakesEvent w; ProgramSends] ++
  match sv_channel (nd_server n) with m :: _ => [Serves (TakesControl m)] | [] => [] end.

Lemma candidates_pass w n : Forall (λ i, passes_on i = true) (candidates w n).
Proof. unfold candidates. destruct (sv_channel _); by repeat constructor. Qed.

(** Where nothing more can be passed on. *)
Lemma stuck clock b0 d n (w : World) :
  node_inv clock b0 d n → Forall (λ i, node_step n i = None) (candidates w n) →
  settled n ∨ wedged n ∨
  nd_commands n ≠ [] ∧ (CTRL_CHANNEL_CAPACITY ≤ length (sv_channel (nd_server n)))%nat ∧ nd_turn n = None ∧
    ∀ c v, sv_connection (nd_server n) = Some c → cn_phase c ≠ Running v.
Proof.
  intros [Hserver Hb Ht Hp Hturn Hidle Hu Hr] Hstuck.
  apply Forall_app in Hstuck as [Hstuck Hcontrol].
  rewrite !Forall_cons in Hstuck. destruct Hstuck as (Hs1 & Hs2 & Hs3 & Hs4 & _).
  assert (nd_commands n = [] → nd_events n = []) as Hevents.
  { intros Hc. pose proof Hs3 as Hs. cbn [node_step] in Hs. unfold takes_event, program_turn in Hs.
    rewrite Hc in Hs. destruct (nd_events n) as [|e rest]; [done|]. cbn [bridge_step loop_step] in Hs. by destruct (loop_turn _ _ _ _ _). }
  assert (nd_unsent n ≠ [] → room n = false) as Hsession.
  { intros Hne. pose proof Hs1 as Hs. cbn [node_step] in Hs. unfold session_sends in Hs.
    destruct (nd_turn n) as [[data now]|] eqn:En; [|by rewrite Hidle in Hne]. destruct (Hturn _ _ eq_refl) as [[[s o] Hsome] _].
    destruct (nd_unsent n) as [|e [|e' rest]], (room n); try done. cbn [nd_server] in Hs. by rewrite Hsome in Hs. }
  assert (nd_audio_unsent n ≠ [] → room n = false) as Haudio.
  { intros Hne. pose proof Hs2 as Hs. cbn [node_step] in Hs. unfold audio_sends in Hs.
    destruct (nd_audio_unsent n) as [|e rest], (room n); done. }
  assert (room n = false → length (nd_events n) = EVENT_CHANNEL_CAPACITY) as Hfull.
  { unfold room. rewrite Nat.ltb_ge. lia. }
  destruct (decide (nd_commands n = [])) as [Hc|Hc].
  - left. specialize (Hevents Hc). assert (room n = true) as Hroom by (unfold room; rewrite Hevents; done).
    split_and!; try done; apply dec_stable; intros Hne; [specialize (Hsession Hne)|specialize (Haudio Hne)]; congruence.
  - right. pose proof Hs4 as Hs. cbn [node_step] in Hs. unfold program_sends in Hs.
    destruct (nd_commands n) as [|m rest] eqn:Ec; [done|]. cbn [server_step] in Hs.
    destruct (Nat.ltb_spec (length (sv_channel (nd_server n))) CTRL_CHANNEL_CAPACITY) as [|Hlen]; [done|].
    destruct (decide (nd_turn n = None)) as [En|En].
    + right. split_and!; try done. intros c v Hcon Hph.
      destruct (sv_channel (nd_server n)) as [|first q] eqn:Eq; [unfold CTRL_CHANNEL_CAPACITY in Hlen; cbn in Hlen; lia|].
      apply Forall_cons in Hcontrol as [Hs5 _]. cbn [node_step] in Hs5. unfold serve in Hs5. cbn [server_step] in Hs5.
      rewrite Eq, bool_decide_eq_true_2 in Hs5 by done. unfold session_turn in Hs5. cbn [with_channel sv_connection] in Hs5.
      rewrite Hcon, Hph in Hs5. cbn [session_step] in Hs5. destruct (on_control v first) as [v' o']. cbn [of_session] in Hs5. by rewrite En in Hs5.
    + left. destruct (nd_turn n) as [[data now]|] eqn:Et; [|done]. destruct (Hturn _ _ eq_refl) as [_ Hne].
      unfold wedged. rewrite Ec. split_and!; try done; [by apply Hfull, Hsession|]. destruct (queues_inv _ _ _ _ _ _ Hserver) as (_ & Hcap & _). lia.
Qed.

Lemma not_wedged n : (load n ≤ CTRL_CHANNEL_CAPACITY)%nat → ¬ wedged n.
Proof.
  intros Hl (_ & _ & Hc & Hch). unfold load in Hl. rewrite Hch in Hl. destruct (nd_commands n); [done|]. cbn [length] in Hl. lia.
Qed.

(** A wedged endpoint lets nothing pass; packets and requests pile up. *)
Lemma wedged_step n i n' d' :
  wedged n → nd_turn n ≠ None → node_step n i = Some (n', d') →
  nd_unsent n' = nd_unsent n ∧ nd_events n' = nd_events n ∧ nd_commands n' = nd_commands n ∧ nd_turn n' = nd_turn n ∧
  sv_channel (nd_server n') = sv_channel (nd_server n) ∧
  Forall (λ t, of_session t.1 = false) d'.1 ∧ app_sent d'.1 = [] ∧
  Forall (λ i, match i with Loop AudioThread _ | Http _ _ => True | _ => False end) d'.2.
Proof.
  intros (Hu & He & Hc & Hch) Ht Hs. assert (room n = false) as Hroom by (unfold room; rewrite He; by apply Nat.ltb_irrefl).
  destruct i as [i| | |w|i|]; cbn [node_step] in Hs.
  - unfold serve in Hs. destruct (sstep (nd_server n) i) as [[s o]|] eqn:Hstep; [|done].
    destruct (of_session i) eqn:Hi; [by destruct (nd_turn n)|].
    assert (sv_channel s = sv_channel (nd_server n) ∨ ∃ m, i = AppSends m) as [Hsame|[m ->]]; [|clear Hu|done].
    { destruct i; try done; try (left; by eapply channel_same); by right; eexists. }
    assert (∀ n1, Some (n1, ([(i, o)], [])) = Some (n', d') → d' = ([(i, o)], []) ∧ n1 = n') as Hinj by by intros ? [= -> ->].
    destruct i; try done; try (destruct (nd_audio_unsent n); [|done]); apply Hinj in Hs as [-> <-]; cbn; split_and!; try done; by constructor.
  - unfold session_sends in Hs. destruct (nd_turn n) as [[]|]; [|done]. destruct (nd_unsent n); [done|]. by rewrite Hroom in Hs.
  - unfold audio_sends in Hs. destruct (nd_audio_unsent n); [done|]. by rewrite Hroom in Hs.
  - unfold takes_event in Hs. by destruct (nd_commands n).
  - assert (∀ i' n1, program_turn n (nd_events n) i' = Some (n1, d') → n1 = n' →
      match i' with Loop AudioThread _ | Http _ _ => True | _ => False end →
      nd_unsent n' = nd_unsent n ∧ nd_events n' = nd_events n ∧ nd_commands n' = nd_commands n ∧ nd_turn n' = nd_turn n ∧
      nd_server n' = nd_server n ∧ d' = ([], [i'])) as Hturn.
    { intros i' n1 Hp <- Hi'. unfold program_turn in Hp. destruct (bstep (nd_bridge n) i') as [[[b o] r]|] eqn:Hstep; [|done]. simplify_eq.
      cbn. split_and!; try done. assert (controls o = []) as ->; [|by rewrite app_nil_r].
      destruct i' as [[] w|req p]; try done; cbn [bridge_step] in Hstep.
      - cbn [loop_step] in Hstep. unfold loop_turn in Hstep. cbn [app_step] in Hstep. by simplify_eq.
      - destruct (handle_request _ _ _ _ _ _) as [? cs]. destruct (queue_commands _ cs); by simplify_eq. }
    destruct i as [[] w|req p]; cbn [turns] in Hs; try done; try (by destruct (nd_commands n));
      (destruct (Hturn _ _ Hs eq_refl I) as (? & ? & ? & ? & -> & ->); split_and!; try done; by constructor).
  - unfold program_sends in Hs. destruct (nd_commands n) as [|m rest]; [done|]. cbn [server_step] in Hs.
    rewrite Hch, Nat.ltb_irrefl in Hs. done.
Qed.

Lemma wedged_run n ins n' d' :
  wedged n → nd_turn n ≠ None → node_run n ins = Some (n', d') →
  wedged n' ∧ nd_turn n' = nd_turn n ∧ Forall (λ t, of_session t.1 = false) d'.1 ∧ app_sent d'.1 = [] ∧
  Forall (λ i, match i with Loop AudioThread _ | Http _ _ => True | _ => False end) d'.2.
Proof.
  revert n d'. induction ins as [|i ins IH]; intros n d' Hw Ht Hr; cbn [node_run] in Hr; [simplify_eq; by split_and!|].
  destruct (node_step n i) as [[n1 [tr bs]]|] eqn:E; [|done]. destruct (node_run n1 ins) as [[n2 [tr' bs']]|] eqn:E2; [|done]. simplify_eq.
  destruct (wedged_step _ _ _ _ Hw Ht E) as (E3 & E4 & E5 & E6 & E7 & F1 & F2 & F3).
  assert (wedged n1) as Hw1 by (unfold wedged; by rewrite E3, E4, E5, E7).
  destruct (IH _ _ Hw1 ltac:(by rewrite E6) E2) as (Hw' & Ht' & F1' & F2' & F3'). cbn [fst snd] in *.
  unfold app_sent in *. rewrite omap_app, F2, F2'. split_and!; try done; [by rewrite Ht'|by apply Forall_app..].
Qed.

Lemma passes_on_run clock b0 d n ins n' d' :
  node_inv clock b0 d n → Forall (λ i, passes_on i = true) ins → node_run n ins = Some (n', d') →
  (length ins + work n' ≤ work n)%nat ∧ (load n' ≤ load n)%nat.
Proof.
  intros Hinv Hall. revert d n d' Hinv. induction Hall as [|i ins Hi _ IH]; intros d n d' Hinv Hr; cbn [node_run] in Hr; [simplify_eq; cbn [length]; lia|].
  destruct (node_step n i) as [[n1 [tr bs]]|] eqn:E; [|done]. destruct (node_run n1 ins) as [[n2 [tr' bs']]|] eqn:E2; [|done]. simplify_eq.
  destruct (passes_on_step _ _ _ _ (proj2 (ni_unsent _ _ _ _ Hinv)) E Hi) as [Hw Hl].
  destruct (IH _ _ _ (inv_step _ _ _ _ _ _ _ Hinv E) E2). cbn [length]. lia.
Qed.

Lemma node_run_app n ins1 n1 d1 ins2 n2 d2 :
  node_run n ins1 = Some (n1, d1) → node_run n1 ins2 = Some (n2, d2) → node_run n (ins1 ++ ins2) = Some (n2, extend d1 d2).
Proof.
  revert n d1. induction ins1 as [|i ins1 IH]; intros n d1 H1 H2; cbn [app node_run] in *.
  { simplify_eq. rewrite H2. by destruct d2. }
  destruct (node_step n i) as [[n0 [tr bs]]|]; [|done]. destruct (node_run n0 ins1) as [[n0' [tr' bs']]|] eqn:E; [|done].
  simplify_eq. rewrite (IH _ _ E H2). unfold extend. cbn. by rewrite !(assoc_L (++)).
Qed.

(** With no more under way than the channel holds, the parts can pass on all of
    it. *)
Lemma can_settle clock b0 d n (w : World) :
  node_inv clock b0 d n → (load n ≤ CTRL_CHANNEL_CAPACITY)%nat →
  ∃ ins n' d', Forall (λ i, passes_on i = true) ins ∧ node_run n ins = Some (n', d') ∧ settled n'.
Proof.
  remember (work n) as k eqn:Hk. revert d n Hk. induction k as [k IH] using lt_wf_ind. intros d n -> Hinv Hl.
  destruct (decide (Forall (λ i, node_step n i = None) (candidates w n))) as [Hnone|Hsome].
  - exists [], n, ([], []). split; [constructor|]. split; [done|].
    destruct (stuck _ _ _ _ w Hinv Hnone) as [?|[Hwedged|(Hc & Hfull & _)]]; [done|by destruct (not_wedged n)|].
    exfalso. unfold load in *. destruct (nd_commands n); [done|]. cbn [length] in *. lia.
  - apply not_Forall_Exists, Exists_exists in Hsome as (i & Hin & Hi); [|apply _].
    pose proof (candidates_pass w n) as Hpass. rewrite Forall_forall in Hpass. specialize (Hpass i Hin).
    destruct (node_step n i) as [[n1 d1]|] eqn:E; [|by destruct Hi].
    destruct (passes_on_step _ _ _ _ (proj2 (ni_unsent _ _ _ _ Hinv)) E Hpass) as [Hw Hl1].
    destruct (IH (work n1) Hw _ n1 eq_refl (inv_step _ _ _ _ _ _ _ Hinv E)) as (ins & n' & d' & Hall & Hrun & Hset); [lia|].
    exists (i :: ins), n', (extend d1 d'). split; [by constructor|]. split; [|done].
    cbn [node_run]. rewrite E. destruct d1 as [tr bs], d' as [tr' bs']. by rewrite Hrun.
Qed.

(** A controller that greets a settled endpoint. *)
Definition greets (n : Node) (peer : IpAddr) (h : Hello) (now : Z) (e : OaatError) (w : World) : list NodeInput :=
  (if sv_connection (nd_server n) is Some _ then [Serves (StreamFailed e)] else []) ++
  [Serves (Accepted peer true); Serves (Received (codec_encode (MHello h)) now); SessionSends; TakesEvent w].

Lemma greeted_afresh n peer h now w :
  sv_connection (nd_server n) = None → nd_turn n = None → nd_audio_unsent n = [] → nd_commands n = [] →
  nd_events n = [] → hello_ok h →
  ∃ n' d', node_run n [Serves (Accepted peer true); Serves (Received (codec_encode (MHello h)) now); SessionSends; TakesEvent w]
      = Some (n', d') ∧
    nd_server n' = with_connection (nd_server n) (Some (spawn_tasks peer (greeted h))) ∧
    d'.1 = [(Accepted peer true, []); (Received (codec_encode (MHello h)) now, SessionOut <$> greeting cfg h)] ∧
    events_taken d'.2 = [EvConnected (controller_id h) (controller_name h)] ∧
    settled n'.
Proof.
  intros Hc Ht Hau Hcmd Hev Hh. cbn [node_run node_step]. unfold serve at 1. cbn [server_step of_session]. rewrite Hc, Ht.
  unfold Server.accepted. rewrite andb_false_r. cbn [events_of session_outs events omap list_omap app].
  unfold serve. cbn [turn_ends nd_server server_step of_session nd_turn]. unfold session_turn at 1.
  cbn [with_connection sv_connection new_connection cn_phase]. rewrite hello_read by done. rewrite events_of_session.
  cbn [greeting events omap list_omap fmap list_fmap advance cn_phase cn_peer new_connection session_start].
  unfold session_sends. cbn [nd_turn nd_unsent]. unfold room. cbn [turn_ends nd_events]. rewrite Hev. cbn [length app]. cbv iota.
  cbn [nd_server server_step]. unfold session_turn.
  cbn [with_connection sv_connection new_connection cn_phase]. rewrite hello_read by done.
  cbn [greeting fmap list_fmap advance cn_phase cn_peer new_connection session_start].
  change (0 <? EVENT_CHANNEL_CAPACITY)%nat with true. cbv iota beta.
  unfold takes_event. cbn [turn_ends nd_commands nd_events nd_server nd_bridge]. rewrite Hcmd. cbv iota. unfold program_turn.
  cbn [bridge_step loop_step]. unfold loop_turn. cbn [app_step on_event].
  eexists _, _. split; [reflexivity|]. unfold settled. cbn. rewrite Hau. by rewrite ?Hcmd.
Qed.

Lemma hangs_up clock b0 d n c e :
  node_inv clock b0 d n → sv_connection (nd_server n) = Some c → nd_turn n = None →
  node_run n [Serves (StreamFailed e)] =
    Some (turn_ends n (with_connection (nd_server n) None), ([(StreamFailed e, [])], [])).
Proof.
  intros Hinv Hc Ht. cbn [node_run node_step]. unfold serve.
  rewrite (stream_failure _ _ _ _ _ _ _ e (ni_server _ _ _ _ Hinv) Hc). cbn [of_session]. by rewrite Ht.
Qed.

End node.

Arguments Node IpAddr {B}.
Arguments NodeInput IpAddr {B}.

(** ** Properties *)

Section properties.
Context `{JsonCodec} {IpAddr : Type} {B : AudioBackend} {R : ReportsDevice B}.
Context (cfg : EndpointConfig) (tls : bool) (device_of_body : list Z → option string) (hardware_volume : bool).
Context (clock : SharedClock) (b : Bridge).

Abbreviation run := (node_run (IpAddr := IpAddr) cfg tls device_of_body hardware_volume).
Abbreviation start := (node_start (IpAddr := IpAddr) clock b).

Lemma run_inv ins n d : run start ins = Some (n, d) → node_inv cfg tls device_of_body hardware_volume clock b d n.
Proof. intros Hr. pose proof (inv_run _ _ _ _ _ _ _ _ _ _ _ (inv_start cfg tls device_of_body hardware_volume clock b) Hr) as Hi. by destruct d. Qed.

(** C15 The endpoint is its two halves and nothing more: in every run of both
    together, however their steps interleave, the transport's completed turns
    are a run of the server model and the program's a run of the program model;
    what the sessions tell reaches the program once and in order, what is still
    on the way waiting in the channel or with the session; the packets it
    takes are among those delivered, in order; its messages reach the
    transport once and in order; and both channels keep to their capacity. *)
Theorem endpoint_composes ins n tr bs :
  run start ins = Some (n, (tr, bs)) →
  server_reach cfg tls CTRL_CHANNEL_CAPACITY clock tr (nd_server n) ∧
  (∃ outs, bridge_run device_of_body hardware_volume b bs = Some (nd_bridge n, outs) ∧
     controls outs = app_taken tr ++ sv_channel (nd_server n) ++ nd_commands n) ∧
  told (events_taken bs) ++ told (nd_events n) ++ nd_unsent n = tells tr ++ turn_events cfg tls n ∧
  packets_in (events_taken bs) ++ packets_in (nd_events n) ++ nd_audio_unsent n `sublist_of` delivered tr ∧
  (length (nd_events n) ≤ EVENT_CHANNEL_CAPACITY)%nat ∧ (length (sv_channel (nd_server n)) ≤ CTRL_CHANNEL_CAPACITY)%nat.
Proof.
  intros Hr. destruct (run_inv _ _ _ Hr) as [Hserver (outs & Hb & Hc) Ht Hp _ _ _ Hroom]. cbn [fst snd] in *.
  destruct (queues_inv _ _ _ _ _ _ Hserver) as (Hq & Hcap & _).
  rewrite told_app, <- (assoc_L (++)) in Ht. rewrite packets_in_app, <- (assoc_L (++)) in Hp.
  split_and!; try done. exists outs. by rewrite Hc, Hq, <- (assoc_L (++)).
Qed.

(** C7 An accept means an open output, whatever else goes on: in every run of
    the endpoint with deferred accepts, a FormatAccept is written to the
    controller only when the program, on a proposal of that stream that the
    session told it of, has configured its output without error, or when the
    session's five seconds are over. *)
Theorem accept_means_configured ins n tr bs i o a :
  cfg_defer_format_accept cfg = true → run start ins = Some (n, (tr, bs)) →
  (i, o) ∈ tr → MFormatAccept a ∈ written (session_outs o) →
  (∃ now, i = TimerFired now) ∨
  ∃ pre fp w post b1 outs au, bs = pre ++ Loop (TransportEvent (EvFormatProposed fp)) w :: post ∧
    fp_stream_id fp = fa_stream_id a ∧ EvFormatProposed fp ∈ tells tr ++ turn_events cfg tls n ∧
    bridge_run device_of_body hardware_volume b pre = Some (b1, outs) ∧
    au_configure (app_audio (br_app b1)) (fp_format fp) (fp_sample_rate fp) (fp_channels fp) (app_device_name (br_app b1))
      (w_device w) = (Ok tt, au).
Proof.
  intros Hdefer Hr Hin Ha. destruct (run_inv _ _ _ Hr) as [Hserver (outs & Hb & Hc) Ht _ _ _ _ _]. cbn [fst snd] in *.
  destruct (accept_written _ _ _ _ _ _ _ _ Hdefer Hserver Hin Ha) as [->|?]; [right|by left].
  destruct (queues_inv _ _ _ _ _ _ Hserver) as (Hq & _ & _).
  assert (MFormatAccept a ∈ controls outs) as Hsent.
  { rewrite Hc, Hq. apply elem_of_app. left. apply elem_of_app. left. unfold app_taken. apply list_elem_of_omap. by exists (TakesControl (MFormatAccept a), o). }
  destruct (accept_sent _ _ _ _ _ _ _ Hb Hsent) as (pre & fp & w & post & b1 & o1 & -> & Hpre & Hid & au & Hau).
  exists pre, fp, w, post, b1, o1, au. split_and!; try done. rewrite <- Ht. apply elem_of_app. left.
  unfold told. apply list_elem_of_filter. split; [done|]. apply elem_of_app. left. apply list_elem_of_omap.
  eexists. split; [apply elem_of_app; right; left|done].
Qed.

(** C16 Everything is passed on: from a reachable state in which the proposals
    under way and the messages waiting for the session are no more than the
    channel of thirty-two holds, and with nothing new arriving, in whatever
    order the parts take their steps, these end within a bound known
    beforehand, and they end only when every event has been handled and every
    message of the program is in the channel. *)
Theorem everything_passed_on ins n d ins' n' d' (w : World) :
  run start ins = Some (n, d) → (load n ≤ CTRL_CHANNEL_CAPACITY)%nat →
  Forall (λ i, passes_on i = true) ins' → run n ins' = Some (n', d') →
  (length ins' ≤ work n)%nat ∧
  ((∀ i, passes_on i = true → node_step cfg tls device_of_body hardware_volume n' i = None) → settled n').
Proof.
  intros Hr Hl Hall Hr'. pose proof (run_inv _ _ _ Hr) as Hinv.
  destruct (passes_on_run _ _ _ _ _ _ _ _ _ _ _ Hinv Hall Hr') as [Hw Hl'].
  split; [lia|]. intros Hstuck. pose proof (inv_run _ _ _ _ _ _ _ _ _ _ _ Hinv Hr') as Hinv'.
  assert (Forall (λ i, node_step cfg tls device_of_body hardware_volume n' i = None) (candidates w n')) as Hnone.
  { eapply Forall_impl; [apply candidates_pass|]. intros i Hi. by apply Hstuck. }
  destruct (stuck _ _ _ _ _ _ _ _ w Hinv' Hnone) as [?|[Hwedged|(Hc & Hfull & _)]]; [done| |].
  - exfalso. eapply not_wedged; [|exact Hwedged]. lia.
  - exfalso. unfold load in *. destruct (nd_commands n'); [done|]. cbn [length] in *. lia.
Qed.

(** C26 As long as no more is under way than the control channel holds, the
    endpoint is there for the next controller: from every reachable state with
    at most thirty-two proposals and messages under way, its parts can pass on
    all they have; and then at most one failure of the present stream, an
    accepted controller and its Hello lead through both channels to a session of
    that controller that starts afresh (no format, no pending accept, a new
    receiver), the handshake answered and the program told.  (Beyond thirty-two
    the endpoint may be locked up for good, as [wedged_for_good] shows; and a
    failed stream is not reported, so the program hears of the new controller
    without having heard that the old one is gone.) *)
Theorem endpoint_recovers ins n d (w : World) peer h now e :
  run start ins = Some (n, d) → (load n ≤ CTRL_CHANNEL_CAPACITY)%nat → hello_ok h →
  ∃ pass n1 d1, Forall (λ i, passes_on i = true) pass ∧ (length pass ≤ work n)%nat ∧
    run n pass = Some (n1, d1) ∧ settled n1 ∧
  ∃ n2 d2, run n1 (greets n1 peer h now e w) = Some (n2, d2) ∧
    sv_connection (nd_server n2) = Some (spawn_tasks peer (greeted h)) ∧
    sv_channel (nd_server n2) = sv_channel (nd_server n1) ∧ settled n2 ∧
    (Received (codec_encode (MHello h)) now, SessionOut <$> greeting cfg h) ∈ d2.1 ∧
    events_taken d2.2 = [EvConnected (controller_id h) (controller_name h)].
Proof.
  intros Hr Hl Hh. pose proof (run_inv _ _ _ Hr) as Hinv.
  destruct (can_settle _ _ _ _ _ _ _ _ w Hinv Hl) as (pass & n1 & d1 & Hpass & Hrun & Hset).
  destruct (passes_on_run _ _ _ _ _ _ _ _ _ _ _ Hinv Hpass Hrun) as [Hlen _].
  exists pass, n1, d1. split_and!; try done; [lia|].
  pose proof (inv_run _ _ _ _ _ _ _ _ _ _ _ Hinv Hrun) as Hinv1. destruct Hset as (Hu & Ha & Hev & Hc).
  assert (nd_turn n1 = None) as Ht.
  { destruct (nd_turn n1) as [[data t]|] eqn:E; [|done]. by destruct (ni_turn _ _ _ _ _ _ _ _ Hinv1 _ _ E). }
  unfold greets. destruct (sv_connection (nd_server n1)) as [c|] eqn:Ec.
  - pose proof (hangs_up cfg tls device_of_body hardware_volume _ _ _ _ c e Hinv1 Ec Ht) as Hfail.
    destruct (greeted_afresh cfg tls device_of_body hardware_volume (turn_ends n1 (with_connection (nd_server n1) None))
                peer h now w eq_refl eq_refl eq_refl Hc Hev Hh) as (n2 & d2 & Hrun2 & Hs2 & Htr & Hbs & Hset2).
    exists n2, (extend ([(StreamFailed e, [])], []) d2).
    split; [exact (node_run_app _ _ _ _ _ [_] _ _ _ _ _ Hfail Hrun2)|].
    rewrite Hs2. unfold extend. cbn [fst snd]. rewrite Htr. split_and!; try done. right. right. left.
  - destruct (greeted_afresh cfg tls device_of_body hardware_volume n1 peer h now w Ec Ht Ha Hc Hev Hh)
      as (n2 & d2 & Hrun2 & Hs2 & Htr & Hbs & Hset2).
    exists n2, d2. rewrite Hs2, Htr. split_and!; try done. right. left.
Qed.

End properties.

(** ** Witnesses *)

#[local] Existing Instance App.no_flac.
#[local] Existing Instance demo_json.

Abbreviation demo_node_run :=
  (@node_run demo_json Z alsa_backend alsa_reports demo_cfg false demo_device_of_body false (node_start SharedClock_new demo_bridge)).

(** A controller connects; the program hears of it. *)
Definition demo_greeting : list (NodeInput Z) :=
  [Serves (Accepted 7 true); Serves (Received [0; 0; 0; 1; 1] 3); SessionSends; TakesEvent pi_world].

(** It proposes a format; the device is opened, and the accept is written. *)
Definition demo_accept : list (NodeInput Z) :=
  demo_greeting ++
  [Serves (Received [0; 0; 0; 1; 2] 7); SessionSends; SessionSends; TakesEvent pi_world; TakesEvent pi_world; ProgramSends;
   Serves (TakesControl (MFormatAccept (mkFormatAccept "s1")))].

(** It sends fifty-eight proposals at a time, as many as 8192 bytes hold in
    JSON, and the session is faster than the program. *)
Definition demo_flood : list Z := concat (replicate 58 [0; 0; 0; 1; 2]).

Definition demo_locking : list (NodeInput Z) :=
  demo_greeting ++
  Serves (Received demo_flood 7) :: replicate 116 SessionSends ++
  Serves (Received demo_flood 8) :: replicate 116 SessionSends ++
  Serves (Received demo_flood 9) :: replicate 24 SessionSends ++
  concat (replicate 32 [TakesEvent pi_world; SessionSends; TakesEvent pi_world; SessionSends; ProgramSends]) ++
  [TakesEvent pi_world; SessionSends; TakesEvent pi_world; SessionSends].

Definition is_wedged `{B : AudioBackend} {IpAddr} (n : Node IpAddr) : bool :=
  negb (length (nd_unsent n) =? 0)%nat && (length (nd_events n) =? EVENT_CHANNEL_CAPACITY)%nat &&
  negb (length (nd_commands n) =? 0)%nat && (length (sv_channel (nd_server n)) =? CTRL_CHANNEL_CAPACITY)%nat.

Lemma is_wedged_sound `{B : AudioBackend} {IpAddr} (n : Node IpAddr) : is_wedged n = true → wedged n.
Proof.
  unfold is_wedged. rewrite !andb_true_iff, !negb_true_iff, !Nat.eqb_eq, !Nat.eqb_neq. intros (((H1 & H2) & H3) & H4).
  split_and!; try done; intros E; rewrite E in *; done.
Qed.

Lemma demo_locks : ∃ n d, demo_node_run demo_locking = Some (n, d) ∧ wedged n.
Proof.
  assert (match demo_node_run demo_locking with Some (n, _) => is_wedged n | None => false end = true) as Hw by by vm_compute.
  destruct (demo_node_run demo_locking) as [[n d]|]; [|done]. exists n, d. split; [done|by apply is_wedged_sound].
Qed.

(** C17 The endpoint can lock up. Once the session waits to tell something
    with the event channel full, and the program to send something with the
    control channel full, no run of steps ever ends that: the session takes no
    further turn, so the controller is never answered and no other accepted;
    the program's event loop takes none either, so that events, timers,
    releases and device switches, though still accepted by the web interface,
    have no effect.  And a controller brings the endpoint there with valid
    messages: about a hundred and seventy proposals sent without waiting for
    the answers, with a session faster than the program. *)
Theorem wedged_for_good :
  (∀ `{JsonCodec} {IpAddr : Type} `{R : ReportsDevice} cfg tls device_of_body hardware_volume clock b
     ins (n : Node IpAddr) d ins' n' tr' bs',
     node_run cfg tls device_of_body hardware_volume (node_start clock b) ins = Some (n, d) → wedged n →
     node_run cfg tls device_of_body hardware_volume n ins' = Some (n', (tr', bs')) →
     wedged n' ∧ Forall (λ t, of_session t.1 = false) tr' ∧
     Forall (λ i, match i with Loop AudioThread _ | Http _ _ => True | _ => False end) bs') ∧
  (∃ n d, demo_node_run demo_locking = Some (n, d) ∧ wedged n).
Proof.
  split; [|exact demo_locks].
  intros JC IpAddr B R cfg tls device_of_body hardware_volume clock b ins n d ins' n' tr' bs' Hr Hw Hr'.
  pose proof (run_inv cfg tls device_of_body hardware_volume clock b _ _ _ Hr) as [_ _ _ _ _ Hidle _ _].
  assert (nd_turn n ≠ None) as Ht by (intros E; by destruct Hw as [? _]; apply Hidle in E).
  by destruct (wedged_run _ _ _ _ _ _ _ _ Hw Ht Hr') as (? & _ & ? & _ & ?).
Qed.

Definition demo_accepted : Node Z * Done :=
  match demo_node_run demo_accept with Some r => r | None => (node_start SharedClock_new demo_bridge, ([], [])) end.

Lemma demo_accept_runs : demo_node_run demo_accept = Some demo_accepted.
Proof.
  assert (match demo_node_run demo_accept with Some _ => true | None => false end = true) as Hw by by vm_compute.
  unfold demo_accepted. by destruct (demo_node_run demo_accept).
Qed.

Lemma endpoint_composes_witness :
  ∃ n tr bs, demo_node_run demo_accept = Some (n, (tr, bs)) ∧
    @server_reach demo_json Z demo_cfg false CTRL_CHANNEL_CAPACITY SharedClock_new tr (nd_server n) ∧
    told (events_taken bs) ++ told (nd_events n) ++ nd_unsent n = tells tr ++ turn_events demo_cfg false n ∧
    told (events_taken bs) = [EvConnected "ctl" "Controller"; EvFormatAccepted "s1"; EvFormatProposed EndpointTransport.demo_proposal].
Proof.
  destruct demo_accepted as [n [tr bs]] eqn:E. exists n, tr, bs.
  assert (demo_node_run demo_accept = Some (n, (tr, bs))) as Hr by (transitivity (Some demo_accepted); [exact demo_accept_runs|by f_equal]).
  destruct (@endpoint_composes demo_json Z alsa_backend alsa_reports demo_cfg false demo_device_of_body false SharedClock_new demo_bridge
    demo_accept n tr bs Hr) as (H1 & _ & H3 & _).
  split; [exact Hr|]. split; [exact H1|]. split; [exact H3|].
  replace bs with demo_accepted.2.2 by (rewrite E; reflexivity). vm_compute. reflexivity.
Defined.

Lemma accept_means_configured_witness :
  ∃ n tr bs, demo_node_run demo_accept = Some (n, (tr, bs)) ∧
    (TakesControl (MFormatAccept (mkFormatAccept "s1")), [SessionOut (Write (MFormatAccept (mkFormatAccept "s1")))]) ∈ tr ∧
    ∃ pre fp w post, bs = pre ++ Loop (TransportEvent (EvFormatProposed fp)) w :: post ∧ fp_stream_id fp = "s1"%string.
Proof.
  destruct demo_accepted as [n [tr bs]] eqn:E. exists n, tr, bs.
  assert (demo_node_run demo_accept = Some (n, (tr, bs))) as Hr by (transitivity (Some demo_accepted); [exact demo_accept_runs|by f_equal]).
  assert ((TakesControl (MFormatAccept (mkFormatAccept "s1")), [SessionOut (Write (MFormatAccept (mkFormatAccept "s1")))]) ∈ tr) as Hin.
  { replace tr with demo_accepted.2.1 by (rewrite E; reflexivity). apply (list_elem_of_lookup_2 _ 4%nat). vm_compute. reflexivity. }
  split; [exact Hr|]. split; [exact Hin|].
  destruct (@accept_means_configured demo_json Z alsa_backend alsa_reports demo_cfg false demo_device_of_body false SharedClock_new demo_bridge
    demo_accept n tr bs _ _ (mkFormatAccept "s1") eq_refl Hr Hin) as [[now Hn]|(pre & fp & w & post & b1 & o1 & au & Hbs & Hid & _)];
    [apply (bool_decide_unpack _); vm_compute; exact I|discriminate|].
  exists pre, fp, w, post. split; [exact Hbs|exact Hid].
Defined.

Lemma everything_passed_on_witness :
  ∃ n d, demo_node_run (take 5 demo_accept) = Some (n, d) ∧ load n = 1%nat ∧ work n = 8%nat ∧
  ∀ n' d', @node_run demo_json Z alsa_backend alsa_reports demo_cfg false demo_device_of_body false n (drop 5 demo_accept) = Some (n', d') →
    (length (drop 5 demo_accept) ≤ 8)%nat.
Proof.
  assert (match demo_node_run (take 5 demo_accept) with Some (n, _) => (load n =? 1)%nat && (work n =? 8)%nat | None => false end = true) as Hw
    by by vm_compute.
  destruct (demo_node_run (take 5 demo_accept)) as [[n d]|] eqn:Hr; [|discriminate]. exists n, d.
  apply andb_true_iff in Hw as [Hl%Nat.eqb_eq Hwork%Nat.eqb_eq]. split; [reflexivity|]. split; [exact Hl|]. split; [exact Hwork|].
  intros n' d' Hr'.
  destruct (@everything_passed_on demo_json Z alsa_backend alsa_reports demo_cfg false demo_device_of_body false SharedClock_new demo_bridge
    (take 5 demo_accept) n d (drop 5 demo_accept) n' d' pi_world Hr) as [Hlen _].
  - rewrite Hl. apply Nat.leb_le. vm_compute. reflexivity.
  - repeat constructor.
  - exact Hr'.
  - rewrite <- Hwork. exact Hlen.
Defined.

Lemma wedged_for_good_witness :
  ∃ n d, demo_node_run demo_locking = Some (n, d) ∧ wedged n ∧
  ∀ ins' n' d', @node_run demo_json Z alsa_backend alsa_reports demo_cfg false demo_device_of_body false n ins' = Some (n', d') → wedged n'.
Proof.
  destruct wedged_for_good as [Hfor (n & d & Hr & Hw)]. exists n, d. split; [exact Hr|]. split; [exact Hw|].
  intros ins' n' [tr' bs'] Hr'.
  exact (proj1 (Hfor demo_json Z alsa_backend alsa_reports demo_cfg false demo_device_of_body false SharedClock_new demo_bridge
    demo_locking n d ins' n' tr' bs' Hr Hw Hr')).
Defined.

(** A session has just told of the proposal when the next controller comes. *)
Lemma endpoint_recovers_witness :
  ∃ n d, demo_node_run (take 5 demo_accept) = Some (n, d) ∧ load n = 1%nat ∧
  ∃ pass n1 d1, @node_run demo_json Z alsa_backend alsa_reports demo_cfg false demo_device_of_body false n pass = Some (n1, d1) ∧
  ∃ n2 d2, @node_run demo_json Z alsa_backend alsa_reports demo_cfg false demo_device_of_body false n1
      (greets n1 8 demo_hello 9 (Protocol "reset") pi_world) = Some (n2, d2) ∧
    sv_connection (nd_server n2) = Some (spawn_tasks 8 (greeted demo_hello)).
Proof.
  assert (match demo_node_run (take 5 demo_accept) with Some (n, _) => (load n =? 1)%nat | None => false end = true) as Hw
    by by vm_compute.
  destruct (demo_node_run (take 5 demo_accept)) as [[n d]|] eqn:Hr; [|discriminate]. exists n, d.
  apply Nat.eqb_eq in Hw. split; [reflexivity|]. split; [exact Hw|].
  destruct (@endpoint_recovers demo_json Z alsa_backend alsa_reports demo_cfg false demo_device_of_body false SharedClock_new demo_bridge
    (take 5 demo_accept) n d pi_world 8 demo_hello 9 (Protocol "reset") Hr) as (pass & n1 & d1 & _ & _ & Hpass & _ & n2 & d2 & Hrun & Hc & _).
  - rewrite Hw. apply Nat.leb_le. vm_compute. reflexivity.
  - exact demo_hello_ok.
  - exists pass, n1, d1. split; [exact Hpass|]. exists n2, d2. split; [exact Hrun|exact Hc].
Defined.
