(* ===== verification/Programs.v ===== *)
(** * The controller program: test tones and zones

    Models [run_controller] and [run_multiroom] of
    [crates/oaat-cli/src/main.rs]: a tone streamed to one endpoint and then,
    without a gap, a second one; and a tone streamed to a zone, whose members
    may give up their output meanwhile.  The connections, the releases heard
    before each packet and the clock are arguments, and so is [sin], whose
    rounding the language leaves open.  Pacing only delays the packets and
    printing is left out. *)

From S2P Require Import Prelude Text Format Session Wire Message Codec Float Clock Fec FecRecovery Sync EndpointTransport ControllerTransport Zone ZoneAudio ZoneStream Manager Player.

Local Open Scope Z_scope.

(** ** The tone *)

Definition I16_MIN : Z := -32768.
Definition I16_MAX : Z := 32767.

(** [std::f64::consts::PI] and the literal 0.8. *)
Definition PI : f64 := S754_finite false 7074237752028440 (-51).
Definition F64_0_8 : f64 := S754_finite false 7205759403792794 (-53).

Definition TONE_RATE : Z := 44100.
Definition TONE_PACKET : Z := 480.

Section tone.
Variable sin : f64 → f64.

(** [(0.8 * (2.0 * PI * freq * t).sin() * i16::MAX as f64) as i16] at sample
    [n]. *)
Definition tone_sample (freq : f64) (n : Z) : Z :=
  let t := f64_div (f64_of_Z n) (f64_of_Z TONE_RATE) in
  float_trunc (f64_mul (f64_mul F64_0_8 (sin (f64_mul (f64_mul (f64_mul (f64_of_Z 2) PI) freq) t))) (f64_of_Z I16_MAX))
    I16_MIN I16_MAX.

(** Both channels of [chunk] samples from the sample [first] on. *)
Definition tone_payload (freq : f64) (first chunk : Z) : list Z :=
  concat ((λ i, let s := to_le_bytes 2 (as_u 16 (tone_sample freq (first + Z.of_nat i))) in s ++ s)
            <$> seq 0 (Z.to_nat chunk)).

(** The packets of a tone of [total] samples that starts at sample [base] of
    the stream: flags, sample offset and payload. *)
Fixpoint tone_packets (fuel : nat) (freq : f64) (base offset total : Z) : list (Z * Z * list Z) :=
  match fuel with
  | O => []
  | S fuel =>
      if offset <? total then
        let chunk := Z.min TONE_PACKET (total - offset) in
        let flags := if offset =? 0 then FIRST_PACKET else 0 in
        (flags, base + offset, tone_payload freq (base + offset) chunk)
        :: tone_packets fuel freq base (offset + chunk) total
      else []
  end.

Definition tone (freq : f64) (base total : Z) : list (Z * Z * list Z) :=
  tone_packets (Z.to_nat total) freq base 0 total.

(** ** One endpoint *)

(** The sending loop; [releases] says before each packet whether a release was
    heard, which ends the program.  The result says whether it did. *)
Fixpoint send_tone (ep : ConnectedEndpoint) (sid start_ns : Z) (pkts : list (Z * Z * list Z)) (releases : list bool)
    : outcome (bool * ConnectedEndpoint) :=
  match pkts with
  | [] => Ret (false, ep)
  | (flags, offset, payload) :: pkts =>
      if default false (head releases) then Ret (true, ep)
      else
        (let! ep := unwrap (send_audio ep sid PcmS16le (packet_pts start_ns offset TONE_RATE) offset payload flags) in
         send_tone ep sid start_ns pkts (tail releases))%oaat
  end.

(** [freq_text] and [freq2_text] are the frequencies as printed. *)
Definition tone_metadata (freq_text album : string) (duration : Z) : TrackMetadata :=
  mkTrackMetadata (freq_text ++ "Hz Sine Wave") "OAAT Demo" album (as_u 64 (duration * 1000)) None (Some "PCM 16/44"%string).

Definition FREQ2 : f64 := f64_of_Z 880.
Definition DURATION2 : Z := 2.

(** The gapless part, after the first tone: the next track announced, its tone
    on the same timeline, the end of the stream; the reply to the announcement
    is only printed. *)
Definition second_part (ep : ConnectedEndpoint) (start_ns total_samples : Z) : outcome (bool * ConnectedEndpoint) :=
  (let gapless_stream_id := "sine-gapless"%string in
   let! ep := unwrap (prepare_next_track ep gapless_stream_id PcmS16le TONE_RATE 2 Stereo 16) in
   let! ep := unwrap (send_metadata ep (tone_metadata "880" "Gapless Test" DURATION2)) in
   let total_samples2 := TONE_RATE * DURATION2 in
   let! (_, ep) := send_tone ep 2 start_ns (tone FREQ2 total_samples total_samples2) [] in
   let total_offset := wrapping_add 64 total_samples total_samples2 in
   let! ep := unwrap (send_audio ep 2 PcmS16le (packet_pts start_ns total_offset TONE_RATE) total_offset [] LAST_PACKET) in
   let! ep := unwrap (send_stop ep gapless_stream_id) in
   Ret (false, ep))%oaat.

(** From the connection on.  The result says whether the endpoint released its
    output. *)
Definition run_controller (ep : ConnectedEndpoint) (freq : f64) (freq_text : string) (duration now : Z)
    (releases : list bool) : outcome (bool * ConnectedEndpoint) :=
  (let stream_id := "sine-demo"%string in
   let! ep := unwrap (propose_format ep stream_id PcmS16le TONE_RATE 2 Stereo 16) in
   let! ep := unwrap (send_metadata ep (tone_metadata freq_text "Protocol Test" duration)) in
   let! ep := unwrap (send_play ep stream_id) in
   let total_samples := as_u 64 (TONE_RATE * duration) in
   let start_ns := wrapping_add 64 now 200000000 in
   let! (released, ep) := send_tone ep 1 start_ns (tone freq 0 total_samples) releases in
   if released then Ret (true, ep) else second_part ep start_ns total_samples)%oaat.

(** ** A zone *)

(** The endpoints that released their output leave the zone. *)
Definition drop_released (z : Zone) (released : list string) : Zone :=
  fold_left (λ z id, (remove_endpoint_and_notify z id).2) released z.

(** [releases]: the releases heard before each packet.  The result says
    whether the whole tone was sent. *)
Fixpoint send_tone_all (z : Zone) (start_ns : Z) (pkts : list (Z * Z * list Z)) (releases : list (list string))
    : bool * Zone :=
  match pkts with
  | [] => (true, z)
  | (flags, offset, payload) :: pkts =>
      let z := drop_released z (default [] (head releases)) in
      if (endpoint_count z =? 0)%nat then (false, z)
      else send_tone_all (send_audio_all z 1 PcmS16le (packet_pts start_ns offset TONE_RATE) offset payload flags)
             start_ns pkts (tail releases)
  end.

(** Connecting the endpoints one after the other; the first that fails ends
    the program. *)
Fixpoint add_targets (z : Zone)
    (targets : list (SocketAddr * result ConnectedEndpoint OaatError * list (Z * Z * result (list Z) OaatError)))
    : result Zone OaatError :=
  match targets with
  | [] => Ok z
  | (addr, dial, boot) :: targets =>
      match add_endpoint z addr dial boot with
      | (Ok _, z) => add_targets z targets
      | (Err e, _) => Err e
      end
  end.

Definition multiroom_metadata (freq_text : string) (n : nat) (duration : Z) : TrackMetadata :=
  mkTrackMetadata (freq_text ++ "Hz Sine — " ++ print_uint (Z.of_nat n) ++ " endpoints") "OAAT Multi-Room" "Sync Demo"
    (as_u 64 (duration * 1000)) None (Some "PCM 16/44"%string).

(** What is sent once the zone is complete. *)
Definition stream_zone (z : Zone) (freq : f64) (freq_text : string) (duration now : Z) (releases : list (list string))
    : Zone :=
  let stream_id := "multiroom-demo"%string in
  let n := endpoint_count z in
  let z := propose_format_all z stream_id PcmS16le TONE_RATE 2 Stereo 16 in
  let z := send_metadata_all z (multiroom_metadata freq_text n duration) in
  let z := play_all z stream_id in
  let total_samples := as_u 64 (TONE_RATE * duration) in
  let start_ns := wrapping_add 64 now (as_u 64 (play_delay_ms z * 1000000)) in
  let '(complete, z) := send_tone_all z start_ns (tone freq 0 total_samples) releases in
  if complete then
    let pts := as_u 64 (start_ns + float_trunc (f64_mul (f64_of_Z duration) (f64_of_Z 1000000000)) 0 U64_MAX) in
    stop_all (send_audio_all z 1 PcmS16le pts total_samples [] LAST_PACKET) stream_id
  else z.

Definition run_multiroom (config : ControllerConfig)
    (targets : list (SocketAddr * result ConnectedEndpoint OaatError * list (Z * Z * result (list Z) OaatError)))
    (freq : f64) (freq_text : string) (duration now : Z) (play_delay : option Z) (fec : option Z)
    (releases : list (list string)) : outcome (result Zone OaatError) :=
  (let z := set_play_delay_ms (Zone_new "zone-1" "Demo Zone" config) play_delay in
   let! z := match fec with Some group_size => enable_fec z group_size | None => Ret z end in
   match add_targets z targets with
   | Err e => Ret (Err e)
   | Ok z => Ret (Ok (stream_zone z freq freq_text duration now releases))
   end)%oaat.

End tone.

(** [spawn_clock_responder]: the port of the responder bound to the default
    clock port, or to one chosen by the system, or 0 for none. *)
Definition spawn_clock_responder (on_default on_any : option Z) : Z :=
  match on_default with Some port => port | None => default 0 on_any end.

(** ** Specification *)

(** The packets sent before the first release, and whether there was one. *)
Fixpoint before_release {A} (releases : list bool) (pkts : list A) : list A * bool :=
  match pkts with
  | [] => ([], false)
  | p :: pkts =>
      if default false (head releases) then ([], true)
      else let '(l, b) := before_release (tail releases) pkts in (p :: l, b)
  end.

(** Stereo 16-bit packets that follow each other: each starts at the sample
    where the one before it ends, [off] being the first. *)
Fixpoint contiguous (off : Z) (ps : list (Z * Z * list Z)) : Prop :=
  match ps with
  | [] => True
  | (_, o, p) :: ps => o = off ∧ ∃ n, len p = 4 * n ∧ contiguous (off + n) ps
  end.

(** The bounds within which the offsets are exact: more than three million
    years. *)
Definition tone_bounded (duration : Z) : Prop := 0 ≤ duration < 2 ^ 47.

(** ** Lemmas: the tone *)

Lemma before_release_never {A} releases (ps : list A) :
  Forall (λ r, r = false) releases → before_release releases ps = (ps, false).
Proof.
  revert releases. induction ps as [|p ps IH]; intros releases Hr; [done|]. cbn [before_release].
  destruct Hr as [|r rs -> Hr]; cbn [head default tail]; by rewrite IH.
Qed.

Lemma contiguous_lookup off ps i fl o p :
  contiguous off ps → ps !! i = Some (fl, o, p) → len (concat (snd <$> take i ps)) = 4 * (o - off).
Proof.
  revert off i. induction ps as [|[[fl' o'] p'] ps IH]; intros off i Hc; [done|].
  destruct Hc as (-> & n & Hn & Hc). destruct i as [|i]; cbn [lookup list_lookup].
  - intros [= _ <- _]. change (0 = 4 * (off - off)). lia.
  - intros Hi. cbn [take]. rewrite fmap_cons. cbn [concat snd]. rewrite len_app, Hn, (IH _ _ Hc Hi). lia.
Qed.

Lemma contiguous_app off n ps qs :
  contiguous off ps → len (concat (snd <$> ps)) = 4 * n → contiguous (off + n) qs → contiguous off (ps ++ qs).
Proof.
  revert off n. induction ps as [|[[fl o] p] ps IH]; intros off n Hps Hn Hqs; cbn [app contiguous] in *.
  - rewrite fmap_nil in Hn. change (len (concat [])) with 0 in Hn. by replace (off + n) with off in Hqs by lia.
  - destruct Hps as (-> & m & Hm & Hps). split; [done|]. exists m. split; [done|].
    rewrite fmap_cons in Hn. cbn [concat snd] in Hn. rewrite len_app in Hn.
    apply (IH _ (n - m)); [done|lia|]. by replace (off + m + (n - m)) with (off + n) by lia.
Qed.

Section tones.
Variable sin : f64 → f64.

Lemma tone_payload_len freq first n : 0 ≤ n → len (tone_payload sin freq first n) = 4 * n.
Proof.
  intros Hn. unfold tone_payload. set (f := λ i : nat, _).
  assert (∀ k j, len (concat (f <$> seq j k)) = 4 * Z.of_nat k) as Hlen; [|rewrite Hlen; lia].
  induction k as [|k IH]; intros j; [done|]. cbn [seq]. rewrite fmap_cons. cbn [concat].
  rewrite len_app, IH. unfold f. rewrite len_app. unfold len. rewrite !to_le_bytes_length. lia.
Qed.

Lemma tone_payload_app freq first a b : 0 ≤ a → 0 ≤ b →
  tone_payload sin freq first (a + b) = tone_payload sin freq first a ++ tone_payload sin freq (first + a) b.
Proof.
  intros Ha Hb. unfold tone_payload. rewrite Z2Nat.inj_add, seq_app, fmap_app, concat_app by done. f_equal.
  f_equal. rewrite (Nat.add_comm 0). rewrite <- fmap_add_seq, <- list_fmap_compose. apply list_fmap_ext. intros _ i _. cbn.
  by replace (first + Z.of_nat (Z.to_nat a + i)) with (first + a + Z.of_nat i) by lia.
Qed.

Lemma tone_packets_spec fuel freq base offset total :
  0 ≤ offset ≤ total → total - offset ≤ Z.of_nat fuel →
  let ps := tone_packets sin fuel freq base offset total in
  contiguous (base + offset) ps ∧ concat (snd <$> ps) = tone_payload sin freq (base + offset) (total - offset) ∧
  Forall (λ p, in_u 4 p.1.1 ∧ flags_contains p.1.1 FEC = false ∧ base + offset ≤ p.1.2 < base + total ∧
               len p.2 ≤ 4 * TONE_PACKET) ps.
Proof.
  revert offset. induction fuel as [|fuel IH]; intros offset Ho Hf ps; unfold ps; cbn [tone_packets].
  { replace (total - offset) with 0 by lia. done. }
  destruct (Z.ltb_spec offset total) as [Hlt|Hge].
  2:{ replace (total - offset) with 0 by lia. done. }
  set (chunk := Z.min TONE_PACKET (total - offset)). assert (1 ≤ chunk ≤ total - offset) by (unfold chunk, TONE_PACKET; lia).
  destruct (IH (offset + chunk)) as (Hc & Hp & Hall); [lia|lia|]. split_and!.
  - cbn [contiguous]. split; [done|]. exists chunk. split; [apply tone_payload_len; lia|]. by rewrite <- Z.add_assoc.
  - rewrite fmap_cons. cbn [concat snd]. rewrite Hp. rewrite Z.add_assoc, <- tone_payload_app by lia. f_equal. lia.
  - constructor.
    + cbn [fst snd]. split_and!; [destruct (offset =? 0); by split|by destruct (offset =? 0)|lia|lia|].
      rewrite tone_payload_len by lia. unfold chunk. lia.
    + eapply Forall_impl; [exact Hall|]. cbn. intros p (? & ? & ? & ?). split_and!; try done; lia.
Qed.

Lemma tone_spec freq base total : 0 ≤ total →
  contiguous base (tone sin freq base total) ∧
  concat (snd <$> tone sin freq base total) = tone_payload sin freq base total ∧
  Forall (λ p, in_u 4 p.1.1 ∧ flags_contains p.1.1 FEC = false ∧ base ≤ p.1.2 < base + total ∧
               len p.2 ≤ 4 * TONE_PACKET) (tone sin freq base total).
Proof.
  intros Ht. pose proof (tone_packets_spec (Z.to_nat total) freq base 0 total) as Hs.
  rewrite Z.add_0_r, Z.sub_0_r in Hs. apply Hs; lia.
Qed.

Lemma send_tone_sends ep sid start ps releases :
  is_u16 (ep_sequence ep) →
  let '(sent, released) := before_release releases ps in
  send_tone ep sid start ps releases =
    Ret (released, sent_audio ep (datagram_of <$> player_packets sid PcmS16le start TONE_RATE (ep_sequence ep) sent) (len sent)).
Proof.
  revert ep releases. induction ps as [|[[fl off] p] ps IH]; intros ep releases Hs; cbn [before_release send_tone].
  - destruct ep. unfold sent_audio. cbn in *. rewrite app_nil_r. do 2 f_equal. unfold wrapping_add. rewrite Z.add_0_r.
    by rewrite as_u_id.
  - destruct (default false (head releases)).
    { destruct ep. unfold sent_audio. cbn in *. rewrite app_nil_r. do 2 f_equal. unfold wrapping_add. rewrite Z.add_0_r.
      by rewrite as_u_id. }
    unfold send_audio, unwrap. cbn [outcome_bind].
    set (ep1 := mkConnected _ _ _ _ _ _ _ _ _).
    specialize (IH ep1 (tail releases)). destruct (before_release (tail releases) ps) as [sent released].
    rewrite IH by (apply wrapping_add_range; lia). do 2 f_equal.
    unfold sent_audio, ep1. cbn [ep_info ep_sent ep_writable ep_audio_target ep_clock_target ep_audio_sent ep_clock_state ep_sequence
         ep_reader_alive].
    rewrite wrapping_add_add, <- (assoc app), len_cons. f_equal. f_equal.
    unfold player_packets. rewrite imap_cons, fmap_cons. cbn [app]. f_equal.
    + unfold datagram_of, player_header, wrapping_add. cbn [fst snd]. by rewrite Z.add_0_r, (as_u_id 16 (ep_sequence ep)).
    + f_equal. apply imap_ext. intros i q _. cbn. rewrite wrapping_add_add. do 3 f_equal. lia.
Qed.

(** The packets of both tones as the program sends them. *)
Definition second_tone (total : Z) : list (Z * Z * list Z) :=
  tone sin FREQ2 total (TONE_RATE * DURATION2) ++ [(LAST_PACKET, total + TONE_RATE * DURATION2, [])].

Definition tones_sent (freq : f64) (duration start base : Z) : list FecPacket :=
  let total := TONE_RATE * duration in
  player_packets 1 PcmS16le start TONE_RATE base (tone sin freq 0 total) ++
  player_packets 2 PcmS16le start TONE_RATE (wrapping_add 16 base (len (tone sin freq 0 total))) (second_tone total).

Definition opening_messages (freq_text : string) (duration : Z) : list Message :=
  [MFormatPropose (mkFormatPropose "sine-demo" PcmS16le TONE_RATE 2 Stereo 16 None);
   MMetadata (mkMetadata (tone_metadata freq_text "Protocol Test" duration)); MPlay (mkPlay "sine-demo")].

Definition gapless_messages : list Message :=
  [MNextTrackPrepare (mkNextTrackPrepare "sine-gapless" PcmS16le TONE_RATE 2 Stereo 16);
   MMetadata (mkMetadata (tone_metadata "880" "Gapless Test" DURATION2)); MStop (mkStop "sine-gapless")].

Lemma tone_total duration : tone_bounded duration → as_u 64 (TONE_RATE * duration) = TONE_RATE * duration.
Proof. intros [H1 H2]. apply as_u_id. unfold in_u, TONE_RATE. lia. Qed.

Lemma second_tone_spec total : 0 ≤ total →
  contiguous total (second_tone total) ∧
  concat (snd <$> second_tone total) = tone_payload sin FREQ2 total (TONE_RATE * DURATION2) ∧
  Forall (λ p, in_u 4 p.1.1 ∧ flags_contains p.1.1 FEC = false ∧ total ≤ p.1.2 < total + 2 ^ 17 ∧
               len p.2 ≤ 4 * TONE_PACKET) (second_tone total).
Proof.
  intros Ht. destruct (tone_spec FREQ2 total (TONE_RATE * DURATION2)) as (Hc & Hp & Hall); [done|].
  unfold second_tone. split_and!.
  - apply (contiguous_app _ (TONE_RATE * DURATION2)); [done| |].
    + rewrite Hp. by apply tone_payload_len.
    + cbn [contiguous]. split; [reflexivity|]. exists 0. split; [reflexivity|exact I].
  - rewrite fmap_app, concat_app, Hp. apply app_nil_r.
  - apply Forall_app. split.
    + eapply Forall_impl; [exact Hall|]. intros p (H1 & H2 & [H3 H4] & H5).
      refine (conj H1 (conj H2 (conj (conj H3 _) H5))). unfold TONE_RATE, DURATION2 in H4. lia.
    + apply Forall_singleton. cbn [fst snd]. unfold TONE_RATE, DURATION2, TONE_PACKET.
      split; [by split|]. split; [reflexivity|]. rewrite len_nil. lia.
Qed.

Lemma player_plain sid start base ps : is_u32 sid → is_u16 base →
  Forall (λ p, in_u 4 p.1.1 ∧ flags_contains p.1.1 FEC = false ∧ is_u64 p.1.2 ∧ len p.2 ≤ 4 * TONE_PACKET) ps →
  Forall plain_packet (player_packets sid PcmS16le start TONE_RATE base ps).
Proof.
  intros Hsid Hb Hps. apply Forall_lookup. intros i q. unfold player_packets. rewrite list_lookup_imap.
  destruct (ps !! i) as [p|] eqn:E; [|done]. intros [= <-].
  destruct (proj1 (Forall_lookup _ _) Hps i p E) as (Hf & Hfec & Ho & Hl).
  apply player_header_plain; try done; [apply wrapping_add_range; lia|].
  unfold in_u. pose proof (len_nonneg p.2). unfold TONE_PACKET in *. lia.
Qed.

Lemma player_fits sid start base ps :
  Forall (λ p, len p.2 ≤ 4 * TONE_PACKET) ps → Forall fits (player_packets sid PcmS16le start TONE_RATE base ps).
Proof.
  intros Hps. apply Forall_lookup. intros i q. unfold player_packets. rewrite list_lookup_imap.
  destruct (ps !! i) as [p|] eqn:E; [|done]. intros [= <-].
  pose proof (proj1 (Forall_lookup _ _) Hps i p E) as Hl. unfold fits, MAX_AUDIO_PAYLOAD, TONE_PACKET in *. cbn in *. lia.
Qed.

Lemma player_packets_lookup sid fmt start rate base ps i h p :
  player_packets sid fmt start rate base ps !! i = Some (h, p) →
  ∃ fl o, ps !! i = Some (fl, o, p) ∧ h = player_header sid fmt start rate (wrapping_add 16 base (Z.of_nat i)) (fl, o, p).
Proof.
  unfold player_packets. rewrite list_lookup_imap. destruct (ps !! i) as [[[fl o] q]|]; [|done].
  intros [= <- <-]. by exists fl, o.
Qed.

Lemma tones_sent_payloads freq duration start base : 0 ≤ duration →
  snd <$> tones_sent freq duration start base =
  snd <$> (tone sin freq 0 (TONE_RATE * duration) ++ second_tone (TONE_RATE * duration)).
Proof. intros. unfold tones_sent. by rewrite !fmap_app, !player_packets_payloads. Qed.

Lemma tones_sent_lookup freq duration start base i h p : 0 ≤ duration →
  tones_sent freq duration start base !! i = Some (h, p) →
  sequence h = wrapping_add 16 base (Z.of_nat i) ∧
  4 * sample_offset h = len (concat (snd <$> take i (tones_sent freq duration start base))) ∧
  pts_ns h = packet_pts start (sample_offset h) TONE_RATE ∧
  stream_id h = (if sample_offset h <? TONE_RATE * duration then 1 else 2).
Proof.
  intros Hd Hi. set (total := TONE_RATE * duration). assert (0 ≤ total) by (unfold total, TONE_RATE; lia).
  destruct (tone_spec freq 0 total) as (Hc1 & Hp1 & Hall1); [done|].
  destruct (second_tone_spec total) as (Hc2 & _ & Hall2); [done|].
  assert (contiguous 0 (tone sin freq 0 total ++ second_tone total)) as Hc.
  { apply (contiguous_app _ total); [done|rewrite Hp1; by apply tone_payload_len|done]. }
  rewrite fmap_take, tones_sent_payloads, <- fmap_take by done. fold total.
  unfold tones_sent in Hi. fold total in Hi. apply lookup_app_Some in Hi as [Hi|[Hge Hi]].
  - apply player_packets_lookup in Hi as (fl & o & Hi & ->). cbn.
    destruct (proj1 (Forall_lookup _ _) Hall1 _ _ Hi) as (_ & _ & Ho & _). cbn in Ho.
    rewrite (proj2 (Z.ltb_lt _ _)) by lia. split_and!; try done.
    rewrite (contiguous_lookup 0 _ i fl o p Hc); [lia|]. by apply lookup_app_l_Some.
  - unfold player_packets at 1 in Hge. rewrite length_imap in Hge.
    unfold player_packets at 1 in Hi. rewrite length_imap in Hi.
    apply player_packets_lookup in Hi as (fl & o & Hi & ->). cbn.
    destruct (proj1 (Forall_lookup _ _) Hall2 _ _ Hi) as (_ & _ & Ho & _). cbn in Ho.
    rewrite (proj2 (Z.ltb_ge _ _)) by lia. split_and!; try done.
    + rewrite wrapping_add_add. do 2 f_equal. unfold len. lia.
    + rewrite (contiguous_lookup 0 _ i fl o p Hc); [lia|]. rewrite lookup_app_r by done. done.
Qed.

Lemma tones_sent_plain freq duration start base : tone_bounded duration → is_u16 base →
  Forall plain_packet (tones_sent freq duration start base) ∧ Forall fits (tones_sent freq duration start base).
Proof.
  intros Hb Hbase. pose proof Hb as [Hd0 Hd1]. assert (0 ≤ TONE_RATE * duration < 2 ^ 63) by (unfold TONE_RATE; lia).
  destruct (tone_spec freq 0 (TONE_RATE * duration)) as (_ & _ & H1); [lia|].
  destruct (second_tone_spec (TONE_RATE * duration)) as (_ & _ & H2); [lia|].
  unfold tones_sent. split; apply Forall_app; split.
  - apply player_plain; [by split|done|]. eapply Forall_impl; [exact H1|]. intros p (A & B & C & D).
    refine (conj A (conj B (conj _ D))). unfold in_u. lia.
  - apply player_plain; [by split|apply wrapping_add_range; lia|]. eapply Forall_impl; [exact H2|]. intros p (A & B & C & D).
    refine (conj A (conj B (conj _ D))). unfold in_u. lia.
  - apply player_fits. eapply Forall_impl; [exact H1|]. by intros p (_ & _ & _ & ?).
  - apply player_fits. eapply Forall_impl; [exact H2|]. by intros p (_ & _ & _ & ?).
Qed.

Lemma second_part_sends ep start total :
  ep_writable ep = true → is_u16 (ep_sequence ep) → 0 ≤ total < 2 ^ 63 →
  ∃ ep', second_part sin ep start total = Ret (false, ep') ∧ ep_sent ep' = ep_sent ep ++ gapless_messages ∧
    ep_audio_sent ep' = ep_audio_sent ep ++
      (datagram_of <$> player_packets 2 PcmS16le start TONE_RATE (ep_sequence ep) (second_tone total)).
Proof.
  intros Hw Hs Ht. unfold second_part, prepare_next_track, send_metadata, send_stop, send_message.
  rewrite Hw. cbn [unwrap outcome_bind ep_writable].
  set (ep0 := mkConnected _ _ _ _ _ _ _ _ _). set (ps := tone sin FREQ2 total (TONE_RATE * DURATION2)).
  pose proof (send_tone_sends ep0 2 start ps [] Hs) as Hsend. rewrite (before_release_never [] ps (Forall_nil_2 _)) in Hsend.
  rewrite Hsend. cbn [outcome_bind]. unfold send_audio at 1, sent_audio, ep0.
  cbn [unwrap outcome_bind ep_info ep_sent ep_writable ep_audio_target ep_clock_target ep_audio_sent
       ep_clock_state ep_sequence ep_reader_alive].
  eexists. split; [reflexivity|]. cbn [ep_sent ep_audio_sent].
  split; [unfold gapless_messages; by rewrite <- !(assoc app)|].
  rewrite <- (assoc app). f_equal. unfold second_tone. fold ps. rewrite player_packets_app, fmap_app. f_equal.
  unfold player_packets. rewrite imap_cons. cbn [imap fmap list_fmap]. unfold datagram_of, player_header. cbn [fst snd].
  assert (wrapping_add 64 total (TONE_RATE * DURATION2) = total + TONE_RATE * DURATION2) as ->.
  { unfold wrapping_add. apply as_u_id. unfold in_u, TONE_RATE, DURATION2. lia. }
  do 3 f_equal. unfold wrapping_add at 2. by rewrite Z.add_0_r, (as_u_id 16 (wrapping_add _ _ _)) by (apply wrapping_add_range; lia).
Qed.

(** What [run_controller] has sent when it leaves the first loop. *)
Lemma run_controller_opening ep freq freq_text duration now releases :
  ep_writable ep = true → is_u16 (ep_sequence ep) → tone_bounded duration →
  let start := wrapping_add 64 now 200000000 in
  let '(sent, released) := before_release releases (tone sin freq 0 (TONE_RATE * duration)) in
  ∃ ep1, ep_sent ep1 = ep_sent ep ++ opening_messages freq_text duration ∧ ep_writable ep1 = true ∧
    ep_audio_sent ep1 = ep_audio_sent ep ++
      (datagram_of <$> player_packets 1 PcmS16le start TONE_RATE (ep_sequence ep) sent) ∧
    ep_sequence ep1 = wrapping_add 16 (ep_sequence ep) (len sent) ∧
    run_controller sin ep freq freq_text duration now releases =
      if released then Ret (true, ep1) else second_part sin ep1 start (TONE_RATE * duration).
Proof.
  intros Hw Hs Hb start. unfold run_controller. rewrite (tone_total duration Hb).
  unfold propose_format, send_metadata at 1, send_play, send_message at 1 2 3. rewrite Hw.
  cbn [unwrap outcome_bind ep_writable]. fold start.
  set (ep0 := mkConnected _ _ _ _ _ _ _ _ _).
  pose proof (send_tone_sends ep0 1 start (tone sin freq 0 (TONE_RATE * duration)) releases Hs) as Hsend.
  destruct (before_release releases _) as [sent released]. rewrite Hsend. cbn [outcome_bind].
  eexists (sent_audio ep0 _ (len sent)). split.
  { unfold opening_messages. cbn [sent_audio ep_sent ep0]. by rewrite <- !(assoc app). }
  split; [reflexivity|]. split; [reflexivity|]. split; [reflexivity|]. destruct released; reflexivity.
Qed.

(** The gapless transition has no gap: of the program's two
    tones the endpoint's receive loop gets every packet, in order; their
    payloads are the first tone and then the second, whose phase continues at
    the sample where the first ends; sequence numbers run on, every sample
    offset is the number of samples sent before, the presentation times are
    those of the offsets, and the stream identifier changes with the tone. *)
Theorem gapless_tones ep freq freq_text duration now releases clock :
  ep_writable ep = true → is_u16 (ep_sequence ep) → tone_bounded duration → Forall (λ r, r = false) releases →
  let total := TONE_RATE * duration in
  let start := wrapping_add 64 now 200000000 in
  ∃ ep' pkts clock',
    run_controller sin ep freq freq_text duration now releases = Ret (false, ep') ∧
    ep_sent ep' = ep_sent ep ++ opening_messages freq_text duration ++ gapless_messages ∧
    ep_audio_sent ep' = ep_audio_sent ep ++ (datagram_of <$> pkts) ∧
    audio_run FecReceiver_new clock (datagram_of <$> pkts) = Ret (packet_event <$> pkts, FecReceiver_new, clock') ∧
    concat (snd <$> pkts) = tone_payload sin freq 0 total ++ tone_payload sin FREQ2 total (TONE_RATE * DURATION2) ∧
    ∀ i h p, pkts !! i = Some (h, p) →
      sequence h = wrapping_add 16 (ep_sequence ep) (Z.of_nat i) ∧
      4 * sample_offset h = len (concat (snd <$> take i pkts)) ∧
      pts_ns h = packet_pts start (sample_offset h) TONE_RATE ∧
      stream_id h = (if sample_offset h <? total then 1 else 2).
Proof.
  intros Hw Hs Hb Hr total start. pose proof Hb as [Hd0 Hd1].
  pose proof (run_controller_opening ep freq freq_text duration now releases Hw Hs Hb) as Hopen. cbn zeta in Hopen.
  rewrite (before_release_never _ _ Hr) in Hopen. destruct Hopen as (ep1 & Hs1 & Hw1 & Ha1 & Hq1 & Hrun).
  fold total start in Ha1, Hrun, Hq1.
  destruct (second_part_sends ep1 start total Hw1) as (ep2 & Hsec & Hs2 & Ha2).
  { rewrite Hq1. apply wrapping_add_range. lia. }
  { unfold total, TONE_RATE. lia. }
  destruct (tones_sent_plain freq duration start (ep_sequence ep) Hb Hs) as [Hplain Hfits].
  destruct (audio_run_plain FecReceiver_new clock _ Hplain) as (c & Hc); [done|].
  exists ep2, (tones_sent freq duration start (ep_sequence ep)), c. split_and!.
  - by rewrite Hrun.
  - by rewrite Hs2, Hs1, <- (assoc app).
  - rewrite Ha2, Ha1, Hq1, <- (assoc app). unfold tones_sent. fold total. by rewrite fmap_app.
  - by rewrite Hc, filter_all.
  - rewrite tones_sent_payloads by done. fold total. rewrite fmap_app, concat_app.
    assert (0 ≤ total) by (unfold total, TONE_RATE; lia).
    destruct (tone_spec freq 0 total) as (_ & -> & _); [done|]. by destruct (second_tone_spec total) as (_ & -> & _).
  - intros i h p. by apply tones_sent_lookup.
Qed.

(** A release ends the program at once: it has sent the
    packets before the release and nothing after it, neither the second tone
    nor a pause or stop for the stream it announced. *)
Theorem release_ends_tone ep freq freq_text duration now releases sent :
  ep_writable ep = true → is_u16 (ep_sequence ep) → tone_bounded duration →
  before_release releases (tone sin freq 0 (TONE_RATE * duration)) = (sent, true) →
  ∃ ep', run_controller sin ep freq freq_text duration now releases = Ret (true, ep') ∧
    ep_sent ep' = ep_sent ep ++ opening_messages freq_text duration ∧
    ep_audio_sent ep' = ep_audio_sent ep ++
      (datagram_of <$> player_packets 1 PcmS16le (wrapping_add 64 now 200000000) TONE_RATE (ep_sequence ep) sent).
Proof.
  intros Hw Hs Hb Hr. pose proof (run_controller_opening ep freq freq_text duration now releases Hw Hs Hb) as Hopen.
  cbn zeta in Hopen. rewrite Hr in Hopen. destruct Hopen as (ep1 & Hs1 & _ & Ha1 & _ & Hrun). by exists ep1.
Qed.

End tones.

(** ** Lemmas: the zone *)

(** Every endpoint of [z'] was in [z], and if it was connected there it still
    is, and has been sent exactly [ds] since. *)
Definition sent_to_all (z z' : Zone) (ds : list (list Z)) : Prop :=
  ∀ id e', z_endpoints z' !! id = Some e' → ∃ e, z_endpoints z !! id = Some e ∧
    (is_disconnected e = false →
     is_disconnected e' = false ∧ ep_audio_sent (en_endpoint e') = ep_audio_sent (en_endpoint e) ++ ds).

(** What the packets of a zone depend on. *)
Definition same_sender (z z' : Zone) : Prop := z_sequence z' = z_sequence z ∧ z_fec z' = z_fec z.

Lemma sent_to_all_trans z1 z2 z3 ds ds' :
  sent_to_all z1 z2 ds → sent_to_all z2 z3 ds' → sent_to_all z1 z3 (ds ++ ds').
Proof.
  intros H12 H23 id e3 He3. destruct (H23 id e3 He3) as (e2 & He2 & Ha2). destruct (H12 id e2 He2) as (e1 & He1 & Ha1).
  exists e1. split; [done|]. intros Hd. destruct (Ha1 Hd) as [Hd2 Ha]. destruct (Ha2 Hd2) as [Hd3 ->].
  by rewrite Ha, <- (assoc app).
Qed.

(** A sending loop writes control messages only. *)
Lemma sent_to_all_map z z' (f : string → EndpointEntry → EndpointEntry) :
  z_endpoints z' = map_imap (λ id e, Some (f id e)) (z_endpoints z) →
  (∀ id e, ep_audio_sent (en_endpoint (f id e)) = ep_audio_sent (en_endpoint e)) →
  (∀ id e, is_disconnected e = false → is_disconnected (f id e) = false) → sent_to_all z z' [].
Proof.
  intros Hz Ha Hd id e'. rewrite Hz, map_lookup_imap. destruct (z_endpoints z !! id) as [e|]; [|done].
  intros [= <-]. exists e. split; [done|]. intros. by rewrite Ha, app_nil_r, Hd.
Qed.

Lemma send_entry_audio e msg : ep_audio_sent (en_endpoint (send_entry e msg).2) = ep_audio_sent (en_endpoint e).
Proof. unfold send_entry. pose proof (send_message_audio (en_endpoint e) msg) as H. by destruct (send_message _ _). Qed.

Lemma send_entry_connected e msg : is_disconnected (send_entry e msg).2 = is_disconnected e.
Proof. unfold is_disconnected. by rewrite send_entry_state. Qed.

Lemma send_each_sent z msg : sent_to_all z (send_each z msg) [].
Proof.
  apply (sent_to_all_map _ _ (λ id e, (send_entry e (msg id)).2)); [done|intros; apply send_entry_audio|].
  intros id e He. by rewrite send_entry_connected.
Qed.

Lemma send_each_state_sent z msg s : s ≠ EsDisconnected → sent_to_all z (send_each_state z msg s) [].
Proof.
  intros Hs. eapply (sent_to_all_map _ _ (λ _ e, let '(ok, e) := send_entry e msg in if ok then set_state e s else e)).
  - unfold send_each_state. cbn. apply map_imap_ext. intros i. destruct (z_endpoints z !! i) as [e|]; [|done]. cbn. by destruct (send_entry e msg).
  - intros _ e. pose proof (send_entry_audio e msg) as Ha. by destruct (send_entry e msg) as [[] e'].
  - intros _ e He. pose proof (send_entry_connected e msg) as Hd. destruct (send_entry e msg) as [[] e']; cbn in *; [|congruence].
    unfold is_disconnected. by rewrite bool_decide_eq_false.
Qed.

Lemma sent_to_all_refl z z' : z_endpoints z' = z_endpoints z → sent_to_all z z' [].
Proof. intros Hz id e He. rewrite Hz in He. exists e. split; [done|]. intros. by rewrite app_nil_r. Qed.

Lemma remove_sent z id : sent_to_all z (remove_endpoint_and_notify z id).2 [] ∧
  same_sender z (remove_endpoint_and_notify z id).2.
Proof.
  unfold remove_endpoint_and_notify, remove_endpoint. destruct (z_endpoints z !! id) as [entry|] eqn:E.
  - destruct (send_message _ _) as [r ep]. cbn [snd fst]. split; [|done].
    set (z1 := set_volume _ _). rewrite <- (app_nil_r []). apply (sent_to_all_trans _ z1); [|apply send_each_sent].
    intros i e He. unfold z1 in He. cbn in He. apply lookup_delete_Some in He as [_ He]. exists e. split; [done|].
    intros. by rewrite app_nil_r.
  - split; [by apply sent_to_all_refl|done].
Qed.

Lemma drop_released_sent z released : sent_to_all z (drop_released z released) [] ∧ same_sender z (drop_released z released).
Proof.
  revert z. induction released as [|id released IH]; intros z; [split; [by apply sent_to_all_refl|done]|].
  destruct (remove_sent z id) as [Ha [Hq Hf]]. destruct (IH (remove_endpoint_and_notify z id).2) as [Ha' [Hq' Hf']].
  unfold drop_released in *. cbn [fold_left]. split; [rewrite <- (app_nil_r []); by eapply sent_to_all_trans|].
  split; congruence.
Qed.

(** One packet to the zone, and to another with the same sender. *)
Lemma send_audio_sent z sid fmt a :
  let '(pkts, z1) := send_audio_packets z sid fmt (aa_pts a) (aa_offset a) (aa_payload a) (aa_flags a) in
  let z' := send_audio_all z sid fmt (aa_pts a) (aa_offset a) (aa_payload a) (aa_flags a) in
  sent_to_all z z' (datagram_of <$> pkts) ∧ same_sender z1 z'.
Proof.
  unfold send_audio_all. destruct (send_audio_packets _ _ _ _ _ _ _) as [pkts z1] eqn:E. split; [|done].
  assert (z_endpoints z1 = z_endpoints z) as Hz.
  { unfold send_audio_packets in E. repeat case_match; by simplify_eq/=. }
  intros id e'. cbn. rewrite Hz, lookup_fmap. destruct (z_endpoints z !! id) as [e|]; [|done]. intros [= <-].
  exists e. split; [done|]. intros Hd. rewrite Hd. split; [exact Hd|]. cbn. f_equal. apply list_fmap_ext.
  by intros i [h p] _.
Qed.

Lemma send_audio_same_sender z z' sid fmt a :
  same_sender z z' →
  (send_audio_packets z' sid fmt (aa_pts a) (aa_offset a) (aa_payload a) (aa_flags a)).1 =
  (send_audio_packets z sid fmt (aa_pts a) (aa_offset a) (aa_payload a) (aa_flags a)).1 ∧
  same_sender (send_audio_packets z sid fmt (aa_pts a) (aa_offset a) (aa_payload a) (aa_flags a)).2
    (send_audio_packets z' sid fmt (aa_pts a) (aa_offset a) (aa_payload a) (aa_flags a)).2.
Proof.
  intros [Hq Hf]. unfold send_audio_packets, data_header, parity_header. rewrite Hq, Hf.
  destruct (z_fec z) as [e|]; [|done]. destruct (encoder_feed e (aa_payload a)) as [[p|] e']; done.
Qed.

(** The arguments of the calls for the packets of a tone. *)
Definition tone_args (start : Z) (ps : list (Z * Z * list Z)) : list audio_args :=
  (λ p : Z * Z * list Z, mkArgs (packet_pts start p.1.2 TONE_RATE) p.1.2 p.2 p.1.1) <$> ps.

Lemma send_many_same_sender z z' sid fmt args :
  same_sender z z' →
  (send_many z' sid fmt args).1 = (send_many z sid fmt args).1 ∧
  same_sender (send_many z sid fmt args).2 (send_many z' sid fmt args).2.
Proof.
  revert z z'. induction args as [|a args IH]; intros z z' Hs; [done|]. cbn [send_many].
  destruct (send_audio_same_sender z z' sid fmt a Hs) as [Hp Hs1].
  destruct (send_audio_packets z sid _ _ _ _ _) as [pkts z1]. destruct (send_audio_packets z' sid _ _ _ _ _) as [pkts' z1'].
  cbn [fst snd] in *. subst pkts'. destruct (IH z1 z1' Hs1) as [Hp' Hs2].
  destruct (send_many z1 _ _ _) as [q z2]. destruct (send_many z1' _ _ _) as [q' z2']. cbn in *. by subst.
Qed.

Lemma send_tone_all_sent z start ps releases :
  let '(complete, z') := send_tone_all z start ps releases in
  if complete then
    sent_to_all z z' (datagram_of <$> (send_many z 1 PcmS16le (tone_args start ps)).1) ∧
    same_sender (send_many z 1 PcmS16le (tone_args start ps)).2 z'
  else endpoint_count z' = 0%nat.
Proof.
  revert z releases. induction ps as [|[[fl off] p] ps IH]; intros z releases; cbn [send_tone_all].
  { split; [by apply sent_to_all_refl|done]. }
  destruct (drop_released_sent z (default [] (head releases))) as [Hd Hsd]. set (zd := drop_released _ _) in *.
  destruct (Nat.eqb_spec (endpoint_count zd) 0) as [He|He]; [done|].
  set (a := mkArgs (packet_pts start off TONE_RATE) off p fl).
  pose proof (send_audio_sent zd 1 PcmS16le a) as Ha. destruct (send_audio_same_sender z zd 1 PcmS16le a Hsd) as [Hp Hs1].
  cbn [aa_pts aa_offset aa_payload aa_flags a] in Ha, Hp, Hs1.
  specialize (IH (send_audio_all zd 1 PcmS16le (packet_pts start off TONE_RATE) off p fl) (tail releases)).
  destruct (send_tone_all _ _ _ _) as [[] z']; [|done]. destruct IH as [Hrest Hsend].
  unfold tone_args. rewrite fmap_cons. fold (tone_args start ps). cbn [send_many fst snd aa_pts aa_offset aa_payload aa_flags].
  destruct (send_audio_packets z 1 PcmS16le _ _ _ _) as [pkts z1]. destruct (send_audio_packets zd 1 PcmS16le _ _ _ _) as [pkts' z1'].
  cbn [fst snd] in Hp, Hs1. subst pkts'. destruct Ha as [Ha [Hq Hf]].
  destruct (send_many_same_sender z1 (send_audio_all zd 1 PcmS16le (packet_pts start off TONE_RATE) off p fl) 1 PcmS16le (tone_args start ps))
    as [Hm1 Hm2]; [destruct Hs1; split; congruence|].
  rewrite Hm1 in Hrest. destruct (send_many z1 _ _ _) as [q z2]. cbn [fst snd] in *. split.
  - rewrite fmap_app. change (datagram_of <$> pkts) with ([] ++ (datagram_of <$> pkts)). rewrite <- (assoc app).
    eapply sent_to_all_trans; [exact Hd|]. by eapply sent_to_all_trans.
  - destruct Hm2, Hsend. split; congruence.
Qed.

Lemma size_imap_total (f : string → EndpointEntry → option EndpointEntry) (m : gmap string EndpointEntry) :
  (∀ id e, is_Some (f id e)) → size (map_imap f m) = size m.
Proof.
  intros Hf. induction m as [|i x m Hi IH] using map_ind; [by rewrite map_imap_empty|].
  destruct (Hf i x) as [y Hy]. rewrite (map_imap_insert_Some _ _ _ _ y) by done.
  rewrite !map_size_insert_None; [by rewrite IH|done|]. rewrite map_lookup_imap. by rewrite Hi.
Qed.

(** The zone once the stream is announced: nothing of the audio path has
    changed. *)
Definition opened (z : Zone) (freq_text : string) (duration : Z) : Zone :=
  play_all (send_metadata_all (propose_format_all z "multiroom-demo" PcmS16le TONE_RATE 2 Stereo 16)
              (multiroom_metadata freq_text (endpoint_count z) duration)) "multiroom-demo".

Lemma opened_spec z freq_text duration :
  sent_to_all z (opened z freq_text duration) [] ∧ same_sender z (opened z freq_text duration) ∧
  play_delay_ms (opened z freq_text duration) = play_delay_ms z.
Proof.
  unfold opened. set (z1 := propose_format_all _ _ _ _ _ _ _). set (z2 := send_metadata_all z1 _).
  assert (sent_to_all z z1 []) as H1.
  { rewrite <- (app_nil_r (@nil (list Z))). eapply sent_to_all_trans; [|apply send_each_sent]. by apply sent_to_all_refl. }
  assert (sent_to_all z1 z2 []) as H2.
  { rewrite <- (app_nil_r (@nil (list Z))). eapply sent_to_all_trans; [|apply send_each_sent]. by apply sent_to_all_refl. }
  assert (sent_to_all z2 (play_all z2 "multiroom-demo") []) as H3.
  { rewrite <- (app_nil_r (@nil (list Z))). eapply sent_to_all_trans; [|by apply send_each_state_sent]. by apply sent_to_all_refl. }
  split; [change [] with ([] ++ ([] ++ []) : list (list Z)); eauto using sent_to_all_trans|]. split; [done|].
  unfold play_delay_ms. cbn [z_play_delay_override play_all send_each_state set_endpoints set_active].
  destruct (z_play_delay_override z) as [d|] eqn:E; [cbn; by rewrite E|]. cbn. rewrite E. unfold is_multiroom. cbn.
  rewrite !size_imap_total; [done|by eexists|by eexists|]. intros _ e. destruct (send_entry e _). by eexists.
Qed.

(** The empty packet that ends the tone of a zone. *)
Definition zone_last (duration start : Z) : audio_args :=
  mkArgs (as_u 64 (start + float_trunc (f64_mul (f64_of_Z duration) (f64_of_Z 1000000000)) 0 U64_MAX))
    (TONE_RATE * duration) [] LAST_PACKET.

(** The packets of a zone's tone: those of the tone and an empty last one. *)
Definition zone_args (sin : f64 → f64) (freq : f64) (duration start : Z) : list audio_args :=
  tone_args start (tone sin freq 0 (TONE_RATE * duration)) ++ [zone_last duration start].

(** Without FEC the packets of a zone are plain. *)
Lemma send_many_plain z sid args :
  z_fec z = None → is_u32 sid → is_u16 (z_sequence z) →
  Forall args_sendable args →
  let '(pkts, _) := send_many z sid PcmS16le args in
  Forall plain_packet pkts ∧ Forall fits pkts ∧ snd <$> pkts = aa_payload <$> args.
Proof.
  intros Hf Hsid. revert z Hf. induction args as [|a args IH]; intros z Hf Hq Hall; [done|].
  apply Forall_cons in Hall as [[(H1 & H2) H3 H4 H5] Hall]. cbn [send_many]. unfold send_audio_packets. rewrite Hf.
  specialize (IH (set_fec z None (wrapping_add 16 (z_sequence z) 1)) eq_refl).
  destruct (send_many (set_fec z None _) sid PcmS16le args) as [pkts z2].
  destruct IH as (IH1 & IH2 & IH3); [apply wrapping_add_range; lia|done|].
  pose proof (len_nonneg (aa_payload a)). unfold MAX_AUDIO_PAYLOAD in *.
  split; [|split; [constructor; [exact H5|done]|by rewrite !fmap_cons; cbn; rewrite IH3]].
  constructor; [|done]. unfold plain_packet, data_header. rewrite Hf. cbn.
  rewrite (as_u_id 16) by (unfold in_u; lia). split; [|done].
  split; cbn; try done; unfold in_u; lia.
Qed.

(** No packet of the tone itself has the end mark. *)
Lemma tone_packets_go_on sin fuel freq base offset total :
  Forall (λ p, flags_contains p.1.1 LAST_PACKET = false) (tone_packets sin fuel freq base offset total).
Proof.
  revert offset. induction fuel as [|fuel IH]; intros offset; cbn [tone_packets]; [done|].
  destruct (offset <? total); [|done]. constructor; [by destruct (offset =? 0)|apply IH].
Qed.

Lemma zone_args_ok sin freq duration start : tone_bounded duration →
  Forall args_ok (tone_args start (tone sin freq 0 (TONE_RATE * duration))) ∧ args_sendable (zone_last duration start) ∧
  concat (payloads (zone_args sin freq duration start)) = tone_payload sin freq 0 (TONE_RATE * duration).
Proof.
  intros [Hd0 Hd1]. assert (0 ≤ TONE_RATE * duration < 2 ^ 63) as Ht by (unfold TONE_RATE; lia).
  destruct (tone_spec sin freq 0 (TONE_RATE * duration)) as (_ & Hp & Hall); [lia|]. split; [|split].
  - unfold tone_args. apply Forall_fmap.
    pose proof (tone_packets_go_on sin (Z.to_nat (TONE_RATE * duration)) freq 0 0 (TONE_RATE * duration)) as Hgo.
    pose proof (proj2 (Forall_and _ _) (conj Hall Hgo)) as Hboth. eapply Forall_impl; [exact Hboth|].
    intros p ((A & B & C & D) & E). split; cbn [aa_flags aa_pts aa_offset aa_payload]; [done|apply packet_pts_range| |].
    + unfold in_u. lia.
    + unfold MAX_AUDIO_PAYLOAD, TONE_PACKET in *. lia.
  - split; unfold zone_last; cbn [aa_flags aa_pts aa_offset aa_payload]; [done|apply as_u_range; lia|unfold in_u; lia|by rewrite len_nil].
  - unfold payloads, zone_args, tone_args. rewrite fmap_app, concat_app, <- list_fmap_compose.
    cbn [fmap list_fmap aa_payload concat]. rewrite !app_nil_r. by rewrite <- Hp.
Qed.

Lemma zone_args_sendable sin freq duration start : tone_bounded duration →
  Forall args_sendable (zone_args sin freq duration start).
Proof.
  intros Hb. destruct (zone_args_ok sin freq duration start Hb) as (Hok & Hlast & _). unfold zone_args. apply Forall_app. split.
  - eapply Forall_impl; [exact Hok|apply args_ok_sendable].
  - by constructor.
Qed.

(** With FEC the tone of a zone survives the loss of one packet in each of its
    complete groups, and their arrival in any order. *)
Lemma tone_survives_loss sin z freq duration start g orders clock :
  tone_bounded duration → between_groups g z →
  length orders = (length (tone sin freq 0 (TONE_RATE * duration)) / Z.to_nat g)%nat → Forall (order_ok (Z.to_nat g)) orders →
  ∃ gpkts tpkts evs fec' clock',
    (send_many z 1 PcmS16le (zone_args sin freq duration start)).1 = concat gpkts ++ tpkts ∧
    length gpkts = length orders ∧ Forall (λ pkts, length pkts = S (Z.to_nat g)) gpkts ∧
    audio_run FecReceiver_new clock (datagram_of <$> concat (zip_with arrives gpkts orders) ++ tpkts) = Ret (evs, fec', clock') ∧
    concat (payloads_of evs) = tone_payload sin freq 0 (TONE_RATE * duration).
Proof.
  intros Hb Hz Hlen Ho. destruct (zone_args_ok sin freq duration start Hb) as (Hok & Hlast & Hpay).
  pose proof Hz as [(e & _ & [_ Hg _ _ _]) _]. set (targs := tone_args start (tone sin freq 0 (TONE_RATE * duration))) in *.
  assert (length targs = length (tone sin freq 0 (TONE_RATE * duration))) as Hn by by unfold targs, tone_args; rewrite length_fmap.
  rewrite <- Hn in Hlen. pose proof (Nat.div_mod_eq (length targs) (Z.to_nat g)) as Hdm.
  pose proof (Nat.mod_upper_bound (length targs) (Z.to_nat g) ltac:(lia)) as Hmod.
  destruct (split_groups (Z.to_nat g) (length orders) targs) as (gss & Hk & Hgs & E); [lia|].
  assert (zone_args sin freq duration start =
          concat gss ++ drop (length orders * Z.to_nat g) targs ++ [zone_last duration start]) as Hargs.
  { change (zone_args sin freq duration start) with (targs ++ [zone_last duration start]). rewrite E at 1. by rewrite <- (assoc_L (++)). }
  rewrite E in Hok. apply Forall_app in Hok as [Hgok Hiok]. rewrite Forall_concat in Hgok.
  destruct (stream_delivered g z 1 PcmS16le gss orders (drop (length orders * Z.to_nat g) targs) (zone_last duration start)
              FecReceiver_new clock) as (gpkts & tpkts & z' & evs & fec' & clock' & Hsend & Hl & Hrun & Hev & _); try done.
  { pose proof (proj2 (Forall_and _ _) (conj Hgs Hgok)) as Hboth. eapply Forall_impl; [exact Hboth|]. intros gs [Hgl Hga].
    split; [unfold len; lia|done]. }
  { apply Forall2_same_length_lookup_2; [done|]. intros i gs o Hi Hj. rewrite (proj1 (Forall_lookup _ _) Hgs i gs Hi).
    exact (proj1 (Forall_lookup _ _) Ho i o Hj). }
  { unfold len. rewrite length_drop. lia. }
  exists gpkts, tpkts, evs, fec', clock'. rewrite Hargs, Hsend. split_and!; [done| | |done|].
  - by rewrite <- Hk, (Forall2_length _ _ _ Hl).
  - apply Forall_lookup. intros i pkts Hi. destruct (Forall2_lookup_r _ _ _ _ _ Hl Hi) as (gs & Hj & ->).
    rewrite Forall_lookup in Hgs. by rewrite (Hgs i gs Hj).
  - by rewrite Hev, <- Hargs.
Qed.


(** C34 The members of a zone play in step: whenever the releases
    come, every endpoint that is still in the zone at the end was there from
    the start and, if it was connected, has been sent exactly the packets of
    the whole tone, the same for all, in order.  Without FEC its receive loop
    delivers these packets and their payloads are the tone; with FEC they are
    groups and a rest, and it delivers the tone even if it loses one packet of
    each group and hears the others in any order.  If all leave, the
    program stops. *)
Theorem multiroom_in_step sin z freq freq_text duration now releases clock :
  tone_bounded duration →
  let z' := stream_zone sin z freq freq_text duration now releases in
  let start := wrapping_add 64 now (as_u 64 (play_delay_ms z * 1000000)) in
  let pkts := (send_many z 1 PcmS16le (zone_args sin freq duration start)).1 in
  endpoint_count z' = 0%nat ∨
  sent_to_all z z' (datagram_of <$> pkts) ∧
  (z_fec z = None → is_u16 (z_sequence z) →
   (∃ clock', audio_run FecReceiver_new clock (datagram_of <$> pkts) = Ret (packet_event <$> pkts, FecReceiver_new, clock')) ∧
   concat (snd <$> pkts) = tone_payload sin freq 0 (TONE_RATE * duration)) ∧
  (∀ g orders, between_groups g z →
   length orders = (length (tone sin freq 0 (TONE_RATE * duration)) / Z.to_nat g)%nat → Forall (order_ok (Z.to_nat g)) orders →
   ∃ gpkts tpkts evs fec' clock',
     pkts = concat gpkts ++ tpkts ∧ length gpkts = length orders ∧ Forall (λ pkts, length pkts = S (Z.to_nat g)) gpkts ∧
     audio_run FecReceiver_new clock (datagram_of <$> concat (zip_with arrives gpkts orders) ++ tpkts) = Ret (evs, fec', clock') ∧
     concat (payloads_of evs) = tone_payload sin freq 0 (TONE_RATE * duration)).
Proof.
  intros Hb z' start pkts.
  destruct (opened_spec z freq_text duration) as (Ho & Hs & Hdelay).
  set (z1 := opened z freq_text duration) in *.
  assert (z' = let '(complete, z2) := send_tone_all z1 start (tone sin freq 0 (TONE_RATE * duration)) releases in
               if complete then stop_all (send_audio_all z2 1 PcmS16le
                 (as_u 64 (start + float_trunc (f64_mul (f64_of_Z duration) (f64_of_Z 1000000000)) 0 U64_MAX))
                 (TONE_RATE * duration) [] LAST_PACKET) "multiroom-demo" else z2) as Hz'.
  { unfold z', stream_zone. fold (opened z freq_text duration). fold z1. rewrite Hdelay, tone_total by done. done. }
  pose proof (send_tone_all_sent z1 start (tone sin freq 0 (TONE_RATE * duration)) releases) as Hrun.
  destruct (send_tone_all _ _ _ _) as [[] z2]; [|left; by rewrite Hz']. destruct Hrun as [Hsent Hsender]. right.
  split.
  - set (last := zone_last duration start).
    assert (pkts = (send_many z1 1 PcmS16le (tone_args start (tone sin freq 0 (TONE_RATE * duration)))).1 ++
                   (send_audio_packets z2 1 PcmS16le (aa_pts last) (aa_offset last) (aa_payload last) (aa_flags last)).1) as ->.
    { unfold pkts. rewrite <- (proj1 (send_many_same_sender z z1 1 PcmS16le _ Hs)). unfold zone_args.
      rewrite send_many_app. destruct (send_many z1 1 PcmS16le (tone_args _ _)) as [p z3]. cbn [fst snd] in *.
      cbn [send_many]. destruct (send_audio_same_sender z3 z2 1 PcmS16le last Hsender) as [Hl _]. rewrite Hl.
      fold last. destruct (send_audio_packets z3 _ _ _ _ _ _) as [q z4]. cbn. by rewrite app_nil_r. }
    rewrite fmap_app, Hz'. rewrite <- (app_nil_l (datagram_of <$> (send_many z1 1 PcmS16le _).1)).
    rewrite <- (assoc app). eapply sent_to_all_trans; [exact Ho|]. eapply sent_to_all_trans; [exact Hsent|].
    pose proof (send_audio_sent z2 1 PcmS16le last) as Hlast. destruct (send_audio_packets z2 _ _ _ _ _ _) as [q z4].
    destruct Hlast as [Hlast _]. cbn [fst]. rewrite <- (app_nil_r (datagram_of <$> q)). eapply sent_to_all_trans; [exact Hlast|].
    unfold stop_all. rewrite <- (app_nil_r (@nil (list Z))). eapply sent_to_all_trans; [|by apply send_each_state_sent].
    by apply sent_to_all_refl.
  - split; [intros Hfec Hq|intros g orders Hg Hn Hord; by apply tone_survives_loss].
    pose proof (send_many_plain z 1 _ Hfec ltac:(by split) Hq (zone_args_sendable sin freq duration start Hb)) as Hplain.
    unfold pkts in *. destruct (send_many z 1 PcmS16le _) as [ps z3]. destruct Hplain as (Hplain & Hfits & Hpays).
    cbn [fst]. destruct (audio_run_plain FecReceiver_new clock ps Hplain) as (c & Hc); [done|].
    split; [exists c; by rewrite Hc, filter_all|]. rewrite Hpays. by apply zone_args_ok.
Qed.

(** A sine that is always one half. *)
Definition half_sin (_ : f64) : f64 := S754_finite false 4503599627370496 (-53).

Lemma gapless_tones_witness :
  ∃ ep' pkts clock',
    run_controller half_sin demo_endpoint (f64_of_Z 440) "440" 1 7 [] = Ret (false, ep') ∧
    audio_run FecReceiver_new SharedClock_new (datagram_of <$> pkts) = Ret (packet_event <$> pkts, FecReceiver_new, clock') ∧
    concat (snd <$> pkts) = tone_payload half_sin (f64_of_Z 440) 0 (TONE_RATE * 1) ++
                            tone_payload half_sin FREQ2 (TONE_RATE * 1) (TONE_RATE * DURATION2).
Proof.
  destruct (gapless_tones half_sin demo_endpoint (f64_of_Z 440) "440" 1 7 [] SharedClock_new)
    as (ep' & pkts & c & Hrun & _ & _ & Ha & Hp & _); [reflexivity|split; reflexivity || discriminate|split; lia|apply Forall_nil_2|].
  exists ep', pkts, c. split_and!; assumption.
Defined.

Lemma tone_starts sin freq total : 0 < total → ∃ p ps, tone sin freq 0 total = p :: ps.
Proof.
  intros Ht. unfold tone. destruct (Z.to_nat total) as [|n] eqn:E; [lia|]. cbn [tone_packets].
  rewrite (proj2 (Z.ltb_lt _ _)) by done. by eexists _, _.
Qed.

Lemma release_ends_tone_witness :
  before_release [true] (tone half_sin (f64_of_Z 440) 0 (TONE_RATE * 1)) = ([], true) ∧
  ∃ ep', run_controller half_sin demo_endpoint (f64_of_Z 440) "440" 1 7 [true] = Ret (true, ep') ∧
    ep_sent ep' = opening_messages "440" 1.
Proof.
  assert (before_release [true] (tone half_sin (f64_of_Z 440) 0 (TONE_RATE * 1)) = ([], true)) as Hr.
  { destruct (tone_starts half_sin (f64_of_Z 440) (TONE_RATE * 1)) as (p & ps & ->); [unfold TONE_RATE; lia|reflexivity]. }
  split; [exact Hr|].
  destruct (release_ends_tone half_sin demo_endpoint (f64_of_Z 440) "440" 1 7 [true] [])
    as (ep' & Hrun & Hs & _); [reflexivity|split; reflexivity || discriminate|split; lia|exact Hr|].
  exists ep'. split; assumption.
Defined.

Lemma multiroom_in_step_witness :
  tone_bounded 3 ∧
  let z' := stream_zone half_sin demo_room (f64_of_Z 440) "440" 3 7 [[]; ["a"%string]] in
  let pkts := (send_many demo_room 1 PcmS16le (zone_args half_sin (f64_of_Z 440) 3 (wrapping_add 64 7 500000000))).1 in
  endpoint_count z' = 0%nat ∨
  sent_to_all demo_room z' (datagram_of <$> pkts) ∧ concat (snd <$> pkts) = tone_payload half_sin (f64_of_Z 440) 0 (TONE_RATE * 3).
Proof.
  assert (tone_bounded 3) as Hb by (split; lia). split; [exact Hb|]. intros z' pkts.
  destruct (multiroom_in_step half_sin demo_room (f64_of_Z 440) "440" 3 7 [[]; ["a"%string]] SharedClock_new Hb) as [H|[H1 H2]];
    [left; exact H|right].
  split; [exact H1|]. exact (proj2 (proj1 H2 eq_refl ltac:(split; reflexivity || discriminate))).
Defined.
