(* ===== verification/Conformance.v ===== *)
(** * The conformance tool

    Models [crates/oaat-test/src/main.rs]: the tests a controller runs over one
    connection to judge an endpoint.  The endpoint is the interface [Peer]:
    what it makes of a message, and what waiting for its next reply comes to
    ([None] when the tool's timeout passes or the channel is closed).  Three
    peers are given: replies from a script, the transport of
    [EndpointTransport] alone, and transport and program together ([App]).
    A verdict keeps the name it is printed with, without the figures and the
    reason printed after it; the arithmetic of the tool is that of a release
    build, which wraps.

    The theorems: what a run's verdict means ([verdicts_counted]), when an
    endpoint which only runs the transport conforms ([transport_conforms]), and
    that the endpoint program does not when each message is handled before the
    next ([own_endpoint_fails]). *)

From S2P Require Import Prelude Text Format Session Wire Message Codec Float Clock Negotiate EndpointTransport ControllerTransport Reader Flac Alsa AlsaOutput App.

Local Open Scope Z_scope.

Class Peer := {
  peer : Type;
  hears : peer → Message → peer;
  answers : peer → option EndpointResponse * peer
}.

(** ** The runner *)

Inductive Verdict := Passed (name : string) | Failed (name : string) | Skipped (name : string).

(** The counters, with the lines printed. *)
Record TestRunner := mkRunner { passed : Z; failed : Z; skipped : Z; lines : list Verdict }.

Definition TestRunner_new : TestRunner := mkRunner 0 0 0 [].

Definition pass (r : TestRunner) (name : string) : TestRunner :=
  mkRunner (passed r + 1) (failed r) (skipped r) (lines r ++ [Passed name]).
Definition fail (r : TestRunner) (name : string) : TestRunner :=
  mkRunner (passed r) (failed r + 1) (skipped r) (lines r ++ [Failed name]).
Definition skip (r : TestRunner) (name : string) : TestRunner :=
  mkRunner (passed r) (failed r) (skipped r + 1) (lines r ++ [Skipped name]).

Definition check (b : bool) (good bad : string) (r : TestRunner) : TestRunner := if b then pass r good else fail r bad.

Definition test_config (tls : bool) : ControllerConfig :=
  mkControllerConfig "oaat-test-runner" "OAAT Conformance Tester" [] 9742 tls.

(** [TestRunner::connect], on what [ConnectedEndpoint::connect] comes to within
    the timeout; [None] is the reason [timeout]. *)
Definition connect {A} (r : option (result A OaatError)) : result A (option OaatError) :=
  match r with
  | Some (Ok a) => Ok a
  | Some (Err e) => Err (Some e)
  | None => Err None
  end.

(** [std::process::exit(if runner.failed > 0 { 1 } else { 0 })]. *)
Definition exit_code (r : TestRunner) : Z := if 0 <? failed r then 1 else 0.

(** ** The tests of the acknowledgement *)

Definition test_info (info : HelloAck) (r : TestRunner) : TestRunner :=
  let r := check (ack_protocol_version info =? PROTOCOL_VERSION) "protocol version" "protocol version" r in
  let r := check (negb (String.eqb (ack_endpoint_id info) "")) "endpoint_id present" "endpoint_id" r in
  check (negb (String.eqb (ack_endpoint_name info) "")) "endpoint_name present" "endpoint_name" r.

Definition test_capabilities (caps : EndpointCapabilities) (r : TestRunner) : TestRunner :=
  let r := check (44100 <=? pcm_max_rate caps) "pcm_max_rate" "pcm_max_rate" r in
  let r := check (16 <=? pcm_max_bits caps) "pcm_max_bits" "pcm_max_bits" r in
  let r := check (2 <=? channels_max caps) "channels_max" "channels_max" r in
  check (bool_decide (PcmS16le ∈ formats caps)) "PCM_S16LE support (mandatory)" "PCM_S16LE" r.

(** ** The tests over the connection *)

Section tests.
Context {P : Peer}.

Record Tool := mkTool { t_ep : ConnectedEndpoint; t_peer : peer; t_runner : TestRunner }.

Definition note (f : TestRunner → TestRunner) (t : Tool) : Tool := mkTool (t_ep t) (t_peer t) (f (t_runner t)).

(** A request of the tool; the endpoint hears what it wrote. *)
Definition tell (f : ConnectedEndpoint → result unit OaatError * ConnectedEndpoint) (t : Tool) : result unit OaatError * Tool :=
  let '(r, ep) := f (t_ep t) in
  (r, mkTool ep (fold_left hears (drop (length (ep_sent (t_ep t))) (ep_sent ep)) (t_peer t)) (t_runner t)).

Definition propose (id : string) (fmt : AudioFormat) (rate : Z) (t : Tool) : Tool :=
  (tell (λ ep, propose_format ep id fmt rate 2 Stereo 16) t).2.

(** [timeout(.., ep.response_rx.recv())], and what is made of it. *)
Definition await (judge : option EndpointResponse → TestRunner → TestRunner) (t : Tool) : Tool :=
  let '(a, p) := answers (t_peer t) in mkTool (t_ep t) p (judge a (t_runner t)).

Definition ignore (_ : option EndpointResponse) (r : TestRunner) : TestRunner := r.

Definition judge_accept (a : option EndpointResponse) (r : TestRunner) : TestRunner :=
  match a with
  | Some (RFormatAccept fa) => check (String.eqb (fa_stream_id fa) "t-accept") "FormatAccept for PCM_S16LE 44.1kHz" "FormatAccept" r
  | _ => fail r "FormatAccept"
  end.

Definition judge_counter (max_rate : Z) (a : option EndpointResponse) (r : TestRunner) : TestRunner :=
  match a with
  | Some (RFormatCounter fc) => check (fc_sample_rate fc <=? max_rate) "FormatCounter" "FormatCounter" r
  | Some (RFormatAccept _) => skip r "FormatCounter"
  | _ => fail r "FormatCounter"
  end.

Definition judge_reject (a : option EndpointResponse) (r : TestRunner) : TestRunner :=
  match a with
  | Some (RFormatReject fr) => check (negb (String.eqb (fr_reason fr) "")) "FormatReject" "FormatReject" r
  | Some (RFormatAccept _) => skip r "FormatReject"
  | _ => fail r "FormatReject"
  end.

(** [(max_rate * 2).max(768000)]; the product wraps in 32 bits. *)
Definition too_high (caps : EndpointCapabilities) : Z := Z.max (as_u 32 (pcm_max_rate caps * 2)) 768000.

Definition unsupported (caps : EndpointCapabilities) : AudioFormat :=
  if bool_decide (Opus ∈ formats caps) then DsdU32le else Opus.

Definition test_negotiation (caps : EndpointCapabilities) (t : Tool) : Tool :=
  let t := await judge_accept (propose "t-accept" PcmS16le 44100 t) in
  let t := await (judge_counter (pcm_max_rate caps)) (propose "t-counter" PcmS16le (too_high caps) t) in
  await judge_reject (propose "t-reject" (unsupported caps) 44100 t).

(** [exchanges] are those of the bootstrap, [None] when it takes too long. *)
Definition test_clock (exchanges : option (list (Z * Z * result (list Z) OaatError))) (t : Tool) : Tool :=
  match exchanges with
  | None => note (λ r, fail r "clock sync") t
  | Some exchanges =>
      match clock_sync_bootstrap (t_ep t) exchanges with
      | (Ok _, ep) =>
          mkTool ep (t_peer t) (check (Z.abs (clk_offset_ns (ep_clock_state ep)) <? 10000000) "clock sync" "clock sync" (t_runner t))
      | (Err _, ep) => mkTool ep (t_peer t) (fail (t_runner t) "clock sync")
      end
  end.

(** The [i]-th packet of silence, of ten. *)
Definition silence (i : nat) (ep : ConnectedEndpoint) : result unit OaatError * ConnectedEndpoint :=
  send_audio ep 1 PcmS16le (Z.of_nat i * 5000000) (Z.of_nat i * 240) (replicate 960 0) (if (i =? 0)%nat then FIRST_PACKET else 0).

Definition test_audio (t : Tool) : Tool :=
  let t := await ignore (propose "t-audio" PcmS16le 44100 t) in
  let t := (tell (λ ep, send_play ep "t-audio") t).2 in
  let '(sent, t) :=
    fold_left (λ '(sent, t) i, match tell (silence i) t with (Ok _, t) => (sent + 1, t) | (Err _, t) => (sent, t) end)
      (seq 0 10) (0, t) in
  let t := note (check (sent =? 10) "audio delivery" "audio delivery") t in
  (tell (λ ep, send_stop ep "t-audio") t).2.

Definition judge_same (a : option EndpointResponse) (r : TestRunner) : TestRunner :=
  match a with
  | Some (RNextTrackReady _) => pass r "gapless same format -> NextTrackReady"
  | _ => fail r "gapless same"
  end.

Definition judge_different (a : option EndpointResponse) (r : TestRunner) : TestRunner :=
  match a with
  | Some (RNextTrackReformat _) => pass r "gapless diff format -> NextTrackReformat"
  | Some (RNextTrackReady _) => skip r "gapless diff"
  | _ => fail r "gapless diff"
  end.

Definition prepare_track (id : string) (rate : Z) (t : Tool) : Tool :=
  (tell (λ ep, prepare_next_track ep id PcmS16le rate 2 Stereo 16) t).2.

Definition test_gapless (t : Tool) : Tool :=
  let t := await ignore (propose "t-gap" PcmS16le 44100 t) in
  let t := await judge_same (prepare_track "t-gap-same" 44100 t) in
  await judge_different (prepare_track "t-gap-diff" 96000 t).

Definition test_sends (f : ConnectedEndpoint → result unit OaatError * ConnectedEndpoint) (good bad : string) (t : Tool) : Tool :=
  let '(r, t) := tell f t in note (check (match r with Ok _ => true | Err _ => false end) good bad) t.

Definition test_volume (t : Tool) : Tool :=
  let t := test_sends (λ ep, send_volume ep 50) "volume_set(50)" "volume_set" t in
  let t := test_sends (λ ep, send_mute ep true) "mute(true)" "mute" t in
  test_sends (λ ep, send_mute ep false) "mute(false)" "unmute" t.

(** The connections, as they come out, and the tests in their order. *)
Definition run_tests (ep : ConnectedEndpoint) (p : peer) (exchanges : option (list (Z * Z * result (list Z) OaatError))) : Tool :=
  let caps := capabilities (ep_info ep) in
  let r := pass TestRunner_new "TCP connect + handshake" in
  let t := mkTool ep p (test_capabilities caps (test_info (ep_info ep) r)) in
  test_volume (test_gapless (test_audio (test_clock exchanges (test_negotiation caps t)))).

Definition conformance (connected : option (result ConnectedEndpoint OaatError)) (p : peer)
    (exchanges : option (list (Z * Z * result (list Z) OaatError))) (reconnected : option (result ConnectedEndpoint OaatError))
  : TestRunner * Z :=
  match connect connected with
  | Err _ => (fail TestRunner_new "TCP connect + handshake", 1)
  | Ok ep =>
      let r := t_runner (run_tests ep p exchanges) in
      let r := pass r "graceful disconnect" in
      let r := match connect reconnected with Ok _ => pass r "reconnection after disconnect" | Err _ => fail r "reconnection" end in
      (r, exit_code r)
  end.

End tests.

(** ** Peers *)

(** Replies as they come, whatever is said. *)
Definition scripted : Peer :=
  {| peer := list (option EndpointResponse); hears p _ := p;
     answers p := match p with a :: p => (a, p) | [] => (None, []) end |}.

(** An endpoint whose replies queue up until they are read. *)
Definition pop_reply {S : Type} (p : S * list EndpointResponse) : option EndpointResponse * (S * list EndpointResponse) :=
  match p.2 with r :: q => (Some r, (p.1, q)) | [] => (None, p) end.

(** The transport alone, at time [now]. *)
Definition transport_peer (cfg : EndpointConfig) (now : Z) : Peer :=
  {| peer := SessionVars * list EndpointResponse;
     hears p m := let '(s, outs) := on_message cfg p.1 m now in (s, p.2 ++ omap reply_of (written outs));
     answers := pop_reply |}.

(** Transport and program, which handles what it hears before the tool goes on. *)
Definition endpoint_peer `{AudioBackend} (cfg : EndpointConfig) (hardware_volume : bool) (now : Z) (w : World) : Peer :=
  {| peer := (SessionVars * App) * list EndpointResponse;
     hears p m := let '(s, a, frames) := node_message cfg hardware_volume p.1.1 p.1.2 m now w in ((s, a), p.2 ++ omap reply_of frames);
     answers := pop_reply |}.

(** ** What the runner counts *)

Definition is_failed (v : Verdict) : bool := match v with Failed _ => true | _ => false end.

(** The counters count the lines. *)
Record runner_inv (r : TestRunner) : Prop := {
  ru_passed : 0 ≤ passed r;
  ru_skipped : 0 ≤ skipped r;
  ru_failed : failed r = Z.of_nat (length (filter (λ v, is_failed v = true) (lines r)));
  ru_total : passed r + failed r + skipped r = len (lines r)
}.

Lemma runner_line p f k l v :
  runner_inv (mkRunner p f k l) →
  runner_inv (mkRunner (p + match v with Passed _ => 1 | _ => 0 end) (f + if is_failed v then 1 else 0)
                (k + match v with Skipped _ => 1 | _ => 0 end) (l ++ [v])).
Proof.
  intros [? ? Hf Ht]. cbn [passed failed skipped lines] in *. split; cbn [passed failed skipped lines].
  - destruct v; lia.
  - destruct v; lia.
  - rewrite filter_app, length_app, Nat2Z.inj_add, Hf, filter_cons, filter_nil.
    destruct v; cbn [is_failed]; [rewrite decide_False by done|rewrite decide_True by done|rewrite decide_False by done]; done.
  - unfold len in *. rewrite length_app. cbn [length]. destruct v; cbn [is_failed]; lia.
Qed.

Lemma runner_pass r s : runner_inv r → runner_inv (pass r s).
Proof. destruct r. intros Hi. pose proof (runner_line _ _ _ _ (Passed s) Hi) as Hl. cbn in Hl. by rewrite !Z.add_0_r in Hl. Qed.
Lemma runner_fail r s : runner_inv r → runner_inv (fail r s).
Proof. destruct r. intros Hi. pose proof (runner_line _ _ _ _ (Failed s) Hi) as Hl. cbn in Hl. by rewrite !Z.add_0_r in Hl. Qed.
Lemma runner_skip r s : runner_inv r → runner_inv (skip r s).
Proof. destruct r. intros Hi. pose proof (runner_line _ _ _ _ (Skipped s) Hi) as Hl. cbn in Hl. by rewrite !Z.add_0_r in Hl. Qed.
Lemma runner_check b good bad r : runner_inv r → runner_inv (check b good bad r).
Proof. destruct b; [apply runner_pass|apply runner_fail]. Qed.

Create HintDb runner.
#[export] Hint Resolve runner_pass runner_fail runner_skip runner_check : runner.

(** A line is never taken back. *)
Lemma kept_pass v r s : v ∈ lines r → v ∈ lines (pass r s).
Proof. intros. apply elem_of_app. by left. Qed.
Lemma kept_fail v r s : v ∈ lines r → v ∈ lines (fail r s).
Proof. intros. apply elem_of_app. by left. Qed.
Lemma kept_skip v r s : v ∈ lines r → v ∈ lines (skip r s).
Proof. intros. apply elem_of_app. by left. Qed.
Lemma kept_check v b good bad r : v ∈ lines r → v ∈ lines (check b good bad r).
Proof. destruct b; [apply kept_pass|apply kept_fail]. Qed.
Lemma fails r s : Failed s ∈ lines (fail r s).
Proof. apply elem_of_app. right. left. Qed.

#[export] Hint Resolve kept_pass kept_fail kept_skip kept_check fails : runner.

Lemma kept_counter v max_rate a r : v ∈ lines r → v ∈ lines (judge_counter max_rate a r).
Proof. intros. destruct a as [[]|]; cbn [judge_counter]; auto with runner. Qed.
Lemma kept_reject v a r : v ∈ lines r → v ∈ lines (judge_reject a r).
Proof. intros. destruct a as [[]|]; cbn [judge_reject]; auto with runner. Qed.
Lemma kept_same v a r : v ∈ lines r → v ∈ lines (judge_same a r).
Proof. intros. destruct a as [[]|]; cbn [judge_same]; auto with runner. Qed.
Lemma kept_different v a r : v ∈ lines r → v ∈ lines (judge_different a r).
Proof. intros. destruct a as [[]|]; cbn [judge_different]; auto with runner. Qed.

#[export] Hint Resolve kept_counter kept_reject kept_same kept_different : runner.

Lemma exit_code_0 r : runner_inv r → exit_code r = 0 ↔ Forall (λ v, is_failed v = false) (lines r).
Proof.
  intros [_ _ Hf _]. unfold exit_code. rewrite Hf. split.
  - intros H. destruct (Z.ltb_spec 0 (Z.of_nat (length (filter (λ v, is_failed v = true) (lines r))))); [done|].
    apply Forall_forall. intros v Hv. destruct (is_failed v) eqn:E; [|done]. exfalso.
    assert (v ∈ filter (λ v, is_failed v = true) (lines r)) as Hin by by apply list_elem_of_filter.
    destruct (filter _ _); [by apply elem_of_nil in Hin|cbn in *; lia].
  - intros H. assert (filter (λ v, is_failed v = true) (lines r) = []) as ->; [|done].
    destruct (filter _ _) as [|v l] eqn:E; [done|]. assert (v ∈ filter (λ v, is_failed v = true) (lines r)) as Hv by (rewrite E; left).
    apply list_elem_of_filter in Hv as [Hv Hin]. rewrite Forall_forall in H. specialize (H v Hin). congruence.
Qed.

Lemma exit_code_1 r v : runner_inv r → v ∈ lines r → is_failed v = true → exit_code r = 1.
Proof.
  intros Hi Hv Hf. destruct (decide (exit_code r = 0)) as [E|E].
  - apply exit_code_0 in E; [|done]. rewrite Forall_forall in E. specialize (E v Hv). congruence.
  - unfold exit_code in *. by destruct (0 <? failed r).
Qed.

(** ** A run, as a conversation *)

Section conversation.
Context {P : Peer}.

Definition proposal_of (id : string) (fmt : AudioFormat) (rate : Z) : Message :=
  MFormatPropose (mkFormatPropose id fmt rate 2 Stereo 16 None).
Definition preparation_of (id : string) (rate : Z) : Message :=
  MNextTrackPrepare (mkNextTrackPrepare id PcmS16le rate 2 Stereo 16).

(** The tool says a message, or waits for a reply. *)
Inductive Move := Says (m : Message) | Waits.

Definition moves (caps : EndpointCapabilities) : list Move :=
  [Says (proposal_of "t-accept" PcmS16le 44100); Waits; Says (proposal_of "t-counter" PcmS16le (too_high caps)); Waits;
   Says (proposal_of "t-reject" (unsupported caps) 44100); Waits; Says (proposal_of "t-audio" PcmS16le 44100); Waits;
   Says (MPlay (mkPlay "t-audio")); Says (MStop (mkStop "t-audio")); Says (proposal_of "t-gap" PcmS16le 44100); Waits;
   Says (preparation_of "t-gap-same" 44100); Waits; Says (preparation_of "t-gap-diff" 96000); Waits].

(** What the waits come to, and the peer at the end. *)
Fixpoint converse (p : peer) (ms : list Move) : list (option EndpointResponse) * peer :=
  match ms with
  | [] => ([], p)
  | Says m :: ms => converse (hears p m) ms
  | Waits :: ms => ((answers p).1 :: (converse (answers p).2 ms).1, (converse (answers p).2 ms).2)
  end.

Definition clock_ok (ep : ConnectedEndpoint) (exchanges : option (list (Z * Z * result (list Z) OaatError))) : bool :=
  match exchanges with
  | None => false
  | Some exchanges =>
      match clock_sync_bootstrap ep exchanges with
      | (Ok _, ep) => Z.abs (clk_offset_ns (ep_clock_state ep)) <? 10000000
      | (Err _, _) => false
      end
  end.

(** The runner after a whole run, from the replies. *)
Definition judged (info : HelloAck) (clock : bool) (rs : list (option EndpointResponse)) : TestRunner :=
  match rs with
  | [a1; a2; a3; _; _; a6; a7] =>
      let r := test_capabilities (capabilities info) (test_info info (pass TestRunner_new "TCP connect + handshake")) in
      let r := judge_reject a3 (judge_counter (pcm_max_rate (capabilities info)) a2 (judge_accept a1 r)) in
      let r := check clock "clock sync" "clock sync" r in
      let r := pass r "audio delivery" in
      let r := judge_different a7 (judge_same a6 r) in
      pass (pass (pass r "volume_set(50)") "mute(true)") "mute(false)"
  | _ => TestRunner_new
  end.

(** A tool in the middle of a run over [ep]: its writes succeed. *)
Record on_the_way (c : ClockState) (p : peer) (r : TestRunner) (t : Tool) : Prop := {
  ow_writable : ep_writable (t_ep t) = true;
  ow_clock : ep_clock_state (t_ep t) = c;
  ow_peer : t_peer t = p;
  ow_runner : t_runner t = r
}.

Lemma way_tell c p r t (f : ConnectedEndpoint → result unit OaatError * ConnectedEndpoint) m :
  (∀ ep, f ep = send_message ep m) → on_the_way c p r t →
  (tell f t).1 = Ok tt ∧ on_the_way c (hears p m) r (tell f t).2.
Proof.
  intros Hf [Hw Hc Hp Hr]. unfold tell. rewrite Hf. unfold send_message. rewrite Hw. cbn [fst snd ep_sent].
  rewrite drop_app_length. split; [done|]. split; cbn; congruence.
Qed.

Lemma way_await c p r t judge :
  on_the_way c p r t → on_the_way c (answers p).2 (judge (answers p).1 r) (await judge t).
Proof. intros [Hw Hc Hp Hr]. unfold await. rewrite Hp, Hr. by destruct (answers p). Qed.

Lemma way_note c p r t f : on_the_way c p r t → on_the_way c p (f r) (note f t).
Proof. intros [Hw Hc Hp Hr]. split; cbn; congruence. Qed.

Lemma way_sends c p r t f m good bad :
  (∀ ep, f ep = send_message ep m) → on_the_way c p r t →
  on_the_way c (hears p m) (pass r good) (test_sends f good bad t).
Proof.
  intros Hf Ht. destruct (way_tell _ _ _ _ _ _ Hf Ht) as [H1 H2]. unfold test_sends.
  destruct (tell f t) as [o t']. cbn in H1, H2. subst o. by apply (way_note _ _ _ _ (check true good bad)).
Qed.

Lemma way_silence c p r t i : on_the_way c p r t → (tell (silence i) t).1 = Ok tt ∧ on_the_way c p r (tell (silence i) t).2.
Proof.
  intros [Hw Hc Hp Hr]. unfold tell, silence, send_audio. cbn [fst snd ep_sent].
  rewrite drop_ge by done. split; [done|]. split; cbn; done.
Qed.

Lemma way_packets c p r ks sent t :
  on_the_way c p r t →
  let st := fold_left (λ '(sent, t) i, match tell (silence i) t with (Ok _, t) => (sent + 1, t) | (Err _, t) => (sent, t) end) ks (sent, t) in
  st.1 = sent + len ks ∧ on_the_way c p r st.2.
Proof.
  revert sent t. induction ks as [|i ks IH]; intros sent t Ht; cbn [fold_left].
  - rewrite len_nil. split; [cbn; lia|done].
  - destruct (way_silence _ _ _ _ i Ht) as [H1 H2]. destruct (tell (silence i) t) as [o t']. cbn in H1, H2. subst o.
    destruct (IH (sent + 1) t' H2) as [E1 E2]. split; [rewrite E1, len_cons; lia|done].
Qed.
End conversation.

(** ** The whole run *)

Section run.
Context {P : Peer}.

Lemma bootstrap_same ep ep' exchanges :
  ep_clock_state ep = ep_clock_state ep' →
  let '(o, e) := clock_sync_bootstrap ep exchanges in
  let '(o', e') := clock_sync_bootstrap ep' exchanges in
  o = o' ∧ ep_clock_state e = ep_clock_state e' ∧ ep_writable e' = ep_writable ep'.
Proof.
  revert ep ep'. induction exchanges as [|[[t1 t4] resp] exchanges IH]; intros ep ep' Hc; [done|].
  cbn [clock_sync_bootstrap]. unfold clock_sync_once. destruct resp as [b|e]; [|done]. destruct (clock_decode b) as [c|e]; [|done].
  rewrite Hc. apply (IH (with_clock ep _) (with_clock ep' _)). done.
Qed.

Lemma way_clock ep p r t exchanges :
  on_the_way (ep_clock_state ep) p r t →
  ∃ c, on_the_way c p (check (clock_ok ep exchanges) "clock sync" "clock sync" r) (test_clock exchanges t).
Proof.
  intros Ht. destruct exchanges as [ex|].
  2:{ exists (ep_clock_state ep). exact (way_note _ _ _ _ (λ r, fail r "clock sync") Ht). }
  destruct Ht as [Hw Hc Hp Hr]. unfold clock_ok, test_clock. pose proof (bootstrap_same ep (t_ep t) ex (eq_sym Hc)) as Hs.
  destruct (clock_sync_bootstrap ep ex) as [o e], (clock_sync_bootstrap (t_ep t) ex) as [o' e'].
  destruct Hs as (<- & Hce & Hwe). exists (ep_clock_state e'). destruct o; (split; cbn; [congruence|done|congruence|by rewrite Hr, ?Hce]).
Qed.

Lemma way_audio c p r t :
  on_the_way c p r t →
  let p1 := (answers (hears p (proposal_of "t-audio" PcmS16le 44100))).2 in
  on_the_way c (hears (hears p1 (MPlay (mkPlay "t-audio"))) (MStop (mkStop "t-audio"))) (pass r "audio delivery") (test_audio t).
Proof.
  intros Ht p1. unfold test_audio.
  pose proof (proj2 (way_tell _ _ _ _ _ (proposal_of "t-audio" PcmS16le 44100) (λ _, eq_refl) Ht)) as H1.
  pose proof (way_await _ _ _ _ ignore H1) as H2.
  pose proof (proj2 (way_tell _ _ _ _ _ (MPlay (mkPlay "t-audio")) (λ _, eq_refl) H2)) as H3.
  pose proof (way_packets _ _ _ (seq 0 10) 0 _ H3) as [Hn H4]. revert Hn H4.
  unfold propose. destruct (fold_left _ _ _) as [sent t4]. cbn [fst snd]. intros -> H4.
  exact (proj2 (way_tell _ _ _ _ _ (MStop (mkStop "t-audio")) (λ _, eq_refl) (way_note _ _ _ _ (check true _ _) H4))).
Qed.

(** With a connection that takes what is written, the verdicts depend on the
    acknowledgement, the clock exchanges and the seven replies alone. *)
Lemma run_judged ep p exchanges :
  ep_writable ep = true →
  t_runner (run_tests ep p exchanges) =
  judged (ep_info ep) (clock_ok ep exchanges) (converse p (moves (capabilities (ep_info ep)))).1.
Proof.
  intros Hw. unfold run_tests. set (caps := capabilities (ep_info ep)).
  set (r0 := test_capabilities _ _).
  assert (on_the_way (ep_clock_state ep) p r0 (mkTool ep p r0)) as H by done.
  unfold test_negotiation. apply (λ H, proj2 (way_tell _ _ _ _ _ (proposal_of "t-accept" PcmS16le 44100) (λ _, eq_refl) H)) in H.
  apply (way_await _ _ _ _ judge_accept) in H.
  apply (λ H, proj2 (way_tell _ _ _ _ _ (proposal_of "t-counter" PcmS16le (too_high caps)) (λ _, eq_refl) H)) in H.
  apply (way_await _ _ _ _ (judge_counter (pcm_max_rate caps))) in H.
  apply (λ H, proj2 (way_tell _ _ _ _ _ (proposal_of "t-reject" (unsupported caps) 44100) (λ _, eq_refl) H)) in H.
  apply (way_await _ _ _ _ judge_reject) in H.
  apply (way_clock ep _ _ _ exchanges) in H as [c H]. apply way_audio in H. unfold test_gapless.
  apply (λ H, proj2 (way_tell _ _ _ _ _ (proposal_of "t-gap" PcmS16le 44100) (λ _, eq_refl) H)) in H.
  apply (way_await _ _ _ _ ignore) in H.
  apply (λ H, proj2 (way_tell _ _ _ _ _ (preparation_of "t-gap-same" 44100) (λ _, eq_refl) H)) in H.
  apply (way_await _ _ _ _ judge_same) in H.
  apply (λ H, proj2 (way_tell _ _ _ _ _ (preparation_of "t-gap-diff" 96000) (λ _, eq_refl) H)) in H.
  apply (way_await _ _ _ _ judge_different) in H. unfold test_volume.
  apply (way_sends _ _ _ _ _ (MVolumeSet (mkVolumeSet 50)) "volume_set(50)" "volume_set" (λ _, eq_refl)) in H.
  apply (way_sends _ _ _ _ _ (MMute (mkMute true)) "mute(true)" "mute" (λ _, eq_refl)) in H.
  apply (way_sends _ _ _ _ _ (MMute (mkMute false)) "mute(false)" "unmute" (λ _, eq_refl)) in H.
  exact (ow_runner _ _ _ _ H).
Qed.

(** ** How many verdicts there are *)

(** [n] verdicts, rightly counted. *)
Definition counted (n : nat) (r : TestRunner) : Prop := runner_inv r ∧ length (lines r) = n.

Lemma counted_pass n r s : counted n r → counted (S n) (pass r s).
Proof. intros [? <-]. split; [by apply runner_pass|]. cbn. rewrite length_app. cbn. lia. Qed.
Lemma counted_fail n r s : counted n r → counted (S n) (fail r s).
Proof. intros [? <-]. split; [by apply runner_fail|]. cbn. rewrite length_app. cbn. lia. Qed.
Lemma counted_skip n r s : counted n r → counted (S n) (skip r s).
Proof. intros [? <-]. split; [by apply runner_skip|]. cbn. rewrite length_app. cbn. lia. Qed.
Lemma counted_check n b good bad r : counted n r → counted (S n) (check b good bad r).
Proof. destruct b; [apply counted_pass|apply counted_fail]. Qed.

#[local] Hint Resolve counted_pass counted_fail counted_skip counted_check : runner.

Lemma counted_reply n judge t :
  (∀ a r, counted n r → counted (S n) (judge a r)) → counted n (t_runner t) → counted (S n) (t_runner (await judge t)).
Proof. intros Hj Ht. unfold await. destruct (answers _). by apply Hj. Qed.

Lemma runner_propose id fmt rate t : t_runner (propose id fmt rate t) = t_runner t.
Proof. unfold propose, tell. by destruct (propose_format _ _ _ _ _ _ _). Qed.
Lemma runner_tell f t : t_runner (tell f t).2 = t_runner t.
Proof. unfold tell. by destruct (f _). Qed.
Lemma runner_ignore t : t_runner (await ignore t) = t_runner t.
Proof. unfold await. by destruct (answers _). Qed.

Lemma counted_sends n f good bad t : counted n (t_runner t) → counted (S n) (t_runner (test_sends f good bad t)).
Proof.
  intros Ht. unfold test_sends. rewrite <- (runner_tell f) in Ht. destruct (tell f t). by apply counted_check.
Qed.

Lemma counted_clock n exchanges t : counted n (t_runner t) → counted (S n) (t_runner (test_clock exchanges t)).
Proof.
  intros Ht. unfold test_clock. destruct exchanges as [ex|]; [|by apply counted_fail].
  destruct (clock_sync_bootstrap _ _) as [[?|?] ?]; [by apply counted_check|by apply counted_fail].
Qed.

Lemma counted_audio n t : counted n (t_runner t) → counted (S n) (t_runner (test_audio t)).
Proof.
  intros Ht. unfold test_audio. set (t2 := (tell _ (await _ _)).2).
  assert (t_runner t2 = t_runner t) as E by (unfold t2; by rewrite runner_tell, runner_ignore, runner_propose).
  assert (∀ ks sent t2, t_runner t2 = t_runner t →
    t_runner (fold_left (λ '(sent, t) i, match tell (silence i) t with (Ok _, t) => (sent + 1, t) | (Err _, t) => (sent, t) end)
      ks (sent, t2)).2 = t_runner t) as Hf.
  { intros ks. induction ks as [|k ks IH]; intros sent t' E'; [done|]. cbn [fold_left].
    pose proof (runner_tell (silence k) t') as Hk. destruct (tell (silence k) t') as [[?|?] t'']; apply IH; cbn in Hk; congruence. }
  specialize (Hf (seq 0 10) 0 t2 E). destruct (fold_left _ _ _) as [sent t3]. rewrite runner_tell. apply counted_check. cbn in Hf. by rewrite Hf.
Qed.

Lemma counted_run ep p exchanges : counted 18 (t_runner (run_tests ep p exchanges)).
Proof.
  unfold run_tests, test_volume. do 3 apply counted_sends. unfold test_gapless.
  apply counted_reply; [intros [[]|] r ?; cbn; auto with runner|]. unfold prepare_track. rewrite runner_tell.
  apply counted_reply; [intros [[]|] r ?; cbn; auto with runner|]. rewrite runner_tell, runner_ignore, runner_propose.
  apply counted_audio, counted_clock. unfold test_negotiation.
  apply counted_reply; [intros [[]|] r ?; cbn; auto with runner|]. rewrite runner_propose.
  apply counted_reply; [intros [[]|] r ?; cbn; auto with runner|]. rewrite runner_propose.
  apply counted_reply; [intros [[]|] r ?; cbn; auto with runner|]. rewrite runner_propose. cbn [t_runner].
  unfold test_capabilities, test_info. do 7 apply counted_check. apply counted_pass. done.
Qed.

End run.

Lemma converse_says {P : Peer} p m ms : converse p (Says m :: ms) = converse (hears p m) ms.
Proof. done. Qed.
Lemma converse_waits {P : Peer} p ms : (converse p (Waits :: ms)).1 = (answers p).1 :: (converse (answers p).2 ms).1.
Proof. done. Qed.

Ltac reply := rewrite converse_waits; cbn [app omap list_omap reply_of answers pop_reply transport_peer endpoint_peer fst snd].

(** ** The transport alone *)

(** What the tool asks of an announcement, and a rate whose double fits in 32
    bits. *)
Definition announces_enough (ack : HelloAck) : Prop :=
  ack_endpoint_id ack ≠ ""%string ∧ ack_endpoint_name ack ≠ ""%string ∧
  PcmS16le ∈ formats (capabilities ack) ∧ 44100 ≤ pcm_max_rate (capabilities ack) < 2 ^ 31 ∧
  16 ≤ pcm_max_bits (capabilities ack) ∧ 2 ≤ channels_max (capabilities ack).

Section negotiation.
Context (caps : EndpointCapabilities) (Hlisted : PcmS16le ∈ formats caps) (Hbits : 16 ≤ pcm_max_bits caps).

Lemma proposes_cd id :
  44100 ≤ pcm_max_rate caps →
  negotiate_format caps (mkFormatPropose id PcmS16le 44100 2 Stereo 16 None) = MFormatAccept (mkFormatAccept id).
Proof.
  intros Hr. unfold negotiate_format. cbn -[Z.leb]. rewrite bool_decide_eq_true_2 by done. cbn -[Z.leb].
  rewrite !(proj2 (Z.leb_le _ _)) by lia. done.
Qed.

Lemma above_limit : 0 ≤ pcm_max_rate caps < 2 ^ 31 → pcm_max_rate caps < too_high caps.
Proof. intros H. unfold too_high, as_u. rewrite Z.mod_small by lia. lia. Qed.

Lemma proposes_too_high id :
  0 ≤ pcm_max_rate caps < 2 ^ 31 →
  negotiate_format caps (mkFormatPropose id PcmS16le (too_high caps) 2 Stereo 16 None) =
  MFormatCounter (mkFormatCounter id PcmS16le (best_rate_in_family (too_high caps) (pcm_max_rate caps)) 2 Stereo 16 None).
Proof.
  intros Hr. pose proof (above_limit Hr). unfold negotiate_format. cbn -[Z.leb too_high best_rate_in_family].
  rewrite bool_decide_eq_true_2 by done. cbn -[Z.leb too_high best_rate_in_family].
  rewrite (proj2 (Z.leb_gt _ _)), (proj2 (Z.leb_le 16 _)) by lia. done.
Qed.

Lemma counter_in_range : 48000 ≤ pcm_max_rate caps → best_rate_in_family (too_high caps) (pcm_max_rate caps) ≤ pcm_max_rate caps.
Proof.
  intros Hr. destruct (family_of (too_high caps)) as [f|] eqn:Ef.
  - apply (best_rate_le _ _ f Ef). destruct f; cbn; lia.
  - unfold best_rate_in_family. rewrite Ef. lia.
Qed.

(** The tool's counter test: from 48 kHz on the counter-proposal is within the
    limit; below, it is the lowest rate of the 48 kHz family. *)
Lemma counter_judged :
  44100 ≤ pcm_max_rate caps < 2 ^ 31 →
  (best_rate_in_family (too_high caps) (pcm_max_rate caps) <=? pcm_max_rate caps) = (48000 <=? pcm_max_rate caps).
Proof.
  intros Hr. destruct (Z.leb_spec 48000 (pcm_max_rate caps)) as [H48|H48].
  - apply Z.leb_le. by apply counter_in_range.
  - apply Z.leb_gt. assert (too_high caps = 768000) as ->.
    { unfold too_high, as_u. rewrite Z.mod_small by lia. lia. }
    rewrite (best_rate_fallback 768000 _ F48000) by (done || (cbn; lia)). cbn. lia.
Qed.
End negotiation.

(** A format the endpoint does not list is refused with a reason; if it lists
    both candidates, it may also accept. *)
Lemma proposes_unsupported caps id :
  (∃ reason, negotiate_format caps (mkFormatPropose id (unsupported caps) 44100 2 Stereo 16 None) =
             MFormatReject (mkFormatReject id reason) ∧ reason ≠ ""%string) ∨
  negotiate_format caps (mkFormatPropose id (unsupported caps) 44100 2 Stereo 16 None) = MFormatAccept (mkFormatAccept id).
Proof.
  unfold negotiate_format. cbn -[unsupported Z.ltb]. destruct (bool_decide (unsupported caps ∈ formats caps)) eqn:Ein.
  - unfold unsupported in *. destruct (bool_decide (Opus ∈ formats caps)) eqn:Eo; [|congruence]. cbn -[Z.ltb].
    destruct (dsd_max_rate caps) as [m|]; [|left; eexists; done]. destruct (m <? 64); [left; eexists; done|by right].
  - left. eexists. done.
Qed.

Section transport.
Context (cfg : EndpointConfig) (now : Z).

Lemma transport_hears s q id fmt rate :
  cfg_defer_format_accept cfg = false →
  let r := negotiate_format (cfg_capabilities cfg) (mkFormatPropose id fmt rate 2 Stereo 16 None) in
  @hears (transport_peer cfg now) (s, q) (proposal_of id fmt rate) =
  (match r with MFormatAccept _ => set_format s fmt rate | _ => s end, q ++ omap reply_of [r]).
Proof.
  intros Hd r. cbn -[negotiate_format]. unfold on_format_propose. fold r. rewrite Hd. cbn [andb].
  destruct r; cbn; rewrite ?app_nil_r; done.
Qed.

Lemma transport_plays s q m : m = MPlay (mkPlay "t-audio") ∨ m = MStop (mkStop "t-audio") → @hears (transport_peer cfg now) (s, q) m = (s, q).
Proof. intros [-> | ->]; cbn; by rewrite app_nil_r. Qed.

Ltac hear caps := rewrite converse_says, transport_hears by done; fold caps.

(** The replies of the transport, in the order the tool awaits them. *)
Lemma transport_replies s ack :
  hello_ack cfg = MHelloAck ack → announces_enough ack → cfg_defer_format_accept cfg = false →
  let accept id := Some (RFormatAccept (mkFormatAccept id)) in
  ∃ c a3, (converse (P := transport_peer cfg now) (s, []) (moves (capabilities ack))).1 =
    [accept "t-accept"; Some (RFormatCounter c); a3; accept "t-audio"; accept "t-gap";
     Some (RNextTrackReady (mkNextTrackReady "t-gap-same"));
     Some (RNextTrackReformat (mkNextTrackReformat "t-gap-diff" PcmS16le 96000))] ∧
    (fc_sample_rate c <=? pcm_max_rate (capabilities ack)) = (48000 <=? pcm_max_rate (capabilities ack)) ∧
    (a3 = accept "t-reject" ∨ ∃ reason, a3 = Some (RFormatReject (mkFormatReject "t-reject" reason)) ∧ reason ≠ ""%string).
Proof.
  intros Hack (_ & _ & Hin & Hr & Hb & _) Hd accept. unfold hello_ack in Hack. injection Hack as <-. cbn [capabilities] in *.
  set (caps := cfg_capabilities cfg) in *. exists (mkFormatCounter "t-counter" PcmS16le (best_rate_in_family (too_high caps) (pcm_max_rate caps)) 2 Stereo 16 None).
  unfold moves.
  hear caps. rewrite (proposes_cd caps Hin Hb) by lia. reply.
  hear caps. rewrite (proposes_too_high caps Hin Hb) by lia. reply.
  hear caps. destruct (proposes_unsupported caps "t-reject") as [(reason & -> & Hne)| -> ]; reply;
    (eexists; hear caps; rewrite (proposes_cd caps Hin Hb) by lia; reply;
     do 2 rewrite converse_says, transport_plays by auto; hear caps; rewrite (proposes_cd caps Hin Hb) by lia; reply;
     split; [reflexivity|]; split; [by apply counter_judged|eauto]).
Qed.
End transport.

(** ** Transport and program together *)

(** What the program says of a proposal. *)
Definition is_answer (r : EndpointResponse) : bool :=
  match r with RFormatAccept _ | RFormatReject _ => true | _ => false end.

Lemma negotiate_accepts caps fp fa :
  negotiate_format caps fp = MFormatAccept fa → is_pcm (fp_format fp) = true →
  fp_format fp ∈ formats caps ∧ fp_sample_rate fp ≤ pcm_max_rate caps ∧ fp_bits_per_sample fp ≤ pcm_max_bits caps.
Proof.
  intros Hn Hpcm. unfold negotiate_format in Hn. destruct (bool_decide _) eqn:Ein in Hn; [|done]. cbn in Hn. rewrite Hpcm in Hn.
  destruct (_ && _) eqn:Eb in Hn; [|done]. apply andb_prop in Eb as [Er Eb]. apply bool_decide_eq_true in Ein. split_and!; [done|lia|lia].
Qed.

Section endpoint.
Context `{B : AudioBackend} (cfg : EndpointConfig) (hardware_volume : bool) (now : Z) (w : World).
Context (Hdefer : cfg_defer_format_accept cfg = true).

Abbreviation heard p m := (@hears (endpoint_peer cfg hardware_volume now w) p m).

Lemma endpoint_hears s a q id fmt rate :
  pending_accept s = None →
  let r := negotiate_format (cfg_capabilities cfg) (mkFormatPropose id fmt rate 2 Stereo 16 None) in
  ∃ s' a' answer, is_answer answer = true ∧ pending_accept s' = None ∧
    heard ((s, a), q) (proposal_of id fmt rate) =
    ((s', a'), q ++ match r with MFormatAccept _ => [] | _ => omap reply_of [r] end ++ [answer]).
Proof.
  intros Hp r. destruct (node_proposal cfg hardware_volume s a (mkFormatPropose id fmt rate 2 Stereo 16 None) now w Hdefer Hp)
    as (s' & a' & Hp' & Hn).
  cbn [fp_format fp_sample_rate fp_channels fp_stream_id] in Hn. fold r in Hn. revert Hn. set (ans := match (au_configure _ _ _ _ _ _).1 with Ok _ => _ | Err _ => _ end).
  assert (∃ answer, is_answer answer = true ∧ reply_of ans = Some answer) as (answer & Ha & Hr)
    by (subst ans; destruct (au_configure _ _ _ _ _ _).1; eexists; split; [|done| |done]; done).
  clearbody ans. intros Hn. exists s', a', answer. split_and!; [done|done|].
  cbn [hears endpoint_peer fst snd]. unfold proposal_of. rewrite Hn. destruct r; cbn [omap list_omap app]; rewrite Hr; done.
Qed.

Lemma playback_silent a cmd : controls (on_playback a cmd w).2 = [].
Proof. destruct cmd; cbn [on_playback]; unfold on_play, end_use; repeat case_match; by simplify_eq/=. Qed.

Lemma endpoint_plays s a q m :
  pending_accept s = None → m = MPlay (mkPlay "t-audio") ∨ m = MStop (mkStop "t-audio") →
  ∃ a', heard ((s, a), q) m = ((s, a'), q).
Proof.
  intros Hp Hm. assert (∃ cmd, on_message cfg s m now = (s, [Event (EvPlayback cmd)])) as [cmd Hon]
    by (destruct Hm as [-> | ->]; eexists; reflexivity).
  pose proof (playback_silent a cmd) as Hc. exists (on_playback a cmd w).1. cbn [hears endpoint_peer fst snd].
  unfold node_message. rewrite Hon. cbn -[on_playback]. destruct (on_playback a cmd w) as [a' hooks]. cbn [fst snd] in *.
  rewrite app_nil_r, Hc. cbn. by rewrite app_nil_r.
Qed.


Lemma endpoint_appends s a q m : ∃ s' a' rs, heard ((s, a), q) m = ((s', a'), q ++ rs).
Proof. cbn [hears endpoint_peer fst snd]. destruct (node_message _ _ _ _ _ _ _) as [[s' a'] frames]. eauto. Qed.

Ltac hears_proposal Hp id fmt rate :=
  rewrite converse_says; match goal with |- context [@hears _ (?s, ?a, ?q) _] =>
    let s' := fresh "s" in let a' := fresh "a" in let ans := fresh "ans" in let Ha := fresh "Ha" in let E := fresh "E" in
    let Hp' := fresh "Hp" in
    destruct (endpoint_hears s a q id fmt rate Hp) as (s' & a' & ans & Ha & Hp' & E); rewrite E; clear E Hp; rename Hp' into Hp
  end.

Ltac plays Hp m :=
  rewrite converse_says; match goal with |- context [@hears _ (?s, ?a, ?q) m] =>
    let a' := fresh "a" in let E := fresh "E" in
    destruct (endpoint_plays s a q m Hp ltac:(auto)) as [a' E]; rewrite E; clear E
  end.

(** The second answers to the countered and the refused proposal stay in the
    channel, so the sixth wait, for the prepared track, gets an answer to a
    proposal; unless the first proposal failed already. *)
Lemma endpoint_replies s a ack :
  hello_ack cfg = MHelloAck ack → 0 ≤ pcm_max_rate (capabilities ack) < 2 ^ 31 → pending_accept s = None →
  let rs := (converse (P := endpoint_peer cfg hardware_volume now w) ((s, a), []) (moves (capabilities ack))).1 in
  (∃ r, rs !! 0%nat = Some (Some r) ∧ ∀ fa, r ≠ RFormatAccept fa) ∨ (∃ r, rs !! 5%nat = Some (Some r) ∧ is_answer r = true).
Proof.
  intros Hack Hr Hp. unfold hello_ack in Hack. injection Hack as <-. cbn [capabilities] in *.
  set (caps := cfg_capabilities cfg) in *. unfold moves.
  hears_proposal Hp "t-accept" PcmS16le 44100. fold caps.
  pose proof (negotiate_format_answer caps (mkFormatPropose "t-accept" PcmS16le 44100 2 Stereo 16 None)) as Hshape.
  destruct (negotiate_format caps (mkFormatPropose "t-accept" PcmS16le 44100 2 Stereo 16 None)) eqn:E1; try done; reply.
  2,3: left; eexists; split; [reflexivity|done].
  right. apply negotiate_accepts in E1 as (Hin & Hr1 & Hb); [|done]. cbn in Hin, Hr1, Hb.
  hears_proposal Hp "t-counter" PcmS16le (too_high caps). fold caps. rewrite (proposes_too_high caps Hin Hb) by lia. reply.
  hears_proposal Hp "t-reject" (unsupported caps) 44100. fold caps.
  destruct (proposes_unsupported caps "t-reject") as [(reason & -> & Hne)| -> ]; reply;
    hears_proposal Hp "t-audio" PcmS16le 44100; fold caps; rewrite (proposes_cd caps Hin Hb) by lia; reply.
  all: plays Hp (MPlay (mkPlay "t-audio")); plays Hp (MStop (mkStop "t-audio")); hears_proposal Hp "t-gap" PcmS16le 44100; fold caps;
    rewrite (proposes_cd caps Hin Hb) by lia; reply.
  all: rewrite converse_says; match goal with |- context [@hears _ (?s, ?a, ?q) ?m] =>
         destruct (endpoint_appends s a q m) as (s' & a' & rs & Erest); rewrite Erest end; reply; eexists; split; [reflexivity|assumption].
Qed.

End endpoint.

Lemma length_converse {P : Peer} p ms :
  length (converse p ms).1 = length (omap (λ m, match m with Waits => Some () | Says _ => None end) ms).
Proof. revert p. induction ms as [|[m|] ms IH]; intros p; [done|apply IH|]. cbn. by rewrite IH. Qed.

(** ** Properties *)

Section properties.
Context `{JsonCodec}.

(** The tool's verdict is the tally of its tests: whatever the endpoint
    answers or the connection does, a run comes to exactly twenty verdicts
    (one when the connection fails), the three counters add up to them, the
    failures are those printed, and the exit code is zero when there is none
    and one otherwise. *)
Theorem verdicts_counted {P : Peer} connected p exchanges reconnected :
  let '(r, code) := conformance connected p exchanges reconnected in
  length (lines r) = match connect connected with Ok _ => 20%nat | Err _ => 1%nat end ∧
  passed r + failed r + skipped r = len (lines r) ∧
  failed r = Z.of_nat (length (filter (λ v, is_failed v = true) (lines r))) ∧
  (code = 0 ↔ Forall (λ v, is_failed v = false) (lines r)) ∧ (code = 0 ∨ code = 1).
Proof.
  unfold conformance. destruct (connect connected) as [ep|e]; [|split_and!; try done; [split; [done|by inversion 1]|by right]].
  pose proof (counted_run ep p exchanges) as Hc. apply (counted_pass _ _ "graceful disconnect") in Hc.
  assert (∀ r, counted 20 r → length (lines r) = 20%nat ∧ passed r + failed r + skipped r = len (lines r) ∧
    failed r = Z.of_nat (length (filter (λ v, is_failed v = true) (lines r))) ∧
    (exit_code r = 0 ↔ Forall (λ v, is_failed v = false) (lines r)) ∧ (exit_code r = 0 ∨ exit_code r = 1)) as Hall.
  { intros r [Hi Hl]. split_and!; [done|apply Hi|apply Hi|by apply exit_code_0|]. unfold exit_code. destruct (_ <? _); auto. }
  destruct (connect reconnected); apply Hall; [by apply counted_pass|by apply counted_fail].
Qed.

(** C24 When an endpoint that only runs the transport conforms: if it passes
    the capability tests (with a rate below 2^31 Hz, whose double the tool does
    not wrap) and accepts at once instead of deferring, then however its
    acknowledgement is cut on the way, the tool connects, every one of its
    requests is answered in turn, and it ends with exit code zero exactly when
    the endpoint announces 48 kHz or more, the clock exchanges succeed with an
    offset below ten milliseconds, and it can connect again.  (An endpoint
    limited to less than 48 kHz fails the counter test.) *)
Theorem transport_conforms cfg now tls addr chunks s ack :
  hello_ack cfg = MHelloAck ack → announces_enough ack → cfg_defer_format_accept cfg = false →
  json_faithful (MHelloAck ack) → len (to_vec (MHelloAck ack)) ≤ MAX_FRAME_SIZE →
  Forall (λ d, d ≠ []) chunks → chunks ≠ [] → concat chunks = encode_framed (MHelloAck ack) →
  ∃ ep codec, handshake (test_config tls) addr chunks = Some (Ok (ep, codec)) ∧
    ∀ exchanges reconnected,
      (conformance (P := transport_peer cfg now) (Some (Ok ep)) (s, []) exchanges reconnected).2 =
      if (48000 <=? pcm_max_rate (capabilities ack)) && clock_ok ep exchanges &&
         match connect reconnected with Ok _ => true | Err _ => false end then 0 else 1.
Proof.
  intros Hack Henough Hd Hj Hl Hne Hch Hcat. unfold handshake. rewrite (read_hello_ack_frame ack FrameCodec_new) by done.
  assert (ack_protocol_version ack = PROTOCOL_VERSION) as Hv by (unfold hello_ack in Hack; by injection Hack as <-).
  rewrite Hv. cbn [negb Z.eqb PROTOCOL_VERSION]. eexists _, _. split; [reflexivity|]. intros exchanges reconnected.
  set (ep := mkConnected ack _ _ _ _ _ _ _ _). unfold conformance. cbn [connect snd].
  rewrite run_judged by done. change (ep_info ep) with ack.
  destruct (transport_replies cfg now s ack Hack Henough Hd) as (c & a3 & -> & Hc & Ha3).
  destruct Henough as (Hid & Hname & Hin & Hr & Hb & Hchan). unfold judged, test_capabilities, test_info.
  apply String.eqb_neq in Hid, Hname. rewrite Hv, Hid, Hname. rewrite bool_decide_eq_true_2 by done.
  rewrite (proj2 (Z.leb_le 44100 _)), (proj2 (Z.leb_le 16 _)), (proj2 (Z.leb_le 2 _)) by lia.
  cbn [judge_accept judge_counter]. rewrite Hc.
  destruct Ha3 as [-> | (reason & -> & Hne')]; cbn [judge_reject];
    [|cbn [fr_reason]; apply String.eqb_neq in Hne'; rewrite Hne']; destruct (48000 <=? _), (clock_ok _ _), (connect reconnected); reflexivity.
Qed.

(** C23 The endpoint of this repository does not pass its own tool when it
    handles each message before the next one arrives: with deferred accepts, a
    countered and a refused proposal are answered a second time by the
    program, the tool takes these for the replies to what it says next, and
    at the prepared track at the latest a test fails.  This is so whatever
    the capabilities, the sound device, the clock and the acknowledgement's
    way are. *)
Theorem own_endpoint_fails `{B : AudioBackend} cfg hardware_volume now w tls addr chunks s a ep codec :
  cfg_defer_format_accept cfg = true → 0 ≤ pcm_max_rate (cfg_capabilities cfg) < 2 ^ 31 → pending_accept s = None →
  MHelloAck (ep_info ep) = hello_ack cfg → handshake (test_config tls) addr chunks = Some (Ok (ep, codec)) →
  ∀ exchanges reconnected,
    (conformance (P := endpoint_peer cfg hardware_volume now w) (Some (Ok ep)) ((s, a), []) exchanges reconnected).2 = 1.
Proof.
  intros Hd Hr Hp Hack Hhs exchanges reconnected. unfold conformance. cbn [connect snd].
  pose proof (counted_run (P := endpoint_peer cfg hardware_volume now w) ep ((s, a), []) exchanges) as Hc. revert Hc.
  assert (ep_writable ep = true) as Hw.
  { unfold handshake in Hhs. destruct (read_hello_ack _ _) as [[[? ?]|?]|]; simplify_eq/=. by destruct (negb _); simplify_eq. }
  rewrite run_judged by done. set (rs := (converse _ _).1). intros Hc.
  assert (length rs = 7%nat) as Hlen by apply length_converse.
  assert (∃ v, v ∈ lines (judged (ep_info ep) (clock_ok ep exchanges) rs) ∧ is_failed v = true) as (v & Hv & Hf).
  { assert (0 ≤ pcm_max_rate (capabilities (ep_info ep)) < 2 ^ 31) as Hr' by (unfold hello_ack in Hack; by injection Hack as ->).
    pose proof (endpoint_replies cfg hardware_volume now w Hd s a (ep_info ep) (eq_sym Hack) Hr' Hp) as Hrs. fold rs in Hrs.
    clearbody rs. destruct rs as [|a1 [|a2 [|a3 [|a4 [|a5 [|a6 [|a7 [|? ?]]]]]]]]; try done. unfold judged.
    destruct Hrs as [(r & Hr1 & Hna)|(r & Hr6 & Han)]; [cbn in Hr1; simplify_eq|cbn in Hr6; simplify_eq].
    - exists (Failed "FormatAccept"). split; [|done]. destruct r as [fa|?|?|?|?|?]; cbn [judge_accept]; [by destruct (Hna fa)|..]; auto 12 with runner.
    - exists (Failed "gapless same"). split; [|done]. destruct r; try done; cbn [judge_same]; auto 12 with runner. }
  apply (exit_code_1 _ v); [|by destruct (connect reconnected); auto with runner|done]. destruct Hc as [Hc _]. destruct (connect reconnected); auto with runner.
Qed.

End properties.

(** ** Witnesses *)

(** An endpoint that confirms at once, and the JSON of its acknowledgement. *)
Definition plain_cfg : EndpointConfig := mkEndpointConfig "ep" "Endpoint" demo_caps 9741 9742 500 false.
Definition ack_of (cfg : EndpointConfig) : HelloAck :=
  mkHelloAck PROTOCOL_VERSION (cfg_endpoint_id cfg) (cfg_endpoint_name cfg) (cfg_capabilities cfg) (cfg_audio_port cfg)
    (cfg_clock_port cfg) (cfg_buffer_size_ms cfg) [FEATURE_ENDPOINT_RELEASE].
Definition ack_json : JsonCodec := {|
  to_vec m := match m with MHelloAck _ => [123; 125] | _ => [0] end;
  from_slice l := match l with [123; 125] => Ok (MHelloAck (ack_of plain_cfg)) | _ => Err "expected value"%string end
|}.

(** Ten exchanges over a link of 200 microseconds each way, clocks 3 ms apart. *)
Definition ten_exchanges : list (Z * Z * result (list Z) OaatError) :=
  (λ i, let t := Z.of_nat i * 100000000 in
        (t, t + 400000, Ok (clock_encode (mkClockSync 1 Response (Z.of_nat i) t (t + 3200000) (t + 3200000))))) <$> seq 1 10.

Lemma transport_conforms_witness :
  ∃ ep codec, @handshake ack_json (test_config false) (3232235777, 9740) [[0; 0; 0]; [2; 123; 125]] = Some (Ok (ep, codec)) ∧
    clock_ok ep (Some ten_exchanges) = true ∧
    (conformance (P := transport_peer plain_cfg 0) (Some (Ok ep)) (pi_session, []) (Some ten_exchanges) (Some (Ok ep))).2 = 0.
Proof.
  destruct (@transport_conforms ack_json plain_cfg 0 false (3232235777, 9740) [[0; 0; 0]; [2; 123; 125]] pi_session (ack_of plain_cfg))
    as (ep & codec & Hhs & Hcode); try reflexivity.
  - unfold announces_enough. cbn. split_and!; try done; try lia. left.
  - split; [done|]. by repeat constructor.
  - by vm_compute.
  - by repeat constructor.
  - done.
  - exists ep, codec. split; [exact Hhs|]. assert (clock_ok ep (Some ten_exchanges) = true) as Hclock
      by (injection Hhs as <- <-; vm_compute; reflexivity).
    split; [exact Hclock|]. rewrite Hcode, Hclock. reflexivity.
Defined.

Lemma own_endpoint_fails_witness :
  ∃ ep codec, @handshake ack_json (test_config false) (3232235777, 9740) [[0; 0; 0; 2; 123; 125]] = Some (Ok (ep, codec)) ∧
    ∀ exchanges, (conformance (P := endpoint_peer demo_cfg false 7 pi_world) (Some (Ok ep)) ((pi_session, pi_app), []) exchanges (Some (Ok ep))).2 = 1.
Proof.
  eexists _, _. split; [vm_compute; reflexivity|]. intros exchanges.
  apply (@own_endpoint_fails ack_json _ demo_cfg false 7 pi_world false (3232235777, 9740) [[0; 0; 0; 2; 123; 125]] pi_session pi_app _ FrameCodec_new);
    reflexivity || (split; [discriminate|reflexivity]).
Defined.
