(* ===== verification/Launch.v ===== *)
(** * Starting the programs

    Models [main], [run] and what surrounds the modes of the command-line
    program in [crates/oaat-cli/src/main.rs]: the choice of the mode, the PID
    file, finding an endpoint and connecting to it, and the end of the endpoint
    by a signal.  The modes themselves are [run_controller] and
    [run_multiroom] of [Programs], [stream_file] of [Player], and [Endpoint].
    What the surroundings answer (files, network, clock) is the record
    [Surroundings]; printing is left out. *)

From S2P Require Import Prelude Text Format Session Wire Message Codec Float Clock Fec Sync Negotiate EndpointTransport Server ControllerTransport Zone ZoneAudio Capability Discovery Player Programs WebUi Flac Alsa AlsaOutput App Startup.

Local Open Scope Z_scope.

(** An IPv4 address as the number a socket address holds. *)
Definition ipv4_number (ip : Ipv4Addr) : Z := let '(a, b, c, d) := ip in ((a * 256 + b) * 256 + c) * 256 + d.

Record Surroundings := mkSurroundings {
  (** mDNS: whether the daemon starts, and what a search gets *)
  su_mdns : bool;
  su_browse : option (list SearchTurn);
  (** connecting to an address, and what is read from it *)
  su_tcp : ControllerTransport.SocketAddr → option (result unit OaatError);
  su_tls : ControllerTransport.SocketAddr → result unit string;
  su_reads : ControllerTransport.SocketAddr → list (list Z);
  (** the exchanges of the clock bootstrap, and the ports of a responder *)
  su_exchanges : ControllerTransport.SocketAddr → list (Z * Z * result (list Z) OaatError);
  su_responder : option Z * option Z;
  (** the releases heard before each packet, and the clock at the first *)
  su_releases : list bool;
  su_zone_releases : list (list string);
  su_now : Z;
  su_file : string → option (list Z);
  (** a new identifier *)
  su_uuid : string
}.

(** How a mode of the controller ends; [Waiting] when the endpoint neither
    answers nor closes. *)
Inductive Ending :=
| NoEndpointFound
| ConnectionFailed (e : OaatError)
| Waiting
| CannotReadFile
| BadFile (e : WavError)
| ToneSent (released : bool) (ep : ConnectedEndpoint)
| FileSent (ep : ConnectedEndpoint)
| ZoneSent (z : Zone)
| Discovered (eps : list DiscoveredEndpoint).

Section modes.
Context `{JsonCodec}.
Variable show_addr : ControllerTransport.SocketAddr → string.
Variable sin : f64 → f64.
Variable file_stem : string → string.
Context (su : Surroundings).

(** The address given, or that of the first endpoint found. *)
Definition target_addr (target : option ControllerTransport.SocketAddr) : outcome (option ControllerTransport.SocketAddr) :=
  match target with
  | Some addr => Ret (Some addr)
  | None =>
      if su_mdns su then Ret ((λ de, (ipv4_number (fst (de_addr de)), snd (de_addr de))) <$> find_first (su_browse su))
      else Panic
  end.

(** [ConnectedEndpoint::connect]. *)
Definition dial (config : ControllerConfig) (addr : ControllerTransport.SocketAddr) : option (result ConnectedEndpoint OaatError) :=
  match connect_with_time_source config addr (show_addr addr) (su_tcp su addr) (su_tls su addr) (su_reads su addr) with
  | Some (Ok (ep, _)) => Some (Ok ep)
  | Some (Err e) => Some (Err e)
  | None => None
  end.

Definition clock_port : Z := spawn_clock_responder (fst (su_responder su)) (snd (su_responder su)).

(** Finding the endpoint, connecting and the clock bootstrap, whose failure is
    only logged; then [rest]. *)
Definition on_endpoint (config : ControllerConfig) (target : option ControllerTransport.SocketAddr)
    (rest : ConnectedEndpoint → outcome Ending) : outcome Ending :=
  (let! addr := target_addr target in
   match addr with
   | None => Ret NoEndpointFound
   | Some addr =>
       match dial config addr with
       | None => Ret Waiting
       | Some (Err e) => Ret (ConnectionFailed e)
       | Some (Ok ep) => rest (clock_sync_bootstrap ep (su_exchanges su addr)).2
       end
   end)%oaat.

Definition tone_config (name : string) (tls : bool) : ControllerConfig :=
  mkControllerConfig (su_uuid su) name [FEATURE_ENDPOINT_RELEASE] clock_port tls.

Definition controller_tone (name : string) (target : option ControllerTransport.SocketAddr) (freq : f64) (freq_text : string) (duration : Z)
    (tls : bool) : outcome Ending :=
  on_endpoint (tone_config name tls) target (λ ep,
    let! (released, ep) := run_controller sin ep freq freq_text duration (su_now su) (su_releases su) in
    Ret (ToneSent released ep))%oaat.

(** The file is read and understood before anything is connected. *)
Definition controller_file (name : string) (target : option ControllerTransport.SocketAddr) (path : string) (tls : bool) : outcome Ending :=
  match su_file su path with
  | None => Ret CannotReadFile
  | Some file =>
      (let! w := parse_wav file in
       match w with
       | Err e => Ret (BadFile e)
       | Ok w =>
           on_endpoint (mkControllerConfig (su_uuid su) name [] clock_port tls) target (λ ep,
             let! ep := stream_file ep (file_stem path) w (wrapping_add 64 (su_now su) PLAY_DELAY_NS) in
             Ret (FileSent ep))%oaat
       end)%oaat
  end.

Definition multiroom_config : ControllerConfig :=
  mkControllerConfig (su_uuid su) "OAAT Multi-Room" [FEATURE_ENDPOINT_RELEASE] clock_port false.

(** The endpoints connected, each with its clock exchanges, up to the first
    that fails. *)
Fixpoint dial_targets (targets : list ControllerTransport.SocketAddr)
    : option (list (ControllerTransport.SocketAddr * result ConnectedEndpoint OaatError * list (Z * Z * result (list Z) OaatError))) :=
  match targets with
  | [] => Some []
  | addr :: targets =>
      match dial multiroom_config addr with
      | None => None
      | Some (Err e) => Some [(addr, Err e, su_exchanges su addr)]
      | Some (Ok ep) => cons (addr, Ok ep, su_exchanges su addr) <$> dial_targets targets
      end
  end.

Definition multiroom (targets : list ControllerTransport.SocketAddr) (freq : f64) (freq_text : string) (duration : Z) (play_delay fec : option Z)
    : outcome Ending :=
  match dial_targets targets with
  | None => Ret Waiting
  | Some targets =>
      (let! z := run_multiroom sin multiroom_config targets freq freq_text duration (su_now su) play_delay fec (su_zone_releases su) in
       match z with
       | Err e => Ret (ConnectionFailed e)
       | Ok z => Ret (ZoneSent z)
       end)%oaat
  end.

Definition run_discover : outcome Ending :=
  if su_mdns su then Ret (Discovered (find_all (su_browse su))) else Panic.

End modes.

(** ** The endpoint's start and end *)

(** The PID file, by what it holds. *)
Definition write_pid_file (pid : Z) (writable : bool) (pid_file : option Z) : option Z :=
  if writable then Some pid else pid_file.
Definition remove_pid_file (removable : bool) (pid_file : option Z) : option Z := if removable then None else pid_file.

Inductive EndpointStart :=
| DevicesListed
| ConfigRefused (e : ConfigError)
| Starts (p : EndpointParams).

(** The [Endpoint] arm of [run], up to [run_endpoint]. *)
Definition start_endpoint (args : EndpointArgs) (list_devices : bool) (file_config : result EndpointFileConfig ConfigError)
    (hostname : string) (detected : option string) (pid : Z) (writable : bool) (pid_file : option Z)
    : EndpointStart * option Z :=
  if list_devices then (DevicesListed, pid_file)
  else
    let pid_file := if arg_daemon args then write_pid_file pid writable pid_file else pid_file in
    match file_config with
    | Err e => (ConfigRefused e, pid_file)
    | Ok cfg => (Starts (endpoint_params args cfg hostname detected), pid_file)
    end.

Inductive ForkedRole := ForkFailed | Parent | Child.

(** [daemonize]: what goes on after the fork is the child, in a session of its
    own. *)
Definition daemonize (fork : Z) : ForkedRole := if fork <? 0 then ForkFailed else if 0 <? fork then Parent else Child.

(** The signal arms of the event loop: the loop ends with them. *)
Definition on_signal `{AudioBackend} (s : App) (removable : bool) (pid_file : option Z) : App * option Z :=
  (set_audio s (au_stop (app_audio s)), remove_pid_file removable pid_file).

(** The end of the [Endpoint] arm. *)
Definition end_endpoint (p : EndpointParams) (removable : bool) (pid_file : option Z) : option Z :=
  if ep_daemon p then remove_pid_file removable pid_file else pid_file.

(** ** The choice of the mode *)

Inductive Command :=
| Endpoint (args : EndpointArgs) (list_devices : bool)
| Controller (name : string) (target : option ControllerTransport.SocketAddr) (file : option string) (freq : f64) (freq_text : string)
    (duration : Z) (tls : bool)
| Multiroom (targets : list ControllerTransport.SocketAddr) (freq : f64) (freq_text : string) (duration : Z) (play_delay fec : option Z)
| Discover (timeout : Z).

(** Whether the process forks before anything else. *)
Definition forks (c : Command) : bool :=
  match c with Endpoint args list_devices => arg_daemon args && negb list_devices | _ => false end.

(** The modes of the controller; the endpoint is [start_endpoint] and then
    [Endpoint]. *)
Definition run_controller_mode `{JsonCodec} (show_addr : ControllerTransport.SocketAddr → string) (sin : f64 → f64) (file_stem : string → string)
    (su : Surroundings) (c : Command) : option (outcome Ending) :=
  match c with
  | Endpoint _ _ => None
  | Controller name target file freq freq_text duration tls =>
      Some (match file with
            | Some path => controller_file show_addr file_stem su name target path tls
            | None => controller_tone show_addr sin su name target freq freq_text duration tls
            end)
  | Multiroom targets freq freq_text duration play_delay fec =>
      Some (multiroom show_addr sin su targets freq freq_text duration play_delay fec)
  | Discover _ => Some (run_discover su)
  end.

(** ** Lemmas *)

Lemma outcome_bind_inv {A B} (m : outcome A) (k : A → outcome B) b :
  outcome_bind m k = Ret b → ∃ a, m = Ret a ∧ k a = Ret b.
Proof. destruct m; cbn; [eauto|done]. Qed.

Lemma bootstrap_keeps ep exchanges : ∃ c, (clock_sync_bootstrap ep exchanges).2 = with_clock ep c.
Proof.
  revert ep. induction exchanges as [|[[t1 t4] resp] exchanges IH]; intros ep; [exists (ep_clock_state ep); by destruct ep|].
  cbn [clock_sync_bootstrap]. unfold clock_sync_once.
  destruct resp as [b|e]; [|exists (ep_clock_state ep); by destruct ep].
  destruct (clock_decode b) as [r|e]; [|exists (ep_clock_state ep); by destruct ep]. cbn.
  destruct (IH (with_clock ep (clock_update (ep_clock_state ep) t1 (cs_t2 r) (cs_t3 r) t4))) as [c ->]. by exists c.
Qed.

(** The connection is the same: whom it is with and where the audio goes. *)
Definition same_connection (ep ep' : ConnectedEndpoint) : Prop :=
  ep_info ep' = ep_info ep ∧ ep_audio_target ep' = ep_audio_target ep.

#[local] Instance same_connection_pre : PreOrder same_connection.
Proof. split; [by split|]. intros x y z [E1 E2] [E3 E4]. split; congruence. Qed.

Lemma send_message_same ep m ep' : unwrap (send_message ep m) = Ret ep' → same_connection ep ep'.
Proof. unfold send_message. destruct (ep_writable ep); intros; by simplify_eq/=. Qed.

Lemma send_audio_same ep sid fmt pts off payload fl ep' :
  unwrap (send_audio ep sid fmt pts off payload fl) = Ret ep' → same_connection ep ep'.
Proof. intros. by simplify_eq/=. Qed.

Lemma send_tone_same ep sid start pkts releases b ep' :
  send_tone ep sid start pkts releases = Ret (b, ep') → same_connection ep ep'.
Proof.
  revert ep releases. induction pkts as [|[[fl off] payload] pkts IH]; intros ep releases Hs; cbn [send_tone] in Hs; [by simplify_eq|].
  destruct (default false (head releases)); [by simplify_eq|].
  apply outcome_bind_inv in Hs as (ep1 & H1 & H2). etrans; [by eapply send_audio_same|]. by eapply IH.
Qed.

Lemma run_controller_same sin ep freq freq_text duration now releases b ep' :
  run_controller sin ep freq freq_text duration now releases = Ret (b, ep') → same_connection ep ep'.
Proof.
  intros Hr. unfold run_controller in Hr.
  do 3 (apply outcome_bind_inv in Hr as (? & ?%send_message_same & Hr)).
  apply outcome_bind_inv in Hr as ([released ep4] & ?%send_tone_same & Hr).
  do 3 (etrans; [eassumption|]). etrans; [eassumption|]. destruct released; [by simplify_eq|]. unfold second_part in Hr.
  do 2 (apply outcome_bind_inv in Hr as (? & ?%send_message_same & Hr)).
  apply outcome_bind_inv in Hr as ([? ep7] & ?%send_tone_same & Hr).
  apply outcome_bind_inv in Hr as (? & ?%send_audio_same & Hr).
  apply outcome_bind_inv in Hr as (? & ?%send_message_same & Hr). simplify_eq.
  do 4 (etrans; [eassumption|]). eassumption.
Qed.

(** ** Properties *)

Section properties.
Context `{JsonCodec}.
Variable show_addr : ControllerTransport.SocketAddr → string.
Variable sin : f64 → f64.

(** The endpoint's transport once its audio and clock sockets are bound. *)
Definition bound_config (p : EndpointParams) (id : string) (probed : option Z) (audio_port clock_port : Z) : EndpointConfig :=
  let c := endpoint_config p id probed in
  mkEndpointConfig (cfg_endpoint_id c) (cfg_endpoint_name c) (cfg_capabilities c) audio_port clock_port
    (cfg_buffer_size_ms c) (cfg_defer_format_accept c).

(** Nothing stands between the two programs: the search hears the endpoint's
    service first, the connection is made, and what the controller reads is
    what the endpoint's session writes, cut in whatever way. *)
Record reaches (su : Surroundings) (tls : bool) (rs : ResolvedService) (addr : ControllerTransport.SocketAddr) (written_frames : list Z) : Prop := {
  re_mdns : su_mdns su = true;
  re_heard : ∃ turns rest, su_browse su = Some turns ∧ heard turns = rs :: rest;
  re_tcp : su_tcp su addr = Some (Ok ());
  re_tls : tls = true → su_tls su addr = Ok ();
  re_chunks : Forall (λ d, d ≠ []) (su_reads su addr);
  re_stream : concat (su_reads su addr) = written_frames
}.

Lemma find_first_first turns rs rest de :
  heard turns = rs :: rest → parse_endpoint rs = Some de → find_first (Some turns) = Some de.
Proof.
  intros Hh Hde. destruct (searches_agree (Some turns)) as [Hall Hfirst]. rewrite Hfirst, Hall. cbn [from_option id].
  rewrite Hh. cbn. by rewrite Hde.
Qed.

(** A connection to an endpoint whose acknowledgement arrives. *)
Lemma connect_acknowledged su config addr ack :
  su_tcp su addr = Some (Ok ()) → (cc_tls config = true → su_tls su addr = Ok ()) →
  json_faithful (MHelloAck ack) → len (to_vec (MHelloAck ack)) ≤ MAX_FRAME_SIZE → ack_protocol_version ack = PROTOCOL_VERSION →
  Forall (λ d, d ≠ []) (su_reads su addr) → concat (su_reads su addr) = encode_framed (MHelloAck ack) →
  dial show_addr su config addr =
  Some (Ok (mkConnected ack [hello_message config] true (fst addr, ack_audio_port ack) (fst addr, ack_clock_port ack)
              [] ClockState_new 0 true)).
Proof.
  intros Htcp Htls Hj Hl Hv Hne Hcat. unfold dial, connect_with_time_source. rewrite Htcp.
  assert (handshake config addr (su_reads su addr) =
    Some (Ok (mkConnected ack [hello_message config] true (fst addr, ack_audio_port ack) (fst addr, ack_clock_port ack)
              [] ClockState_new 0 true, FrameCodec_new))) as Hh.
  { unfold handshake. rewrite (read_hello_ack_frame ack); [by rewrite Hv|done|done|done| |done].
    intros E. rewrite E in Hcat. unfold encode_framed in Hcat. apply (f_equal length) in Hcat.
    rewrite length_app, to_be_bytes_length in Hcat. cbn in Hcat. lia. }
  destruct (cc_tls config) eqn:Et; [rewrite Htls by done|]; by rewrite Hh.
Qed.

(** C2 From nothing but the network to sound: a controller started without an
    address finds a started endpoint by the service it registered, its Hello
    is accepted, it reads the endpoint's acknowledgement however cut, and
    streams both tones; all of it goes to the audio port the endpoint bound,
    the endpoint's receive loop delivers exactly the two tones, in order,
    without a gap, and the format proposed is one the endpoint accepts when it
    announces at least 44.1 kHz and 16 bits. *)
Theorem started_endpoint_plays p id actual_port probed version hostname ip_probe rs audio_port clk_port
    su name freq freq_text duration tls s outs clock t :
  let ip := detect_local_ip ip_probe in
  let addr := (ipv4_number ip, actual_port) in
  let cfg := bound_config p id probed audio_port clk_port in
  let hello := mkHello PROTOCOL_VERSION (su_uuid su) name (clock_port su) [FEATURE_ENDPOINT_RELEASE] in
  let total := TONE_RATE * duration in
  params_wf p probed → resolves ip (register (announcement p id actual_port probed version) hostname ip_probe) rs →
  hello_ok hello → session_step cfg session_start (TcpRead (codec_encode (MHello hello)) t) = Some (Running s, outs) →
  Forall (λ m, json_faithful m ∧ len (to_vec m) ≤ MAX_FRAME_SIZE) (written outs) →
  reaches su tls rs addr (concat (codec_encode <$> written outs)) →
  tone_bounded duration → Forall (λ r, r = false) (su_releases su) →
  controller_handles_release s = true ∧
  events outs = [EvConnected (su_uuid su) name] ∧
  ∃ ep pkts clock',
    controller_tone show_addr sin su name None freq freq_text duration tls = Ret (ToneSent false ep) ∧
    ack_endpoint_id (ep_info ep) = id ∧ ack_endpoint_name (ep_info ep) = ep_name p ∧
    ep_sent ep = MHello hello :: opening_messages freq_text duration ++ gapless_messages ∧
    ep_audio_target ep = (ipv4_number ip, audio_port) ∧ ep_audio_sent ep = datagram_of <$> pkts ∧
    audio_run FecReceiver_new clock (ep_audio_sent ep) = Ret (packet_event <$> pkts, FecReceiver_new, clock') ∧
    concat (snd <$> pkts) = tone_payload sin freq 0 total ++ tone_payload sin FREQ2 total (TONE_RATE * DURATION2) ∧
    (44100 ≤ cc_pcm_max_rate (ep_caps p) → 16 ≤ cc_pcm_max_bits (ep_caps p) →
     ∀ fp, MFormatPropose fp ∈ ep_sent ep →
     negotiate_format (cfg_capabilities cfg) fp = MFormatAccept (mkFormatAccept (fp_stream_id fp))).
Proof.
  intros ip addr cfg hello total Hwf Hrs Hok Hs Hframes [Hmdns (turns & rest & Hbrowse & Hheard) Htcp Htls Hne Hcat] Hb Hrel.
  rewrite (hello_read cfg hello t Hok) in Hs. simplify_eq. split; [done|]. split; [done|].
  set (ack := mkHelloAck PROTOCOL_VERSION id (ep_name p) (hello_capabilities p probed) audio_port clk_port 1000 [FEATURE_ENDPOINT_RELEASE]).
  assert (written (greeting cfg hello) = [MHelloAck ack]) as Hw by done. rewrite Hw in *. cbn [fmap list_fmap concat] in Hcat. rewrite app_nil_r in Hcat.
  apply Forall_cons in Hframes as [[Hj Hl] _].
  pose proof (connect_acknowledged su (tone_config su name tls) addr ack Htcp Htls Hj Hl eq_refl Hne Hcat) as Hconn.
  set (ep0 := mkConnected _ _ _ _ _ _ _ _ _) in Hconn.
  destruct (bootstrap_keeps ep0 (su_exchanges su addr)) as [c Hc].
  destruct (gapless_tones sin (with_clock ep0 c) freq freq_text duration (su_now su) (su_releases su) clock) as
    (ep & pkts & clock' & Hrun & Hsent & Haudio & Hloop & Hpay & _); [done|by split|done|done|].
  pose proof (run_controller_same _ _ _ _ _ _ _ _ _ Hrun) as [Hinfo Htarget].
  exists ep, pkts, clock'. cbn [with_clock ep0 ep_sent ep_audio_sent ep_info ep_audio_target app] in *. rewrite Hinfo. split_and!; try done.
  - unfold controller_tone, on_endpoint, target_addr. rewrite Hmdns, Hbrowse.
    rewrite (find_first_first turns rs rest _ Hheard (parse_announced (announcement p id actual_port probed version) _ _ _
      (mdns_capabilities_wf _ _ Hwf) (pw_channels _ _ Hwf) Hrs)).
    cbn [fmap option_fmap option_map outcome_bind de_addr announced_as fst snd announcement an_port]. change (detect_local_ip ip_probe) with ip. fold addr.
    rewrite Hconn, Hc. change (with_clock ep0 c) with (with_clock ep0 c) in Hrun. rewrite Hrun. done.
  - by rewrite Haudio.
  - intros Hrate Hbits fp Hfp. rewrite Hsent in Hfp. unfold opening_messages, gapless_messages in Hfp. cbn [app] in Hfp.
    assert (fp = mkFormatPropose "sine-demo" PcmS16le TONE_RATE 2 Stereo 16 None) as ->.
    { repeat (apply elem_of_cons in Hfp as [Hfp|Hfp]; [by simplify_eq|]). by apply elem_of_nil in Hfp. }
    unfold negotiate_format, cfg. cbn -[Z.leb announced_formats]. rewrite bool_decide_eq_true_2
      by (apply announced_formats_spec; left; left). cbn -[Z.leb]. unfold TONE_RATE. rewrite !(proj2 (Z.leb_le _ _)) by lia. done.
Qed.

(** The signal arms stop the output but fire no hook: a program stopped while
    it plays leaves the hook script at "start". *)
Theorem shutdown_without_stop_hook `{AudioBackend} hv a dev ins removable pid_file :
  let '(s, outs) := app_run hv (app_new a dev) ins in
  app_output_in_use s = true →
  hook_run false (hooks_of outs) = Some true ∧ app_output_in_use (on_signal s removable pid_file).1 = true.
Proof.
  pose proof (keeps_hooks_run hv (app_new a dev) ins) as Hk. unfold keeps_hooks in Hk. destruct (app_run _ _ _) as [s outs].
  cbn in *. intros Hu. by rewrite Hu in Hk.
Qed.

(** The PID file of a daemon names it while it runs and is gone after it; but a
    configuration that is refused leaves it behind, and an endpoint in the
    foreground removes a daemon's. *)
Theorem pid_file_fate `{AudioBackend} args cfg e hostname detected pid s pid_file :
  let daemon := mkArgs (arg_name args) (arg_port args) (arg_config args) true (arg_audio_device args) (arg_tls args)
                  (arg_no_web_ui args) (arg_web_port args) (arg_dsd args) in
  (start_endpoint daemon false (Ok cfg) hostname detected pid true pid_file).2 = Some pid ∧
  end_endpoint (endpoint_params daemon cfg hostname detected) true (on_signal s true (Some pid)).2 = None ∧
  start_endpoint daemon false (Err e) hostname detected pid true None = (ConfigRefused e, Some pid) ∧
  (arg_daemon args = false →
   (start_endpoint args false (Ok cfg) hostname detected pid true pid_file).2 = pid_file ∧ (on_signal s true pid_file).2 = None).
Proof. cbn. split_and!; try done. by intros ->. Qed.

End properties.

(** ** Witness

    The endpoint of the default configuration, on a network where it is the
    only one. *)

Definition demo_controller : Hello := mkHello PROTOCOL_VERSION "c-1" "Desk" 9742 [FEATURE_ENDPOINT_RELEASE].
Definition demo_ack : HelloAck :=
  mkHelloAck PROTOCOL_VERSION "kitchen-1" (ep_name demo_params) (hello_capabilities demo_params None) 50001 50002 1000
    [FEATURE_ENDPOINT_RELEASE].

Definition greeting_json : JsonCodec := {|
  to_vec m := match m with MHello _ => [1] | MHelloAck _ => [2] | _ => [0] end;
  from_slice l :=
    match l with
    | [1] => Ok (MHello demo_controller)
    | [2] => Ok (MHelloAck demo_ack)
    | _ => Err "expected value"%string
    end
|}.

Definition demo_launched : ServiceInfo :=
  register (announcement demo_params "kitchen-1" 9740 None "0.1.0") "pi" (Some (192, 168, 1, 20)).
Definition demo_heard : ResolvedService :=
  mkResolved [(192, 168, 1, 20)] 9740 "Kitchen._oaat._tcp.local." (λ key, prop_get key (si_props demo_launched)).

Definition demo_surroundings : Surroundings :=
  mkSurroundings true (Some [Received OtherEvent; Received (ServiceResolved demo_heard)])
    (λ _, Some (Ok ())) (λ _, Ok ()) (λ _, [[0; 0]; [0; 1; 2]]) (λ _, []) (Some 9742, None) [] [] 1000 (λ _, None) "c-1".

Lemma started_endpoint_plays_witness :
  ∃ ep pkts clock',
    @controller_tone greeting_json (λ _, "192.168.1.20:9740"%string) (λ x, x) demo_surroundings "Desk" None (f64_of_Z 440) "440" 1 true
      = Ret (ToneSent false ep) ∧
    ep_audio_target ep = (3232235796, 50001) ∧
    audio_run FecReceiver_new SharedClock_new (ep_audio_sent ep) = Ret (packet_event <$> pkts, FecReceiver_new, clock').
Proof.
  destruct (@started_endpoint_plays greeting_json (λ _, "192.168.1.20:9740"%string) (λ x, x) demo_params "kitchen-1" 9740 None "0.1.0" "pi"
    (Some (192, 168, 1, 20)) demo_heard 50001 50002 demo_surroundings "Desk" (f64_of_Z 440) "440" 1 true (greeted demo_controller)
    (@greeting (bound_config demo_params "kitchen-1" None 50001 50002) demo_controller) SharedClock_new 5)
    as (_ & _ & ep & pkts & clock' & Hrun & _ & _ & _ & Htarget & _ & Hloop & _).
  - by split.
  - by split.
  - split; [split; [done|by repeat constructor]|done].
  - by vm_compute.
  - repeat constructor; done.
  - split; try done; [by eexists _, []|by repeat constructor].
  - by vm_compute.
  - constructor.
  - exists ep, pkts, clock'. split; [exact Hrun|]. split; [exact Htarget|exact Hloop].
Defined.
