(* ===== verification/WebServer.v ===== *)
(** * The web server

    Models the server of [crates/oaat-endpoint/src/web_ui.rs]
    ([start_web_ui_with_token], [serve_web_ui], [BridgeStatusHandle]) around
    the request handler of [WebUi], concurrently with the event loop of
    [Bridge]: the listener, the task of each connection with its policy, and a
    handler that waits for room in a channel of the event loop.  A run is any
    sequence of the turns of these tasks. *)

From S2P Require Import Prelude Format Session Wire Message Codec Float Clock Sync Negotiate EndpointTransport Text WebUi Flac Alsa AlsaOutput AudioOutput App Startup Bridge.

Local Open Scope Z_scope.

Section web_server.
Context `{B : AudioBackend} {R : ReportsDevice B}.
Context (device_of_body : list Z → option string) (hardware_volume : bool) (params : EndpointParams).

Abbreviation bstep := (bridge_step device_of_body hardware_volume).
Abbreviation brun := (bridge_run device_of_body hardware_volume).

(** The task of a connection; [cn_sending] is the request it is at work on, the
    commands still to send for it, and the response then. *)
Record WebConnection := mkWebConnection {
  cn_policy : ControlPolicy;
  cn_sending : option (Request * list WebCommand * Response)
}.

(** A connection that is closed leaves its place empty. *)
Record Web := mkWeb {
  wb_listening : bool;
  wb_connections : list (option WebConnection);
  wb_bridge : Bridge
}.

(** [start_web_ui_with_token]: without the port the program goes on without
    the page. *)
Definition start_web_ui (bound : bool) (b : Bridge) : Web := mkWeb (ep_web_ui params && bound) [] b.

Inductive WebInput :=
(** [listener.accept()], with [stream.local_addr()] *)
| Accepts (local : option SocketAddr) (peer : SocketAddr)
| AcceptFails
(** a request on a connection, [send] of a command of it, and its end *)
| Requests (c : nat) (req : Request)
| Sends (c : nat)
| Closes (c : nat)
(** the event loop *)
| Turn (i : AppInput) (w : World).

(** The responses written, and the turns of [Bridge] completed. *)
Record WebDone := mkDone {
  wd_outputs : list AppOutput;
  wd_responses : list (nat * Response);
  wd_turns : list BridgeInput
}.

Definition nothing : WebDone := mkDone [] [] [].
Definition and_then (d e : WebDone) : WebDone :=
  mkDone (wd_outputs d ++ wd_outputs e) (wd_responses d ++ wd_responses e) (wd_turns d ++ wd_turns e).

Definition accept_connection (s : Web) (local : option SocketAddr) (peer : SocketAddr) : Web :=
  match local with
  | Some local =>
      mkWeb (wb_listening s) (wb_connections s ++ [Some (mkWebConnection (mkPolicy local peer (ep_control_token params)) None)])
        (wb_bridge s)
  | None => s
  end.

Definition set_connection (s : Web) (c : nat) (cn : option WebConnection) (b : Bridge) : Web :=
  mkWeb (wb_listening s) (<[c := cn]> (wb_connections s)) b.

(** [handle_request], up to the first command it sends. *)
Definition serve_request (s : Web) (c : nat) (req : Request) : option (Web * WebDone) :=
  match wb_connections s !! c with
  | Some (Some (mkWebConnection policy None)) =>
      match handle_request device_of_body req (br_status (wb_bridge s)) true (Some true) policy with
      | (response, []) => Some (s, mkDone [] [(c, response)] [Http req policy])
      | (response, commands) => Some (set_connection s c (Some (mkWebConnection policy (Some (req, commands, response)))) (wb_bridge s), nothing)
      end
  | _ => None
  end.

(** [device_switch_tx.send(..).await] and [tx.send(()).await]. *)
Definition send_command (s : Web) (c : nat) : option (Web * WebDone) :=
  match wb_connections s !! c with
  | Some (Some (mkWebConnection policy (Some (req, command :: rest, response)))) =>
      match queue_command (wb_bridge s) command with
      | Some b =>
          match rest with
          | [] => Some (set_connection s c (Some (mkWebConnection policy None)) b, mkDone [] [(c, response)] [Http req policy])
          | _ :: _ => Some (set_connection s c (Some (mkWebConnection policy (Some (req, rest, response)))) b, nothing)
          end
      | None => None
      end
  | _ => None
  end.

Definition web_step (s : Web) (i : WebInput) : option (Web * WebDone) :=
  match i with
  | Accepts local peer => if wb_listening s then Some (accept_connection s local peer, nothing) else None
  | AcceptFails => if wb_listening s then Some (s, nothing) else None
  | Requests c req => serve_request s c req
  | Sends c => send_command s c
  | Closes c =>
      match wb_connections s !! c with
      | Some (Some _) => Some (set_connection s c None (wb_bridge s), nothing)
      | _ => None
      end
  | Turn i w =>
      match bstep (wb_bridge s) (Loop i w) with
      | Some (b, outs, _) => Some (mkWeb (wb_listening s) (wb_connections s) b, mkDone outs [] [Loop i w])
      | None => None
      end
  end.

Fixpoint web_run (s : Web) (ins : list WebInput) : option (Web * WebDone) :=
  match ins with
  | [] => Some (s, nothing)
  | i :: ins =>
      match web_step s i with
      | Some (s, d) => match web_run s ins with Some (s, e) => Some (s, and_then d e) | None => None end
      | None => None
      end
  end.

(** ** Lemmas *)

Lemma one_command req st p : (length (handle_request device_of_body req st true (Some true) p).2 ≤ 1)%nat.
Proof. unfold handle_request. repeat case_match; cbn; lia. Qed.

(** The policy of a connection is that of a peer that was accepted. *)
Definition accepted_policy (ins : list WebInput) (p : ControlPolicy) : Prop :=
  Accepts (Some (cp_local p)) (cp_peer p) ∈ ins ∧ cp_token p = ep_control_token params.

Definition connection_ok (ins : list WebInput) (cn : option WebConnection) : Prop :=
  match cn with
  | None => True
  | Some cn =>
      accepted_policy ins (cn_policy cn) ∧
      match cn_sending cn with
      | None => True
      | Some (req, commands, _) =>
          commands ≠ [] ∧ commands = (handle_request device_of_body req no_status true (Some true) (cn_policy cn)).2
      end
  end.

Record web_inv (b : Bridge) (ins : list WebInput) (s : Web) (d : WebDone) : Prop := {
  wi_bridge : brun b (wd_turns d) = Some (wb_bridge s, wd_outputs d);
  wi_connections : Forall (connection_ok ins) (wb_connections s);
  wi_policies req p : Http req p ∈ wd_turns d → accepted_policy ins p;
  wi_closed : wb_listening s = false → wb_connections s = []
}.

Lemma and_then_nothing d : and_then d nothing = d.
Proof. destruct d. unfold and_then. cbn. by rewrite !app_nil_r. Qed.

Lemma connection_ok_more ins i cn : connection_ok ins cn → connection_ok (ins ++ [i]) cn.
Proof.
  destruct cn as [[p s]|]; [|done]. cbn. intros [[Ha Ht] Hs]. split; [|done]. split; [|done]. apply elem_of_app. by left.
Qed.

Lemma policy_more ins i p : accepted_policy ins p → accepted_policy (ins ++ [i]) p.
Proof. intros [Ha Ht]. split; [|done]. apply elem_of_app. by left. Qed.

(** A turn of [Bridge] completed by a connection. *)
Lemma inv_completes b ins i s d s' c req p response o :
  web_inv b ins s d → accepted_policy ins p → bstep (wb_bridge s) (Http req p) = Some (wb_bridge s', [], o) →
  wb_listening s' = wb_listening s → Forall (connection_ok (ins ++ [i])) (wb_connections s') →
  (wb_listening s = false → wb_connections s' = []) →
  web_inv b (ins ++ [i]) s' (and_then d (mkDone [] [(c, response)] [Http req p])).
Proof.
  intros [Hb Hc Hp Hl] Hacc Hs Hlis Hconn Hcl. split; cbn [wd_turns wd_outputs and_then].
  - rewrite app_nil_r. pose proof (bridge_run_snoc _ _ _ _ _ _ _ _ _ _ Hb Hs) as Hr. by rewrite app_nil_r in Hr.
  - done.
  - intros req' p' [Hin|Hin]%elem_of_app; [by apply policy_more, (Hp req')|].
    apply list_elem_of_singleton in Hin. simplify_eq. by apply policy_more.
  - by rewrite Hlis.
Qed.

Lemma inv_web_step b ins i s d s' e : web_inv b ins s d → web_step s i = Some (s', e) → web_inv b (ins ++ [i]) s' (and_then d e).
Proof.
  intros Hinv. pose proof Hinv as [Hb Hc Hp Hl].
  assert (Forall (connection_ok (ins ++ [i])) (wb_connections s)) as Hc' by (eapply Forall_impl; [exact Hc|apply connection_ok_more]).
  assert (∀ c cn, wb_connections s !! c = Some cn → wb_listening s = false → False) as Hnone
    by (intros c cn Hcn Hf; by rewrite (Hl Hf), lookup_nil in Hcn).
  destruct i as [[local|] peer| |c req|c|c|i w]; cbn [web_step accept_connection]; intros Hs.
  - destruct (wb_listening s) eqn:El; [|done]. injection Hs as <- <-. rewrite and_then_nothing.
    split; cbn [wb_bridge wb_connections wb_listening accept_connection]; [done| |intros; by eapply policy_more, Hp|intros ?; congruence].
    apply Forall_app. split; [done|]. apply Forall_singleton. split; [split; [|done]|done]. apply elem_of_app. right. left.
  - destruct (wb_listening s) eqn:El; [|done]. injection Hs as <- <-. rewrite and_then_nothing. split; [done|done|intros; by eapply policy_more, Hp|intros ?; congruence].
  - destruct (wb_listening s) eqn:El; [|done]. injection Hs as <- <-. rewrite and_then_nothing. split; [done|done|intros; by eapply policy_more, Hp|intros ?; congruence].
  - unfold serve_request in Hs. destruct (wb_connections s !! c) as [[[p [?|]]|]|] eqn:Ec; try done.
    pose proof (proj1 (Forall_lookup _ _) Hc _ _ Ec) as [Hacc _]. cbn [cn_policy] in Hacc.
    pose proof (handle_request_commands device_of_body req (br_status (wb_bridge s)) no_status p) as Hcmd.
    destruct (handle_request _ _ _ _ _ _) as [response cs] eqn:Eh. cbn [snd] in Hcmd. destruct cs as [|cmd cs]; injection Hs as <- <-.
    + apply (inv_completes b ins _ s d s c req p response (Some response)); [done|done| |done|done|by apply Hl].
      cbn [bridge_step]. by rewrite Eh.
    + rewrite and_then_nothing. split; cbn [wb_bridge wb_connections wb_listening set_connection];
        [done| |intros; by eapply policy_more, Hp|intros; by eapply Hnone in Ec].
      apply Forall_insert; [done|]. split; [by apply policy_more|done].
  - unfold send_command in Hs. destruct (wb_connections s !! c) as [[[p [[[req [|cmd rest]] response]|]]|]|] eqn:Ec; try done.
    destruct (queue_command (wb_bridge s) cmd) as [b'|] eqn:Eq; [|done].
    pose proof (proj1 (Forall_lookup _ _) Hc _ _ Ec) as [Hacc [_ Hcmd]]. cbn [cn_policy cn_sending] in *.
    pose proof (one_command req no_status p) as Hone. rewrite <- Hcmd in Hone. destruct rest; [|cbn in Hone; lia]. injection Hs as <- <-.
    apply (inv_completes b ins _ s d _ c req p response (Some (handle_request device_of_body req (br_status (wb_bridge s)) true (Some true) p).1));
      [done|done| |done| |intros; by eapply Hnone in Ec].
    + cbn [bridge_step]. pose proof (handle_request_commands device_of_body req (br_status (wb_bridge s)) no_status p) as Hst.
      destruct (handle_request _ _ (br_status _) _ _ _) as [response' cs]. cbn [snd fst] in *. rewrite Hst, <- Hcmd.
      cbn [queue_commands]. by rewrite Eq.
    + apply Forall_insert; [done|]. split; [by apply policy_more|done].
  - destruct (wb_connections s !! c) as [[cn|]|] eqn:Ec; [|done..]. injection Hs as <- <-. rewrite and_then_nothing.
    split; cbn [wb_bridge wb_connections wb_listening set_connection];
      [done| |intros; by eapply policy_more, Hp|intros; by eapply Hnone in Ec]. by apply Forall_insert.
  - destruct (bstep (wb_bridge s) (Loop i w)) as [[[b' outs] o]|] eqn:Eb; [|done]. injection Hs as <- <-.
    split; cbn [wd_turns wd_outputs and_then wb_bridge wb_connections wb_listening]; [by eapply bridge_run_snoc|done| |done].
    intros req p [Hin|Hin]%elem_of_app; [by eapply policy_more, Hp|]. by apply list_elem_of_singleton in Hin.
Qed.

Lemma and_then_assoc d e f : and_then (and_then d e) f = and_then d (and_then e f).
Proof. unfold and_then. cbn. by rewrite <- !(assoc_L (++)). Qed.

Lemma inv_web_run b ins ins' s d s' e : web_inv b ins s d → web_run s ins' = Some (s', e) → web_inv b (ins ++ ins') s' (and_then d e).
Proof.
  revert ins s d e. induction ins' as [|i ins' IH]; intros ins s d e Hinv Hr; cbn [web_run] in Hr.
  { simplify_eq. by rewrite app_nil_r, and_then_nothing. }
  destruct (web_step s i) as [[s1 d1]|] eqn:Es; [|done]. destruct (web_run s1 ins') as [[s2 d2]|] eqn:Er; [|done]. simplify_eq.
  replace (ins ++ i :: ins') with ((ins ++ [i]) ++ ins') by by rewrite <- (assoc_L (++)).
  rewrite <- and_then_assoc. eapply IH; [|exact Er]. by eapply inv_web_step.
Qed.

Lemma run_web_inv bound b ins s d : web_run (start_web_ui bound b) ins = Some (s, d) → web_inv b ins s d.
Proof.
  intros Hr. assert (web_inv b [] (start_web_ui bound b) nothing) as Hi.
  { split; [done|constructor|intros ? ? Hin; by apply elem_of_nil in Hin|done]. }
  pose proof (inv_web_run _ _ _ _ _ _ _ Hi Hr) as Hinv. unfold and_then, nothing in Hinv. cbn in Hinv. by destruct d.
Qed.

Lemma step_listening s i s' d : web_step s i = Some (s', d) → wb_listening s' = wb_listening s.
Proof.
  destruct i as [[?|] ?| | | | |]; cbn [web_step]; unfold serve_request, send_command; intros Hs; repeat case_match; simplify_eq; done.
Qed.

Lemma not_listening s ins s' d local peer :
  web_run s ins = Some (s', d) → wb_listening s = false → Accepts local peer ∈ ins → False.
Proof.
  revert s d. induction ins as [|i ins IH]; intros s d Hr Hl Hin; [by apply elem_of_nil in Hin|]. cbn [web_run] in Hr.
  destruct (web_step s i) as [[s1 d1]|] eqn:Es; [|done]. destruct (web_run s1 ins) as [[s2 d2]|] eqn:Er; [|done]. simplify_eq.
  apply elem_of_cons in Hin as [<-|Hin].
  - cbn [web_step] in Es. by rewrite Hl in Es.
  - apply (IH _ _ Er); [|done]. by rewrite (step_listening _ _ _ _ Es).
Qed.

(** ** Properties *)

(** The web server adds nothing to the program but who asks: in every run of
    its listener, its connections and the event loop, however these interleave
    and however long a request waits for room in a channel, the event loop goes
    through a run of the program with its web requests, each request in it came
    over a connection that was accepted, with the addresses of that connection
    and the configured token; and if the page is switched off or its port is
    taken there are none. *)
Theorem web_server_refines bound b ins s d :
  web_run (start_web_ui bound b) ins = Some (s, d) →
  brun b (wd_turns d) = Some (wb_bridge s, wd_outputs d) ∧
  (∀ req p, Http req p ∈ wd_turns d → Accepts (Some (cp_local p)) (cp_peer p) ∈ ins ∧ cp_token p = ep_control_token params) ∧
  (ep_web_ui params && bound = false → ∀ req p, Http req p ∉ wd_turns d).
Proof.
  intros Hr. pose proof (run_web_inv _ _ _ _ _ Hr) as [Hb _ Hp _]. split; [done|]. split; [exact Hp|].
  intros Hoff req p Hin. destruct (Hp _ _ Hin) as [Hacc _]. by eapply not_listening in Hr.
Qed.

(** C27 Without a token only this host controls the endpoint: when the event loop
    of a run switches the device or gives up the output for the web interface,
    a connection from a loopback address was accepted in that run; with a token
    it was a request that carries it. *)
Theorem only_this_host_controls bound a devices version ins s d :
  web_run (start_web_ui bound (bridge_start a params devices version)) ins = Some (s, d) →
  switches_taken (wd_turns d) ≠ [] ∨ releases_taken (wd_turns d) ≠ O →
  match ep_control_token params with
  | None => ∃ local peer, Accepts (Some local) peer ∈ ins ∧ is_loopback (sa_ip peer) = true
  | Some token => ∃ req p, Http req p ∈ wd_turns d ∧ get_all req "authorization" = [Some ("Bearer " ++ token)%string]
  end.
Proof.
  intros Hr Htaken. pose proof (run_web_inv _ _ _ _ _ Hr) as [Hb _ Hp _].
  destruct (taken_requested _ _ _ _ _ _ _ _ _ Hb Htaken) as (req & p & Hin & _ & [_ _ Hwho]).
  destruct (Hp _ _ Hin) as [Hacc Htok]. rewrite Htok in Hwho. destruct (ep_control_token params) as [t|]; [|by eauto].
  destruct Hwho as [_ Hauth]. eauto.
Qed.

(** Nobody waits for another's command: whatever the other connections wait
    for, a connection that waits for nothing is served the page at once; and a
    command that waits is sent as soon as the event loop has made room. *)
Theorem web_server_never_blocked s c p req :
  wb_connections s !! c = Some (Some (mkWebConnection p None)) → req_method req = "GET"%string →
  ∃ response, web_step s (Requests c req) = Some (s, mkDone [] [(c, response)] [Http req p]).
Proof.
  intros Hc Hm. cbn [web_step]. unfold serve_request. rewrite Hc.
  destruct (handle_request _ _ _ _ _ _) as [response cs] eqn:E. exists response.
  assert (cs = []) as ->; [|done]. destruct cs as [|cmd cs]; [done|].
  assert ((handle_request device_of_body req (br_status (wb_bridge s)) true (Some true) p).2 ≠ []) as Hne by by rewrite E.
  apply commands_authorized in Hne as [Hpost _]. congruence.
Qed.

End web_server.

(** ** Witnesses

    A connection from this host switches the device while one from the network
    is refused. *)

#[local] Existing Instance App.no_flac.

Definition lan_peer : SocketAddr := mkAddr (V4 192 168 1 9) 50001 0.

Definition demo_web_inputs : list WebInput :=
  [Accepts (Some (cp_local demo_policy)) (cp_peer demo_policy); Accepts (Some (cp_local demo_policy)) lan_peer; AcceptFails;
   Requests 0 (demo_post "/api/device"); Requests 1 (demo_post "/api/release"); Sends 0; Closes 1;
   Turn (DeviceSwitch "hw:1") pi_world].

Definition demo_web : @Web alsa_backend * WebDone :=
  match web_run (B := alsa_backend) demo_device_of_body false bridge_params
          (start_web_ui (B := alsa_backend) bridge_params true demo_bridge) demo_web_inputs with
  | Some r => r
  | None => (start_web_ui (B := alsa_backend) bridge_params true demo_bridge, nothing)
  end.

Lemma demo_web_runs :
  web_run (B := alsa_backend) demo_device_of_body false bridge_params
    (start_web_ui (B := alsa_backend) bridge_params true demo_bridge) demo_web_inputs = Some (demo_web.1, demo_web.2).
Proof. reflexivity. Qed.

Lemma web_server_refines_witness :
  bridge_run demo_device_of_body false demo_bridge (wd_turns demo_web.2) = Some (wb_bridge demo_web.1, wd_outputs demo_web.2) ∧
  wd_turns demo_web.2 =
    [Http (demo_post "/api/release") (mkPolicy (cp_local demo_policy) lan_peer None); Http (demo_post "/api/device") demo_policy;
     Loop (DeviceSwitch "hw:1") pi_world] ∧
  (λ r, resp_code r.2) <$> wd_responses demo_web.2 = [FORBIDDEN; OK].
Proof.
  split; [|split; reflexivity].
  apply (web_server_refines (B := alsa_backend) demo_device_of_body false bridge_params true demo_bridge demo_web_inputs
    demo_web.1 demo_web.2 demo_web_runs).
Defined.

Lemma only_this_host_controls_witness :
  switches_taken (wd_turns demo_web.2) = ["hw:1"%string] ∧
  ∃ local peer, Accepts (Some local) peer ∈ demo_web_inputs ∧ is_loopback (sa_ip peer) = true.
Proof.
  split; [reflexivity|].
  apply (only_this_host_controls (B := alsa_backend) demo_device_of_body false bridge_params true AlsaDirectOutput_new [] "0.1.0"
    demo_web_inputs demo_web.1 demo_web.2 demo_web_runs).
  left. discriminate.
Defined.
